(** * Builtin forward pipeline: a shallow embedding of
      [cocos/rendering/custom/builtin-forward-pipeline.ts]

    The file follows the source top to bottom: the CSM viewport helper, the
    light classifier [ForwardLighting], the capability snapshot and the
    camera policy, then the pipeline builder with its pass builders.

    Conventions of the embedding.
    - A JavaScript [number] that can hold a fraction (positions, scale
      factors, normalised viewports) is a finite double, held as the
      rational [Q] that it is exactly: 0.5 is [1 # 2], and 0.3 is
      [5404319552844595 # 18014398509481984], not [3 # 10].  A number that
      counts pixels is an integer [Z]; a number that counts objects or
      indexes a loop is a [nat].  [Math.floor] and [Math.trunc] are
      [Qfloor] and [Qtrunc].
    - A product or quotient of the source whose exact value need not be a
      double is rounded as IEEE 754 does, to the nearest double with ties
      to even ([js_mul], [js_div]): the shading-scale product, the camera
      viewport in pixels and the reciprocal texture sizes.  Arithmetic
      whose result is exact in doubles (an integer times 0.5, an integer
      halved, [1 - level]) is written on [Q] as it stands.  Infinities,
      [NaN] and overflow are not modelled.
    - An object that the code mutates (the classifier, the pipeline builder,
      the render graph under construction) is a record threaded through the
      calls.
    - Code of the engine that is imported by the file but lives elsewhere
      (geometry predicates, asset loading, editor hooks) is an interface. *)

From Stdlib Require Import List Bool Arith ZArith QArith Qround Lia String Ascii.
From Stdlib Require Import Sorting.Sorted Sorting.Permutation.
From Stdlib Require Import DecimalString.
Import ListNotations.

Set Implicit Arguments.

Local Open Scope string_scope.
Local Open Scope list_scope.
Local Open Scope Z_scope.

(** String concatenation, as in a template literal. *)
Infix "+++" := String.append (at level 60, right associativity).

(* ================================================================== *)
(** ** Numbers and small vectors *)

Definition Qtrunc (q : Q) : Z := Z.quot (Qnum q) (Zpos (Qden q)).

(** Rounding to the nearest integer, ties to the even one. *)
Definition rne (x : Q) : Z :=
  let f := Qfloor x in
  match (x - inject_Z f ?= 1 # 2)%Q with
  | Lt => f
  | Gt => f + 1
  | Eq => if Z.even f then f else f + 1
  end.

(** The double nearest to a non-negative rational, in units of [2^-1074],
    the spacing of the subnormal doubles: a significand of at most 53 bits
    times a power of two. *)
Definition round_units (q : Q) : Z :=
  let x := (q * inject_Z (2 ^ 1074))%Q in
  let shift := Z.max 0 (Z.log2 (Qfloor x) - 52) in
  rne (x / inject_Z (2 ^ shift)) * 2 ^ shift.

Definition round64_pos (q : Q) : Q :=
  (inject_Z (round_units q) / inject_Z (2 ^ 1074))%Q.

(** The value of the double nearest to [q] (IEEE 754 binary64, round to
    nearest, ties to even). *)
Definition round64 (q : Q) : Q :=
  if Qle_bool 0 q then round64_pos q else (- round64_pos (- q))%Q.

(** [a * b] and [a / b] on two doubles.  Where the source divides, the
    divisor is a size of at least 1. *)
Definition js_mul (a b : Q) : Q := round64 (a * b).
Definition js_div (a b : Q) : Q := round64 (a / b).

Arguments js_mul : simpl never.
Arguments js_div : simpl never.
Arguments round64 : simpl never.

(** Template-literal printing of a non-negative integer, [`${i}`]. *)
Definition str_of_nat (n : nat) : string :=
  NilZero.string_of_uint (Nat.to_uint n).

Record Vec2 := mkVec2 { v2x : Z; v2y : Z }.
Record Vec3 := mkVec3 { v3x : Q; v3y : Q; v3z : Q }.
Record Vec4 := mkVec4 { v4x : Q; v4y : Q; v4z : Q; v4w : Q }.

(** Modelled from the spec: [Vec3.squaredDistance] of the core math module
    (not part of this file), the squared Euclidean distance of two points. *)
Definition squaredDistance (a b : Vec3) : Q :=
  let x := (v3x b - v3x a)%Q in
  let y := (v3y b - v3y a)%Q in
  let z := (v3z b - v3z a)%Q in
  (x * x + y * y + z * z)%Q.

(** [Viewport] and [Color] of [gfx/base/define]. *)
Record Viewport := mkViewport
  { vp_left : Z; vp_top : Z; vp_width : Z; vp_height : Z }.

Definition Color := Vec4.

(* ================================================================== *)
(** ** Geometry: bounding volumes and the culling predicates *)

Record Sphere := mkSphere { center : Vec3; radius : Q }.

Record AABB := mkAABB { aabb_center : Vec3; halfExtents : Vec3 }.

(** [Sphere.set(out, x, y, z, r)] overwrites every field of [out]. *)
Definition Sphere_set (out : Sphere) (x y z r : Q) : Sphere :=
  mkSphere (mkVec3 x y z) r.

(** [Material] of the asset module, as far as the file touches it. *)
Record Material (EffectAsset : Type) := mkMaterial
  { _uuid : string;
    effectAsset : option EffectAsset;
    properties : list (string * Vec4) }.

(** What the file imports from the rest of the engine and only calls:
    the intersection tests and the matrix transform of the geometry module,
    [Material.initialize] of the asset module, and the bit values
    of two [gfx] enumerations. *)
Class Engine := {
  Frustum : Type;
  Mat4 : Type;
  sphereFrustum : Sphere -> Frustum -> bool;
  aabbFrustum : AABB -> Frustum -> bool;
  (** [AABB.transform(out, a, m)] overwrites every field of [out]: the new
      contents of [out], from [a] and [m]. *)
  AABB_transform : AABB -> Mat4 -> AABB;
  (** The asset manager, as it is at the time of a call. *)
  AssetDB : Type;
  EffectAsset : Type;
  (** [material.initialize({ effectName })] *)
  Material_initialize :
    AssetDB -> Material EffectAsset -> string -> Material EffectAsset;
  (** [ClearFlagBit] and [FormatFeatureBit]. *)
  ClearFlagBit_COLOR : Z;
  ClearFlagBit_STENCIL : Z;
  ClearFlagBit_DEPTH_STENCIL : Z;
  FormatFeatureBit_SAMPLED_TEXTURE : Z;
  FormatFeatureBit_LINEAR_FILTER : Z
}.

(* ================================================================== *)
(** ** Lights and the render scene *)

Inductive LightType :=
  | DIRECTIONAL | SPHERE | SPOT | POINT | RANGED_DIRECTIONAL | UNKNOWN.

Inductive CSMLevel := LEVEL_1 | LEVEL_2 | LEVEL_3 | LEVEL_4.

Definition CSMLevel_value (l : CSMLevel) : nat :=
  match l with LEVEL_1 => 1 | LEVEL_2 => 2 | LEVEL_3 => 3 | LEVEL_4 => 4 end%nat.

Definition CSMLevel_eqb (a b : CSMLevel) : bool :=
  Nat.eqb (CSMLevel_value a) (CSMLevel_value b).

Record DirectionalLight := mkDirectionalLight
  { dir_shadowEnabled : bool;
    shadowFixedArea : bool;
    csmLevel : CSMLevel }.

Record SpotLight := mkSpotLight
  { spot_baked : bool;
    spot_position : Vec3;
    spot_range : Q;
    spot_shadowEnabled : bool }.

Record SphereLight := mkSphereLight
  { sphere_baked : bool;
    sphere_position : Vec3;
    sphere_range : Q }.

Record PointLight := mkPointLight
  { point_baked : bool;
    point_position : Vec3;
    point_range : Q }.

(* ================================================================== *)
(** ** [Array.prototype.sort] with a numeric comparator

    The language fixes the result for a consistent comparator: a stable
    sort in which [b] goes before [a] only when [compareFn(a, b) > 0].
    Insertion from the right is such a sort. *)

Section ArraySort.
Variable A : Type.
Variable compareFn : A -> A -> Q.

Fixpoint sort_insert (x : A) (l : list A) : list A :=
  match l with
  | [] => [x]
  | y :: l' =>
      if Qle_bool (compareFn x y) 0 then x :: y :: l'
      else y :: sort_insert x l'
  end.

Fixpoint Array_sort (l : list A) : list A :=
  match l with
  | [] => []
  | x :: l' => sort_insert x (Array_sort l')
  end.

End ArraySort.

(* ================================================================== *)
(** ** Enumerations of [gfx/base/define] and [./types] *)

Module Format.
Inductive t := R32F | RGBA8 | BGRA8 | RGBA16F | DEPTH_STENCIL.
End Format.

Module LoadOp.
Inductive t := LOAD | CLEAR | DISCARD.
End LoadOp.

Module StoreOp.
Inductive t := STORE | DISCARD.
End StoreOp.

Module QueueHint.
Inductive t := NONE | OPAQUE | BLEND.
End QueueHint.

Module SceneFlags.
Inductive flag := OPAQUE | MASK | BLEND | SHADOW_CASTER | UI | PROFILER.
(** A value of the bit set; [a | b] is [a ++ b]. *)
Definition t := list flag.
End SceneFlags.

(* ================================================================== *)
(** ** The embedding proper, over the engine interface *)

Section Pipeline.
Context {E : Engine}.

(** A ranged directional light is placed by its node's world matrix.  The
    [baked] flag is the one every [Light] inherits from the base class. *)
Record RangedDirectionalLight := mkRangedDirectionalLight
  { ranged_baked : bool;
    ranged_worldMatrix : Mat4 }.

(** [Light]: the base class, as the closed union of the classes that the
    scene stores in its four light arrays. *)
Inductive Light :=
  | OfSpot (l : SpotLight)
  | OfSphere (l : SphereLight)
  | OfPoint (l : PointLight)
  | OfRangedDir (l : RangedDirectionalLight).

Definition Light_type (l : Light) : LightType :=
  match l with
  | OfSpot _ => SPOT
  | OfSphere _ => SPHERE
  | OfPoint _ => POINT
  | OfRangedDir _ => RANGED_DIRECTIONAL
  end.

Definition Light_baked (l : Light) : bool :=
  match l with
  | OfSpot s => spot_baked s
  | OfSphere s => sphere_baked s
  | OfPoint p => point_baked p
  | OfRangedDir r => ranged_baked r
  end.

Record RenderScene := mkRenderScene
  { mainLight : option DirectionalLight;
    spotLights : list SpotLight;
    sphereLights : list SphereLight;
    pointLights : list PointLight;
    rangedDirLights : list RangedDirectionalLight }.

(** Every light of the scene, in the order [cullLights] visits them. *)
Definition scene_lights (scene : RenderScene) : list Light :=
  map OfSpot (spotLights scene) ++ map OfSphere (sphereLights scene)
  ++ map OfPoint (pointLights scene) ++ map OfRangedDir (rangedDirLights scene).

(* ================================================================== *)
(** ** [class ForwardLighting] *)

Record ForwardLighting := mkForwardLighting
  { lights : list Light;
    shadowEnabledSpotLights : list SpotLight;
    _sphere : Sphere;
    _boundingBox : AABB;
    _rangedDirLightBoundingBox : AABB }.

Definition zero3 : Vec3 := mkVec3 0 0 0.

(** The field initialisers of the class. *)
Definition ForwardLighting_new : ForwardLighting :=
  {| lights := [];
     shadowEnabledSpotLights := [];
     _sphere := mkSphere zero3 1;
     _boundingBox := mkAABB zero3 (mkVec3 1 1 1);
     _rangedDirLightBoundingBox :=
       mkAABB zero3 (mkVec3 (1#2) (1#2) (1#2)) |}.

Definition set_lights (fl : ForwardLighting) (v : list Light) :=
  {| lights := v;
     shadowEnabledSpotLights := shadowEnabledSpotLights fl;
     _sphere := _sphere fl;
     _boundingBox := _boundingBox fl;
     _rangedDirLightBoundingBox := _rangedDirLightBoundingBox fl |}.

Definition set_shadowEnabledSpotLights (fl : ForwardLighting)
    (v : list SpotLight) :=
  {| lights := lights fl;
     shadowEnabledSpotLights := v;
     _sphere := _sphere fl;
     _boundingBox := _boundingBox fl;
     _rangedDirLightBoundingBox := _rangedDirLightBoundingBox fl |}.

Definition set_sphere (fl : ForwardLighting) (s : Sphere) :=
  {| lights := lights fl;
     shadowEnabledSpotLights := shadowEnabledSpotLights fl;
     _sphere := s;
     _boundingBox := _boundingBox fl;
     _rangedDirLightBoundingBox := _rangedDirLightBoundingBox fl |}.

Definition set_boundingBox (fl : ForwardLighting) (b : AABB) :=
  {| lights := lights fl;
     shadowEnabledSpotLights := shadowEnabledSpotLights fl;
     _sphere := _sphere fl;
     _boundingBox := b;
     _rangedDirLightBoundingBox := _rangedDirLightBoundingBox fl |}.

(** [this.lights.push(l)] and [this.shadowEnabledSpotLights.push(l)]. *)
Definition push_light (fl : ForwardLighting) (l : Light) :=
  set_lights fl (lights fl ++ [l]).

Definition push_shadowSpot (fl : ForwardLighting) (l : SpotLight) :=
  set_shadowEnabledSpotLights fl (shadowEnabledSpotLights fl ++ [l]).

(** One iteration of each of the four loops of [cullLights]. *)
Definition cullSpotLight (frustum : Frustum)
    (fl : ForwardLighting) (light : SpotLight) : ForwardLighting :=
  if spot_baked light then fl
  else
    let p := spot_position light in
    let fl := set_sphere fl
                (Sphere_set (_sphere fl) (v3x p) (v3y p) (v3z p) (spot_range light)) in
    if sphereFrustum (_sphere fl) frustum then
      if spot_shadowEnabled light then push_shadowSpot fl light
      else push_light fl (OfSpot light)
    else fl.

Definition cullSphereLight (frustum : Frustum)
    (fl : ForwardLighting) (light : SphereLight) : ForwardLighting :=
  if sphere_baked light then fl
  else
    let p := sphere_position light in
    let fl := set_sphere fl
                (Sphere_set (_sphere fl) (v3x p) (v3y p) (v3z p) (sphere_range light)) in
    if sphereFrustum (_sphere fl) frustum then push_light fl (OfSphere light)
    else fl.

Definition cullPointLight (frustum : Frustum)
    (fl : ForwardLighting) (light : PointLight) : ForwardLighting :=
  if point_baked light then fl
  else
    let p := point_position light in
    let fl := set_sphere fl
                (Sphere_set (_sphere fl) (v3x p) (v3y p) (v3z p) (point_range light)) in
    if sphereFrustum (_sphere fl) frustum then push_light fl (OfPoint light)
    else fl.

Definition cullRangedDirLight (frustum : Frustum)
    (fl : ForwardLighting) (light : RangedDirectionalLight) : ForwardLighting :=
  let fl := set_boundingBox fl
              (AABB_transform (_rangedDirLightBoundingBox fl)
                 (ranged_worldMatrix light)) in
  if aabbFrustum (_boundingBox fl) frustum then push_light fl (OfRangedDir light)
  else fl.

(** [cullLights(scene, frustum, cameraPos?)]. *)
Definition cullLights (fl : ForwardLighting) (scene : RenderScene)
    (frustum : Frustum) (cameraPos : option Vec3) : ForwardLighting :=
  let fl := set_lights fl [] in
  let fl := set_shadowEnabledSpotLights fl [] in
  let fl := fold_left (cullSpotLight frustum) (spotLights scene) fl in
  let fl := fold_left (cullSphereLight frustum) (sphereLights scene) fl in
  let fl := fold_left (cullPointLight frustum) (pointLights scene) fl in
  let fl := fold_left (cullRangedDirLight frustum) (rangedDirLights scene) fl in
  match cameraPos with
  | Some cameraPos =>
      set_shadowEnabledSpotLights fl
        (Array_sort
           (fun lhs rhs =>
              (squaredDistance cameraPos (spot_position lhs)
               - squaredDistance cameraPos (spot_position rhs))%Q)
           (shadowEnabledSpotLights fl))
  | None => fl
  end.


(* ================================================================== *)
(** ** [getCsmMainLightViewport] *)

Definition half : Q := 1 # 2.

(** The quotient [level / 2] of two numbers, then [Math.floor]. *)
Definition floor_half (level : Z) : Z := Qfloor (inject_Z level / 2).

Definition getCsmMainLightViewport (light : DirectionalLight) (w h : Z)
    (level : Z) (vp : Viewport) (screenSpaceSignY : Z) : Viewport :=
  let vp :=
    if shadowFixedArea light || CSMLevel_eqb (csmLevel light) LEVEL_1 then
      mkViewport 0 0 (Qtrunc (inject_Z w)) (Qtrunc (inject_Z h))
    else
      mkViewport
        (Qtrunc (inject_Z (Z.rem level 2) * half * inject_Z w))
        (if 0 <? screenSpaceSignY
         then Qtrunc ((1 - inject_Z (floor_half level)) * half * inject_Z h)
         else Qtrunc (inject_Z (floor_half level) * half * inject_Z h))
        (Qtrunc (half * inject_Z w))
        (Qtrunc (half * inject_Z h)) in
  mkViewport (Z.max 0 (vp_left vp)) (Z.max 0 (vp_top vp))
             (Z.max 1 (vp_width vp)) (Z.max 1 (vp_height vp)).

(** The pixels of a viewport: column [px], row [py]. *)
Definition in_viewport (vp : Viewport) (px py : Z) : Prop :=
  vp_left vp <= px < vp_left vp + vp_width vp /\
  vp_top vp <= py < vp_top vp + vp_height vp.

(* ================================================================== *)
(** ** Pipeline settings, render window, camera *)

Record DepthOfField := mkDepthOfField
  { dof_enabled : bool;
    focusDistance : Q;
    focusRange : Q;
    bokehRadius : Q }.

(** [iterations] is a count of loop rounds, a natural number.  Any other
    JavaScript number there (a fraction, a negative number, [NaN]) is
    outside the model: the bloom builder then sets an array length that is
    not an integer, or runs a loop whose [i !== sizeCount] test never
    fails. *)
Record Bloom := mkBloom
  { bloom_enabled : bool;
    enableAlphaMask : bool;
    iterations : nat;
    threshold : Q }.

Record FXAA := mkFXAA { fxaa_enabled : bool }.

Record PipelineSettings := mkPipelineSettings
  { ps_enableShadingScale : bool;
    ps_shadingScale : Q;
    depthOfField : DepthOfField;
    bloom : Bloom;
    fxaa : FXAA }.

Record RenderWindow := mkRenderWindow
  { win_width : Q;
    win_height : Q;
    renderWindowId : nat;
    colorName : string;
    depthStencilName : string;
    (** [!!window.swapchain] *)
    swapchain : bool }.

Inductive CameraUsage := EDITOR | GAME_VIEW | SCENE_VIEW | PREVIEW | GAME.

Definition CameraUsage_eqb (a b : CameraUsage) : bool :=
  match a, b with
  | EDITOR, EDITOR | GAME_VIEW, GAME_VIEW | SCENE_VIEW, SCENE_VIEW
  | PREVIEW, PREVIEW | GAME, GAME => true
  | _, _ => false
  end.

Record Camera := mkCamera
  { clearFlag : Z;
    clearColor : Color;
    clearDepth : Q;
    clearStencil : Z;
    cam_viewport : Vec4;
    cam_position : Vec3;
    frustum : Frustum;
    cameraUsage : CameraUsage;
    usePostProcess : bool;
    cam_pipelineSettings : option PipelineSettings;
    scene : option RenderScene;
    window : option RenderWindow }.

(** What a call reads from the module scope: [sys.isMobile], the [DEBUG]
    build constant, the two editor hooks of [./framework], and the asset
    manager. *)
Record Host := mkHost
  { sys_isMobile : bool;
    DEBUG : bool;
    getEditorPipelineSettings : option PipelineSettings;
    getEditorPipelineCamera : option Camera;
    assets : AssetDB }.

Definition forwardNeedClearColor (camera : Camera) : bool :=
  negb (Z.land (clearFlag camera)
          (Z.lor ClearFlagBit_COLOR (Z.shiftl ClearFlagBit_STENCIL 1)) =? 0).

(* ================================================================== *)
(** ** The render graph under construction

    [BasicPipeline] and its builders belong to the render-graph module.  The
    embedding records every call: a pass builder is the index of its pass in
    [passes], a queue builder the index of its queue in the pass.  Vectors
    and viewports handed to a builder are recorded by value. *)

(** The four materials of the builder, by the field that holds them. *)
Inductive MaterialRef :=
  | copyAndTonemapMaterial | dofMaterial | bloomMaterial | fxaaMaterial.

(** A light handed to [addScene] or [useLightFrustum]. *)
Inductive LightRef :=
  | TheMainLight (l : DirectionalLight)
  | ALight (l : Light).

Inductive QueueItem :=
  | SceneItem (camera : Camera) (flags : SceneFlags.t) (light : option LightRef)
      (lightFrustum : option (LightRef * option nat))
  | FullscreenQuad (material : MaterialRef) (passID : nat)
  | CameraQuad (camera : Camera) (material : MaterialRef) (passID : nat).

Record RenderQueue := mkRenderQueue
  { hint : QueueHint.t;
    phaseName : option string;
    queue_name : string;
    queue_viewport : option Viewport;
    items : list QueueItem }.

Record RenderTarget := mkRenderTarget
  { rt_name : string;
    rt_loadOp : LoadOp.t;
    rt_storeOp : option StoreOp.t;
    rt_color : option Color }.

Record DepthStencil := mkDepthStencil
  { ds_name : string;
    ds_loadOp : LoadOp.t;
    ds_storeOp : option StoreOp.t;
    ds_depth : option Q;
    ds_stencil : option Z;
    ds_clearFlags : option Z }.

Record RenderPass := mkRenderPass
  { pass_width : Z;
    pass_height : Z;
    layoutName : string;
    pass_name : string;
    showStatistics : bool;
    pass_viewport : option Viewport;
    renderTargets : list RenderTarget;
    depthStencils : list DepthStencil;
    textures : list (string * string);
    vec4s : list (string * Vec4);
    queues : list RenderQueue }.

(** A resource declared by [windowResize]. *)
Inductive ResourceKind := Res_RenderWindow | Res_RenderTarget | Res_DepthStencil.

Record Resource := mkResource
  { res_kind : ResourceKind;
    res_name : string;
    res_format : Format.t;
    res_width : Z;
    res_height : Z }.

Record Device := mkDevice
  { dev_screenSpaceSignY : Z;
    dev_clipSpaceSignY : Z;
    (** [getFormatFeatures(Format.DEPTH_STENCIL)] *)
    depthStencilFormatFeatures : Z;
    (** [supportsR32FloatTexture(device)] of [../define] *)
    supportsR32FloatTexture : bool }.

Record PipelineSceneData := mkPipelineSceneData
  { psd_isHDR : bool;
    psd_toneMappingType : Z;
    shadows_size : Vec2;
    csmSupported : bool }.

Record BasicPipeline := mkBasicPipeline
  { device : Device;
    pipelineSceneData : PipelineSceneData;
    (** [getMacroBool('CC_USE_FLOAT_OUTPUT')] *)
    CC_USE_FLOAT_OUTPUT : bool;
    resources : list Resource;
    passes : list RenderPass }.

(* ================================================================== *)
(** ** [class PipelineConfigs] and [setupPipelineConfigs] *)

Record PipelineConfigs := mkPipelineConfigs
  { isMobile : bool;
    isHDR : bool;
    useFloatOutput : bool;
    toneMappingType : Z;
    shadowMapFormat : Format.t;
    shadowMapSize : Vec2;
    screenSpaceSignY : Z;
    supportDepthSample : bool;
    mobileMaxSpotLightShadowMaps : nat;
    g_platform : Vec4 }.

Definition PipelineConfigs_new : PipelineConfigs :=
  {| isMobile := false;
     isHDR := false;
     useFloatOutput := false;
     toneMappingType := 0;
     shadowMapFormat := Format.R32F;
     shadowMapSize := mkVec2 1 1;
     screenSpaceSignY := 1;
     supportDepthSample := false;
     mobileMaxSpotLightShadowMaps := 1;
     g_platform := mkVec4 0 0 0 0 |}.

(** The 32-bit integer conversions behind [<<] and [|]. *)
Definition int32 (z : Z) : Z := (z + 2 ^ 31) mod 2 ^ 32 - 2 ^ 31.
Definition ToInt32 (q : Q) : Z := int32 (Qtrunc q).

Definition setupPipelineConfigs (host : Host) (ppl : BasicPipeline)
    (configs : PipelineConfigs) : PipelineConfigs :=
  let sampleFeature :=
    Z.lor FormatFeatureBit_SAMPLED_TEXTURE FormatFeatureBit_LINEAR_FILTER in
  let device := device ppl in
  let isMobile := sys_isMobile host in
  {| isMobile := isMobile;
     isHDR := psd_isHDR (pipelineSceneData ppl);
     useFloatOutput := CC_USE_FLOAT_OUTPUT ppl;
     toneMappingType := psd_toneMappingType (pipelineSceneData ppl);
     shadowMapFormat :=
       if supportsR32FloatTexture device then Format.R32F else Format.RGBA8;
     shadowMapSize := shadows_size (pipelineSceneData ppl);
     screenSpaceSignY := dev_screenSpaceSignY device;
     supportDepthSample :=
       Z.land (depthStencilFormatFeatures device) sampleFeature =? sampleFeature;
     mobileMaxSpotLightShadowMaps := mobileMaxSpotLightShadowMaps configs;
     g_platform :=
       mkVec4
         (if isMobile then 1 else 0)
         (v4y (g_platform configs))
         (v4z (g_platform configs))
         (inject_Z
            (Z.lor
               (int32 (Z.shiftl
                  (ToInt32 (inject_Z (dev_screenSpaceSignY device) * half + half)) 1))
               (ToInt32 (inject_Z (dev_clipSpaceSignY device) * half + half)))) |}.

(* ================================================================== *)
(** ** [class CameraConfigs] and [setupCameraConfigs] *)

Record CameraConfigs := mkCameraConfigs
  { enableShadowMap : bool;
    enablePostProcess : bool;
    enableProfiler : bool;
    enableShadingScale : bool;
    shadingScale : Q;
    pipelineSettings : option PipelineSettings }.

Definition CameraConfigs_new : CameraConfigs :=
  {| enableShadowMap := false;
     enablePostProcess := false;
     enableProfiler := false;
     enableShadingScale := false;
     shadingScale := half;
     pipelineSettings := None |}.

(** [camera.cameraUsage === CameraUsage.GAME && !!camera.window.swapchain]:
    the window is dereferenced only for a game camera; [None] is the
    [TypeError] of dereferencing a null window. *)
Definition isMainGameWindow (camera : Camera) : option bool :=
  if CameraUsage_eqb (cameraUsage camera) GAME then
    match window camera with
    | Some w => Some (swapchain w)
    | None => None
    end
  else Some false.

Definition isEditorView (camera : Camera) : bool :=
  CameraUsage_eqb (cameraUsage camera) SCENE_VIEW
  || CameraUsage_eqb (cameraUsage camera) PREVIEW.

(** Every field of [cameraConfigs] is assigned, so the result is the record
    after the call; [None] when the call throws. *)
Definition setupCameraConfigs (host : Host) (camera : Camera)
    (pipelineConfigs : PipelineConfigs) (cameraConfigs : CameraConfigs)
    : option CameraConfigs :=
  let enableShadowMap :=
    match scene camera with
    | Some sc =>
        match mainLight sc with
        | Some l => dir_shadowEnabled l
        | None => false
        end
    | None => false
    end in
  match isMainGameWindow camera with
  | None => None
  | Some isMainGameWindow =>
      let isEditorView := isEditorView camera in
      let enablePostProcess :=
        useFloatOutput pipelineConfigs && usePostProcess camera
        && (isMainGameWindow || isEditorView) in
      let enableProfiler := DEBUG host && isMainGameWindow in
      let pipelineSettings := cam_pipelineSettings camera in
      let '(pipelineSettings, enablePostProcess) :=
        if isEditorView then
          let pipelineSettings := getEditorPipelineSettings host in
          match pipelineSettings with
          | Some _ =>
              (pipelineSettings,
               useFloatOutput pipelineConfigs
               && match getEditorPipelineCamera host with
                  | Some pipelineCamera => usePostProcess pipelineCamera
                  | None => false
                  end)
          | None => (pipelineSettings, false)
          end
        else (pipelineSettings, enablePostProcess) in
      Some
        {| enableShadowMap := enableShadowMap;
           enablePostProcess := enablePostProcess;
           enableProfiler := enableProfiler;
           enableShadingScale :=
             match pipelineSettings with
             | Some s => ps_enableShadingScale s
             | None => false
             end;
           shadingScale :=
             match pipelineSettings with
             | Some s => ps_shadingScale s
             | None => 1
             end;
           pipelineSettings := pipelineSettings |}
  end.

(* ================================================================== *)
(** ** [class BuiltinForwardPipeline]: the fields *)

Definition Mat := Material EffectAsset.

Record BuiltinForwardPipeline := mkBuiltinForwardPipeline
  { _clearColor : Color;
    _clearColorOpaqueBlack : Color;
    _viewport : Viewport;
    _configs : PipelineConfigs;
    _cameraConfigs : CameraConfigs;
    _cocParams : Vec4;
    _cocTexSize : Vec4;
    _bloomParams : Vec4;
    _bloomTexSize : Vec4;
    _bloomWidths : list Z;
    _bloomHeights : list Z;
    _bloomTexNames : list string;
    _copyAndTonemapMaterial : Mat;
    _dofMaterial : Mat;
    _bloomMaterial : Mat;
    _fxaaMaterial : Mat;
    _initialized : bool;
    forwardLighting : ForwardLighting }.

(** [new Material()] *)
Definition Material_new : Mat :=
  {| _uuid := ""; effectAsset := None; properties := [] |}.

Definition BuiltinForwardPipeline_new : BuiltinForwardPipeline :=
  {| _clearColor := mkVec4 0 0 0 1;
     _clearColorOpaqueBlack := mkVec4 0 0 0 0;
     _viewport := mkViewport 0 0 0 0;
     _configs := PipelineConfigs_new;
     _cameraConfigs := CameraConfigs_new;
     _cocParams := mkVec4 0 0 0 0;
     _cocTexSize := mkVec4 0 0 0 0;
     _bloomParams := mkVec4 0 0 0 0;
     _bloomTexSize := mkVec4 0 0 0 0;
     _bloomWidths := [];
     _bloomHeights := [];
     _bloomTexNames := [];
     _copyAndTonemapMaterial := Material_new;
     _dofMaterial := Material_new;
     _bloomMaterial := Material_new;
     _fxaaMaterial := Material_new;
     _initialized := false;
     forwardLighting := ForwardLighting_new |}.

(** Field assignments, one per field that the code writes. *)
Definition set__clearColor (this : BuiltinForwardPipeline) (v : Color) : BuiltinForwardPipeline :=
  {| _clearColor := v;
     _clearColorOpaqueBlack := _clearColorOpaqueBlack this;
     _viewport := _viewport this;
     _configs := _configs this;
     _cameraConfigs := _cameraConfigs this;
     _cocParams := _cocParams this;
     _cocTexSize := _cocTexSize this;
     _bloomParams := _bloomParams this;
     _bloomTexSize := _bloomTexSize this;
     _bloomWidths := _bloomWidths this;
     _bloomHeights := _bloomHeights this;
     _bloomTexNames := _bloomTexNames this;
     _copyAndTonemapMaterial := _copyAndTonemapMaterial this;
     _dofMaterial := _dofMaterial this;
     _bloomMaterial := _bloomMaterial this;
     _fxaaMaterial := _fxaaMaterial this;
     _initialized := _initialized this;
     forwardLighting := forwardLighting this |}.

Definition set__viewport (this : BuiltinForwardPipeline) (v : Viewport) : BuiltinForwardPipeline :=
  {| _clearColor := _clearColor this;
     _clearColorOpaqueBlack := _clearColorOpaqueBlack this;
     _viewport := v;
     _configs := _configs this;
     _cameraConfigs := _cameraConfigs this;
     _cocParams := _cocParams this;
     _cocTexSize := _cocTexSize this;
     _bloomParams := _bloomParams this;
     _bloomTexSize := _bloomTexSize this;
     _bloomWidths := _bloomWidths this;
     _bloomHeights := _bloomHeights this;
     _bloomTexNames := _bloomTexNames this;
     _copyAndTonemapMaterial := _copyAndTonemapMaterial this;
     _dofMaterial := _dofMaterial this;
     _bloomMaterial := _bloomMaterial this;
     _fxaaMaterial := _fxaaMaterial this;
     _initialized := _initialized this;
     forwardLighting := forwardLighting this |}.

Definition set__configs (this : BuiltinForwardPipeline) (v : PipelineConfigs) : BuiltinForwardPipeline :=
  {| _clearColor := _clearColor this;
     _clearColorOpaqueBlack := _clearColorOpaqueBlack this;
     _viewport := _viewport this;
     _configs := v;
     _cameraConfigs := _cameraConfigs this;
     _cocParams := _cocParams this;
     _cocTexSize := _cocTexSize this;
     _bloomParams := _bloomParams this;
     _bloomTexSize := _bloomTexSize this;
     _bloomWidths := _bloomWidths this;
     _bloomHeights := _bloomHeights this;
     _bloomTexNames := _bloomTexNames this;
     _copyAndTonemapMaterial := _copyAndTonemapMaterial this;
     _dofMaterial := _dofMaterial this;
     _bloomMaterial := _bloomMaterial this;
     _fxaaMaterial := _fxaaMaterial this;
     _initialized := _initialized this;
     forwardLighting := forwardLighting this |}.

Definition set__cameraConfigs (this : BuiltinForwardPipeline) (v : CameraConfigs) : BuiltinForwardPipeline :=
  {| _clearColor := _clearColor this;
     _clearColorOpaqueBlack := _clearColorOpaqueBlack this;
     _viewport := _viewport this;
     _configs := _configs this;
     _cameraConfigs := v;
     _cocParams := _cocParams this;
     _cocTexSize := _cocTexSize this;
     _bloomParams := _bloomParams this;
     _bloomTexSize := _bloomTexSize this;
     _bloomWidths := _bloomWidths this;
     _bloomHeights := _bloomHeights this;
     _bloomTexNames := _bloomTexNames this;
     _copyAndTonemapMaterial := _copyAndTonemapMaterial this;
     _dofMaterial := _dofMaterial this;
     _bloomMaterial := _bloomMaterial this;
     _fxaaMaterial := _fxaaMaterial this;
     _initialized := _initialized this;
     forwardLighting := forwardLighting this |}.

Definition set__cocParams (this : BuiltinForwardPipeline) (v : Vec4) : BuiltinForwardPipeline :=
  {| _clearColor := _clearColor this;
     _clearColorOpaqueBlack := _clearColorOpaqueBlack this;
     _viewport := _viewport this;
     _configs := _configs this;
     _cameraConfigs := _cameraConfigs this;
     _cocParams := v;
     _cocTexSize := _cocTexSize this;
     _bloomParams := _bloomParams this;
     _bloomTexSize := _bloomTexSize this;
     _bloomWidths := _bloomWidths this;
     _bloomHeights := _bloomHeights this;
     _bloomTexNames := _bloomTexNames this;
     _copyAndTonemapMaterial := _copyAndTonemapMaterial this;
     _dofMaterial := _dofMaterial this;
     _bloomMaterial := _bloomMaterial this;
     _fxaaMaterial := _fxaaMaterial this;
     _initialized := _initialized this;
     forwardLighting := forwardLighting this |}.

Definition set__cocTexSize (this : BuiltinForwardPipeline) (v : Vec4) : BuiltinForwardPipeline :=
  {| _clearColor := _clearColor this;
     _clearColorOpaqueBlack := _clearColorOpaqueBlack this;
     _viewport := _viewport this;
     _configs := _configs this;
     _cameraConfigs := _cameraConfigs this;
     _cocParams := _cocParams this;
     _cocTexSize := v;
     _bloomParams := _bloomParams this;
     _bloomTexSize := _bloomTexSize this;
     _bloomWidths := _bloomWidths this;
     _bloomHeights := _bloomHeights this;
     _bloomTexNames := _bloomTexNames this;
     _copyAndTonemapMaterial := _copyAndTonemapMaterial this;
     _dofMaterial := _dofMaterial this;
     _bloomMaterial := _bloomMaterial this;
     _fxaaMaterial := _fxaaMaterial this;
     _initialized := _initialized this;
     forwardLighting := forwardLighting this |}.

Definition set__bloomParams (this : BuiltinForwardPipeline) (v : Vec4) : BuiltinForwardPipeline :=
  {| _clearColor := _clearColor this;
     _clearColorOpaqueBlack := _clearColorOpaqueBlack this;
     _viewport := _viewport this;
     _configs := _configs this;
     _cameraConfigs := _cameraConfigs this;
     _cocParams := _cocParams this;
     _cocTexSize := _cocTexSize this;
     _bloomParams := v;
     _bloomTexSize := _bloomTexSize this;
     _bloomWidths := _bloomWidths this;
     _bloomHeights := _bloomHeights this;
     _bloomTexNames := _bloomTexNames this;
     _copyAndTonemapMaterial := _copyAndTonemapMaterial this;
     _dofMaterial := _dofMaterial this;
     _bloomMaterial := _bloomMaterial this;
     _fxaaMaterial := _fxaaMaterial this;
     _initialized := _initialized this;
     forwardLighting := forwardLighting this |}.

Definition set__bloomTexSize (this : BuiltinForwardPipeline) (v : Vec4) : BuiltinForwardPipeline :=
  {| _clearColor := _clearColor this;
     _clearColorOpaqueBlack := _clearColorOpaqueBlack this;
     _viewport := _viewport this;
     _configs := _configs this;
     _cameraConfigs := _cameraConfigs this;
     _cocParams := _cocParams this;
     _cocTexSize := _cocTexSize this;
     _bloomParams := _bloomParams this;
     _bloomTexSize := v;
     _bloomWidths := _bloomWidths this;
     _bloomHeights := _bloomHeights this;
     _bloomTexNames := _bloomTexNames this;
     _copyAndTonemapMaterial := _copyAndTonemapMaterial this;
     _dofMaterial := _dofMaterial this;
     _bloomMaterial := _bloomMaterial this;
     _fxaaMaterial := _fxaaMaterial this;
     _initialized := _initialized this;
     forwardLighting := forwardLighting this |}.

Definition set__bloomWidths (this : BuiltinForwardPipeline) (v : list Z) : BuiltinForwardPipeline :=
  {| _clearColor := _clearColor this;
     _clearColorOpaqueBlack := _clearColorOpaqueBlack this;
     _viewport := _viewport this;
     _configs := _configs this;
     _cameraConfigs := _cameraConfigs this;
     _cocParams := _cocParams this;
     _cocTexSize := _cocTexSize this;
     _bloomParams := _bloomParams this;
     _bloomTexSize := _bloomTexSize this;
     _bloomWidths := v;
     _bloomHeights := _bloomHeights this;
     _bloomTexNames := _bloomTexNames this;
     _copyAndTonemapMaterial := _copyAndTonemapMaterial this;
     _dofMaterial := _dofMaterial this;
     _bloomMaterial := _bloomMaterial this;
     _fxaaMaterial := _fxaaMaterial this;
     _initialized := _initialized this;
     forwardLighting := forwardLighting this |}.

Definition set__bloomHeights (this : BuiltinForwardPipeline) (v : list Z) : BuiltinForwardPipeline :=
  {| _clearColor := _clearColor this;
     _clearColorOpaqueBlack := _clearColorOpaqueBlack this;
     _viewport := _viewport this;
     _configs := _configs this;
     _cameraConfigs := _cameraConfigs this;
     _cocParams := _cocParams this;
     _cocTexSize := _cocTexSize this;
     _bloomParams := _bloomParams this;
     _bloomTexSize := _bloomTexSize this;
     _bloomWidths := _bloomWidths this;
     _bloomHeights := v;
     _bloomTexNames := _bloomTexNames this;
     _copyAndTonemapMaterial := _copyAndTonemapMaterial this;
     _dofMaterial := _dofMaterial this;
     _bloomMaterial := _bloomMaterial this;
     _fxaaMaterial := _fxaaMaterial this;
     _initialized := _initialized this;
     forwardLighting := forwardLighting this |}.

Definition set__bloomTexNames (this : BuiltinForwardPipeline) (v : list string) : BuiltinForwardPipeline :=
  {| _clearColor := _clearColor this;
     _clearColorOpaqueBlack := _clearColorOpaqueBlack this;
     _viewport := _viewport this;
     _configs := _configs this;
     _cameraConfigs := _cameraConfigs this;
     _cocParams := _cocParams this;
     _cocTexSize := _cocTexSize this;
     _bloomParams := _bloomParams this;
     _bloomTexSize := _bloomTexSize this;
     _bloomWidths := _bloomWidths this;
     _bloomHeights := _bloomHeights this;
     _bloomTexNames := v;
     _copyAndTonemapMaterial := _copyAndTonemapMaterial this;
     _dofMaterial := _dofMaterial this;
     _bloomMaterial := _bloomMaterial this;
     _fxaaMaterial := _fxaaMaterial this;
     _initialized := _initialized this;
     forwardLighting := forwardLighting this |}.

Definition set__copyAndTonemapMaterial (this : BuiltinForwardPipeline) (v : Mat) : BuiltinForwardPipeline :=
  {| _clearColor := _clearColor this;
     _clearColorOpaqueBlack := _clearColorOpaqueBlack this;
     _viewport := _viewport this;
     _configs := _configs this;
     _cameraConfigs := _cameraConfigs this;
     _cocParams := _cocParams this;
     _cocTexSize := _cocTexSize this;
     _bloomParams := _bloomParams this;
     _bloomTexSize := _bloomTexSize this;
     _bloomWidths := _bloomWidths this;
     _bloomHeights := _bloomHeights this;
     _bloomTexNames := _bloomTexNames this;
     _copyAndTonemapMaterial := v;
     _dofMaterial := _dofMaterial this;
     _bloomMaterial := _bloomMaterial this;
     _fxaaMaterial := _fxaaMaterial this;
     _initialized := _initialized this;
     forwardLighting := forwardLighting this |}.

Definition set__dofMaterial (this : BuiltinForwardPipeline) (v : Mat) : BuiltinForwardPipeline :=
  {| _clearColor := _clearColor this;
     _clearColorOpaqueBlack := _clearColorOpaqueBlack this;
     _viewport := _viewport this;
     _configs := _configs this;
     _cameraConfigs := _cameraConfigs this;
     _cocParams := _cocParams this;
     _cocTexSize := _cocTexSize this;
     _bloomParams := _bloomParams this;
     _bloomTexSize := _bloomTexSize this;
     _bloomWidths := _bloomWidths this;
     _bloomHeights := _bloomHeights this;
     _bloomTexNames := _bloomTexNames this;
     _copyAndTonemapMaterial := _copyAndTonemapMaterial this;
     _dofMaterial := v;
     _bloomMaterial := _bloomMaterial this;
     _fxaaMaterial := _fxaaMaterial this;
     _initialized := _initialized this;
     forwardLighting := forwardLighting this |}.

Definition set__bloomMaterial (this : BuiltinForwardPipeline) (v : Mat) : BuiltinForwardPipeline :=
  {| _clearColor := _clearColor this;
     _clearColorOpaqueBlack := _clearColorOpaqueBlack this;
     _viewport := _viewport this;
     _configs := _configs this;
     _cameraConfigs := _cameraConfigs this;
     _cocParams := _cocParams this;
     _cocTexSize := _cocTexSize this;
     _bloomParams := _bloomParams this;
     _bloomTexSize := _bloomTexSize this;
     _bloomWidths := _bloomWidths this;
     _bloomHeights := _bloomHeights this;
     _bloomTexNames := _bloomTexNames this;
     _copyAndTonemapMaterial := _copyAndTonemapMaterial this;
     _dofMaterial := _dofMaterial this;
     _bloomMaterial := v;
     _fxaaMaterial := _fxaaMaterial this;
     _initialized := _initialized this;
     forwardLighting := forwardLighting this |}.

Definition set__fxaaMaterial (this : BuiltinForwardPipeline) (v : Mat) : BuiltinForwardPipeline :=
  {| _clearColor := _clearColor this;
     _clearColorOpaqueBlack := _clearColorOpaqueBlack this;
     _viewport := _viewport this;
     _configs := _configs this;
     _cameraConfigs := _cameraConfigs this;
     _cocParams := _cocParams this;
     _cocTexSize := _cocTexSize this;
     _bloomParams := _bloomParams this;
     _bloomTexSize := _bloomTexSize this;
     _bloomWidths := _bloomWidths this;
     _bloomHeights := _bloomHeights this;
     _bloomTexNames := _bloomTexNames this;
     _copyAndTonemapMaterial := _copyAndTonemapMaterial this;
     _dofMaterial := _dofMaterial this;
     _bloomMaterial := _bloomMaterial this;
     _fxaaMaterial := v;
     _initialized := _initialized this;
     forwardLighting := forwardLighting this |}.

Definition set__initialized (this : BuiltinForwardPipeline) (v : bool) : BuiltinForwardPipeline :=
  {| _clearColor := _clearColor this;
     _clearColorOpaqueBlack := _clearColorOpaqueBlack this;
     _viewport := _viewport this;
     _configs := _configs this;
     _cameraConfigs := _cameraConfigs this;
     _cocParams := _cocParams this;
     _cocTexSize := _cocTexSize this;
     _bloomParams := _bloomParams this;
     _bloomTexSize := _bloomTexSize this;
     _bloomWidths := _bloomWidths this;
     _bloomHeights := _bloomHeights this;
     _bloomTexNames := _bloomTexNames this;
     _copyAndTonemapMaterial := _copyAndTonemapMaterial this;
     _dofMaterial := _dofMaterial this;
     _bloomMaterial := _bloomMaterial this;
     _fxaaMaterial := _fxaaMaterial this;
     _initialized := v;
     forwardLighting := forwardLighting this |}.

Definition set_forwardLighting (this : BuiltinForwardPipeline) (v : ForwardLighting) : BuiltinForwardPipeline :=
  {| _clearColor := _clearColor this;
     _clearColorOpaqueBlack := _clearColorOpaqueBlack this;
     _viewport := _viewport this;
     _configs := _configs this;
     _cameraConfigs := _cameraConfigs this;
     _cocParams := _cocParams this;
     _cocTexSize := _cocTexSize this;
     _bloomParams := _bloomParams this;
     _bloomTexSize := _bloomTexSize this;
     _bloomWidths := _bloomWidths this;
     _bloomHeights := _bloomHeights this;
     _bloomTexNames := _bloomTexNames this;
     _copyAndTonemapMaterial := _copyAndTonemapMaterial this;
     _dofMaterial := _dofMaterial this;
     _bloomMaterial := _bloomMaterial this;
     _fxaaMaterial := _fxaaMaterial this;
     _initialized := _initialized this;
     forwardLighting := v |}.

Definition set_queue_name (q : RenderQueue) (v : string) : RenderQueue :=
  {| hint := hint q;
     phaseName := phaseName q;
     queue_name := v;
     queue_viewport := queue_viewport q;
     items := items q |}.

Definition set_queue_viewport (q : RenderQueue) (v : option Viewport) : RenderQueue :=
  {| hint := hint q;
     phaseName := phaseName q;
     queue_name := queue_name q;
     queue_viewport := v;
     items := items q |}.

Definition set_items (q : RenderQueue) (v : list QueueItem) : RenderQueue :=
  {| hint := hint q;
     phaseName := phaseName q;
     queue_name := queue_name q;
     queue_viewport := queue_viewport q;
     items := v |}.

Definition set_pass_name (p : RenderPass) (v : string) : RenderPass :=
  {| pass_width := pass_width p;
     pass_height := pass_height p;
     layoutName := layoutName p;
     pass_name := v;
     showStatistics := showStatistics p;
     pass_viewport := pass_viewport p;
     renderTargets := renderTargets p;
     depthStencils := depthStencils p;
     textures := textures p;
     vec4s := vec4s p;
     queues := queues p |}.

Definition set_showStatistics (p : RenderPass) (v : bool) : RenderPass :=
  {| pass_width := pass_width p;
     pass_height := pass_height p;
     layoutName := layoutName p;
     pass_name := pass_name p;
     showStatistics := v;
     pass_viewport := pass_viewport p;
     renderTargets := renderTargets p;
     depthStencils := depthStencils p;
     textures := textures p;
     vec4s := vec4s p;
     queues := queues p |}.

Definition set_pass_viewport (p : RenderPass) (v : option Viewport) : RenderPass :=
  {| pass_width := pass_width p;
     pass_height := pass_height p;
     layoutName := layoutName p;
     pass_name := pass_name p;
     showStatistics := showStatistics p;
     pass_viewport := v;
     renderTargets := renderTargets p;
     depthStencils := depthStencils p;
     textures := textures p;
     vec4s := vec4s p;
     queues := queues p |}.

Definition set_renderTargets (p : RenderPass) (v : list RenderTarget) : RenderPass :=
  {| pass_width := pass_width p;
     pass_height := pass_height p;
     layoutName := layoutName p;
     pass_name := pass_name p;
     showStatistics := showStatistics p;
     pass_viewport := pass_viewport p;
     renderTargets := v;
     depthStencils := depthStencils p;
     textures := textures p;
     vec4s := vec4s p;
     queues := queues p |}.

Definition set_depthStencils (p : RenderPass) (v : list DepthStencil) : RenderPass :=
  {| pass_width := pass_width p;
     pass_height := pass_height p;
     layoutName := layoutName p;
     pass_name := pass_name p;
     showStatistics := showStatistics p;
     pass_viewport := pass_viewport p;
     renderTargets := renderTargets p;
     depthStencils := v;
     textures := textures p;
     vec4s := vec4s p;
     queues := queues p |}.

Definition set_textures (p : RenderPass) (v : list (string * string)) : RenderPass :=
  {| pass_width := pass_width p;
     pass_height := pass_height p;
     layoutName := layoutName p;
     pass_name := pass_name p;
     showStatistics := showStatistics p;
     pass_viewport := pass_viewport p;
     renderTargets := renderTargets p;
     depthStencils := depthStencils p;
     textures := v;
     vec4s := vec4s p;
     queues := queues p |}.

Definition set_vec4s (p : RenderPass) (v : list (string * Vec4)) : RenderPass :=
  {| pass_width := pass_width p;
     pass_height := pass_height p;
     layoutName := layoutName p;
     pass_name := pass_name p;
     showStatistics := showStatistics p;
     pass_viewport := pass_viewport p;
     renderTargets := renderTargets p;
     depthStencils := depthStencils p;
     textures := textures p;
     vec4s := v;
     queues := queues p |}.

Definition set_queues (p : RenderPass) (v : list RenderQueue) : RenderPass :=
  {| pass_width := pass_width p;
     pass_height := pass_height p;
     layoutName := layoutName p;
     pass_name := pass_name p;
     showStatistics := showStatistics p;
     pass_viewport := pass_viewport p;
     renderTargets := renderTargets p;
     depthStencils := depthStencils p;
     textures := textures p;
     vec4s := vec4s p;
     queues := v |}.

Definition set_resources (ppl : BasicPipeline) (v : list Resource) : BasicPipeline :=
  {| device := device ppl;
     pipelineSceneData := pipelineSceneData ppl;
     CC_USE_FLOAT_OUTPUT := CC_USE_FLOAT_OUTPUT ppl;
     resources := v;
     passes := passes ppl |}.

Definition set_passes (ppl : BasicPipeline) (v : list RenderPass) : BasicPipeline :=
  {| device := device ppl;
     pipelineSceneData := pipelineSceneData ppl;
     CC_USE_FLOAT_OUTPUT := CC_USE_FLOAT_OUTPUT ppl;
     resources := resources ppl;
     passes := v |}.

(* ================================================================== *)
(** ** Calls as state transformers

    A method runs on the builder object ([this]) and on the render graph it
    is handed ([ppl]); it may throw.  [M A] is the type of such a call that
    returns an [A]; [None] stands for a thrown [TypeError]. *)

Record State := mkState
  { this_ : BuiltinForwardPipeline;
    ppl_ : BasicPipeline }.

Definition M (A : Type) : Type := State -> option (A * State).

Definition ret {A} (a : A) : M A := fun st => Some (a, st).

Definition bind {A B} (m : M A) (k : A -> M B) : M B :=
  fun st =>
    match m st with
    | Some (a, st') => k a st'
    | None => None
    end.

Definition throw {A} : M A := fun _ => None.

Notation "x <- c ;; k" := (bind c (fun x => k))
  (at level 61, c at next level, right associativity).
Notation "c ;; k" := (bind c (fun _ => k))
  (at level 61, right associativity).

Definition this : M BuiltinForwardPipeline := fun st => Some (this_ st, st).

Definition ppl : M BasicPipeline := fun st => Some (ppl_ st, st).

Definition assign (f : BuiltinForwardPipeline -> BuiltinForwardPipeline)
    : M unit :=
  fun st => Some (tt, mkState (f (this_ st)) (ppl_ st)).

Definition on_ppl (f : BasicPipeline -> BasicPipeline) : M unit :=
  fun st => Some (tt, mkState (this_ st) (f (ppl_ st))).

(** Dereferencing a value that may be [null]. *)
Definition deref {A} (o : option A) : M A :=
  match o with
  | Some a => ret a
  | None => throw
  end.

(** [for (const x of xs) body(x)] *)
Fixpoint for_of {A} (xs : list A) (body : A -> M unit) : M unit :=
  match xs with
  | [] => ret tt
  | x :: xs' => body x ;; for_of xs' body
  end.

(** *** The builders of the render graph *)

Definition PassBuilder := nat.
Definition QueueBuilder := (nat * nat)%type.
Definition SceneBuilder := (nat * nat * nat)%type.

(** Apply [g] to the [i]-th element, returning what [g] returns. *)
Fixpoint list_access {A B} (i : nat) (g : A -> option (B * A)) (l : list A)
    : option (B * list A) :=
  match l with
  | [] => None
  | x :: l' =>
      match i with
      | O =>
          match g x with
          | Some (b, x') => Some (b, x' :: l')
          | None => None
          end
      | S i' =>
          match list_access i' g l' with
          | Some (b, l'') => Some (b, x :: l'')
          | None => None
          end
      end
  end.

Definition on_pass {B} (pass : PassBuilder)
    (g : RenderPass -> option (B * RenderPass)) : M B :=
  fun st =>
    match list_access pass g (passes (ppl_ st)) with
    | Some (b, l) => Some (b, mkState (this_ st) (set_passes (ppl_ st) l))
    | None => None
    end.

Definition on_queue {B} (queue : QueueBuilder)
    (g : RenderQueue -> option (B * RenderQueue)) : M B :=
  on_pass (fst queue)
    (fun p =>
       match list_access (snd queue) g (queues p) with
       | Some (b, qs) => Some (b, set_queues p qs)
       | None => None
       end).

(** [ppl.addRenderPass(width, height, layout)] *)
Definition addRenderPass (width height : Z) (layout : string) : M PassBuilder :=
  fun st =>
    let ps := passes (ppl_ st) in
    Some (List.length ps,
          mkState (this_ st)
            (set_passes (ppl_ st)
               (ps ++ [mkRenderPass width height layout "" false None
                         [] [] [] [] []]))).

(** The resource declarations of [windowResize]. *)
Definition declare (kind : ResourceKind) (name : string) (format : Format.t)
    (width height : Z) : M unit :=
  on_ppl (fun p =>
    set_resources p (resources p ++ [mkResource kind name format width height])).

Definition ppl_addRenderWindow := declare Res_RenderWindow.
Definition ppl_addRenderTarget := declare Res_RenderTarget.
Definition ppl_addDepthStencil := declare Res_DepthStencil.

Definition set_name (pass : PassBuilder) (name : string) : M unit :=
  on_pass pass (fun p => Some (tt, set_pass_name p name)).

Definition set_showStatisticsOf (pass : PassBuilder) (b : bool) : M unit :=
  on_pass pass (fun p => Some (tt, set_showStatistics p b)).

Definition addRenderTarget (pass : PassBuilder) (name : string)
    (loadOp : LoadOp.t) (storeOp : option StoreOp.t) (color : option Color)
    : M unit :=
  on_pass pass (fun p =>
    Some (tt, set_renderTargets p
                (renderTargets p ++ [mkRenderTarget name loadOp storeOp color]))).

Definition addDepthStencil (pass : PassBuilder) (name : string)
    (loadOp : LoadOp.t) (storeOp : option StoreOp.t)
    (depth : option Q) (stencil : option Z) (clearFlags : option Z) : M unit :=
  on_pass pass (fun p =>
    Some (tt, set_depthStencils p
                (depthStencils p
                 ++ [mkDepthStencil name loadOp storeOp depth stencil clearFlags]))).

Definition addTexture (pass : PassBuilder) (name slot : string) : M unit :=
  on_pass pass (fun p => Some (tt, set_textures p (textures p ++ [(name, slot)]))).

Definition setVec4 (pass : PassBuilder) (name : string) (v : Vec4) : M unit :=
  on_pass pass (fun p => Some (tt, set_vec4s p (vec4s p ++ [(name, v)]))).

Definition setViewport (pass : PassBuilder) (vp : Viewport) : M unit :=
  on_pass pass (fun p => Some (tt, set_pass_viewport p (Some vp))).

Definition addQueue (pass : PassBuilder) (hint : QueueHint.t)
    (phase : option string) : M QueueBuilder :=
  on_pass pass (fun p =>
    Some ((pass, List.length (queues p)),
          set_queues p (queues p ++ [mkRenderQueue hint phase "" None []]))).

Definition queue_set_name (queue : QueueBuilder) (name : string) : M unit :=
  on_queue queue (fun q => Some (tt, set_queue_name q name)).

Definition queue_setViewport (queue : QueueBuilder) (vp : Viewport) : M unit :=
  on_queue queue (fun q => Some (tt, set_queue_viewport q (Some vp))).

Definition addScene (queue : QueueBuilder) (camera : Camera)
    (flags : SceneFlags.t) (light : option LightRef) : M SceneBuilder :=
  on_queue queue (fun q =>
    Some ((queue, List.length (items q)),
          set_items q (items q ++ [SceneItem camera flags light None]))).

Definition useLightFrustum (sb : SceneBuilder) (light : LightRef)
    (level : option nat) : M unit :=
  on_queue (fst sb) (fun q =>
    match list_access (snd sb)
            (fun it =>
               match it with
               | SceneItem c f l _ => Some (tt, SceneItem c f l (Some (light, level)))
               | _ => None
               end) (items q) with
    | Some (_, its) => Some (tt, set_items q its)
    | None => None
    end).

Definition addFullscreenQuad (queue : QueueBuilder) (material : MaterialRef)
    (passID : nat) : M unit :=
  on_queue queue (fun q =>
    Some (tt, set_items q (items q ++ [FullscreenQuad material passID]))).

Definition addCameraQuad (queue : QueueBuilder) (camera : Camera)
    (material : MaterialRef) (passID : nat) : M unit :=
  on_queue queue (fun q =>
    Some (tt, set_items q (items q ++ [CameraQuad camera material passID]))).

(** [material.setProperty(name, v)]: the value of the named uniform. *)
Definition setProperty (m : Mat) (name : string) (v : Vec4) : Mat :=
  {| _uuid := _uuid m;
     effectAsset := effectAsset m;
     properties :=
       (name, v) :: filter (fun kv => negb (String.eqb (fst kv) name)) (properties m) |}.

Definition set_uuid (m : Mat) (uuid : string) : Mat :=
  {| _uuid := uuid; effectAsset := effectAsset m; properties := properties m |}.

(* ================================================================== *)
(** ** [ForwardLighting]: the pass-composition methods *)

Definition light_queue_name (light : Light) : string :=
  match Light_type light with
  | SPHERE => "sphere-light"
  | SPOT => "spot-light"
  | POINT => "point-light"
  | RANGED_DIRECTIONAL => "ranged-directional-light"
  | _ => "unknown-light"
  end.

Definition shadow_caster_flags : SceneFlags.t :=
  [SceneFlags.OPAQUE] ++ [SceneFlags.MASK] ++ [SceneFlags.SHADOW_CASTER].

Definition white : Color := mkVec4 1 1 1 1.

Definition _addLightQueues (camera : Camera) (pass : PassBuilder) : M unit :=
  t <- this ;;
  for_of (lights (forwardLighting t)) (fun light =>
    queue <- addQueue pass QueueHint.BLEND (Some "forward-add") ;;
    queue_set_name queue (light_queue_name light) ;;
    addScene queue camera [SceneFlags.BLEND] (Some (ALight light)) ;;
    ret tt).

(** The loop of [addMobileShadowPasses], from counter value [i]. *)
Fixpoint addMobileShadowPasses_loop (camera : Camera) (maxNumShadowMaps : nat)
    (ls : list SpotLight) (i : nat) : M unit :=
  match ls with
  | [] => ret tt
  | light :: ls' =>
      p <- ppl ;;
      let shadowMapSize := shadows_size (pipelineSceneData p) in
      shadowPass <- addRenderPass (v2x shadowMapSize) (v2y shadowMapSize) "default" ;;
      set_name shadowPass ("SpotLightShadowPass" +++ str_of_nat i) ;;
      addRenderTarget shadowPass ("SpotShadowMap" +++ str_of_nat i)
        LoadOp.CLEAR (Some StoreOp.STORE) (Some white) ;;
      addDepthStencil shadowPass ("SpotShadowDepth" +++ str_of_nat i)
        LoadOp.CLEAR (Some StoreOp.DISCARD) None None None ;;
      queue <- addQueue shadowPass QueueHint.NONE (Some "shadow-caster") ;;
      sb <- addScene queue camera shadow_caster_flags None ;;
      useLightFrustum sb (ALight (OfSpot light)) None ;;
      let i := S i in
      if (maxNumShadowMaps <=? i)%nat then ret tt
      else addMobileShadowPasses_loop camera maxNumShadowMaps ls' i
  end.

Definition addMobileShadowPasses (camera : Camera) (maxNumShadowMaps : nat)
    : M unit :=
  t <- this ;;
  addMobileShadowPasses_loop camera maxNumShadowMaps
    (shadowEnabledSpotLights (forwardLighting t)) 0.

Fixpoint addMobileLightQueues_loop (pass : PassBuilder) (camera : Camera)
    (maxNumShadowMaps : nat) (ls : list SpotLight) (i : nat) : M unit :=
  match ls with
  | [] => ret tt
  | light :: ls' =>
      addTexture pass ("SpotShadowMap" +++ str_of_nat i) "cc_spotShadowMap" ;;
      queue <- addQueue pass QueueHint.BLEND (Some "forward-add") ;;
      addScene queue camera [SceneFlags.BLEND] (Some (ALight (OfSpot light))) ;;
      let i := S i in
      if (maxNumShadowMaps <=? i)%nat then ret tt
      else addMobileLightQueues_loop pass camera maxNumShadowMaps ls' i
  end.

Definition addMobileLightQueues (pass : PassBuilder) (camera : Camera)
    (maxNumShadowMaps : nat) : M unit :=
  _addLightQueues camera pass ;;
  t <- this ;;
  addMobileLightQueues_loop pass camera maxNumShadowMaps
    (shadowEnabledSpotLights (forwardLighting t)) 0.

(** The loop of [addLightPasses]; [pass] is the variable it reassigns. *)
Fixpoint addLightPasses_loop (colorName depthStencilName : string) (id : nat)
    (width height : Z) (camera : Camera) (shadowMapSize : Vec2)
    (ls : list SpotLight) (pass : PassBuilder) : M PassBuilder :=
  match ls with
  | [] => ret pass
  | light :: ls' =>
      shadowPass <- addRenderPass (v2x shadowMapSize) (v2y shadowMapSize) "default" ;;
      set_name shadowPass "SpotlightShadowPass" ;;
      addRenderTarget shadowPass ("ShadowMap" +++ str_of_nat id)
        LoadOp.CLEAR (Some StoreOp.STORE) (Some white) ;;
      addDepthStencil shadowPass ("ShadowDepth" +++ str_of_nat id)
        LoadOp.CLEAR (Some StoreOp.DISCARD) None None None ;;
      queue <- addQueue shadowPass QueueHint.NONE (Some "shadow-caster") ;;
      sb <- addScene queue camera shadow_caster_flags None ;;
      useLightFrustum sb (ALight (OfSpot light)) None ;;
      pass <- addRenderPass width height "default" ;;
      set_name pass "SpotlightWithShadowMap" ;;
      addRenderTarget pass colorName LoadOp.LOAD None None ;;
      addDepthStencil pass depthStencilName LoadOp.LOAD None None None None ;;
      addTexture pass ("ShadowMap" +++ str_of_nat id) "cc_spotShadowMap" ;;
      queue <- addQueue pass QueueHint.BLEND (Some "forward-add") ;;
      addScene queue camera [SceneFlags.BLEND] (Some (ALight (OfSpot light))) ;;
      addLightPasses_loop colorName depthStencilName id width height camera
        shadowMapSize ls' pass
  end.

Definition addLightPasses (colorName depthStencilName : string) (id : nat)
    (width height : Z) (camera : Camera) (pass : PassBuilder) : M PassBuilder :=
  _addLightQueues camera pass ;;
  p <- ppl ;;
  let shadowMapSize := shadows_size (pipelineSceneData p) in
  t <- this ;;
  addLightPasses_loop colorName depthStencilName id width height camera
    shadowMapSize (shadowEnabledSpotLights (forwardLighting t)) pass.

(* ================================================================== *)
(** ** [BuiltinForwardPipeline]: resolutions and scratch arrays *)

(** [Math.max(Math.floor(window.width), 1)], the [nativeWidth] and
    [nativeHeight] of the two pipeline builders. *)
Definition native_size (extent : Q) : Z := Z.max (Qfloor extent) 1.

(** The [width] and [height] of [windowResize] and of the two pipeline
    builders, which spell out the same conditional expression:
    [enableShadingScale ? Math.max(Math.floor(native * shadingScale), 1)
                        : native]. *)
Definition working_size (cameraConfigs : CameraConfigs) (native : Z) : Z :=
  if enableShadingScale cameraConfigs
  then Z.max (Qfloor (js_mul (inject_Z native) (shadingScale cameraConfigs))) 1
  else native.

(** [Math.max(Math.floor(x / 2), 1)] *)
Definition half_size (x : Z) : Z := Z.max (Qfloor (inject_Z x / 2)) 1.

(** JavaScript arrays used as scratch buffers.  A hole is shown as the
    default element; the code reads an index only after it wrote it. *)
Definition array_set_length {A} (d : A) (n : nat) (l : list A) : list A :=
  firstn n l ++ repeat d (n - List.length l).

Fixpoint array_store {A} (d : A) (i : nat) (v : A) (l : list A) : list A :=
  match i, l with
  | O, [] => [v]
  | O, _ :: l' => v :: l'
  | S i', [] => d :: array_store d i' v []
  | S i', x :: l' => x :: array_store d i' v l'
  end.

Definition array_load {A} (d : A) (i : nat) (l : list A) : A := nth i l d.

Definition set_v4x (v : Vec4) (a : Q) := mkVec4 a (v4y v) (v4z v) (v4w v).
Definition set_v4y (v : Vec4) (a : Q) := mkVec4 (v4x v) a (v4z v) (v4w v).
Definition set_v4z (v : Vec4) (a : Q) := mkVec4 (v4x v) (v4y v) a (v4w v).
Definition set_v4w (v : Vec4) (a : Q) := mkVec4 (v4x v) (v4y v) (v4z v) a.

Definition set_vp_left (v : Viewport) (a : Z) :=
  mkViewport a (vp_top v) (vp_width v) (vp_height v).
Definition set_vp_top (v : Viewport) (a : Z) :=
  mkViewport (vp_left v) a (vp_width v) (vp_height v).
Definition set_vp_width (v : Viewport) (a : Z) :=
  mkViewport (vp_left v) (vp_top v) a (vp_height v).
Definition set_vp_height (v : Viewport) (a : Z) :=
  mkViewport (vp_left v) (vp_top v) (vp_width v) a.

Definition material_of (t : BuiltinForwardPipeline) (m : MaterialRef) : Mat :=
  match m with
  | copyAndTonemapMaterial => _copyAndTonemapMaterial t
  | dofMaterial => _dofMaterial t
  | bloomMaterial => _bloomMaterial t
  | fxaaMaterial => _fxaaMaterial t
  end.

(* ================================================================== *)
(** ** Common passes *)

Definition _addCascadedShadowMapPass (id : nat) (light : DirectionalLight)
    (camera : Camera) : M unit :=
  p <- ppl ;;
  let width := v2x (shadows_size (pipelineSceneData p)) in
  let height := v2y (shadows_size (pipelineSceneData p)) in
  assign (fun t => set__viewport t (set_vp_left (_viewport t) 0)) ;;
  assign (fun t => set__viewport t (set_vp_top (_viewport t) 0)) ;;
  assign (fun t => set__viewport t (set_vp_width (_viewport t) width)) ;;
  assign (fun t => set__viewport t (set_vp_height (_viewport t) height)) ;;
  pass <- addRenderPass width height "default" ;;
  set_name pass "CSM" ;;
  addRenderTarget pass ("ShadowMap" +++ str_of_nat id)
    LoadOp.CLEAR (Some StoreOp.STORE) (Some white) ;;
  addDepthStencil pass ("ShadowDepth" +++ str_of_nat id)
    LoadOp.CLEAR (Some StoreOp.DISCARD) None None None ;;
  let csmLevel :=
    if csmSupported (pipelineSceneData p)
    then CSMLevel_value (csmLevel light) else 1%nat in
  for_of (seq 0 csmLevel) (fun level =>
    assign (fun t =>
      set__viewport t
        (getCsmMainLightViewport light width height (Z.of_nat level)
           (_viewport t) (screenSpaceSignY (_configs t)))) ;;
    queue <- addQueue pass QueueHint.NONE (Some "shadow-caster") ;;
    t <- this ;;
    queue_setViewport queue (_viewport t) ;;
    sb <- addScene queue camera shadow_caster_flags None ;;
    useLightFrustum sb (TheMainLight light) (Some level)).

Definition _addCopyPass (width height : Z) (input output : string)
    : M PassBuilder :=
  pass <- addRenderPass width height "post-copy" ;;
  t <- this ;;
  addRenderTarget pass output LoadOp.CLEAR (Some StoreOp.STORE)
    (Some (_clearColorOpaqueBlack t)) ;;
  addTexture pass input "inputTexture" ;;
  setVec4 pass "g_platform" (g_platform (_configs t)) ;;
  queue <- addQueue pass QueueHint.OPAQUE None ;;
  addFullscreenQuad queue copyAndTonemapMaterial 2 ;;
  ret pass.

Definition _addCopyAndTonemapPass (width height : Z)
    (radianceName colorName : string) : M PassBuilder :=
  pass <- addRenderPass width height "post-final-tonemap" ;;
  t <- this ;;
  addRenderTarget pass colorName LoadOp.CLEAR (Some StoreOp.STORE)
    (Some (_clearColorOpaqueBlack t)) ;;
  addTexture pass radianceName "inputTexture" ;;
  setVec4 pass "g_platform" (g_platform (_configs t)) ;;
  queue <- addQueue pass QueueHint.OPAQUE None ;;
  addFullscreenQuad queue copyAndTonemapMaterial 1 ;;
  ret pass.

Definition main_light_ref (mainLight : option DirectionalLight)
    : option LightRef :=
  option_map TheMainLight mainLight.

Definition _buildForwardMainLightPass (pass : PassBuilder) (id : nat)
    (camera : Camera) (colorName depthStencilName : string)
    (mainLight : option DirectionalLight) : M unit :=
  t <- this ;;
  setViewport pass (_viewport t) ;;
  (if forwardNeedClearColor camera then
     addRenderTarget pass colorName LoadOp.CLEAR (Some StoreOp.STORE)
       (Some (_clearColor t))
   else
     addRenderTarget pass colorName LoadOp.LOAD None None) ;;
  (if negb (Z.land (clearFlag camera) ClearFlagBit_DEPTH_STENCIL =? 0) then
     addDepthStencil pass depthStencilName LoadOp.CLEAR (Some StoreOp.STORE)
       (Some (clearDepth camera)) (Some (clearStencil camera))
       (Some (Z.land (clearFlag camera) ClearFlagBit_DEPTH_STENCIL))
   else
     addDepthStencil pass depthStencilName LoadOp.LOAD None None None None) ;;
  (if enableShadowMap (_cameraConfigs t) then
     addTexture pass ("ShadowMap" +++ str_of_nat id) "cc_shadowMap"
   else ret tt) ;;
  queue <- addQueue pass QueueHint.NONE None ;;
  addScene queue camera ([SceneFlags.OPAQUE] ++ [SceneFlags.MASK])
    (main_light_ref mainLight) ;;
  ret tt.

Definition _addDepthOfFieldPasses (settings : PipelineSettings) (id : nat)
    (camera : Camera) (width height : Z)
    (dofRadianceName depthStencil radianceName : string) : M unit :=
  let dof := depthOfField settings in
  assign (fun t => set__cocParams t (set_v4x (_cocParams t) (focusDistance dof))) ;;
  assign (fun t => set__cocParams t (set_v4y (_cocParams t) (focusRange dof))) ;;
  assign (fun t => set__cocParams t (set_v4z (_cocParams t) (bokehRadius dof))) ;;
  assign (fun t => set__cocParams t (set_v4w (_cocParams t) 0)) ;;
  assign (fun t => set__cocTexSize t (set_v4x (_cocTexSize t) (js_div 1 (inject_Z width)))) ;;
  assign (fun t => set__cocTexSize t (set_v4y (_cocTexSize t) (js_div 1 (inject_Z height)))) ;;
  assign (fun t => set__cocTexSize t (set_v4z (_cocTexSize t) (inject_Z width))) ;;
  assign (fun t => set__cocTexSize t (set_v4w (_cocTexSize t) (inject_Z height))) ;;
  assign (fun t =>
    set__dofMaterial t (setProperty (_dofMaterial t) "cocParams" (_cocParams t))) ;;
  assign (fun t =>
    set__dofMaterial t
      (setProperty (_dofMaterial t) "mainTexTexelSize" (_cocTexSize t))) ;;
  let halfWidth := half_size width in
  let halfHeight := half_size height in
  let cocName := "LdrColor" +++ str_of_nat id in
  let prefilterName := "DofPrefilter" +++ str_of_nat id in
  let bokehName := "DofBokeh" +++ str_of_nat id in
  let filterName := "DofFilter" +++ str_of_nat id in
  t <- this ;;
  let black := Some (_clearColorOpaqueBlack t) in
  let platform := g_platform (_configs t) in
  (* CoC *)
  cocPass <- addRenderPass width height "dof-coc" ;;
  addRenderTarget cocPass cocName LoadOp.CLEAR (Some StoreOp.STORE) black ;;
  addTexture cocPass depthStencil "DepthTex" ;;
  queue <- addQueue cocPass QueueHint.OPAQUE None ;;
  addCameraQuad queue camera dofMaterial 0 ;;
  (* Downsample and Prefilter *)
  prefilterPass <- addRenderPass halfWidth halfHeight "dof-prefilter" ;;
  addRenderTarget prefilterPass prefilterName LoadOp.CLEAR (Some StoreOp.STORE) black ;;
  addTexture prefilterPass cocName "cocTex" ;;
  addTexture prefilterPass dofRadianceName "colorTex" ;;
  setVec4 prefilterPass "cc_cameraPos" platform ;;
  queue <- addQueue prefilterPass QueueHint.OPAQUE None ;;
  addFullscreenQuad queue dofMaterial 1 ;;
  (* Bokeh blur *)
  bokehPass <- addRenderPass halfWidth halfHeight "dof-bokeh" ;;
  addRenderTarget bokehPass bokehName LoadOp.CLEAR (Some StoreOp.STORE) black ;;
  addTexture bokehPass prefilterName "prefilterTex" ;;
  setVec4 bokehPass "cc_cameraPos" platform ;;
  queue <- addQueue bokehPass QueueHint.OPAQUE None ;;
  addFullscreenQuad queue dofMaterial 2 ;;
  (* Filtering *)
  filterPass <- addRenderPass halfWidth halfHeight "dof-filter" ;;
  addRenderTarget filterPass filterName LoadOp.CLEAR (Some StoreOp.STORE) black ;;
  addTexture filterPass bokehName "bokehTex" ;;
  setVec4 filterPass "cc_cameraPos" platform ;;
  queue <- addQueue filterPass QueueHint.OPAQUE None ;;
  addFullscreenQuad queue dofMaterial 3 ;;
  (* Combine *)
  combinePass <- addRenderPass width height "dof-combine" ;;
  addRenderTarget combinePass radianceName LoadOp.CLEAR (Some StoreOp.STORE) black ;;
  addTexture combinePass filterName "filterTex" ;;
  addTexture combinePass dofRadianceName "colorTex" ;;
  addTexture combinePass cocName "cocTex" ;;
  setVec4 combinePass "cc_cameraPos" platform ;;
  queue <- addQueue combinePass QueueHint.OPAQUE None ;;
  addFullscreenQuad queue dofMaterial 4.

Definition bloomTexName (id i : nat) : string :=
  "BloomTex" +++ str_of_nat id +++ "_" +++ str_of_nat i.

Definition _addKawaseDualFilterBloomPasses (settings : PipelineSettings)
    (id : nat) (width height : Z) (radianceName : string) : M unit :=
  let iterations := iterations (bloom settings) in
  let sizeCount := (iterations + 1)%nat in
  assign (fun t => set__bloomWidths t (array_set_length 0 sizeCount (_bloomWidths t))) ;;
  assign (fun t => set__bloomHeights t (array_set_length 0 sizeCount (_bloomHeights t))) ;;
  assign (fun t => set__bloomWidths t (array_store 0 0 (half_size width) (_bloomWidths t))) ;;
  assign (fun t => set__bloomHeights t (array_store 0 0 (half_size height) (_bloomHeights t))) ;;
  for_of (seq 1 iterations) (fun i =>
    assign (fun t =>
      set__bloomWidths t
        (array_store 0 i (half_size (array_load 0 (i - 1) (_bloomWidths t)))
           (_bloomWidths t))) ;;
    assign (fun t =>
      set__bloomHeights t
        (array_store 0 i (half_size (array_load 0 (i - 1) (_bloomHeights t)))
           (_bloomHeights t)))) ;;
  (* Bloom texture names *)
  assign (fun t =>
    set__bloomTexNames t (array_set_length "" sizeCount (_bloomTexNames t))) ;;
  for_of (seq 0 sizeCount) (fun i =>
    assign (fun t =>
      set__bloomTexNames t (array_store "" i (bloomTexName id i) (_bloomTexNames t)))) ;;
  (* Setup bloom parameters *)
  assign (fun t =>
    set__bloomParams t
      (set_v4x (_bloomParams t) (if useFloatOutput (_configs t) then 1 else 0))) ;;
  assign (fun t => set__bloomParams t (set_v4x (_bloomParams t) 0)) ;;
  assign (fun t =>
    set__bloomParams t (set_v4z (_bloomParams t) (threshold (bloom settings)))) ;;
  assign (fun t =>
    set__bloomParams t
      (set_v4w (_bloomParams t) (if enableAlphaMask (bloom settings) then 1 else 0))) ;;
  (* Prefilter pass *)
  t <- this ;;
  prefilterPass <-
    addRenderPass (array_load 0 0 (_bloomWidths t)) (array_load 0 0 (_bloomHeights t))
      "bloom1-prefilter" ;;
  addRenderTarget prefilterPass (array_load "" 0 (_bloomTexNames t))
    LoadOp.CLEAR (Some StoreOp.STORE) (Some (_clearColorOpaqueBlack t)) ;;
  addTexture prefilterPass radianceName "inputTexture" ;;
  setVec4 prefilterPass "g_platform" (g_platform (_configs t)) ;;
  setVec4 prefilterPass "bloomParams" (_bloomParams t) ;;
  queue <- addQueue prefilterPass QueueHint.OPAQUE None ;;
  addFullscreenQuad queue bloomMaterial 0 ;;
  (* Downsample passes *)
  for_of (seq 1 iterations) (fun i =>
    t <- this ;;
    downPass <-
      addRenderPass (array_load 0 i (_bloomWidths t)) (array_load 0 i (_bloomHeights t))
        "bloom1-downsample" ;;
    addRenderTarget downPass (array_load "" i (_bloomTexNames t))
      LoadOp.CLEAR (Some StoreOp.STORE) (Some (_clearColorOpaqueBlack t)) ;;
    addTexture downPass (array_load "" (i - 1) (_bloomTexNames t)) "bloomTexture" ;;
    assign (fun t =>
      set__bloomTexSize t
        (set_v4x (_bloomTexSize t) (inject_Z (array_load 0 (i - 1) (_bloomWidths t))))) ;;
    assign (fun t =>
      set__bloomTexSize t
        (set_v4y (_bloomTexSize t) (inject_Z (array_load 0 (i - 1) (_bloomHeights t))))) ;;
    t <- this ;;
    setVec4 downPass "g_platform" (g_platform (_configs t)) ;;
    setVec4 downPass "bloomTexSize" (_bloomTexSize t) ;;
    queue <- addQueue downPass QueueHint.OPAQUE None ;;
    addFullscreenQuad queue bloomMaterial 1) ;;
  (* Upsample passes *)
  for_of (rev (seq 0 iterations)) (fun i =>
    t <- this ;;
    upPass <-
      addRenderPass (array_load 0 i (_bloomWidths t)) (array_load 0 i (_bloomHeights t))
        "bloom1-upsample" ;;
    addRenderTarget upPass (array_load "" i (_bloomTexNames t))
      LoadOp.CLEAR (Some StoreOp.STORE) (Some (_clearColorOpaqueBlack t)) ;;
    addTexture upPass (array_load "" (i + 1) (_bloomTexNames t)) "bloomTexture" ;;
    assign (fun t =>
      set__bloomTexSize t
        (set_v4x (_bloomTexSize t) (inject_Z (array_load 0 (i + 1) (_bloomWidths t))))) ;;
    assign (fun t =>
      set__bloomTexSize t
        (set_v4y (_bloomTexSize t) (inject_Z (array_load 0 (i + 1) (_bloomHeights t))))) ;;
    t <- this ;;
    setVec4 upPass "g_platform" (g_platform (_configs t)) ;;
    setVec4 upPass "bloomTexSize" (_bloomTexSize t) ;;
    queue <- addQueue upPass QueueHint.OPAQUE None ;;
    addFullscreenQuad queue bloomMaterial 2) ;;
  (* Combine pass *)
  t <- this ;;
  combinePass <- addRenderPass width height "bloom1-combine" ;;
  addRenderTarget combinePass radianceName LoadOp.LOAD (Some StoreOp.STORE) None ;;
  addTexture combinePass (array_load "" 0 (_bloomTexNames t)) "bloomTexture" ;;
  setVec4 combinePass "g_platform" (g_platform (_configs t)) ;;
  setVec4 combinePass "bloomParams" (_bloomParams t) ;;
  queue <- addQueue combinePass QueueHint.BLEND None ;;
  addFullscreenQuad queue bloomMaterial 3.

Definition _addFxaaPass (width height : Z) (ldrColorName colorName : string)
    : M PassBuilder :=
  assign (fun t =>
    set__fxaaMaterial t
      (setProperty (_fxaaMaterial t) "texSize"
         (mkVec4 (inject_Z width) (inject_Z height)
            (js_div 1 (inject_Z width)) (js_div 1 (inject_Z height))))) ;;
  pass <- addRenderPass width height "fxaa" ;;
  t <- this ;;
  addRenderTarget pass colorName LoadOp.CLEAR (Some StoreOp.STORE)
    (Some (_clearColorOpaqueBlack t)) ;;
  addTexture pass ldrColorName "sceneColorMap" ;;
  setVec4 pass "cc_cameraPos" (g_platform (_configs t)) ;;
  queue <- addQueue pass QueueHint.OPAQUE None ;;
  addFullscreenQuad queue fxaaMaterial 0 ;;
  ret pass.

Definition _addUIQueue (camera : Camera) (pass : PassBuilder) : M unit :=
  t <- this ;;
  let flags := [SceneFlags.UI] in
  flags <-
    (if enableProfiler (_cameraConfigs t) then
       set_showStatisticsOf pass true ;;
       ret (flags ++ [SceneFlags.PROFILER])
     else ret flags) ;;
  queue <- addQueue pass QueueHint.BLEND None ;;
  addScene queue camera flags None ;;
  ret tt.

(** The "dynamic states" block shared by the two radiance builders: the
    camera's clear colour and its viewport in pixels. *)
Definition prepare_dynamic_states (camera : Camera) (width height : Z) : M unit :=
  assign (fun t => set__clearColor t (set_v4x (_clearColor t) (v4x (clearColor camera)))) ;;
  assign (fun t => set__clearColor t (set_v4y (_clearColor t) (v4y (clearColor camera)))) ;;
  assign (fun t => set__clearColor t (set_v4z (_clearColor t) (v4z (clearColor camera)))) ;;
  assign (fun t => set__clearColor t (set_v4w (_clearColor t) (v4w (clearColor camera)))) ;;
  assign (fun t =>
    set__viewport t
      (set_vp_left (_viewport t) (Qfloor (js_mul (v4x (cam_viewport camera)) (inject_Z width))))) ;;
  assign (fun t =>
    set__viewport t
      (set_vp_top (_viewport t) (Qfloor (js_mul (v4y (cam_viewport camera)) (inject_Z height))))) ;;
  assign (fun t =>
    set__viewport t
      (set_vp_width (_viewport t) (Qfloor (js_mul (v4z (cam_viewport camera)) (inject_Z width))))) ;;
  assign (fun t =>
    set__viewport t
      (set_vp_height (_viewport t) (Qfloor (js_mul (v4w (cam_viewport camera)) (inject_Z height))))).

(* ================================================================== *)
(** ** Desktop *)

Definition _addForwardRadiancePasses (id : nat) (camera : Camera)
    (width height : Z) (mainLight : option DirectionalLight)
    (colorName depthStencilName : string) : M PassBuilder :=
  prepare_dynamic_states camera width height ;;
  pass <- addRenderPass width height "default" ;;
  set_name pass "ForwardPass" ;;
  _buildForwardMainLightPass pass id camera colorName depthStencilName mainLight ;;
  lastPass <-
    addLightPasses colorName depthStencilName id width height camera pass ;;
  queue <- addQueue lastPass QueueHint.BLEND None ;;
  addScene queue camera [SceneFlags.BLEND] (main_light_ref mainLight) ;;
  ret lastPass.

(* ================================================================== *)
(** ** Mobile *)

Definition _addMobileForwardRadiancePass (id : nat) (camera : Camera)
    (width height : Z) (colorName depthStencilName : string)
    (mainLight : option DirectionalLight) : M PassBuilder :=
  prepare_dynamic_states camera width height ;;
  pass <- addRenderPass width height "default" ;;
  set_name pass "ForwardPass" ;;
  _buildForwardMainLightPass pass id camera colorName depthStencilName mainLight ;;
  t <- this ;;
  addMobileLightQueues pass camera (mobileMaxSpotLightShadowMaps (_configs t)) ;;
  queue <- addQueue pass QueueHint.BLEND None ;;
  addScene queue camera [SceneFlags.BLEND] (main_light_ref mainLight) ;;
  ret pass.

(* ================================================================== *)
(** ** Pipelines *)

(** [this.forwardLighting.cullLights(scene, frustum, cameraPos?)] *)
Definition do_cullLights (scene : RenderScene) (frustum : Frustum)
    (cameraPos : option Vec3) : M unit :=
  assign (fun t =>
    set_forwardLighting t (cullLights (forwardLighting t) scene frustum cameraPos)).

Definition _buildForwardPipeline (camera : Camera) (scene : RenderScene)
    : M unit :=
  t <- this ;;
  let settings := pipelineSettings (_cameraConfigs t) in
  window <- deref (window camera) ;;
  let nativeWidth := native_size (win_width window) in
  let nativeHeight := native_size (win_height window) in
  let width := working_size (_cameraConfigs t) nativeWidth in
  let height := working_size (_cameraConfigs t) nativeHeight in
  let id := renderWindowId window in
  let colorName := colorName window in
  let depthStencilName := depthStencilName window in
  let dofRadianceName := "DofRadiance" +++ str_of_nat id in
  let radianceName := "Radiance" +++ str_of_nat id in
  let ldrColorName := "LdrColor" +++ str_of_nat id in
  let aaColorName := "AaColor" +++ str_of_nat id in
  let mainLight := mainLight scene in
  (* Forward Lighting (Light Culling) *)
  do_cullLights scene (frustum camera) None ;;
  (* Main Directional light CSM Shadow Map *)
  (if enableShadowMap (_cameraConfigs t) then
     light <- deref mainLight ;;
     _addCascadedShadowMapPass id light camera
   else ret tt) ;;
  (* Forward Lighting *)
  lastPass <-
    (if useFloatOutput (_configs t) then
       match enablePostProcess (_cameraConfigs t), settings with
       | true, Some settings =>
           (if supportDepthSample (_configs t) && dof_enabled (depthOfField settings)
            then
              _addForwardRadiancePasses id camera width height mainLight
                dofRadianceName depthStencilName ;;
              _addDepthOfFieldPasses settings id camera width height
                dofRadianceName depthStencilName radianceName
            else
              _addForwardRadiancePasses id camera width height mainLight
                radianceName depthStencilName ;;
              ret tt) ;;
           (if bloom_enabled (bloom settings) then
              _addKawaseDualFilterBloomPasses settings id width height radianceName
            else ret tt) ;;
           if fxaa_enabled (fxaa settings) then
             _addCopyAndTonemapPass width height radianceName ldrColorName ;;
             if enableShadingScale (_cameraConfigs t) then
               _addFxaaPass width height ldrColorName aaColorName ;;
               _addCopyPass nativeWidth nativeHeight aaColorName colorName
             else
               _addFxaaPass nativeWidth nativeHeight ldrColorName colorName
           else
             _addCopyAndTonemapPass nativeWidth nativeHeight radianceName colorName
       | _, _ =>
           _addForwardRadiancePasses id camera width height mainLight
             radianceName depthStencilName ;;
           _addCopyAndTonemapPass nativeWidth nativeHeight radianceName colorName
       end
     else if enableShadingScale (_cameraConfigs t) then
       _addForwardRadiancePasses id camera width height mainLight
         radianceName depthStencilName ;;
       _addCopyAndTonemapPass nativeWidth nativeHeight radianceName colorName
     else
       _addForwardRadiancePasses id camera nativeWidth nativeHeight mainLight
         colorName depthStencilName) ;;
  (* UI size is not scaled, does not have AA *)
  _addUIQueue camera lastPass.

Definition _buildMobileForwardPipeline (camera : Camera) (scene : RenderScene)
    : M unit :=
  t <- this ;;
  window <- deref (window camera) ;;
  let nativeWidth := native_size (win_width window) in
  let nativeHeight := native_size (win_height window) in
  let width := working_size (_cameraConfigs t) nativeWidth in
  let height := working_size (_cameraConfigs t) nativeHeight in
  let id := renderWindowId window in
  let colorName := colorName window in
  let depthStencilName := depthStencilName window in
  let radianceName := "Radiance" +++ str_of_nat id in
  let mainLight := mainLight scene in
  (* Forward Lighting (Light Culling) *)
  do_cullLights scene (frustum camera) (Some (cam_position camera)) ;;
  (* Main Directional light CSM shadow map *)
  (if enableShadowMap (_cameraConfigs t) then
     light <- deref mainLight ;;
     _addCascadedShadowMapPass id light camera
   else ret tt) ;;
  (* Spot light shadow maps *)
  addMobileShadowPasses camera (mobileMaxSpotLightShadowMaps (_configs t)) ;;
  (* Forward Lighting *)
  lastPass <-
    (if useFloatOutput (_configs t) || enableShadingScale (_cameraConfigs t) then
       _addMobileForwardRadiancePass id camera width height
         radianceName depthStencilName mainLight ;;
       _addCopyAndTonemapPass nativeWidth nativeHeight radianceName colorName
     else
       _addMobileForwardRadiancePass id camera nativeWidth nativeHeight
         colorName depthStencilName mainLight) ;;
  _addUIQueue camera lastPass.

(* ================================================================== *)
(** ** Interface: [windowResize] and [setup] *)

(** The bloom targets of [windowResize]: the loop from index [i], with the
    running [bloomWidth] and [bloomHeight]. *)
Fixpoint declare_bloom_targets (id : nat) (idx : list nat)
    (bloomWidth bloomHeight : Z) : M unit :=
  match idx with
  | [] => ret tt
  | i :: idx' =>
      let bloomWidth := half_size bloomWidth in
      let bloomHeight := half_size bloomHeight in
      ppl_addRenderTarget (bloomTexName id i) Format.RGBA16F bloomWidth bloomHeight ;;
      declare_bloom_targets id idx' bloomWidth bloomHeight
  end.

Definition windowResize (host : Host) (window : RenderWindow) (camera : Camera)
    (nativeWidth nativeHeight : Z) : M unit :=
  p <- ppl ;;
  assign (fun t => set__configs t (setupPipelineConfigs host p (_configs t))) ;;
  t <- this ;;
  cc <- deref (setupCameraConfigs host camera (_configs t) (_cameraConfigs t)) ;;
  assign (fun t => set__cameraConfigs t cc) ;;
  t <- this ;;
  let settings := pipelineSettings (_cameraConfigs t) in
  let id := renderWindowId window in
  let width := working_size (_cameraConfigs t) nativeWidth in
  let height := working_size (_cameraConfigs t) nativeHeight in
  (* Render Window (UI) *)
  ppl_addRenderWindow (colorName window) Format.BGRA8 nativeWidth nativeHeight ;;
  (* Radiance *)
  (if useFloatOutput (_configs t) then
     ppl_addRenderTarget ("Radiance" +++ str_of_nat id) Format.RGBA16F width height
   else if enableShadingScale (_cameraConfigs t) then
     ppl_addRenderTarget ("Radiance" +++ str_of_nat id) Format.RGBA8 width height
   else ret tt) ;;
  ppl_addDepthStencil (depthStencilName window) Format.DEPTH_STENCIL width height ;;
  (* Mainlight ShadowMap *)
  let sx := v2x (shadowMapSize (_configs t)) in
  let sy := v2y (shadowMapSize (_configs t)) in
  ppl_addRenderTarget ("ShadowMap" +++ str_of_nat id) (shadowMapFormat (_configs t)) sx sy ;;
  ppl_addDepthStencil ("ShadowDepth" +++ str_of_nat id) Format.DEPTH_STENCIL sx sy ;;
  (* Mobile spot-light shadow map *)
  (if isMobile (_configs t) then
     let count := mobileMaxSpotLightShadowMaps (_configs t) in
     for_of (seq 0 count) (fun i =>
       ppl_addRenderTarget ("SpotShadowMap" +++ str_of_nat i)
         (shadowMapFormat (_configs t)) sx sy ;;
       ppl_addDepthStencil ("SpotShadowDepth" +++ str_of_nat i)
         Format.DEPTH_STENCIL sx sy)
   else ret tt) ;;
  (* Post Process *)
  match enablePostProcess (_cameraConfigs t), settings with
  | true, Some settings =>
      (if fxaa_enabled (fxaa settings) || dof_enabled (depthOfField settings) then
         ppl_addRenderTarget ("LdrColor" +++ str_of_nat id) Format.RGBA8 width height
       else ret tt) ;;
      (if fxaa_enabled (fxaa settings) && enableShadingScale (_cameraConfigs t) then
         ppl_addRenderTarget ("AaColor" +++ str_of_nat id) Format.RGBA8 width height
       else ret tt) ;;
      (if dof_enabled (depthOfField settings) then
         let halfWidth := half_size width in
         let halfHeight := half_size height in
         ppl_addRenderTarget ("DofRadiance" +++ str_of_nat id) Format.RGBA16F width height ;;
         ppl_addRenderTarget ("DofPrefilter" +++ str_of_nat id) Format.RGBA16F halfWidth halfHeight ;;
         ppl_addRenderTarget ("DofBokeh" +++ str_of_nat id) Format.RGBA16F halfWidth halfHeight ;;
         ppl_addRenderTarget ("DofFilter" +++ str_of_nat id) Format.RGBA16F halfWidth halfHeight
       else ret tt) ;;
      (if bloom_enabled (bloom settings) then
         declare_bloom_targets id (seq 0 (iterations (bloom settings) + 1)) width height
       else ret tt)
  | _, _ => ret tt
  end.

Definition init_material (host : Host) (m : Mat) (uuid effectName : string) : Mat :=
  Material_initialize (assets host) (set_uuid m uuid) effectName.

Definition isNull {A} (o : option A) : bool :=
  match o with Some _ => false | None => true end.

Definition _initMaterials (host : Host) : M nat :=
  t <- this ;;
  if _initialized t then ret 0%nat
  else
    p <- ppl ;;
    assign (fun t => set__configs t (setupPipelineConfigs host p (_configs t))) ;;
    assign (fun t =>
      set__copyAndTonemapMaterial t
        (init_material host (_copyAndTonemapMaterial t)
           "custom-forward-post-final-tonemap-material"
           "pipeline/post-process/post-final")) ;;
    assign (fun t =>
      set__dofMaterial t
        (init_material host (_dofMaterial t)
           "custom-forward-post-dof-material" "pipeline/post-process/dof")) ;;
    assign (fun t =>
      set__bloomMaterial t
        (init_material host (_bloomMaterial t)
           "custom-forward-post-bloom-material" "pipeline/post-process/bloom1")) ;;
    assign (fun t =>
      set__fxaaMaterial t
        (init_material host (_fxaaMaterial t)
           "custom-forward-post-fxaa-material" "pipeline/post-process/fxaa-hq")) ;;
    t <- this ;;
    (if negb (isNull (effectAsset (_copyAndTonemapMaterial t)))
        && negb (isNull (effectAsset (_dofMaterial t)))
        && negb (isNull (effectAsset (_bloomMaterial t)))
        && negb (isNull (effectAsset (_fxaaMaterial t)))
     then assign (fun t => set__initialized t true)
     else ret tt) ;;
    t <- this ;;
    ret (if _initialized t then 0 else 1)%nat.

(** The body of the camera loop of [setup]. *)
Definition setup_camera (host : Host) (camera : Camera) : M unit :=
  match scene camera, window camera with
  | Some sc, Some _ =>
      t <- this ;;
      cc <- deref (setupCameraConfigs host camera (_configs t) (_cameraConfigs t)) ;;
      assign (fun t => set__cameraConfigs t cc) ;;
      t <- this ;;
      if isMobile (_configs t) then _buildMobileForwardPipeline camera sc
      else _buildForwardPipeline camera sc
  | _, _ => ret tt
  end.

Definition setup (host : Host) (cameras : list Camera) : M unit :=
  r <- _initMaterials host ;;
  if negb (r =? 0)%nat then ret tt
  else for_of cameras (setup_camera host).

End Pipeline.

Arguments mkRangedDirectionalLight {E} _ _.
Arguments mkRenderScene {E} _ _ _ _ _.
Arguments mkCamera {E} _ _ _ _ _ _ _ _ _ _ _ _.
Arguments mkHost {E} _ _ _ _ _.
Arguments mkState {E} _ _.
Arguments mkBasicPipeline {E} _ _ _ _ _.
Arguments mkRenderPass {E} _ _ _ _ _ _ _ _ _ _ _.
Arguments mkRenderQueue {E} _ _ _ _ _.

(* ================================================================== *)
(** ** A small engine to run the embedding on

    The frustum is the half space [z <= far]; a world matrix is a
    translation; an effect is loaded when the asset manager lists its
    name. *)

Definition toy_sphereFrustum (s : Sphere) (far : Q) : bool :=
  Qle_bool (v3z (center s) - radius s) far.

Definition toy_aabbFrustum (b : AABB) (far : Q) : bool :=
  Qle_bool (v3z (aabb_center b) - v3z (halfExtents b)) far.

Definition toy_transform (a : AABB) (m : Vec3) : AABB :=
  mkAABB (mkVec3 (v3x (aabb_center a) + v3x m)
                 (v3y (aabb_center a) + v3y m)
                 (v3z (aabb_center a) + v3z m))
         (halfExtents a).

Definition toy_initialize (loaded : list string) (m : Material string)
    (effectName : string) : Material string :=
  {| _uuid := _uuid m;
     effectAsset :=
       if existsb (String.eqb effectName) loaded then Some effectName else None;
     properties := properties m |}.

Definition toy : Engine :=
  {| Frustum := Q;
     Mat4 := Vec3;
     sphereFrustum := toy_sphereFrustum;
     aabbFrustum := toy_aabbFrustum;
     AABB_transform := toy_transform;
     AssetDB := list string;
     EffectAsset := string;
     Material_initialize := toy_initialize;
     ClearFlagBit_COLOR := 1;
     ClearFlagBit_STENCIL := 4;
     ClearFlagBit_DEPTH_STENCIL := 6;
     FormatFeatureBit_SAMPLED_TEXTURE := 2;
     FormatFeatureBit_LINEAR_FILTER := 4 |}.

(** The notations of the builder monad, for the rest of the file. *)
Notation "x <- c ;; k" := (bind c (fun x => k))
  (at level 61, c at next level, right associativity).
Notation "c ;; k" := (bind c (fun _ => k))
  (at level 61, right associativity).

Unset Implicit Arguments.

(* ================================================================== *)
(** * Part II: what the builders are expected to add *)

Section Expected.
Context {E : Engine}.

(** [st] with the passes of its render graph replaced. *)
Definition with_passes (t : BuiltinForwardPipeline) (p : BasicPipeline)
    (ps : list RenderPass) : State :=
  mkState t (set_passes p ps).

Definition add_queues (p : RenderPass) (qs : list RenderQueue) : RenderPass :=
  set_queues p (queues p ++ qs).

(** The queue of one active light. *)
Definition light_queue (camera : Camera) (light : Light) : RenderQueue :=
  mkRenderQueue QueueHint.BLEND (Some "forward-add") (light_queue_name light) None
    [SceneItem camera [SceneFlags.BLEND] (Some (ALight light)) None].

Definition shadow_caster_queue (camera : Camera) (vp : option Viewport)
    (light : LightRef) (level : option nat) : RenderQueue :=
  mkRenderQueue QueueHint.NONE (Some "shadow-caster") "" vp
    [SceneItem camera shadow_caster_flags None (Some (light, level))].

Definition blend_queue (camera : Camera) (light : option LightRef) : RenderQueue :=
  mkRenderQueue QueueHint.BLEND None "" None
    [SceneItem camera [SceneFlags.BLEND] light None].

(** Desktop: the two passes of one shadow-casting spot light. *)
Definition spot_shadow_pass (camera : Camera) (size : Vec2) (id : nat)
    (light : SpotLight) : RenderPass :=
  mkRenderPass (v2x size) (v2y size) "default" "SpotlightShadowPass" false None
    [mkRenderTarget ("ShadowMap" +++ str_of_nat id) LoadOp.CLEAR
       (Some StoreOp.STORE) (Some white)]
    [mkDepthStencil ("ShadowDepth" +++ str_of_nat id) LoadOp.CLEAR
       (Some StoreOp.DISCARD) None None None]
    [] []
    [shadow_caster_queue camera None (ALight (OfSpot light)) None].

Definition spot_lit_pass (camera : Camera) (width height : Z)
    (colorName depthStencilName : string) (id : nat) (light : SpotLight)
    : RenderPass :=
  mkRenderPass width height "default" "SpotlightWithShadowMap" false None
    [mkRenderTarget colorName LoadOp.LOAD None None]
    [mkDepthStencil depthStencilName LoadOp.LOAD None None None None]
    [("ShadowMap" +++ str_of_nat id, "cc_spotShadowMap")] []
    [mkRenderQueue QueueHint.BLEND (Some "forward-add") "" None
       [SceneItem camera [SceneFlags.BLEND] (Some (ALight (OfSpot light))) None]].

Definition spot_light_passes (camera : Camera) (size : Vec2) (width height : Z)
    (colorName depthStencilName : string) (id : nat) (ls : list SpotLight)
    : list RenderPass :=
  flat_map (fun l =>
    [spot_shadow_pass camera size id l;
     spot_lit_pass camera width height colorName depthStencilName id l]) ls.

(** Mobile: the shadow pass of the [i]-th shadow-casting spot light. *)
Definition mobile_shadow_pass (camera : Camera) (size : Vec2) (i : nat)
    (light : SpotLight) : RenderPass :=
  mkRenderPass (v2x size) (v2y size) "default"
    ("SpotLightShadowPass" +++ str_of_nat i) false None
    [mkRenderTarget ("SpotShadowMap" +++ str_of_nat i) LoadOp.CLEAR
       (Some StoreOp.STORE) (Some white)]
    [mkDepthStencil ("SpotShadowDepth" +++ str_of_nat i) LoadOp.CLEAR
       (Some StoreOp.DISCARD) None None None]
    [] []
    [shadow_caster_queue camera None (ALight (OfSpot light)) None].

Fixpoint mobile_shadow_passes (camera : Camera) (size : Vec2) (i : nat)
    (ls : list SpotLight) : list RenderPass :=
  match ls with
  | [] => []
  | l :: ls' =>
      mobile_shadow_pass camera size i l
      :: mobile_shadow_passes camera size (S i) ls'
  end.

(** Apply [f] to the last element of a list. *)
Fixpoint on_last {A} (f : A -> A) (l : list A) : list A :=
  match l with
  | [] => []
  | [x] => [f x]
  | x :: l' => x :: on_last f l'
  end.

(** A pass is a spot-light shadow-caster pass of the desktop variant. *)
Definition is_spot_shadow_pass (p : RenderPass) : bool :=
  String.eqb (pass_name p) "SpotlightShadowPass".

End Expected.

Section Expected2.
Context {E : Engine}.

(** Desktop: the passes after the loop of [addLightPasses], as the passes
    before the current one and the current one. *)
Definition spot_chain (camera : Camera) (size : Vec2) (width height : Z)
    (colorName depthStencilName : string) (id : nat) (ls : list SpotLight)
    (start : list RenderPass * RenderPass) : list RenderPass * RenderPass :=
  fold_left
    (fun acc l =>
       ((fst acc ++ [snd acc]) ++ [spot_shadow_pass camera size id l],
        spot_lit_pass camera width height colorName depthStencilName id l))
    ls start.

(** The camera's viewport in pixels and its clear colour, as the "dynamic
    states" block leaves them in [this]. *)
Definition camera_viewport (camera : Camera) (width height : Z) : Viewport :=
  mkViewport (Qfloor (js_mul (v4x (cam_viewport camera)) (inject_Z width)))
             (Qfloor (js_mul (v4y (cam_viewport camera)) (inject_Z height)))
             (Qfloor (js_mul (v4z (cam_viewport camera)) (inject_Z width)))
             (Qfloor (js_mul (v4w (cam_viewport camera)) (inject_Z height))).

Definition camera_clearColor (camera : Camera) : Color :=
  mkVec4 (v4x (clearColor camera)) (v4y (clearColor camera))
         (v4z (clearColor camera)) (v4w (clearColor camera)).

Definition prepared (t : BuiltinForwardPipeline) (camera : Camera)
    (width height : Z) : BuiltinForwardPipeline :=
  set__viewport (set__clearColor t (camera_clearColor camera))
    (camera_viewport camera width height).

(** The forward pass as [_buildForwardMainLightPass] leaves it. *)
Definition forward_pass (cameraConfigs : CameraConfigs) (camera : Camera)
    (width height : Z) (id : nat) (colorName depthStencilName : string)
    (mainLight : option DirectionalLight) : RenderPass :=
  mkRenderPass width height "default" "ForwardPass" false
    (Some (camera_viewport camera width height))
    [if forwardNeedClearColor camera
     then mkRenderTarget colorName LoadOp.CLEAR (Some StoreOp.STORE)
            (Some (camera_clearColor camera))
     else mkRenderTarget colorName LoadOp.LOAD None None]
    [if negb (Z.land (clearFlag camera) ClearFlagBit_DEPTH_STENCIL =? 0)
     then mkDepthStencil depthStencilName LoadOp.CLEAR (Some StoreOp.STORE)
            (Some (clearDepth camera)) (Some (clearStencil camera))
            (Some (Z.land (clearFlag camera) ClearFlagBit_DEPTH_STENCIL))
     else mkDepthStencil depthStencilName LoadOp.LOAD None None None None]
    (if enableShadowMap cameraConfigs
     then [("ShadowMap" +++ str_of_nat id, "cc_shadowMap")] else [])
    []
    [mkRenderQueue QueueHint.NONE None "" None
       [SceneItem camera ([SceneFlags.OPAQUE] ++ [SceneFlags.MASK])
          (main_light_ref mainLight) None]].

(** The UI queue, and a pass after [_addUIQueue]. *)
Definition ui_queue (cameraConfigs : CameraConfigs) (camera : Camera)
    : RenderQueue :=
  mkRenderQueue QueueHint.BLEND None "" None
    [SceneItem camera
       (if enableProfiler cameraConfigs
        then [SceneFlags.UI] ++ [SceneFlags.PROFILER] else [SceneFlags.UI])
       None None].

Definition with_ui (cameraConfigs : CameraConfigs) (camera : Camera)
    (p : RenderPass) : RenderPass :=
  add_queues
    (if enableProfiler cameraConfigs then set_showStatistics p true else p)
    [ui_queue cameraConfigs camera].

(** The chain of passes of [_addForwardRadiancePasses]: the forward pass
    with the queues of the active lights, the two passes of every
    shadow-casting spot light, and the transparent queue on the last one. *)
Definition radiance_chain (t : BuiltinForwardPipeline) (size : Vec2)
    (camera : Camera) (width height : Z) (id : nat)
    (colorName depthStencilName : string) (mainLight : option DirectionalLight)
    (before : list RenderPass) : list RenderPass * RenderPass :=
  let c :=
    spot_chain camera size width height colorName depthStencilName id
      (shadowEnabledSpotLights (forwardLighting t))
      (before,
       add_queues
         (forward_pass (_cameraConfigs t) camera width height id
            colorName depthStencilName mainLight)
         (map (light_queue camera) (lights (forwardLighting t)))) in
  (fst c, add_queues (snd c) [blend_queue camera (main_light_ref mainLight)]).

Definition tonemap_pass (t : BuiltinForwardPipeline) (width height : Z)
    (radianceName colorName : string) : RenderPass :=
  mkRenderPass width height "post-final-tonemap" "" false None
    [mkRenderTarget colorName LoadOp.CLEAR (Some StoreOp.STORE)
       (Some (_clearColorOpaqueBlack t))]
    []
    [(radianceName, "inputTexture")]
    [("g_platform", g_platform (_configs t))]
    [mkRenderQueue QueueHint.OPAQUE None "" None
       [FullscreenQuad copyAndTonemapMaterial 1]].

End Expected2.

Section Expected3.
Context {E : Engine}.

(** The number of cascades that [_addCascadedShadowMapPass] renders. *)
Definition csm_levels (p : BasicPipeline) (light : DirectionalLight) : nat :=
  if csmSupported (pipelineSceneData p) then CSMLevel_value (csmLevel light)
  else 1%nat.

Definition csm_pass (t : BuiltinForwardPipeline) (p : BasicPipeline) (id : nat)
    (light : DirectionalLight) (camera : Camera) : RenderPass :=
  let width := v2x (shadows_size (pipelineSceneData p)) in
  let height := v2y (shadows_size (pipelineSceneData p)) in
  mkRenderPass width height "default" "CSM" false None
    [mkRenderTarget ("ShadowMap" +++ str_of_nat id) LoadOp.CLEAR
       (Some StoreOp.STORE) (Some white)]
    [mkDepthStencil ("ShadowDepth" +++ str_of_nat id) LoadOp.CLEAR
       (Some StoreOp.DISCARD) None None None]
    [] []
    (map (fun level =>
            shadow_caster_queue camera
              (Some (getCsmMainLightViewport light width height (Z.of_nat level)
                       (_viewport t) (screenSpaceSignY (_configs t))))
              (TheMainLight light) (Some level))
         (seq 0 (csm_levels p light))).

(** The size of bloom level [i]: the working size halved [i + 1] times. *)
Fixpoint bloom_size (x : Z) (i : nat) : Z :=
  match i with
  | O => half_size x
  | S i' => half_size (bloom_size x i')
  end.

Definition black_target (t : BuiltinForwardPipeline) (name : string)
    : RenderTarget :=
  mkRenderTarget name LoadOp.CLEAR (Some StoreOp.STORE)
    (Some (_clearColorOpaqueBlack t)).

Definition quad_queue (h : QueueHint.t) (m : MaterialRef) (passID : nat)
    : RenderQueue :=
  mkRenderQueue h None "" None [FullscreenQuad m passID].

(** [_bloomParams] as the bloom builder leaves it. *)
Definition bloom_params (t : BuiltinForwardPipeline) (s : PipelineSettings)
    : Vec4 :=
  mkVec4 0 (v4y (_bloomParams t)) (threshold (bloom s))
    (if enableAlphaMask (bloom s) then 1 else 0).

(** [_bloomTexSize] when a pass reads level [i]. *)
Definition bloom_texSize (t : BuiltinForwardPipeline) (width height : Z)
    (i : nat) : Vec4 :=
  mkVec4 (inject_Z (bloom_size width i)) (inject_Z (bloom_size height i))
    (v4z (_bloomTexSize t)) (v4w (_bloomTexSize t)).

Definition bloom_prefilter_pass (t : BuiltinForwardPipeline)
    (s : PipelineSettings) (id : nat) (width height : Z)
    (radianceName : string) : RenderPass :=
  mkRenderPass (bloom_size width 0) (bloom_size height 0) "bloom1-prefilter" ""
    false None
    [black_target t (bloomTexName id 0)] []
    [(radianceName, "inputTexture")]
    [("g_platform", g_platform (_configs t)); ("bloomParams", bloom_params t s)]
    [quad_queue QueueHint.OPAQUE bloomMaterial 0].

Definition bloom_downsample_pass (t : BuiltinForwardPipeline) (id : nat)
    (width height : Z) (i : nat) : RenderPass :=
  mkRenderPass (bloom_size width i) (bloom_size height i) "bloom1-downsample" ""
    false None
    [black_target t (bloomTexName id i)] []
    [(bloomTexName id (i - 1), "bloomTexture")]
    [("g_platform", g_platform (_configs t));
     ("bloomTexSize", bloom_texSize t width height (i - 1))]
    [quad_queue QueueHint.OPAQUE bloomMaterial 1].

Definition bloom_upsample_pass (t : BuiltinForwardPipeline) (id : nat)
    (width height : Z) (i : nat) : RenderPass :=
  mkRenderPass (bloom_size width i) (bloom_size height i) "bloom1-upsample" ""
    false None
    [black_target t (bloomTexName id i)] []
    [(bloomTexName id (i + 1), "bloomTexture")]
    [("g_platform", g_platform (_configs t));
     ("bloomTexSize", bloom_texSize t width height (i + 1))]
    [quad_queue QueueHint.OPAQUE bloomMaterial 2].

Definition bloom_combine_pass (t : BuiltinForwardPipeline)
    (s : PipelineSettings) (id : nat) (width height : Z)
    (radianceName : string) : RenderPass :=
  mkRenderPass width height "bloom1-combine" "" false None
    [mkRenderTarget radianceName LoadOp.LOAD (Some StoreOp.STORE) None] []
    [(bloomTexName id 0, "bloomTexture")]
    [("g_platform", g_platform (_configs t)); ("bloomParams", bloom_params t s)]
    [quad_queue QueueHint.BLEND bloomMaterial 3].

(** The bloom chain for [n] iterations. *)
Definition bloom_passes (t : BuiltinForwardPipeline) (s : PipelineSettings)
    (id : nat) (width height : Z) (radianceName : string) (n : nat)
    : list RenderPass :=
  [bloom_prefilter_pass t s id width height radianceName]
  ++ map (bloom_downsample_pass t id width height) (seq 1 n)
  ++ map (bloom_upsample_pass t id width height) (rev (seq 0 n))
  ++ [bloom_combine_pass t s id width height radianceName].

(** [this] after the bloom builder ran for three iterations. *)
Definition bloom3_this (t : BuiltinForwardPipeline) (s : PipelineSettings)
    (id : nat) (width height : Z) : BuiltinForwardPipeline :=
  set__bloomTexSize
    (set__bloomParams
       (set__bloomTexNames
          (set__bloomHeights
             (set__bloomWidths t (map (bloom_size width) (seq 0 4)))
             (map (bloom_size height) (seq 0 4)))
          (map (bloomTexName id) (seq 0 4)))
       (bloom_params t s))
    (bloom_texSize t width height 1).

End Expected3.

Section Expected4.
Context {E : Engine}.

(** [this] after the CSM builder: the scratch viewport holds the viewport
    of the last cascade. *)
Definition csm_this (t : BuiltinForwardPipeline) (p : BasicPipeline)
    (light : DirectionalLight) : BuiltinForwardPipeline :=
  set__viewport t
    (getCsmMainLightViewport light
       (v2x (shadows_size (pipelineSceneData p)))
       (v2y (shadows_size (pipelineSceneData p)))
       (Z.of_nat (csm_levels p light - 1))
       (_viewport t) (screenSpaceSignY (_configs t))).

(** The five passes of the depth-of-field chain. *)
Definition dof_passes (t : BuiltinForwardPipeline) (id : nat) (camera : Camera)
    (width height : Z) (dofRadianceName depthStencil radianceName : string)
    : list RenderPass :=
  let halfWidth := half_size width in
  let halfHeight := half_size height in
  let cocName := "LdrColor" +++ str_of_nat id in
  let prefilterName := "DofPrefilter" +++ str_of_nat id in
  let bokehName := "DofBokeh" +++ str_of_nat id in
  let filterName := "DofFilter" +++ str_of_nat id in
  let platform := [("cc_cameraPos", g_platform (_configs t))] in
  [ mkRenderPass width height "dof-coc" "" false None
      [black_target t cocName] [] [(depthStencil, "DepthTex")] []
      [mkRenderQueue QueueHint.OPAQUE None "" None [CameraQuad camera dofMaterial 0]];
    mkRenderPass halfWidth halfHeight "dof-prefilter" "" false None
      [black_target t prefilterName] []
      [(cocName, "cocTex"); (dofRadianceName, "colorTex")] platform
      [quad_queue QueueHint.OPAQUE dofMaterial 1];
    mkRenderPass halfWidth halfHeight "dof-bokeh" "" false None
      [black_target t bokehName] [] [(prefilterName, "prefilterTex")] platform
      [quad_queue QueueHint.OPAQUE dofMaterial 2];
    mkRenderPass halfWidth halfHeight "dof-filter" "" false None
      [black_target t filterName] [] [(bokehName, "bokehTex")] platform
      [quad_queue QueueHint.OPAQUE dofMaterial 3];
    mkRenderPass width height "dof-combine" "" false None
      [black_target t radianceName] []
      [(filterName, "filterTex"); (dofRadianceName, "colorTex"); (cocName, "cocTex")]
      platform
      [quad_queue QueueHint.OPAQUE dofMaterial 4] ].

Definition dof_this (t : BuiltinForwardPipeline) (s : PipelineSettings)
    (width height : Z) : BuiltinForwardPipeline :=
  let cocParams :=
    mkVec4 (focusDistance (depthOfField s)) (focusRange (depthOfField s))
      (bokehRadius (depthOfField s)) 0 in
  let cocTexSize :=
    mkVec4 (js_div 1 (inject_Z width)) (js_div 1 (inject_Z height))
      (inject_Z width) (inject_Z height) in
  set__dofMaterial
    (set__cocTexSize (set__cocParams t cocParams) cocTexSize)
    (setProperty (setProperty (_dofMaterial t) "cocParams" cocParams)
       "mainTexTexelSize" cocTexSize).

(** [this] after light culling for the desktop builder. *)
Definition culled (t : BuiltinForwardPipeline) (scene : RenderScene)
    (camera : Camera) (cameraPos : option Vec3) : BuiltinForwardPipeline :=
  set_forwardLighting t
    (cullLights (forwardLighting t) scene (frustum camera) cameraPos).

(** The passes that [_addForwardRadiancePasses] appends. *)
Definition radiance_passes (t : BuiltinForwardPipeline) (size : Vec2)
    (camera : Camera) (width height : Z) (id : nat)
    (colorName depthStencilName : string) (mainLight : option DirectionalLight)
    : list RenderPass :=
  let c := radiance_chain t size camera width height id colorName
             depthStencilName mainLight [] in
  fst c ++ [snd c].

(** The CSM pass of the builders, when the camera policy asks for it. *)
Definition csm_passes (t : BuiltinForwardPipeline) (p : BasicPipeline)
    (id : nat) (camera : Camera) (mainLight : option DirectionalLight)
    : list RenderPass :=
  if enableShadowMap (_cameraConfigs t) then
    match mainLight with
    | Some light => [csm_pass t p id light camera]
    | None => []
    end
  else [].

End Expected4.

Section Expected5.
Context {E : Engine}.

(** Mobile: the forward pass after the loop of [addMobileLightQueues] ran
    over [ls] from counter [i]. *)
Fixpoint mobile_lit (camera : Camera) (i : nat) (ls : list SpotLight)
    (x : RenderPass) : RenderPass :=
  match ls with
  | [] => x
  | l :: ls' =>
      mobile_lit camera (S i) ls'
        (add_queues
           (set_textures x
              (textures x ++ [("SpotShadowMap" +++ str_of_nat i, "cc_spotShadowMap")]))
           [mkRenderQueue QueueHint.BLEND (Some "forward-add") "" None
              [SceneItem camera [SceneFlags.BLEND] (Some (ALight (OfSpot l))) None]])
  end.

(** The number of spot-light shadow-caster passes in a list of passes. *)
Definition count_spot_shadow_passes (ps : list RenderPass) : nat :=
  List.length (filter is_spot_shadow_pass ps).

(** [_initMaterials] on a builder that is not initialised: the capability
    snapshot is refreshed and the four materials are initialised again. *)
Definition materials_attempt (host : Host) (t : BuiltinForwardPipeline)
    (p : BasicPipeline) : BuiltinForwardPipeline :=
  let t := set__configs t (setupPipelineConfigs host p (_configs t)) in
  let t :=
    set__copyAndTonemapMaterial t
      (init_material host (_copyAndTonemapMaterial t)
         "custom-forward-post-final-tonemap-material"
         "pipeline/post-process/post-final") in
  let t :=
    set__dofMaterial t
      (init_material host (_dofMaterial t)
         "custom-forward-post-dof-material" "pipeline/post-process/dof") in
  let t :=
    set__bloomMaterial t
      (init_material host (_bloomMaterial t)
         "custom-forward-post-bloom-material" "pipeline/post-process/bloom1") in
  set__fxaaMaterial t
    (init_material host (_fxaaMaterial t)
       "custom-forward-post-fxaa-material" "pipeline/post-process/fxaa-hq").

(** The effect assets of the four materials are all loaded. *)
Definition materials_ready (t : BuiltinForwardPipeline) : bool :=
  negb (isNull (effectAsset (_copyAndTonemapMaterial t)))
  && negb (isNull (effectAsset (_dofMaterial t)))
  && negb (isNull (effectAsset (_bloomMaterial t)))
  && negb (isNull (effectAsset (_fxaaMaterial t))).

End Expected5.

(** ** Statements of the specification, as predicates *)

Section Claims.
Context {E : Engine}.

(** The visible non-baked spot, sphere and point lights, and the visible
    ranged directional lights. *)
Definition spot_sphere (l : SpotLight) : Sphere :=
  let p := spot_position l in
  mkSphere (mkVec3 (v3x p) (v3y p) (v3z p)) (spot_range l).

Definition spot_culled_in (frustum : Frustum) (l : SpotLight) : bool :=
  negb (spot_baked l) && sphereFrustum (spot_sphere l) frustum.

Definition sphere_culled_in (frustum : Frustum) (l : SphereLight) : bool :=
  negb (sphere_baked l)
  && sphereFrustum
       (let p := sphere_position l in
        mkSphere (mkVec3 (v3x p) (v3y p) (v3z p)) (sphere_range l)) frustum.

Definition point_culled_in (frustum : Frustum) (l : PointLight) : bool :=
  negb (point_baked l)
  && sphereFrustum
       (let p := point_position l in
        mkSphere (mkVec3 (v3x p) (v3y p) (v3z p)) (point_range l)) frustum.

Definition ranged_culled_in (box : AABB) (frustum : Frustum)
    (l : RangedDirectionalLight) : bool :=
  aabbFrustum (AABB_transform box (ranged_worldMatrix l)) frustum.

(** The two sequences after [cullLights], as functions of the scene. *)
Definition active_lights (box : AABB) (scene : RenderScene) (frustum : Frustum)
    : list Light :=
  map OfSpot
    (filter (fun l => spot_culled_in frustum l && negb (spot_shadowEnabled l))
       (spotLights scene))
  ++ map OfSphere (filter (sphere_culled_in frustum) (sphereLights scene))
  ++ map OfPoint (filter (point_culled_in frustum) (pointLights scene))
  ++ map OfRangedDir
       (filter (ranged_culled_in box frustum) (rangedDirLights scene)).

Definition shadow_spots (scene : RenderScene) (frustum : Frustum)
    : list SpotLight :=
  filter (fun l => spot_culled_in frustum l && spot_shadowEnabled l)
    (spotLights scene).

(** The comparator that [cullLights] hands to [sort]. *)
Definition by_distance (cameraPos : Vec3) (lhs rhs : SpotLight) : Q :=
  (squaredDistance cameraPos (spot_position lhs)
   - squaredDistance cameraPos (spot_position rhs))%Q.

Definition nearer (cameraPos : Vec3) (a b : SpotLight) : Prop :=
  (squaredDistance cameraPos (spot_position a)
   <= squaredDistance cameraPos (spot_position b))%Q.

(** The classifier after it served a list of earlier calls. *)
Definition replay (fl : ForwardLighting)
    (calls : list (RenderScene * Frustum * option Vec3)) : ForwardLighting :=
  fold_left (fun fl c => cullLights fl (fst (fst c)) (snd (fst c)) (snd c))
    calls fl.

(** A light is in [shadowEnabledSpotLights]. *)
Definition in_shadow_sequence (fl : ForwardLighting) (l : Light) : Prop :=
  match l with
  | OfSpot s => In s (shadowEnabledSpotLights fl)
  | _ => False
  end.

(** The classification invariant of the specification. *)
Definition classification_invariant (scene : RenderScene) (fl : ForwardLighting)
    : Prop :=
  forall l, In l (scene_lights scene) ->
    ~ (In l (lights fl) /\ in_shadow_sequence fl l)
    /\ (Light_baked l = true -> ~ In l (lights fl) /\ ~ in_shadow_sequence fl l).

(** When post-process counts as requested: by the camera, or for an editor
    view by the editor's pipeline camera. *)
Definition post_process_requested (host : Host) (camera : Camera) : bool :=
  if isEditorView camera then
    match getEditorPipelineCamera host with
    | Some pipelineCamera => usePostProcess pipelineCamera
    | None => false
    end
  else usePostProcess camera.

(** The camera-policy invariant as the specification states it. *)
Definition camera_policy_claim (camera : Camera) (pipelineConfigs : PipelineConfigs)
    (cc : CameraConfigs) : Prop :=
  (enablePostProcess cc = true ->
     useFloatOutput pipelineConfigs = true
     /\ usePostProcess camera = true
     /\ (isMainGameWindow camera = Some true \/ isEditorView camera = true))
  /\ (pipelineSettings cc = None ->
        enablePostProcess cc = false /\ enableShadingScale cc = false
        /\ shadingScale cc = 1%Q).

(** The passes of a frame are one forward pass followed by one UI pass. *)
Definition forward_then_ui_pass (ps : list RenderPass) : Prop :=
  exists fwd ui, ps = [fwd; ui] /\ pass_name fwd = "ForwardPass".

(** The passes of a frame are forward passes, eight bloom passes, one
    tonemap pass and one UI pass, in this order. *)
Definition forward_bloom_tonemap_ui (ps : list RenderPass) : Prop :=
  exists fwd bl tm ui,
    ps = fwd ++ bl ++ [tm; ui]
    /\ List.length bl = 8%nat
    /\ layoutName tm = "post-final-tonemap".

(** Desktop: [addLightPasses] adds exactly [k] spot-light shadow passes. *)
Definition desktop_cap_claim (k : nat) (colorName depthStencilName : string)
    (id : nat) (width height : Z) (camera : Camera) (pass : PassBuilder)
    (st : State) : Prop :=
  forall h st',
    addLightPasses colorName depthStencilName id width height camera pass st
      = Some (h, st') ->
    count_spot_shadow_passes (passes (ppl_ st'))
    = (count_spot_shadow_passes (passes (ppl_ st)) + k)%nat.

End Claims.

(** The four quadrants of a 4-level CSM shadow map. *)
Definition csm_covers (v : Z -> Viewport) (w h : Z) : Prop :=
  forall px py, 0 <= px < w -> 0 <= py < h ->
    exists level, 0 <= level < 4 /\ in_viewport (v level) px py.

Definition csm_disjoint (v : Z -> Viewport) : Prop :=
  forall l1 l2 px py, 0 <= l1 < 4 -> 0 <= l2 < 4 ->
    in_viewport (v l1) px py -> in_viewport (v l2) px py -> l1 = l2.

Definition csm_inside (v : Z -> Viewport) (w h : Z) : Prop :=
  forall level px py, 0 <= level < 4 -> in_viewport (v level) px py ->
    0 <= px < w /\ 0 <= py < h.

(** ** Concrete inputs on the small engine *)

Module Scenario.

#[local] Existing Instance toy.

Definition light4 : DirectionalLight := mkDirectionalLight true false LEVEL_4.

Definition origin : Vec3 := mkVec3 0 0 0.

(** The frustum [z <= 10]. *)
Definition view10 : Frustum := 10%Q.

(** Two shadow-casting spot lights, the far one first. *)
Definition far_spot : SpotLight := mkSpotLight false (mkVec3 0 0 5) 1 true.
Definition near_spot : SpotLight := mkSpotLight false (mkVec3 0 0 2) 1 true.

Definition baked_ranged : RangedDirectionalLight :=
  mkRangedDirectionalLight true origin.

Definition empty_scene : RenderScene := mkRenderScene None [] [] [] [].

Definition unshadowed_scene : RenderScene :=
  mkRenderScene (Some (mkDirectionalLight false false LEVEL_1)) [] [] [] [].

Definition baked_scene : RenderScene :=
  mkRenderScene None [] [] [] [baked_ranged].

Definition two_spot_scene : RenderScene :=
  mkRenderScene None [far_spot; near_spot] [] [] [].

Definition window0 : RenderWindow :=
  mkRenderWindow 8 4 0 "Color0" "Depth0" true.

Definition bloom3_settings : PipelineSettings :=
  mkPipelineSettings false 1 (mkDepthOfField false 0 0 0)
    (mkBloom true false 3 (4 # 5)) (mkFXAA false).

Definition game_camera (settings : option PipelineSettings)
    (scene : RenderScene) : Camera :=
  mkCamera 7 (mkVec4 0 0 0 1) 1 0 (mkVec4 0 0 1 1) origin view10 GAME true
    settings (Some scene) (Some window0).

Definition editor_camera : Camera :=
  mkCamera 7 (mkVec4 0 0 0 1) 1 0 (mkVec4 0 0 1 1) origin view10 SCENE_VIEW false
    None (Some empty_scene) (Some window0).

Definition all_effects : list string :=
  ["pipeline/post-process/post-final"; "pipeline/post-process/dof";
   "pipeline/post-process/bloom1"; "pipeline/post-process/fxaa-hq"].

Definition host_with (loaded : list string) : Host :=
  mkHost false false None None loaded.

Definition editor_host : Host :=
  mkHost false false (Some bloom3_settings)
    (Some (game_camera None empty_scene)) all_effects.

Definition graph (floatOutput : bool) : BasicPipeline :=
  mkBasicPipeline (mkDevice 1 1 6 true)
    (mkPipelineSceneData true 0 (mkVec2 4 4) true) floatOutput [] [].

Definition fresh (floatOutput : bool) : State :=
  mkState BuiltinForwardPipeline_new (graph floatOutput).

Definition hdr_configs : PipelineConfigs :=
  setupPipelineConfigs (host_with all_effects) (graph true) PipelineConfigs_new.

(** A classifier that holds the two spot lights, and a builder around it. *)
Definition two_spots : ForwardLighting :=
  cullLights ForwardLighting_new two_spot_scene view10 None.

Definition with_two_spots : State :=
  mkState (set_forwardLighting BuiltinForwardPipeline_new two_spots)
    (mkBasicPipeline (mkDevice 1 1 6 true)
       (mkPipelineSceneData true 0 (mkVec2 4 4) true) false []
       [mkRenderPass 8 4 "default" "ForwardPass" false None [] [] [] [] []]).

(** The passes of a state after a call, [[]] when the call threw. *)
Definition passes_after (r : option (unit * State)) : list RenderPass :=
  match r with
  | Some (_, st) => passes (ppl_ st)
  | None => []
  end.

Definition resources_after (r : option (unit * State)) : list Resource :=
  match r with
  | Some (_, st) => resources (ppl_ st)
  | None => []
  end.

(** A builder whose configuration is the one of an HDR game camera with
    bloom of three iterations. *)
Definition hdr_builder : BuiltinForwardPipeline :=
  set__cameraConfigs (set__configs BuiltinForwardPipeline_new hdr_configs)
    (mkCameraConfigs false true false false 1 (Some bloom3_settings)).

Definition half_scale : CameraConfigs :=
  mkCameraConfigs false false false true (1 # 2) None.

End Scenario.

(** The size a list of declared resources gives to a resource. *)
Definition declared_size (kind : ResourceKind) (name : string)
    (rs : list Resource) : option (Z * Z) :=
  match
    find (fun r =>
            String.eqb (res_name r) name
            && match res_kind r, kind with
               | Res_RenderWindow, Res_RenderWindow
               | Res_RenderTarget, Res_RenderTarget
               | Res_DepthStencil, Res_DepthStencil => true
               | _, _ => false
               end) rs
  with
  | Some r => Some (res_width r, res_height r)
  | None => None
  end.

(* ================================================================== *)
(** ** Frame properties of a call *)

Section Frames.
Context {E : Engine}.

(** A call leaves [_initialized] as it found it. *)
Definition keeps_initialized {A} (m : M A) : Prop :=
  forall st a st', m st = Some (a, st') ->
    _initialized (this_ st') = _initialized (this_ st).

(** A call returns, leaves [this] alone and only adds resources. *)
Definition declares {A} (m : M A) : Prop :=
  forall st, exists a st',
    m st = Some (a, st') /\ this_ st' = this_ st
    /\ incl (resources (ppl_ st)) (resources (ppl_ st')).

End Frames.

(* ================================================================== *)
(** ** More of what the builders are expected to add *)

Section MoreExpected.
Context {E : Engine}.

(** The lights that the two mobile loops serve for a maximum [k].  The
    loops compare the counter with the maximum after a light was served,
    so the first light is served whatever the maximum is. *)
Definition served (k : nat) (ls : list SpotLight) : list SpotLight :=
  firstn (Nat.max k 1) ls.

(** The names of the render targets that a list of passes writes, and the
    names of the textures that a pass reads. *)
Definition written_targets (ps : list RenderPass) : list string :=
  flat_map (fun p => map rt_name (renderTargets p)) ps.

Definition read_textures (p : RenderPass) : list string :=
  map fst (textures p).

(** Mobile: the queue of a shadow-casting spot light in the forward pass. *)
Definition shadowed_spot_queue (camera : Camera) (l : SpotLight) : RenderQueue :=
  mkRenderQueue QueueHint.BLEND (Some "forward-add") "" None
    [SceneItem camera [SceneFlags.BLEND] (Some (ALight (OfSpot l))) None].

(** Mobile: the forward pass of [_addMobileForwardRadiancePass]. *)
Definition mobile_forward_pass (t : BuiltinForwardPipeline) (camera : Camera)
    (width height : Z) (id : nat) (colorName depthStencilName : string)
    (mainLight : option DirectionalLight) : RenderPass :=
  add_queues
    (mobile_lit camera 0
       (served (mobileMaxSpotLightShadowMaps (_configs t))
          (shadowEnabledSpotLights (forwardLighting t)))
       (add_queues
          (forward_pass (_cameraConfigs t) camera width height id
             colorName depthStencilName mainLight)
          (map (light_queue camera) (lights (forwardLighting t)))))
    [blend_queue camera (main_light_ref mainLight)].

End MoreExpected.

Section BloomExpected.
Context {E : Engine}.

(** A bloom pass of one level, as the downsample and the upsample loop add
    it: it writes level [i] and reads level [j], with the sizes and names
    that the scratch arrays of [t] hold. *)
Definition bloom_level_pass (t : BuiltinForwardPipeline) (layout : string)
    (passID : nat) (i j : nat) : RenderPass :=
  mkRenderPass (nth i (_bloomWidths t) 0) (nth i (_bloomHeights t) 0) layout ""
    false None
    [black_target t (nth i (_bloomTexNames t) "")] []
    [(nth j (_bloomTexNames t) "", "bloomTexture")]
    [("g_platform", g_platform (_configs t));
     ("bloomTexSize",
      mkVec4 (inject_Z (nth j (_bloomWidths t) 0))
        (inject_Z (nth j (_bloomHeights t) 0))
        (v4z (_bloomTexSize t)) (v4w (_bloomTexSize t)))]
    [quad_queue QueueHint.OPAQUE bloomMaterial passID].

(** [_bloomTexSize] after a loop read the levels [js] in turn. *)
Definition bloom_texSize_after (t : BuiltinForwardPipeline) (js : list nat)
    : Vec4 :=
  fold_left
    (fun ts j =>
       mkVec4 (inject_Z (nth j (_bloomWidths t) 0))
         (inject_Z (nth j (_bloomHeights t) 0)) (v4z ts) (v4w ts))
    js (_bloomTexSize t).

(** [this] after the bloom builder. *)
Definition bloom_this (t : BuiltinForwardPipeline) (s : PipelineSettings)
    (id : nat) (width height : Z) : BuiltinForwardPipeline :=
  let n := iterations (bloom s) in
  set__bloomTexSize
    (set__bloomParams
       (set__bloomTexNames
          (set__bloomHeights
             (set__bloomWidths t (map (bloom_size width) (seq 0 (S n))))
             (map (bloom_size height) (seq 0 (S n))))
          (map (bloomTexName id) (seq 0 (S n))))
       (bloom_params t s))
    (match n with
     | O => _bloomTexSize t
     | S _ => bloom_texSize t width height 1
     end).

End BloomExpected.

Section DesktopExpected.
Context {E : Engine}.

(** The passes of [_addFxaaPass] and [_addCopyPass]. *)
Definition fxaa_pass (t : BuiltinForwardPipeline) (width height : Z)
    (ldrColorName colorName : string) : RenderPass :=
  mkRenderPass width height "fxaa" "" false None
    [black_target t colorName] []
    [(ldrColorName, "sceneColorMap")]
    [("cc_cameraPos", g_platform (_configs t))]
    [quad_queue QueueHint.OPAQUE fxaaMaterial 0].

Definition copy_pass (t : BuiltinForwardPipeline) (width height : Z)
    (input output : string) : RenderPass :=
  mkRenderPass width height "post-copy" "" false None
    [black_target t output] []
    [(input, "inputTexture")]
    [("g_platform", g_platform (_configs t))]
    [quad_queue QueueHint.OPAQUE copyAndTonemapMaterial 2].

(** [this] after [_addFxaaPass]. *)
Definition fxaa_this (t : BuiltinForwardPipeline) (width height : Z)
    : BuiltinForwardPipeline :=
  set__fxaaMaterial t
    (setProperty (_fxaaMaterial t) "texSize"
       (mkVec4 (inject_Z width) (inject_Z height)
          (js_div 1 (inject_Z width)) (js_div 1 (inject_Z height)))).

(** Desktop, HDR with post-process: the passes that bring the radiance
    target to the window, the UI queue on the last of them. *)
Definition present_passes (t : BuiltinForwardPipeline) (s : PipelineSettings)
    (camera : Camera) (id : nat) (nativeWidth nativeHeight width height : Z)
    (colorName : string) : list RenderPass :=
  let cc := _cameraConfigs t in
  let radianceName := "Radiance" +++ str_of_nat id in
  let ldrColorName := "LdrColor" +++ str_of_nat id in
  let aaColorName := "AaColor" +++ str_of_nat id in
  if fxaa_enabled (fxaa s) then
    tonemap_pass t width height radianceName ldrColorName
    :: (if enableShadingScale cc then
          [fxaa_pass t width height ldrColorName aaColorName;
           with_ui cc camera
             (copy_pass t nativeWidth nativeHeight aaColorName colorName)]
        else
          [with_ui cc camera
             (fxaa_pass t nativeWidth nativeHeight ldrColorName colorName)])
  else
    [with_ui cc camera
       (tonemap_pass t nativeWidth nativeHeight radianceName colorName)].

(** Desktop: the passes of one frame for a camera on the window [w], after
    the CSM pass.  [t] is the builder when the call starts. *)
Definition desktop_frame (t : BuiltinForwardPipeline) (p : BasicPipeline)
    (camera : Camera) (scene : RenderScene) (w : RenderWindow)
    : list RenderPass :=
  let cc := _cameraConfigs t in
  let id := renderWindowId w in
  let nativeWidth := native_size (win_width w) in
  let nativeHeight := native_size (win_height w) in
  let width := working_size cc nativeWidth in
  let height := working_size cc nativeHeight in
  let radianceName := "Radiance" +++ str_of_nat id in
  let dofRadianceName := "DofRadiance" +++ str_of_nat id in
  let radiance width height name :=
    radiance_passes (culled t scene camera None)
      (shadows_size (pipelineSceneData p)) camera width height id name
      (depthStencilName w) (mainLight scene) in
  let tonemapped :=
    radiance width height radianceName
    ++ [with_ui cc camera
          (tonemap_pass t nativeWidth nativeHeight radianceName (colorName w))] in
  if useFloatOutput (_configs t) then
    match enablePostProcess cc, pipelineSettings cc with
    | true, Some s =>
        let dofOn :=
          supportDepthSample (_configs t) && dof_enabled (depthOfField s) in
        radiance width height (if dofOn then dofRadianceName else radianceName)
        ++ (if dofOn
            then dof_passes t id camera width height dofRadianceName
                   (depthStencilName w) radianceName
            else [])
        ++ (if bloom_enabled (bloom s)
            then bloom_passes t s id width height radianceName
                   (iterations (bloom s))
            else [])
        ++ present_passes t s camera id nativeWidth nativeHeight width height
             (colorName w)
    | _, _ => tonemapped
    end
  else if enableShadingScale cc then tonemapped
  else on_last (with_ui cc camera)
         (radiance nativeWidth nativeHeight (colorName w)).

End DesktopExpected.

Section Observers.
Context {E : Engine}.

(** A pass draws the UI: one of its queues holds a scene draw with the
    [UI] flag. *)
Definition is_ui_flag (f : SceneFlags.flag) : bool :=
  match f with SceneFlags.UI => true | _ => false end.

Definition is_ui_item (it : QueueItem) : bool :=
  match it with
  | SceneItem _ flags _ _ => existsb is_ui_flag flags
  | _ => false
  end.

Definition draws_ui (q : RenderPass) : bool :=
  existsb (fun rq => existsb is_ui_item (items rq)) (queues q).

(** A pass that neither draws the UI nor shows the statistics. *)
Definition ui_free (q : RenderPass) : Prop :=
  showStatistics q = false /\ draws_ui q = false.

(** A pass with the one colour target [name], of the size [w] x [h]. *)
Definition renders_to (name : string) (w h : Z) (q : RenderPass) : Prop :=
  map rt_name (renderTargets q) = [name]
  /\ pass_width q = w /\ pass_height q = h.

End Observers.

Section PlannerExpected.
Context {E : Engine}.

(** The targets of the mobile spot-light shadow maps. *)
Definition spot_shadow_resources (configs : PipelineConfigs) : list Resource :=
  flat_map
    (fun i =>
       [mkResource Res_RenderTarget ("SpotShadowMap" +++ str_of_nat i)
          (shadowMapFormat configs)
          (v2x (shadowMapSize configs)) (v2y (shadowMapSize configs));
        mkResource Res_DepthStencil ("SpotShadowDepth" +++ str_of_nat i)
          Format.DEPTH_STENCIL
          (v2x (shadowMapSize configs)) (v2y (shadowMapSize configs))])
    (seq 0 (mobileMaxSpotLightShadowMaps configs)).

(** The resources that [windowResize] declares, in its order, for the
    two snapshots that [t] holds. *)
Definition planned_resources (t : BuiltinForwardPipeline)
    (window : RenderWindow) (nativeWidth nativeHeight : Z) : list Resource :=
  let configs := _configs t in
  let cc := _cameraConfigs t in
  let id := renderWindowId window in
  let width := working_size cc nativeWidth in
  let height := working_size cc nativeHeight in
  let sx := v2x (shadowMapSize configs) in
  let sy := v2y (shadowMapSize configs) in
  let target name format w h := mkResource Res_RenderTarget name format w h in
  [mkResource Res_RenderWindow (colorName window) Format.BGRA8
     nativeWidth nativeHeight]
  ++ (if useFloatOutput configs
      then [target ("Radiance" +++ str_of_nat id) Format.RGBA16F width height]
      else if enableShadingScale cc
      then [target ("Radiance" +++ str_of_nat id) Format.RGBA8 width height]
      else [])
  ++ [mkResource Res_DepthStencil (depthStencilName window)
        Format.DEPTH_STENCIL width height]
  ++ [target ("ShadowMap" +++ str_of_nat id) (shadowMapFormat configs) sx sy;
      mkResource Res_DepthStencil ("ShadowDepth" +++ str_of_nat id)
        Format.DEPTH_STENCIL sx sy]
  ++ (if isMobile configs then spot_shadow_resources configs else [])
  ++ match enablePostProcess cc, pipelineSettings cc with
     | true, Some s =>
         (if fxaa_enabled (fxaa s) || dof_enabled (depthOfField s)
          then [target ("LdrColor" +++ str_of_nat id) Format.RGBA8 width height]
          else [])
         ++ (if fxaa_enabled (fxaa s) && enableShadingScale cc
             then [target ("AaColor" +++ str_of_nat id) Format.RGBA8 width height]
             else [])
         ++ (if dof_enabled (depthOfField s)
             then [target ("DofRadiance" +++ str_of_nat id) Format.RGBA16F
                     width height;
                   target ("DofPrefilter" +++ str_of_nat id) Format.RGBA16F
                     (half_size width) (half_size height);
                   target ("DofBokeh" +++ str_of_nat id) Format.RGBA16F
                     (half_size width) (half_size height);
                   target ("DofFilter" +++ str_of_nat id) Format.RGBA16F
                     (half_size width) (half_size height)]
             else [])
         ++ (if bloom_enabled (bloom s)
             then map (fun i =>
                         target (bloomTexName id i) Format.RGBA16F
                           (bloom_size width i) (bloom_size height i))
                    (seq 0 (iterations (bloom s) + 1))
             else [])
     | _, _ => []
     end.

(** A call returns, leaves [this] and the passes alone and declares the
    resources [rs], in this order, after the ones that were declared. *)
Definition appends_resources (m : M unit) (rs : list Resource) : Prop :=
  forall t p,
    m (mkState t p)
    = Some (tt, mkState t (set_resources p (resources p ++ rs))).

(** A resource of this name, and of this name and size, is declared. *)
Definition declared (rs : list Resource) (name : string) : bool :=
  existsb (fun r => String.eqb (res_name r) name) rs.

Definition declared_as (rs : list Resource) (name : string) (w h : Z) : bool :=
  existsb
    (fun r => String.eqb (res_name r) name
              && (res_width r =? w) && (res_height r =? h))
    rs.

(** Every colour and depth-stencil target of the pass is declared with the
    size of the pass, and every texture that it samples is declared. *)
Definition pass_fits (rs : list Resource) (q : RenderPass) : bool :=
  forallb
    (fun rt => declared_as rs (rt_name rt) (pass_width q) (pass_height q))
    (renderTargets q)
  && forallb
       (fun ds => declared_as rs (ds_name ds) (pass_width q) (pass_height q))
       (depthStencils q)
  && forallb (declared rs) (read_textures q).

End PlannerExpected.

Section LoadObservers.
Context {E : Engine}.

(** A pass keeps what its colour and depth-stencil targets hold: it loads
    every one of them. *)
Definition is_load (op : LoadOp.t) : bool :=
  match op with LoadOp.LOAD => true | _ => false end.

Definition loads_targets (q : RenderPass) : bool :=
  forallb (fun rt => is_load (rt_loadOp rt)) (renderTargets q)
  && forallb (fun ds => is_load (ds_loadOp ds)) (depthStencils q).

(** A viewport lies inside a map of [w] x [h] pixels. *)
Definition viewport_inside (vp : Viewport) (w h : Z) : Prop :=
  forall px py, in_viewport vp px py -> 0 <= px < w /\ 0 <= py < h.

End LoadObservers.

Section FlowObservers.
Context {E : Engine}.

(** The names of the colour and depth-stencil targets of a pass. *)
Definition pass_outputs (q : RenderPass) : list string :=
  map rt_name (renderTargets q) ++ map ds_name (depthStencils q).

(** Every texture that a pass of [ps] samples is in [avail] or is a target
    of an earlier pass of [ps]. *)
Fixpoint reads_written (avail : list string) (ps : list RenderPass) : bool :=
  match ps with
  | [] => true
  | q :: ps' =>
      forallb (fun n => existsb (String.eqb n) avail) (read_textures q)
      && reads_written (avail ++ pass_outputs q) ps'
  end.

End FlowObservers.

(** ** More concrete inputs on the small engine *)

Module Scenario2.

#[local] Existing Instance toy.
Import Scenario.

(** Every post-process effect on, bloom of one iteration, at half scale. *)
Definition full_settings : PipelineSettings :=
  mkPipelineSettings true (1 # 2) (mkDepthOfField true 1 1 1)
    (mkBloom true false 1 (4 # 5)) (mkFXAA true).

Definition shadowed_scene : RenderScene :=
  mkRenderScene (Some light4) [far_spot; near_spot] [] [] [].

Definition full_camera : Camera := game_camera (Some full_settings) shadowed_scene.

(** A builder with the snapshots of that camera on the HDR graph. *)
Definition full_builder : BuiltinForwardPipeline :=
  set__cameraConfigs (set__configs BuiltinForwardPipeline_new hdr_configs)
    (mkCameraConfigs true true false true (1 # 2) (Some full_settings)).

Definition mobile_host : Host := mkHost true false None None all_effects.

Definition fixed_light : DirectionalLight := mkDirectionalLight true true LEVEL_4.

(** The doubles nearest to 0.3 and to 1/3, a camera policy that scales by
    the first and a camera whose viewport is as wide as the second. *)
Definition double_0_3 : Q := 5404319552844595 # 18014398509481984.
Definition double_third : Q := 6004799503160661 # 18014398509481984.

Definition scale_0_3 : CameraConfigs :=
  mkCameraConfigs false false false true double_0_3 None.

(** A camera that asks for a shading scale of 0.3 and nothing else. *)
Definition scaled_camera : Camera :=
  game_camera
    (Some (mkPipelineSettings true double_0_3 (mkDepthOfField false 0 0 0)
             (mkBloom false false 0 0) (mkFXAA false)))
    unshadowed_scene.

Definition third_camera : Camera :=
  mkCamera 7 (mkVec4 0 0 0 1) 1 0 (mkVec4 0 0 double_third 1) origin view10 GAME
    true None (Some unshadowed_scene) (Some window0).

End Scenario2.

(* ================================================================== *)
(** * Part III: properties *)

(* ================================================================== *)
(** ** The classifier as filters of the scene

    [cullLights] is four loops that push into two arrays.  Its result is
    read here as filters of the four light arrays of the scene, and
    [Array_sort] as a sorted permutation of its argument. *)

Section Classifier.
Context {E : Engine}.

Lemma fold_cullSpotLight frustum ls : forall fl,
  let fl' := fold_left (cullSpotLight frustum) ls fl in
  lights fl' =
    lights fl ++ map OfSpot
      (filter (fun l => spot_culled_in frustum l && negb (spot_shadowEnabled l)) ls)
  /\ shadowEnabledSpotLights fl' =
    shadowEnabledSpotLights fl ++
      filter (fun l => spot_culled_in frustum l && spot_shadowEnabled l) ls
  /\ _rangedDirLightBoundingBox fl' = _rangedDirLightBoundingBox fl.
Proof.
  induction ls as [|l ls IH]; intros fl; cbn [fold_left].
  - cbn. now rewrite !app_nil_r.
  - specialize (IH (cullSpotLight frustum fl l)). cbv zeta in IH |- *.
    destruct IH as (IH1 & IH2 & IH3). rewrite IH1, IH2, IH3.
    unfold cullSpotLight, spot_culled_in, spot_sphere, Sphere_set. cbn [filter].
    destruct (spot_baked l); cbn; [now rewrite !app_nil_r || auto|].
    destruct (sphereFrustum _ frustum); cbn; auto.
    destruct (spot_shadowEnabled l); cbn; rewrite <- ?app_assoc; auto.
Qed.

Lemma fold_cullSphereLight frustum ls : forall fl,
  let fl' := fold_left (cullSphereLight frustum) ls fl in
  lights fl' = lights fl ++ map OfSphere (filter (sphere_culled_in frustum) ls)
  /\ shadowEnabledSpotLights fl' = shadowEnabledSpotLights fl
  /\ _rangedDirLightBoundingBox fl' = _rangedDirLightBoundingBox fl.
Proof.
  induction ls as [|l ls IH]; intros fl; cbn [fold_left].
  - cbn. now rewrite !app_nil_r.
  - specialize (IH (cullSphereLight frustum fl l)). cbv zeta in IH |- *.
    destruct IH as (IH1 & IH2 & IH3). rewrite IH1, IH2, IH3.
    unfold cullSphereLight, sphere_culled_in, Sphere_set. cbn [filter].
    destruct (sphere_baked l); cbn; auto.
    destruct (sphereFrustum _ frustum); cbn; rewrite <- ?app_assoc; auto.
Qed.

Lemma fold_cullPointLight frustum ls : forall fl,
  let fl' := fold_left (cullPointLight frustum) ls fl in
  lights fl' = lights fl ++ map OfPoint (filter (point_culled_in frustum) ls)
  /\ shadowEnabledSpotLights fl' = shadowEnabledSpotLights fl
  /\ _rangedDirLightBoundingBox fl' = _rangedDirLightBoundingBox fl.
Proof.
  induction ls as [|l ls IH]; intros fl; cbn [fold_left].
  - cbn. now rewrite !app_nil_r.
  - specialize (IH (cullPointLight frustum fl l)). cbv zeta in IH |- *.
    destruct IH as (IH1 & IH2 & IH3). rewrite IH1, IH2, IH3.
    unfold cullPointLight, point_culled_in, Sphere_set. cbn [filter].
    destruct (point_baked l); cbn; auto.
    destruct (sphereFrustum _ frustum); cbn; rewrite <- ?app_assoc; auto.
Qed.

Lemma fold_cullRangedDirLight frustum ls : forall fl,
  let fl' := fold_left (cullRangedDirLight frustum) ls fl in
  lights fl' =
    lights fl ++ map OfRangedDir
      (filter (ranged_culled_in (_rangedDirLightBoundingBox fl) frustum) ls)
  /\ shadowEnabledSpotLights fl' = shadowEnabledSpotLights fl
  /\ _rangedDirLightBoundingBox fl' = _rangedDirLightBoundingBox fl.
Proof.
  induction ls as [|l ls IH]; intros fl; cbn [fold_left].
  - cbn. now rewrite !app_nil_r.
  - specialize (IH (cullRangedDirLight frustum fl l)). cbv zeta in IH |- *.
    destruct IH as (IH1 & IH2 & IH3). rewrite IH1, IH2, IH3.
    unfold cullRangedDirLight, ranged_culled_in. cbn [filter].
    cbn. destruct (aabbFrustum _ frustum); cbn; rewrite <- ?app_assoc; auto.
Qed.

Lemma cullLights_lights fl scene frustum cameraPos :
  lights (cullLights fl scene frustum cameraPos) =
  active_lights (_rangedDirLightBoundingBox fl) scene frustum.
Proof.
  unfold cullLights, active_lights.
  set (fl0 := set_shadowEnabledSpotLights (set_lights fl []) []).
  destruct (fold_cullSpotLight frustum (spotLights scene) fl0) as (A1 & A2 & A3).
  set (fl1 := fold_left _ (spotLights scene) fl0) in *.
  destruct (fold_cullSphereLight frustum (sphereLights scene) fl1) as (B1 & B2 & B3).
  set (fl2 := fold_left _ (sphereLights scene) fl1) in *.
  destruct (fold_cullPointLight frustum (pointLights scene) fl2) as (C1 & C2 & C3).
  set (fl3 := fold_left _ (pointLights scene) fl2) in *.
  destruct (fold_cullRangedDirLight frustum (rangedDirLights scene) fl3) as (D1 & D2 & D3).
  set (fl4 := fold_left _ (rangedDirLights scene) fl3) in *.
  assert (H : lights fl4 = active_lights (_rangedDirLightBoundingBox fl) scene frustum).
  { rewrite D1, C1, B1, A1, C3, B3, A3. unfold active_lights. cbn.
    now rewrite <- !app_assoc. }
  destruct cameraPos; cbn; exact H.
Qed.

Lemma cullLights_shadow fl scene frustum cameraPos :
  shadowEnabledSpotLights (cullLights fl scene frustum cameraPos) =
  match cameraPos with
  | Some pos => Array_sort (by_distance pos) (shadow_spots scene frustum)
  | None => shadow_spots scene frustum
  end.
Proof.
  unfold cullLights.
  set (fl0 := set_shadowEnabledSpotLights (set_lights fl []) []).
  destruct (fold_cullSpotLight frustum (spotLights scene) fl0) as (A1 & A2 & A3).
  set (fl1 := fold_left _ (spotLights scene) fl0) in *.
  destruct (fold_cullSphereLight frustum (sphereLights scene) fl1) as (B1 & B2 & B3).
  set (fl2 := fold_left _ (sphereLights scene) fl1) in *.
  destruct (fold_cullPointLight frustum (pointLights scene) fl2) as (C1 & C2 & C3).
  set (fl3 := fold_left _ (pointLights scene) fl2) in *.
  destruct (fold_cullRangedDirLight frustum (rangedDirLights scene) fl3) as (D1 & D2 & D3).
  set (fl4 := fold_left _ (rangedDirLights scene) fl3) in *.
  assert (H : shadowEnabledSpotLights fl4 = shadow_spots scene frustum).
  { rewrite D2, C2, B2, A2. reflexivity. }
  destruct cameraPos; cbn; rewrite H; reflexivity.
Qed.

Lemma cullLights_box fl scene frustum cameraPos :
  _rangedDirLightBoundingBox (cullLights fl scene frustum cameraPos) =
  _rangedDirLightBoundingBox fl.
Proof.
  unfold cullLights.
  set (fl0 := set_shadowEnabledSpotLights (set_lights fl []) []).
  destruct (fold_cullSpotLight frustum (spotLights scene) fl0) as (A1 & A2 & A3).
  set (fl1 := fold_left _ (spotLights scene) fl0) in *.
  destruct (fold_cullSphereLight frustum (sphereLights scene) fl1) as (B1 & B2 & B3).
  set (fl2 := fold_left _ (sphereLights scene) fl1) in *.
  destruct (fold_cullPointLight frustum (pointLights scene) fl2) as (C1 & C2 & C3).
  set (fl3 := fold_left _ (pointLights scene) fl2) in *.
  destruct (fold_cullRangedDirLight frustum (rangedDirLights scene) fl3) as (D1 & D2 & D3).
  set (fl4 := fold_left _ (rangedDirLights scene) fl3) in *.
  destruct cameraPos; cbn; rewrite D3, C3, B3, A3; reflexivity.
Qed.

(* sorting *)
Section SortFacts.
Variable A : Type.
Variable key : A -> Q.
Let cmp (a b : A) : Q := (key a - key b)%Q.
Let le (a b : A) : Prop := (key a <= key b)%Q.

Lemma cmp_le a b : Qle_bool (key a - key b) 0 = true -> le a b.
Proof.
  intros H. apply Qle_bool_imp_le in H. unfold le.
  apply Qplus_le_l with (z := (- key b)%Q). now rewrite Qplus_opp_r.
Qed.

Lemma cmp_gt a b : Qle_bool (key a - key b) 0 = false -> le b a.
Proof.
  intros H. unfold le. destruct (Qlt_le_dec (key b) (key a)) as [L|L].
  - now apply Qlt_le_weak.
  - exfalso. assert (Qle_bool (key a - key b) 0 = true); [|congruence].
    apply Qle_bool_iff. apply Qplus_le_l with (z := key b). ring_simplify. exact L.
Qed.

Lemma sort_insert_perm x l : Permutation (sort_insert (fun a b => key a - key b)%Q x l) (x :: l).
Proof.
  induction l as [|y l IH]; cbn; auto.
  destruct (Qle_bool _ 0); auto.
  rewrite IH. apply perm_swap.
Qed.

Lemma Array_sort_perm l : Permutation (Array_sort (fun a b => key a - key b)%Q l) l.
Proof.
  induction l as [|x l IH]; cbn; auto.
  rewrite sort_insert_perm. now constructor.
Qed.

Lemma sort_insert_sorted x l :
  Sorted le l -> Sorted le (sort_insert (fun a b => key a - key b)%Q x l).
Proof.
  induction l as [|y l IH]; cbn; intros S.
  - repeat constructor.
  - destruct (Qle_bool (key x - key y) 0) eqn:C.
    + constructor; auto. constructor. now apply cmp_le.
    + inversion S as [|? ? S' Hd]; subst. constructor; auto.
      destruct l as [|z l]; cbn.
      * constructor. now apply cmp_gt.
      * destruct (Qle_bool (key x - key z) 0); constructor.
        -- now apply cmp_gt.
        -- now inversion Hd.
Qed.

Lemma Array_sort_sorted l : Sorted le (Array_sort (fun a b => key a - key b)%Q l).
Proof.
  induction l as [|x l IH]; cbn; [constructor|]. now apply sort_insert_sorted.
Qed.

Lemma Array_sort_strongly_sorted l :
  StronglySorted le (Array_sort (fun a b => key a - key b)%Q l).
Proof.
  apply Sorted_StronglySorted; [|apply Array_sort_sorted].
  intros a b c. unfold le. apply Qle_trans.
Qed.
End SortFacts.

End Classifier.

(* ================================================================== *)
(** ** The viewports of the cascaded shadow map *)

Lemma Qtrunc_half_mul a w :
  Qtrunc (inject_Z a * half * inject_Z w) = Z.quot (a * w) 2.
Proof.
  unfold Qtrunc, half, Qminus, Qplus, Qopp, Qmult, inject_Z.
  cbn [Qnum Qden Pos.mul]. f_equal; ring.
Qed.

Lemma Qtrunc_half w : Qtrunc (half * inject_Z w) = Z.quot w 2.
Proof.
  unfold Qtrunc, half, Qmult, inject_Z.
  cbn [Qnum Qden Pos.mul]. f_equal; ring.
Qed.

Lemma Qtrunc_half_mul1 a w :
  Qtrunc ((1 - inject_Z a) * half * inject_Z w) = Z.quot ((1 - a) * w) 2.
Proof.
  unfold Qtrunc, half, Qminus, Qplus, Qopp, Qmult, inject_Z.
  cbn [Qnum Qden Pos.mul]. f_equal; ring.
Qed.

Lemma csm4_viewport light w h level vp0 sign :
  shadowFixedArea light = false -> csmLevel light = LEVEL_4 ->
  getCsmMainLightViewport light w h level vp0 sign =
  mkViewport (Z.max 0 (Z.quot (Z.rem level 2 * w) 2))
    (Z.max 0 (if 0 <? sign then Z.quot ((1 - floor_half level) * h) 2
              else Z.quot (floor_half level * h) 2))
    (Z.max 1 (Z.quot w 2)) (Z.max 1 (Z.quot h 2)).
Proof.
  intros F L. unfold getCsmMainLightViewport. rewrite F, L. cbn [orb CSMLevel_eqb CSMLevel_value Nat.eqb].
  cbn [vp_left vp_top vp_width vp_height].
  rewrite Qtrunc_half_mul, !Qtrunc_half.
  destruct (0 <? sign); now rewrite ?Qtrunc_half_mul1, ?Qtrunc_half_mul.
Qed.

Lemma four_levels level : 0 <= level < 4 -> level = 0 \/ level = 1 \/ level = 2 \/ level = 3.
Proof. lia. Qed.

(** C5 (amended): a light with [shadowFixedArea] off and four CSM levels, a
    shadow map of even width and height, either sign convention.  The four
    viewports of the levels 0 to 3 cover the map, are pairwise disjoint and
    lie inside the map.  With a positive [screenSpaceSignY] the levels 0
    and 1 are the row at [h / 2] and the levels 2 and 3 the row at 0; with a
    negative one the rows are exchanged. *)
Theorem csm_quadrants light w h vp0 sign :
  shadowFixedArea light = false -> csmLevel light = LEVEL_4 ->
  2 <= w -> 2 <= h -> Z.even w = true -> Z.even h = true ->
  let v level := getCsmMainLightViewport light w h level vp0 sign in
  csm_covers v w h /\ csm_disjoint v /\ csm_inside v w h
  /\ (0 < sign ->
      vp_top (v 0) = h / 2 /\ vp_top (v 1) = h / 2 /\ vp_top (v 2) = 0 /\ vp_top (v 3) = 0)
  /\ (sign < 0 ->
      vp_top (v 0) = 0 /\ vp_top (v 1) = 0 /\ vp_top (v 2) = h / 2 /\ vp_top (v 3) = h / 2).
Proof.
  intros F L Hw Hh Ew Eh v.
  apply Z.even_spec in Ew, Eh. destruct Ew as [a ->], Eh as [b ->].
  assert (V : forall level, v level =
     mkViewport (Z.max 0 (Z.quot (Z.rem level 2 * (2 * a)) 2))
    (Z.max 0 (if 0 <? sign then Z.quot ((1 - floor_half level) * (2 * b)) 2
              else Z.quot (floor_half level * (2 * b)) 2))
    (Z.max 1 (Z.quot (2 * a) 2)) (Z.max 1 (Z.quot (2 * b) 2))).
  { intros. unfold v. now apply csm4_viewport. }
  assert (Qa : forall k, Z.quot (k * (2 * a)) 2 = k * a).
  { intros k. replace (k * (2 * a)) with (k * a * 2) by lia. apply Z.quot_mul. lia. }
  assert (Qb : forall k, Z.quot (k * (2 * b)) 2 = k * b).
  { intros k. replace (k * (2 * b)) with (k * b * 2) by lia. apply Z.quot_mul. lia. }
  assert (Qa1 : Z.quot (2 * a) 2 = a) by (replace (2 * a) with (a * 2) by lia; apply Z.quot_mul; lia).
  assert (Qb1 : Z.quot (2 * b) 2 = b) by (replace (2 * b) with (b * 2) by lia; apply Z.quot_mul; lia).
  assert (Da : 2 * a / 2 = a) by (rewrite Z.mul_comm; apply Z.div_mul; lia).
  assert (Db : 2 * b / 2 = b) by (rewrite Z.mul_comm; apply Z.div_mul; lia).
  assert (V0 : v 0 = mkViewport 0 (if 0 <? sign then b else 0) a b).
  { rewrite V. change (floor_half 0) with 0. cbn [Z.rem]. rewrite Qa1, Qb1.
    change (Z.rem 0 2) with 0. rewrite Qa. f_equal; destruct (0 <? sign); rewrite ?Qb; lia. }
  assert (V1 : v 1 = mkViewport a (if 0 <? sign then b else 0) a b).
  { rewrite V. change (floor_half 1) with 0. rewrite Qa1, Qb1.
    change (Z.rem 1 2) with 1. rewrite Qa. f_equal; destruct (0 <? sign); rewrite ?Qb; lia. }
  assert (V2 : v 2 = mkViewport 0 (if 0 <? sign then 0 else b) a b).
  { rewrite V. change (floor_half 2) with 1. rewrite Qa1, Qb1.
    change (Z.rem 2 2) with 0. rewrite Qa. f_equal; destruct (0 <? sign); rewrite ?Qb; lia. }
  assert (V3 : v 3 = mkViewport a (if 0 <? sign then 0 else b) a b).
  { rewrite V. change (floor_half 3) with 1. rewrite Qa1, Qb1.
    change (Z.rem 3 2) with 1. rewrite Qa. f_equal; destruct (0 <? sign); rewrite ?Qb; lia. }
  clearbody v. clear V.
  repeat split.
  - intros px py Hx Hy. unfold in_viewport.
    destruct (Z_lt_ge_dec px a), (Z_lt_ge_dec py b), (0 <? sign) eqn:S.
    all: try (exists 0; rewrite V0; rewrite ?S; cbn; lia).
    all: try (exists 1; rewrite V1; rewrite ?S; cbn; lia).
    all: try (exists 2; rewrite V2; rewrite ?S; cbn; lia).
    all: try (exists 3; rewrite V3; rewrite ?S; cbn; lia).
  - intros l1 l2 px py H1 H2. unfold in_viewport.
    apply four_levels in H1, H2.
    destruct H1 as [->|[->|[->| ->]]], H2 as [->|[->|[->| ->]]];
      rewrite ?V0, ?V1, ?V2, ?V3; destruct (0 <? sign); cbn; lia.
  - apply four_levels in H. unfold in_viewport in H0.
    destruct H as [->|[->|[->| ->]]]; rewrite ?V0, ?V1, ?V2, ?V3 in H0;
      destruct (0 <? sign); cbn in H0; lia.
  - apply four_levels in H. unfold in_viewport in H0.
    destruct H as [->|[->|[->| ->]]]; rewrite ?V0, ?V1, ?V2, ?V3 in H0;
      destruct (0 <? sign); cbn in H0; lia.
  - apply four_levels in H. unfold in_viewport in H0.
    destruct H as [->|[->|[->| ->]]]; rewrite ?V0, ?V1, ?V2, ?V3 in H0;
      destruct (0 <? sign); cbn in H0; lia.
  - apply four_levels in H. unfold in_viewport in H0.
    destruct H as [->|[->|[->| ->]]]; rewrite ?V0, ?V1, ?V2, ?V3 in H0;
      destruct (0 <? sign); cbn in H0; lia.
  - rewrite V0. apply Z.ltb_lt in H. rewrite H. cbn [vp_top]. lia.
  - rewrite V1. apply Z.ltb_lt in H. rewrite H. cbn [vp_top]. lia.
  - rewrite V2. apply Z.ltb_lt in H. rewrite H. cbn [vp_top]. lia.
  - rewrite V3. apply Z.ltb_lt in H. rewrite H. cbn [vp_top]. lia.
  - rewrite V0. assert (S : (0 <? sign) = false) by (apply Z.ltb_ge; lia). rewrite S. cbn [vp_top]. lia.
  - rewrite V1. assert (S : (0 <? sign) = false) by (apply Z.ltb_ge; lia). rewrite S. cbn [vp_top]. lia.
  - rewrite V2. assert (S : (0 <? sign) = false) by (apply Z.ltb_ge; lia). rewrite S. cbn [vp_top]. lia.
  - rewrite V3. assert (S : (0 <? sign) = false) by (apply Z.ltb_ge; lia). rewrite S. cbn [vp_top]. lia.
Qed.



(* ================================================================== *)
(** ** Rounding to a double *)

Lemma rne_bounds x : Qfloor x <= rne x <= Qfloor x + 1.
Proof.
  unfold rne. destruct (_ ?= _)%Q; [destruct (Z.even _)| |]; lia.
Qed.

Lemma rne_Z n : rne (inject_Z n) = n.
Proof.
  unfold rne. rewrite Qfloor_Z.
  assert (H : (inject_Z n - inject_Z n ?= 1 # 2)%Q = Lt).
  { rewrite <- Qlt_alt. setoid_replace (inject_Z n - inject_Z n)%Q with 0%Q by ring.
    reflexivity. }
  now rewrite H.
Qed.

Lemma rne_le x y : (x <= y)%Q -> rne x <= rne y.
Proof.
  intros H. pose proof (Qfloor_resp_le _ _ H) as F.
  pose proof (rne_bounds x) as Bx. pose proof (rne_bounds y) as By.
  destruct (Z.eq_dec (Qfloor x) (Qfloor y)) as [e|ne]; [|lia].
  unfold rne in *. rewrite <- e in *.
  set (f := Qfloor x) in *.
  assert (R : (x - inject_Z f <= y - inject_Z f)%Q)
    by (apply Qplus_le_l; exact H).
  destruct (x - inject_Z f ?= 1 # 2)%Q eqn:Cx;
    destruct (y - inject_Z f ?= 1 # 2)%Q eqn:Cy;
    try destruct (Z.even f); try lia; exfalso.
  - (* x = 1/2, y < 1/2 *)
    apply Qeq_alt in Cx. apply Qlt_alt in Cy. rewrite Cx in R.
    exact (Qlt_not_le _ _ Cy R).
  - apply Qgt_alt in Cx. apply Qeq_alt in Cy. rewrite Cy in R.
    exact (Qlt_not_le _ _ Cx R).
  - apply Qgt_alt in Cx. apply Qlt_alt in Cy.
    apply (Qlt_not_le _ _ Cx). eapply Qle_trans; [exact R|]. now apply Qlt_le_weak.
  - apply Qgt_alt in Cx. apply Qlt_alt in Cy.
    apply (Qlt_not_le _ _ Cx). eapply Qle_trans; [exact R|]. now apply Qlt_le_weak.
Qed.

#[global] Instance rne_comp : Proper (Qeq ==> eq) rne.
Proof.
  intros x y H. apply Z.le_antisymm; apply rne_le; rewrite H; apply Qle_refl.
Qed.

Lemma inject_pow2_pos n : 0 <= n -> (0 < inject_Z (2 ^ n))%Q.
Proof.
  intros H. change 0%Q with (inject_Z 0). rewrite <- Zlt_Qlt.
  now apply Z.pow_pos_nonneg.
Qed.

(** The scaled number, its integer part, the shift and the significand of
    [round_units]. *)

Section Significand.
Variable q : Q.
Hypothesis Hq : (0 <= q)%Q.

Let x := (q * inject_Z (2 ^ 1074))%Q.
Let F := Qfloor x.
Let s := Z.max 0 (Z.log2 F - 52).
Let k := rne (x / inject_Z (2 ^ s)).

Lemma round_scaled_nonneg : (0 <= x)%Q.
Proof.
  unfold x. apply Qmult_le_0_compat; [exact Hq|].
  apply Qlt_le_weak, inject_pow2_pos. lia.
Qed.

Lemma round_floor_nonneg : 0 <= F.
Proof.
  unfold F. change 0 with (Qfloor (inject_Z 0)). apply Qfloor_resp_le, round_scaled_nonneg.
Qed.

Lemma round_shift_nonneg : 0 <= s.
Proof. unfold s. lia. Qed.

Lemma round_scaled_upper : (x < inject_Z (2 ^ (53 + s)))%Q.
Proof.
  eapply Qlt_le_trans; [apply Qlt_floor|]. fold F. rewrite <- Zle_Qle.
  pose proof round_floor_nonneg as HF.
  assert (F < 2 ^ (Z.log2 F + 1)).
  { destruct (Z.eq_dec F 0) as [->|]; [reflexivity|].
    apply Z.log2_spec. lia. }
  assert (2 ^ (Z.log2 F + 1) <= 2 ^ (53 + s)).
  { apply Z.pow_le_mono_r; [lia|]. unfold s. lia. }
  lia.
Qed.

Lemma round_scaled_lower : 0 < s -> (inject_Z (2 ^ (52 + s)) <= x)%Q.
Proof.
  intros Hs. eapply Qle_trans; [|apply Qfloor_le]. fold F. rewrite <- Zle_Qle.
  assert (E : 52 + s = Z.log2 F) by (unfold s in *; lia).
  rewrite E. apply Z.log2_spec.
  destruct (Z.le_gt_cases F 0) as [L|L]; [|exact L].
  rewrite (Z.log2_nonpos F L) in E. unfold s in Hs. rewrite (Z.log2_nonpos F L) in Hs. lia.
Qed.

Lemma round_div_pow_lt a n : 0 <= n ->
  (x < inject_Z (a * 2 ^ n))%Q -> (x / inject_Z (2 ^ n) < inject_Z a)%Q.
Proof.
  intros Hn H. apply Qlt_shift_div_r; [now apply inject_pow2_pos|].
  now rewrite <- inject_Z_mult.
Qed.

Lemma significand_upper : k <= 2 ^ 53.
Proof.
  unfold k. rewrite <- (rne_Z (2 ^ 53)). apply rne_le, Qlt_le_weak.
  apply round_div_pow_lt; [apply round_shift_nonneg|].
  rewrite <- Z.pow_add_r by (pose proof round_shift_nonneg; lia). apply round_scaled_upper.
Qed.

Lemma significand_lower : 0 < s -> 2 ^ 52 <= k.
Proof.
  intros Hs. unfold k. rewrite <- (rne_Z (2 ^ 52)). apply rne_le.
  apply Qle_shift_div_l; [apply inject_pow2_pos; lia|].
  rewrite <- inject_Z_mult, <- Z.pow_add_r by lia. now apply round_scaled_lower.
Qed.

Lemma significand_nonneg : 0 <= k.
Proof.
  unfold k. rewrite <- (rne_Z 0). apply rne_le.
  apply Qle_shift_div_l; [apply inject_pow2_pos, round_shift_nonneg|].
  rewrite Qmult_0_l. apply round_scaled_nonneg.
Qed.

End Significand.

Lemma round64_pos_units q :
  round64_pos q = (inject_Z (round_units q) / inject_Z (2 ^ 1074))%Q.
Proof. reflexivity. Qed.

Lemma round_units_le q1 q2 :
  (0 <= q1)%Q -> (q1 <= q2)%Q -> round_units q1 <= round_units q2.
Proof.
  intros H1 H12. assert (H2 : (0 <= q2)%Q) by (eapply Qle_trans; eassumption).
  unfold round_units. cbv zeta.
  set (x1 := (q1 * inject_Z (2 ^ 1074))%Q).
  set (x2 := (q2 * inject_Z (2 ^ 1074))%Q).
  assert (X : (x1 <= x2)%Q).
  { unfold x1, x2. apply Qmult_le_compat_r; [exact H12|].
    apply Qlt_le_weak, inject_pow2_pos. lia. }
  pose proof (Qfloor_resp_le _ _ X) as HF.
  set (s1 := Z.max 0 (Z.log2 (Qfloor x1) - 52)).
  set (s2 := Z.max 0 (Z.log2 (Qfloor x2) - 52)).
  assert (S12 : s1 <= s2).
  { unfold s1, s2. pose proof (Z.log2_le_mono _ _ HF). lia. }
  assert (S1 : 0 <= s1) by (unfold s1; lia).
  destruct (Z.eq_dec s1 s2) as [e|ne].
  - rewrite <- e. apply Z.mul_le_mono_nonneg_r; [apply Z.pow_nonneg; lia|].
    apply rne_le. apply Qmult_le_compat_r; [exact X|].
    apply Qinv_le_0_compat, Qlt_le_weak, inject_pow2_pos, S1.
  - assert (0 < s2) by lia.
    pose proof (@significand_upper q1 H1) as U. pose proof (@significand_lower q2) as L.
    cbv zeta in U, L. fold x1 s1 in U. fold x2 s2 in L. specialize (L H).
    pose proof (@significand_nonneg q1 H1) as N. cbv zeta in N. fold x1 s1 in N.
    transitivity (2 ^ 53 * 2 ^ s1).
    { apply Z.mul_le_mono_nonneg_r; [apply Z.pow_nonneg; lia|exact U]. }
    transitivity (2 ^ 52 * 2 ^ s2).
    { rewrite <- !Z.pow_add_r by lia. apply Z.pow_le_mono_r; lia. }
    apply Z.mul_le_mono_nonneg_r; [apply Z.pow_nonneg; lia|exact L].
Qed.

Lemma round_units_nonneg q : (0 <= q)%Q -> 0 <= round_units q.
Proof.
  intros H. unfold round_units. cbv zeta.
  apply Z.mul_nonneg_nonneg; [exact (@significand_nonneg q H)|apply Z.pow_nonneg; lia].
Qed.

Lemma units_le a b :
  a <= b ->
  (inject_Z a / inject_Z (2 ^ 1074) <= inject_Z b / inject_Z (2 ^ 1074))%Q.
Proof.
  intros H. apply Qmult_le_compat_r; [now rewrite <- Zle_Qle|].
  apply Qinv_le_0_compat, Qlt_le_weak, inject_pow2_pos. lia.
Qed.

Lemma round64_pos_le q1 q2 :
  (0 <= q1)%Q -> (q1 <= q2)%Q -> (round64_pos q1 <= round64_pos q2)%Q.
Proof.
  intros H1 H2. rewrite !round64_pos_units. apply units_le.
  now apply round_units_le.
Qed.

Lemma round64_pos_nonneg q : (0 <= q)%Q -> (0 <= round64_pos q)%Q.
Proof.
  intros H. rewrite round64_pos_units.
  apply Qle_shift_div_l; [apply inject_pow2_pos; lia|]. rewrite Qmult_0_l.
  change 0%Q with (inject_Z 0). rewrite <- Zle_Qle. now apply round_units_nonneg.
Qed.

(** Rounding is monotone. *)
Lemma round64_le q1 q2 : (q1 <= q2)%Q -> (round64 q1 <= round64 q2)%Q.
Proof.
  intros H. unfold round64.
  destruct (Qle_bool 0 q1) eqn:B1; destruct (Qle_bool 0 q2) eqn:B2.
  - apply Qle_bool_iff in B1. now apply round64_pos_le.
  - apply Qle_bool_iff in B1. exfalso.
    assert (C : (0 <= q2)%Q) by (eapply Qle_trans; eassumption).
    apply Qle_bool_iff in C. congruence.
  - apply Qle_bool_iff in B2.
    assert (N1 : (0 <= - q1)%Q).
    { destruct (Qlt_le_dec q1 0) as [L|L].
      - apply Qlt_le_weak in L. apply Qopp_le_compat in L. exact L.
      - apply Qle_bool_iff in L. congruence. }
    eapply Qle_trans; [|apply (@round64_pos_nonneg q2), B2].
    pose proof (@round64_pos_nonneg _ N1) as P. apply Qopp_le_compat in P. exact P.
  - assert (N2 : (0 <= - q2)%Q).
    { destruct (Qlt_le_dec q2 0) as [L|L].
      - apply Qlt_le_weak in L. apply Qopp_le_compat in L. exact L.
      - apply Qle_bool_iff in L. congruence. }
    apply Qopp_le_compat. apply round64_pos_le; [exact N2|].
    now apply Qopp_le_compat.
Qed.

#[global] Instance round64_comp : Proper (Qeq ==> Qeq) round64.
Proof.
  intros a b H. apply Qle_antisym; apply round64_le; rewrite H; apply Qle_refl.
Qed.

(** A number [m * 2^j] units of [2^-1074] with [m] below [2^53] is a
    double: rounding leaves it as it is. *)
Lemma round_units_exact q m j :
  0 <= m < 2 ^ 53 -> 0 <= j ->
  (q * inject_Z (2 ^ 1074) == inject_Z (m * 2 ^ j))%Q ->
  round_units q = m * 2 ^ j.
Proof.
  intros Hm Hj Hx. unfold round_units. cbv zeta.
  set (x := (q * inject_Z (2 ^ 1074))%Q) in *.
  assert (F : Qfloor x = m * 2 ^ j) by (rewrite Hx; apply Qfloor_Z).
  rewrite F.
  set (s := Z.max 0 (Z.log2 (m * 2 ^ j) - 52)).
  assert (S : 0 <= s <= j).
  { unfold s. destruct (Z.eq_dec m 0) as [->|N].
    - rewrite Z.mul_0_l. cbn. lia.
    - rewrite Z.log2_mul_pow2 by lia.
      assert (Z.log2 m < 53) by (apply Z.log2_lt_pow2; lia). lia. }
  assert (D : (x / inject_Z (2 ^ s) == inject_Z (m * 2 ^ (j - s)))%Q).
  { rewrite Hx.
    replace (m * 2 ^ j) with (m * 2 ^ (j - s) * 2 ^ s)
      by (rewrite <- Z.mul_assoc, <- Z.pow_add_r by lia;
          now replace (j - s + s) with j by lia).
    rewrite (inject_Z_mult (m * 2 ^ (j - s))). apply Qdiv_mult_l.
    intros C. pose proof (@inject_pow2_pos s (proj1 S)) as P.
    rewrite C in P. now apply Qlt_irrefl in P. }
  rewrite D, rne_Z. rewrite <- Z.mul_assoc, <- Z.pow_add_r by lia.
  now replace (j - s + s) with j by lia.
Qed.

Lemma round64_exact q m j :
  0 <= m < 2 ^ 53 -> 0 <= j ->
  (q * inject_Z (2 ^ 1074) == inject_Z (m * 2 ^ j))%Q ->
  (round64 q == q)%Q.
Proof.
  intros Hm Hj Hx.
  assert (P : (0 < inject_Z (2 ^ 1074))%Q) by (apply inject_pow2_pos; lia).
  assert (Hq : (0 <= q)%Q).
  { apply Qmult_le_r with (z := inject_Z (2 ^ 1074)); [exact P|].
    rewrite Qmult_0_l, Hx. change 0%Q with (inject_Z 0). rewrite <- Zle_Qle.
    apply Z.mul_nonneg_nonneg; [lia|apply Z.pow_nonneg; lia]. }
  unfold round64. apply Qle_bool_iff in Hq. rewrite Hq.
  rewrite round64_pos_units, (@round_units_exact q m j Hm Hj Hx), <- Hx.
  apply Qdiv_mult_l. intros C. rewrite C in P. now apply Qlt_irrefl in P.
Qed.

(** Integers up to [2^53] are doubles. *)
Lemma round64_Z n : 0 <= n <= 2 ^ 53 -> (round64 (inject_Z n) == inject_Z n)%Q.
Proof.
  intros H. destruct (Z.eq_dec n (2 ^ 53)) as [->|N].
  - apply round64_exact with (m := 1) (j := 1127); [lia|lia|].
    rewrite <- inject_Z_mult. apply inject_Z_injective.
    rewrite Z.mul_1_l, <- Z.pow_add_r by lia. reflexivity.
  - apply round64_exact with (m := n) (j := 1074); [lia|lia|].
    now rewrite <- inject_Z_mult.
Qed.


Lemma floor_round64_le y n :
  0 <= n <= 2 ^ 53 -> (y <= inject_Z n)%Q -> Qfloor (round64 y) <= n.
Proof.
  intros Hn H. rewrite <- (Qfloor_Z n). apply Qfloor_resp_le.
  rewrite <- (@round64_Z n Hn). now apply round64_le.
Qed.




(* ================================================================== *)
(** ** Working resolution and camera policy *)

Lemma native_size_pos e : 1 <= native_size e.
Proof. unfold native_size. lia. Qed.

Section Policy.
Context {E : Engine}.

(** C8 (amended): after [setupCameraConfigs], post-process is enabled only
    if float output is supported, post-process is requested (by the camera
    for a game view, by the editor's pipeline camera for an editor view)
    and the camera is a main game view or an editor view.  When no
    settings object resolves, shading scale is off and [shadingScale] is 1;
    post-process is then off for an editor view, while a game view keeps
    what its camera asks for. *)
Theorem camera_policy host camera pipelineConfigs cc0 cc :
  setupCameraConfigs host camera pipelineConfigs cc0 = Some cc ->
  (enablePostProcess cc = true ->
     useFloatOutput pipelineConfigs = true
     /\ post_process_requested host camera = true
     /\ (isMainGameWindow camera = Some true \/ isEditorView camera = true))
  /\ (pipelineSettings cc = None ->
        enableShadingScale cc = false /\ shadingScale cc = 1%Q
        /\ (isEditorView camera = true -> enablePostProcess cc = false)).
Proof.
  unfold setupCameraConfigs, post_process_requested.
  destruct (isMainGameWindow camera) as [g|] eqn:G; [|discriminate].
  destruct (isEditorView camera) eqn:V.
  - destruct (getEditorPipelineSettings host) as [s|] eqn:S; intros [= <-]; cbn.
    + split; [|discriminate].
      destruct (useFloatOutput pipelineConfigs); [|discriminate]. cbn.
      destruct (getEditorPipelineCamera host); [|discriminate]. auto.
    + split; [discriminate|auto].
  - intros [= <-]; cbn. split.
    + rewrite orb_false_r. intros H. apply andb_prop in H as [H ->].
      apply andb_prop in H as [-> ->]. auto.
    + intros ->. repeat split; auto; discriminate.
Qed.
End Policy.

(* ================================================================== *)
(** ** Running the builders

    A builder is run on a state step by step: [bind_run] runs the head of
    a [bind], [prim] runs a primitive of the render graph on the last pass
    of the list, and [known] applies the lemma of a builder that was run
    before.  Each lemma gives the passes that its builder appends. *)

Lemma list_access_at {A B} (g : A -> option (B * A)) pre x post :
  list_access (List.length pre) g (pre ++ x :: post) =
  match g x with
  | Some (b, x') => Some (b, pre ++ x' :: post)
  | None => None
  end.
Proof.
  induction pre as [|y pre IH]; cbn.
  - reflexivity.
  - rewrite IH. now destruct (g x) as [[b x']|].
Qed.


Lemma array_load_store {A} (d : A) i v l :
  array_load d i (array_store d i v l) = v.
Proof.
  unfold array_load. revert l. induction i as [|i IH]; intros [|x l]; cbn; auto.
Qed.

Lemma array_setup4 {A} (d a b c e : A) l :
  array_store d 3 e (array_store d 2 c (array_store d 1 b
    (array_store d 0 a (array_set_length d 4 l)))) = [a; b; c; e].
Proof. destruct l as [|? [|? [|? [|? ?]]]]; reflexivity. Qed.

Arguments array_set_length : simpl never.
Arguments array_store : simpl never.
Arguments array_load : simpl never.

Ltac unfold_prims :=
  unfold ret, this, ppl, assign, on_ppl, deref, throw,
    addRenderPass, addRenderTarget, addDepthStencil,
    addTexture, setVec4, setViewport, addQueue, set_name, set_showStatisticsOf,
    queue_set_name, queue_setViewport, addScene, useLightFrustum,
    addFullscreenQuad, addCameraQuad, on_queue, on_pass.

Ltac unfold_setters :=
  unfold with_passes, add_queues,
    set_passes, set_queues, set_items, set_queue_name, set_queue_viewport,
    set_pass_name, set_showStatistics, set_pass_viewport, set_renderTargets,
    set_depthStencils, set_textures, set_vec4s,
    set__clearColor, set__viewport, set__configs, set__cameraConfigs,
    set__cocParams, set__cocTexSize, set__bloomParams, set__bloomTexSize,
    set__bloomWidths, set__bloomHeights, set__bloomTexNames,
    set__copyAndTonemapMaterial, set__dofMaterial, set__bloomMaterial,
    set__fxaaMaterial, set__initialized, set_forwardLighting,
    set_v4x, set_v4y, set_v4z, set_v4w,
    set_vp_left, set_vp_top, set_vp_width, set_vp_height.

Ltac simp :=
  cbn -[Qfloor Z.max Z.add Z.mul Z.sub Z.land Z.lor Z.shiftl Z.eqb
        Qmult Qdiv Qinv inject_Z String.append str_of_nat
        working_size native_size half_size getCsmMainLightViewport cullLights
        bind for_of spot_chain setupPipelineConfigs setupCameraConfigs
        init_material int32 ToInt32 Z.modulo Z.pow].

(** A primitive call on a state in normal form. *)
Ltac prim :=
  unfold_prims; unfold_setters; simp; rewrite ?list_access_at; simp;
  rewrite ?list_access_at; simp;
  rewrite ?array_load_store, ?array_setup4; unfold array_load; cbn [nth];
  first [ reflexivity | rewrite <- ?app_assoc; reflexivity ].

Section Runs.
Context {E : Engine}.

Lemma bind_run {A B} (m : M A) (k : A -> M B) st r :
  m st = Some r -> bind m k st = k (fst r) (snd r).
Proof. intros H. unfold bind. rewrite H. now destruct r. Qed.

End Runs.

Ltac known := fail.

Ltac finish :=
  first [ reflexivity
        | rewrite <- ?app_assoc; cbn [app]; reflexivity
        | unfold with_passes; cbn [passes set_passes ppl_ this_];
          rewrite <- ?app_assoc; cbn [app]; reflexivity ].

Ltac run :=
  lazymatch goal with
  | |- bind ?m ?k ?st = _ =>
      let H := fresh "H" in
      eassert (H : m st = Some _);
      [ run
      | rewrite (@bind_run _ _ _ m k st _ H); clear H; cbn [fst snd]; cbv beta; run ]
  | |- for_of (_ :: _) _ _ = _ => cbn [for_of]; run
  | |- for_of [] _ _ = _ => cbn [for_of]; run
  | |- _ => first [ known | prim | (etransitivity; [known | finish]) ]
  end.

Ltac run1 :=
  lazymatch goal with
  | |- bind ?m ?k ?st = _ =>
      let H := fresh "H" in
      eassert (H : m st = Some _);
      [ run
      | rewrite (@bind_run _ _ _ m k st _ H); clear H; cbn [fst snd]; cbv beta ]
  end.

Section Runs2.
Context {E : Engine}.

Lemma run_light_queues camera ls : forall t p pre x,
  for_of ls (fun light =>
    queue <- addQueue (List.length pre) QueueHint.BLEND (Some "forward-add") ;;
    queue_set_name queue (light_queue_name light) ;;
    addScene queue camera [SceneFlags.BLEND] (Some (ALight light)) ;;
    ret tt) (with_passes t p (pre ++ [x]))
  = Some (tt, with_passes t p (pre ++ [add_queues x (map (light_queue camera) ls)])).
Proof.
  induction ls as [|l ls IH]; intros t p pre x.
  - cbn. unfold ret, with_passes, add_queues. cbn. rewrite app_nil_r.
    destruct x; reflexivity.
  - cbn [for_of].
    run1.
    etransitivity; [apply IH|].
    unfold_setters. cbn. rewrite <- app_assoc. reflexivity.
Qed.

Lemma run_addLightQueues camera t p pre x :
  _addLightQueues camera (List.length pre) (with_passes t p (pre ++ [x]))
  = Some (tt, with_passes t p
                (pre ++ [add_queues x
                           (map (light_queue camera) (lights (forwardLighting t)))])).
Proof.
  unfold _addLightQueues.
  rewrite (@bind_run _ _ _ this _ _ (t, with_passes t p (pre ++ [x]))) by reflexivity.
  cbn [fst snd]. apply run_light_queues.
Qed.


Lemma run_addLightPasses_loop colorName depthStencilName id width height camera
    size ls : forall t p pre x,
  addLightPasses_loop colorName depthStencilName id width height camera size ls
    (List.length pre) (with_passes t p (pre ++ [x]))
  = let c := spot_chain camera size width height colorName depthStencilName id ls
               (pre, x) in
    Some (List.length (fst c), with_passes t p (fst c ++ [snd c])).
Proof.
  induction ls as [|l ls IH]; intros t p pre x.
  - reflexivity.
  - cbn [addLightPasses_loop].
    do 14 run1.
    etransitivity; [apply IH|]. reflexivity.
Qed.

Lemma spot_chain_passes camera size width height colorName depthStencilName id ls :
  forall pre x,
  let c := spot_chain camera size width height colorName depthStencilName id ls
             (pre, x) in
  fst c ++ [snd c] =
  pre ++ [x] ++
    spot_light_passes camera size width height colorName depthStencilName id ls.
Proof.
  induction ls as [|l ls IH]; intros pre x; cbn.
  - reflexivity.
  - unfold spot_chain in IH. cbn in IH. rewrite IH. cbn. now rewrite <- !app_assoc.
Qed.

Lemma run_addLightPasses colorName depthStencilName id width height camera t p pre x :
  addLightPasses colorName depthStencilName id width height camera
    (List.length pre) (with_passes t p (pre ++ [x]))
  = let c := spot_chain camera (shadows_size (pipelineSceneData p)) width height
               colorName depthStencilName id
               (shadowEnabledSpotLights (forwardLighting t))
               (pre, add_queues x
                       (map (light_queue camera) (lights (forwardLighting t)))) in
    Some (List.length (fst c), with_passes t p (fst c ++ [snd c])).
Proof.
  unfold addLightPasses.
  rewrite (@bind_run _ _ _ _ _ _ _ (run_addLightQueues camera t p pre x)).
  cbn [fst snd]. do 2 run1. apply run_addLightPasses_loop.
Qed.

Lemma run_buildForwardMainLightPass t p pre x id camera colorName depthStencilName mainLight :
  _buildForwardMainLightPass (List.length pre) id camera colorName depthStencilName
    mainLight (with_passes t p (pre ++ [x]))
  = Some (tt, with_passes t p (pre ++ [
      set_queues
        (set_textures
          (set_depthStencils
             (set_renderTargets (set_pass_viewport x (Some (_viewport t)))
                (renderTargets x ++
                 [if forwardNeedClearColor camera
                  then mkRenderTarget colorName LoadOp.CLEAR (Some StoreOp.STORE)
                         (Some (_clearColor t))
                  else mkRenderTarget colorName LoadOp.LOAD None None]))
             (depthStencils x ++
              [if negb (Z.land (clearFlag camera) ClearFlagBit_DEPTH_STENCIL =? 0)
               then mkDepthStencil depthStencilName LoadOp.CLEAR (Some StoreOp.STORE)
                      (Some (clearDepth camera)) (Some (clearStencil camera))
                      (Some (Z.land (clearFlag camera) ClearFlagBit_DEPTH_STENCIL))
               else mkDepthStencil depthStencilName LoadOp.LOAD None None None None]))
          (if enableShadowMap (_cameraConfigs t)
           then textures x ++ [("ShadowMap" +++ str_of_nat id, "cc_shadowMap")]
           else textures x))
        (queues x ++
         [mkRenderQueue QueueHint.NONE None "" None
            [SceneItem camera ([SceneFlags.OPAQUE] ++ [SceneFlags.MASK])
               (main_light_ref mainLight) None]])])).
Proof.
  unfold _buildForwardMainLightPass.
  destruct (forwardNeedClearColor camera),
    (negb (Z.land (clearFlag camera) ClearFlagBit_DEPTH_STENCIL =? 0)),
    (enableShadowMap (_cameraConfigs t)) eqn:S.
  all: do 4 run1; rewrite S; run.
Qed.


End Runs2.

Ltac known ::=
  first [ eapply run_addLightQueues
        | eapply run_buildForwardMainLightPass
        | eapply run_addLightPasses ].

Section Runs3.
Context {E : Engine}.

Lemma run_prepare_dynamic_states camera width height t p :
  prepare_dynamic_states camera width height (mkState t p)
  = Some (tt, mkState (prepared t camera width height) p).
Proof. unfold prepare_dynamic_states. run. Qed.

Lemma run_addForwardRadiancePasses id camera width height mainLight
    colorName depthStencilName t p :
  _addForwardRadiancePasses id camera width height mainLight colorName
    depthStencilName (mkState t p)
  = let c := radiance_chain t (shadows_size (pipelineSceneData p)) camera
               width height id colorName depthStencilName mainLight (passes p) in
    Some (List.length (fst c),
          with_passes (prepared t camera width height) p (fst c ++ [snd c])).
Proof.
  unfold _addForwardRadiancePasses.
  rewrite (@bind_run _ _ _ _ _ _ _ (run_prepare_dynamic_states camera width height t p)).
  cbn [fst snd].
  do 3 run1.
  unfold radiance_chain.
  match goal with |- bind ?m ?k ?st = _ =>
    eassert (H : m st = Some _) by (eapply run_addLightPasses);
    rewrite (@bind_run _ _ _ m k st _ H); clear H end.
  cbv zeta. cbn [fst snd].
  match goal with |- context [spot_chain ?a ?b ?c ?d ?e ?f ?g ?h ?i] =>
    set (ch := spot_chain a b c d e f g h i) end.
  match goal with |- context [spot_chain ?a ?b ?c ?d ?e ?f ?g ?h ?i] =>
    replace (spot_chain a b c d e f g h i) with ch by reflexivity end.
  clearbody ch. destruct ch as [L y]. cbn [fst snd]. run.
Qed.

Lemma run_addUIQueue camera t p pre x :
  _addUIQueue camera (List.length pre) (with_passes t p (pre ++ [x]))
  = Some (tt, with_passes t p (pre ++ [with_ui (_cameraConfigs t) camera x])).
Proof.
  unfold _addUIQueue, with_ui, ui_queue.
  run1. destruct (enableProfiler (_cameraConfigs t)); run.
Qed.

Lemma run_addCopyAndTonemapPass width height radianceName colorName t p :
  _addCopyAndTonemapPass width height radianceName colorName (mkState t p)
  = Some (List.length (passes p),
          with_passes t p
            (passes p ++ [tonemap_pass t width height radianceName colorName])).
Proof. unfold _addCopyAndTonemapPass. run. Qed.

End Runs3.

Ltac known ::=
  first [ eapply run_addLightQueues
        | eapply run_buildForwardMainLightPass
        | eapply run_addLightPasses
        | eapply run_addForwardRadiancePasses
        | eapply run_addUIQueue
        | eapply run_addCopyAndTonemapPass ].

(* ================================================================== *)
(** ** Shadow map, depth of field and bloom builders *)

Section Runs4.
Context {E : Engine}.

Lemma run_addCascadedShadowMapPass id light camera t p :
  _addCascadedShadowMapPass id light camera (mkState t p)
  = Some (tt, with_passes (csm_this t p light) p
                (passes p ++ [csm_pass t p id light camera])).
Proof.
  unfold _addCascadedShadowMapPass, csm_pass, csm_this, csm_levels.
  run1; cbv zeta.
  destruct (csmSupported (pipelineSceneData p)); [destruct (csmLevel light)|];
    cbn [CSMLevel_value seq map]; run.
Qed.

Lemma run_addDepthOfFieldPasses s id camera width height dofRadianceName
    depthStencil radianceName t p :
  _addDepthOfFieldPasses s id camera width height dofRadianceName depthStencil
    radianceName (mkState t p)
  = Some (tt, with_passes (dof_this t s width height) p
                (passes p ++ dof_passes t id camera width height dofRadianceName
                               depthStencil radianceName)).
Proof. unfold _addDepthOfFieldPasses. cbv zeta. run. Qed.

End Runs4.

Section Runs5.
Context {E : Engine}.

Lemma run_bloom3 s id width height radianceName t p :
  iterations (bloom s) = 3%nat ->
  _addKawaseDualFilterBloomPasses s id width height radianceName (mkState t p)
  = Some (tt, with_passes (bloom3_this t s id width height) p
                (passes p ++ bloom_passes t s id width height radianceName 3)).
Proof.
  intros H3. unfold _addKawaseDualFilterBloomPasses. rewrite H3. cbv zeta.
  cbn [seq rev app Nat.add for_of].
  run.
Qed.
End Runs5.

(* ================================================================== *)
(** ** The desktop builder, branch by branch *)

Ltac unfold_prims ::=
  unfold ret, this, ppl, assign, on_ppl, deref, throw, do_cullLights,
    addRenderPass, addRenderTarget, addDepthStencil,
    addTexture, setVec4, setViewport, addQueue, set_name, set_showStatisticsOf,
    queue_set_name, queue_setViewport, addScene, useLightFrustum,
    addFullscreenQuad, addCameraQuad, on_queue, on_pass.

Ltac known ::=
  lazymatch goal with
  | |- _addLightQueues _ _ _ = _ => eapply run_addLightQueues
  | |- _buildForwardMainLightPass _ _ _ _ _ _ _ = _ =>
      eapply run_buildForwardMainLightPass
  | |- addLightPasses _ _ _ _ _ _ _ _ = _ => eapply run_addLightPasses
  | |- _addForwardRadiancePasses _ _ _ _ _ _ _ _ = _ =>
      eapply run_addForwardRadiancePasses
  | |- _addUIQueue _ _ _ = _ => eapply run_addUIQueue
  | |- _addCopyAndTonemapPass _ _ _ _ _ = _ => eapply run_addCopyAndTonemapPass
  | |- prepare_dynamic_states _ _ _ _ = _ => eapply run_prepare_dynamic_states
  | |- _addCascadedShadowMapPass _ _ _ _ = _ => eapply run_addCascadedShadowMapPass
  | |- _addDepthOfFieldPasses _ _ _ _ _ _ _ _ _ = _ =>
      eapply run_addDepthOfFieldPasses
  | |- _addKawaseDualFilterBloomPasses _ _ _ _ _ _ = _ =>
      eapply run_bloom3; eassumption
  end.

Lemma bind_assoc {E : Engine} {A B C} (m : M A) (k1 : A -> M B) (k2 : B -> M C) st :
  bind (bind m k1) k2 st = bind m (fun a => bind (k1 a) k2) st.
Proof. unfold bind. destruct (m st) as [[a st']|]; reflexivity. Qed.

Ltac assoc :=
  repeat lazymatch goal with
  | |- bind (bind ?m ?k1) ?k2 ?st = _ =>
      rewrite (@bind_assoc _ _ _ _ m k1 k2 st); cbv beta
  end.

Section Compose.
Context {E : Engine}.

Lemma spot_chain_app camera size width height colorName depthStencilName id ls :
  forall B pre x,
  spot_chain camera size width height colorName depthStencilName id ls (B ++ pre, x)
  = (B ++ fst (spot_chain camera size width height colorName depthStencilName id ls (pre, x)),
     snd (spot_chain camera size width height colorName depthStencilName id ls (pre, x))).
Proof.
  unfold spot_chain.
  induction ls as [|l ls IH]; intros B pre x; cbn [fold_left fst snd].
  - reflexivity.
  - rewrite <- IH. f_equal. f_equal. now rewrite !app_assoc.
Qed.

Lemma radiance_chain_app t size camera width height id colorName depthStencilName
    mainLight B :
  let c := radiance_chain t size camera width height id colorName
             depthStencilName mainLight B in
  let c0 := radiance_chain t size camera width height id colorName
              depthStencilName mainLight [] in
  c = (B ++ fst c0, snd c0).
Proof.
  cbv zeta. unfold radiance_chain. cbv zeta.
  match goal with |- context [spot_chain ?a ?b ?c ?d ?e ?f ?g ?h (B, ?x)] =>
    pose proof (spot_chain_app a b c d e f g h B [] x) as H end.
  rewrite app_nil_r in H. rewrite H. reflexivity.
Qed.

Lemma on_last_snoc {A} (f : A -> A) l x : on_last f (l ++ [x]) = l ++ [f x].
Proof.
  induction l as [|y l IH]; cbn; auto.
  rewrite IH. destruct l; reflexivity.
Qed.

Lemma radiance_chain_ext t1 t2 size camera width height id colorName
    depthStencilName mainLight B :
  forwardLighting t1 = forwardLighting t2 ->
  _cameraConfigs t1 = _cameraConfigs t2 ->
  radiance_chain t1 size camera width height id colorName depthStencilName
    mainLight B
  = radiance_chain t2 size camera width height id colorName depthStencilName
      mainLight B.
Proof. intros H1 H2. unfold radiance_chain. now rewrite H1, H2. Qed.

(** LDR, unscaled. *)
Lemma run_ldr_pipeline camera scene t p w :
  window camera = Some w ->
  useFloatOutput (_configs t) = false ->
  enableShadingScale (_cameraConfigs t) = false ->
  (enableShadowMap (_cameraConfigs t) = true -> mainLight scene <> None) ->
  exists t',
    _buildForwardPipeline camera scene (mkState t p)
    = Some (tt, with_passes t' p
         (passes p
          ++ csm_passes t p (renderWindowId w) camera (mainLight scene)
          ++ on_last (with_ui (_cameraConfigs t) camera)
               (radiance_passes (culled t scene camera None)
                  (shadows_size (pipelineSceneData p)) camera
                  (native_size (win_width w)) (native_size (win_height w))
                  (renderWindowId w) (colorName w) (depthStencilName w)
                  (mainLight scene)))).
Proof.
  intros Hw Hf Hs Hm. unfold _buildForwardPipeline, csm_passes, radiance_passes.
  destruct (enableShadowMap (_cameraConfigs t)) eqn:Sh;
    [destruct (mainLight scene) as [light|] eqn:ML; [|now destruct Hm]|].
  all: eexists; run1; rewrite Hw; run1; cbv zeta; run1; rewrite Hf, Hs, ?Sh.
  all: do 2 run1; cbv zeta; cbn [fst snd pipelineSceneData set_passes passes].
  all: match goal with |- context [radiance_chain ?a ?b ?c ?d ?e ?f ?g ?h ?i ?j] =>
      rewrite (@radiance_chain_ext a (culled t scene camera None) b c d e f g h i j
                 eq_refl eq_refl);
      pose proof (radiance_chain_app (culled t scene camera None) b c d e f g h i j)
        as R; cbv zeta in R; rewrite R end.
  all: match goal with |- context [radiance_chain ?a ?b ?c ?d ?e ?f ?g ?h ?i ?j] =>
      set (c0 := radiance_chain a b c d e f g h i j) in * end.
  all: clearbody c0; clear R; destruct c0 as [L y]; cbn [fst snd].
  all: rewrite on_last_snoc.
  all: run.
Qed.

(** HDR with post-process: bloom of three iterations, no FXAA. *)
Lemma run_hdr_bloom_pipeline camera scene t p w s :
  window camera = Some w ->
  useFloatOutput (_configs t) = true ->
  enablePostProcess (_cameraConfigs t) = true ->
  pipelineSettings (_cameraConfigs t) = Some s ->
  bloom_enabled (bloom s) = true ->
  iterations (bloom s) = 3%nat ->
  fxaa_enabled (fxaa s) = false ->
  (enableShadowMap (_cameraConfigs t) = true -> mainLight scene <> None) ->
  let id := renderWindowId w in
  let nativeWidth := native_size (win_width w) in
  let nativeHeight := native_size (win_height w) in
  let width := working_size (_cameraConfigs t) nativeWidth in
  let height := working_size (_cameraConfigs t) nativeHeight in
  let radianceName := "Radiance" +++ str_of_nat id in
  let dofRadianceName := "DofRadiance" +++ str_of_nat id in
  let dofOn := supportDepthSample (_configs t) && dof_enabled (depthOfField s) in
  exists t',
    _buildForwardPipeline camera scene (mkState t p)
    = Some (tt, with_passes t' p
         (passes p
          ++ csm_passes t p id camera (mainLight scene)
          ++ radiance_passes (culled t scene camera None)
               (shadows_size (pipelineSceneData p)) camera width height id
               (if dofOn then dofRadianceName else radianceName)
               (depthStencilName w) (mainLight scene)
          ++ (if dofOn
              then dof_passes t id camera width height dofRadianceName
                     (depthStencilName w) radianceName
              else [])
          ++ bloom_passes t s id width height radianceName 3
          ++ [with_ui (_cameraConfigs t) camera
                (tonemap_pass t nativeWidth nativeHeight radianceName
                   (colorName w))])).
Proof.
  intros Hw Hf Hpp Hs Hb H3 Hx Hm. cbv zeta.
  unfold _buildForwardPipeline, csm_passes, radiance_passes.
  destruct (supportDepthSample (_configs t) && dof_enabled (depthOfField s)) eqn:D;
  (destruct (enableShadowMap (_cameraConfigs t)) eqn:Sh;
    [destruct (mainLight scene) as [light|] eqn:ML; [|now destruct Hm]|]).
  all: eexists; run1; rewrite Hw; run1; cbv zeta; run1;
    rewrite Hf, Hpp, Hs, Hb, Hx, ?Sh, ?D.
  all: run1; cbv iota; assoc; run1; cbv zeta;
    cbn [fst snd pipelineSceneData set_passes passes].
  all: match goal with |- context [radiance_chain ?a ?b ?c ?d ?e ?f ?g ?h ?i ?j] =>
      rewrite (@radiance_chain_ext a (culled t scene camera None) b c d e f g h i j
                 eq_refl eq_refl);
      pose proof (radiance_chain_app (culled t scene camera None) b c d e f g h i j)
        as R; cbv zeta in R; rewrite R end.
  all: match goal with |- context [radiance_chain ?a ?b ?c ?d ?e ?f ?g ?h ?i ?j] =>
      set (c0 := radiance_chain a b c d e f g h i j) in * end.
  all: clearbody c0; clear R; destruct c0 as [L y]; cbn [fst snd].
  all: run.
Qed.
End Compose.

(* ================================================================== *)
(** ** No builder writes [_initialized] *)

Section Keeps.
Context {E : Engine}.


Lemma keeps_ret {A} (a : A) : keeps_initialized (ret a).
Proof. intros st b st' [= <- <-]. reflexivity. Qed.

Lemma keeps_throw {A} : keeps_initialized (@throw _ A).
Proof. intros st b st' [=]. Qed.

Lemma keeps_bind {A B} (m : M A) (k : A -> M B) :
  keeps_initialized m -> (forall a, keeps_initialized (k a)) ->
  keeps_initialized (bind m k).
Proof.
  intros Hm Hk st b st'. unfold bind.
  destruct (m st) as [[a st1]|] eqn:R; [|discriminate].
  intros H. rewrite (Hk _ _ _ _ H). eauto.
Qed.

Lemma keeps_this : keeps_initialized this.
Proof. intros st b st' [= <- <-]. reflexivity. Qed.

Lemma keeps_ppl : keeps_initialized ppl.
Proof. intros st b st' [= <- <-]. reflexivity. Qed.

Lemma keeps_assign f :
  (forall t, _initialized (f t) = _initialized t) -> keeps_initialized (assign f).
Proof. intros H st b st' [= <- <-]. apply H. Qed.

Lemma keeps_on_ppl f : keeps_initialized (on_ppl f).
Proof. intros st b st' [= <- <-]. reflexivity. Qed.

Lemma keeps_deref {A} (o : option A) : keeps_initialized (deref o).
Proof. destruct o; [apply keeps_ret|apply keeps_throw]. Qed.

Lemma keeps_on_pass {B} pass (g : RenderPass -> option (B * RenderPass)) :
  keeps_initialized (on_pass pass g).
Proof.
  intros st b st'. unfold on_pass.
  destruct (list_access pass g (passes (ppl_ st))) as [[b' l]|]; [|discriminate].
  intros [= <- <-]. reflexivity.
Qed.

Lemma keeps_addRenderPass w h l : keeps_initialized (addRenderPass w h l).
Proof. intros st b st' [= <- <-]. reflexivity. Qed.

Lemma keeps_for_of {A} (xs : list A) body :
  (forall x, keeps_initialized (body x)) -> keeps_initialized (for_of xs body).
Proof.
  intros H. induction xs as [|x xs IH]; cbn [for_of].
  - apply keeps_ret.
  - apply keeps_bind; auto.
Qed.

Lemma keeps_if {A} (c : bool) (a b : M A) :
  keeps_initialized a -> keeps_initialized b ->
  keeps_initialized (if c then a else b).
Proof. now destruct c. Qed.

End Keeps.

Ltac keeps_known := fail.

Ltac keeps1 :=
  lazymatch goal with
  | |- keeps_initialized (bind _ _) => apply keeps_bind; [|intros]
  | |- keeps_initialized (ret _) => apply keeps_ret
  | |- keeps_initialized throw => apply keeps_throw
  | |- keeps_initialized this => apply keeps_this
  | |- keeps_initialized ppl => apply keeps_ppl
  | |- keeps_initialized (on_ppl _) => apply keeps_on_ppl
  | |- keeps_initialized (deref _) => apply keeps_deref
  | |- keeps_initialized (addRenderPass _ _ _) => apply keeps_addRenderPass
  | |- keeps_initialized (on_pass _ _) => apply keeps_on_pass
  | |- keeps_initialized (assign _) => apply keeps_assign; intros; reflexivity
  | |- keeps_initialized (for_of _ _) => apply keeps_for_of; intros
  | |- keeps_initialized (if _ then _ else _) => apply keeps_if
  | |- keeps_initialized (match ?x with _ => _ end) => destruct x
  | |- keeps_initialized _ =>
      first
        [ keeps_known
        | progress unfold set_name, set_showStatisticsOf, addRenderTarget,
            addDepthStencil, addTexture, setVec4, setViewport, addQueue,
            queue_set_name, queue_setViewport, addScene, useLightFrustum,
            addFullscreenQuad, addCameraQuad, on_queue, declare,
            ppl_addRenderWindow, ppl_addRenderTarget, ppl_addDepthStencil,
            do_cullLights, prepare_dynamic_states ]
  end.

Ltac keeps := repeat keeps1.

Section Keeps2.
Context {E : Engine}.

Lemma keeps_addLightQueues camera pass : keeps_initialized (_addLightQueues camera pass).
Proof. unfold _addLightQueues. keeps. Qed.

Lemma keeps_addMobileShadowPasses_loop camera k ls :
  forall i, keeps_initialized (addMobileShadowPasses_loop camera k ls i).
Proof. induction ls as [|l ls IH]; intros i; cbn [addMobileShadowPasses_loop]; keeps; apply IH. Qed.

Lemma keeps_addMobileLightQueues_loop pass camera k ls :
  forall i, keeps_initialized (addMobileLightQueues_loop pass camera k ls i).
Proof. induction ls as [|l ls IH]; intros i; cbn [addMobileLightQueues_loop]; keeps; apply IH. Qed.

Lemma keeps_addLightPasses_loop c d id w h camera size ls :
  forall pass, keeps_initialized (addLightPasses_loop c d id w h camera size ls pass).
Proof. induction ls as [|l ls IH]; intros pass; cbn [addLightPasses_loop]; keeps; apply IH. Qed.

End Keeps2.

Ltac keeps_known ::=
  lazymatch goal with
  | |- keeps_initialized (_addLightQueues _ _) => apply keeps_addLightQueues
  | |- keeps_initialized (addMobileShadowPasses_loop _ _ _ _) =>
      apply keeps_addMobileShadowPasses_loop
  | |- keeps_initialized (addMobileLightQueues_loop _ _ _ _ _) =>
      apply keeps_addMobileLightQueues_loop
  | |- keeps_initialized (addLightPasses_loop _ _ _ _ _ _ _ _ _) =>
      apply keeps_addLightPasses_loop
  end.

Section Keeps3.
Context {E : Engine}.

Lemma keeps_addCascadedShadowMapPass id light camera :
  keeps_initialized (_addCascadedShadowMapPass id light camera).
Proof. unfold _addCascadedShadowMapPass. keeps. Qed.

Lemma keeps_addCopyPass w h i o : keeps_initialized (_addCopyPass w h i o).
Proof. unfold _addCopyPass. keeps. Qed.

Lemma keeps_addCopyAndTonemapPass w h i o :
  keeps_initialized (_addCopyAndTonemapPass w h i o).
Proof. unfold _addCopyAndTonemapPass. keeps. Qed.

Lemma keeps_buildForwardMainLightPass pass id camera c d ml :
  keeps_initialized (_buildForwardMainLightPass pass id camera c d ml).
Proof. unfold _buildForwardMainLightPass. keeps. Qed.

Lemma keeps_addDepthOfFieldPasses s id camera w h a b c :
  keeps_initialized (_addDepthOfFieldPasses s id camera w h a b c).
Proof. unfold _addDepthOfFieldPasses. keeps. Qed.

Lemma keeps_addKawaseDualFilterBloomPasses s id w h r :
  keeps_initialized (_addKawaseDualFilterBloomPasses s id w h r).
Proof. unfold _addKawaseDualFilterBloomPasses. keeps. Qed.

Lemma keeps_addFxaaPass w h a b : keeps_initialized (_addFxaaPass w h a b).
Proof. unfold _addFxaaPass. keeps. Qed.

Lemma keeps_addUIQueue camera pass : keeps_initialized (_addUIQueue camera pass).
Proof. unfold _addUIQueue. keeps. Qed.

Lemma keeps_addLightPasses c d id w h camera pass :
  keeps_initialized (addLightPasses c d id w h camera pass).
Proof. unfold addLightPasses. keeps. Qed.

End Keeps3.

Ltac keeps_known ::=
  lazymatch goal with
  | |- keeps_initialized (_addLightQueues _ _) => apply keeps_addLightQueues
  | |- keeps_initialized (addMobileShadowPasses_loop _ _ _ _) =>
      apply keeps_addMobileShadowPasses_loop
  | |- keeps_initialized (addMobileLightQueues_loop _ _ _ _ _) =>
      apply keeps_addMobileLightQueues_loop
  | |- keeps_initialized (addLightPasses_loop _ _ _ _ _ _ _ _ _) =>
      apply keeps_addLightPasses_loop
  | |- keeps_initialized (_addCascadedShadowMapPass _ _ _) =>
      apply keeps_addCascadedShadowMapPass
  | |- keeps_initialized (_addCopyPass _ _ _ _) => apply keeps_addCopyPass
  | |- keeps_initialized (_addCopyAndTonemapPass _ _ _ _) =>
      apply keeps_addCopyAndTonemapPass
  | |- keeps_initialized (_buildForwardMainLightPass _ _ _ _ _ _) =>
      apply keeps_buildForwardMainLightPass
  | |- keeps_initialized (_addDepthOfFieldPasses _ _ _ _ _ _ _ _) =>
      apply keeps_addDepthOfFieldPasses
  | |- keeps_initialized (_addKawaseDualFilterBloomPasses _ _ _ _ _) =>
      apply keeps_addKawaseDualFilterBloomPasses
  | |- keeps_initialized (_addFxaaPass _ _ _ _) => apply keeps_addFxaaPass
  | |- keeps_initialized (_addUIQueue _ _) => apply keeps_addUIQueue
  | |- keeps_initialized (addLightPasses _ _ _ _ _ _ _) => apply keeps_addLightPasses
  end.

Section Keeps4.
Context {E : Engine}.

Lemma keeps_buildForwardPipeline camera scene :
  keeps_initialized (_buildForwardPipeline camera scene).
Proof.
  unfold _buildForwardPipeline, _addForwardRadiancePasses.
  keeps.
Qed.

Lemma keeps_buildMobileForwardPipeline camera scene :
  keeps_initialized (_buildMobileForwardPipeline camera scene).
Proof.
  unfold _buildMobileForwardPipeline, _addMobileForwardRadiancePass,
    addMobileShadowPasses, addMobileLightQueues.
  keeps.
Qed.

Lemma keeps_setup_camera host camera : keeps_initialized (setup_camera host camera).
Proof.
  unfold setup_camera.
  destruct (scene camera), (window camera); try apply keeps_ret.
  do 5 keeps1.
  - apply keeps_buildMobileForwardPipeline.
  - apply keeps_buildForwardPipeline.
Qed.

End Keeps4.

(* ================================================================== *)
(** ** The mobile loops over the shadow-casting spot lights *)

Section Mobile.
Context {E : Engine}.

Lemma with_passes_same t p : with_passes t p (passes p) = mkState t p.
Proof. destruct p; reflexivity. Qed.

Lemma run_addMobileShadowPasses_loop camera k ls : forall i t p,
  (i < k)%nat ->
  addMobileShadowPasses_loop camera k ls i (mkState t p)
  = Some (tt, with_passes t p
                (passes p
                 ++ mobile_shadow_passes camera (shadows_size (pipelineSceneData p)) i
                      (firstn (k - i) ls))).
Proof.
  induction ls as [|l ls IH]; intros i t p Hi.
  - cbn. rewrite firstn_nil. cbn. rewrite app_nil_r, with_passes_same. reflexivity.
  - cbn [addMobileShadowPasses_loop].
    do 8 run1.
    replace (k - i)%nat with (S (k - S i)) by lia. cbn [firstn mobile_shadow_passes].
    destruct (Nat.leb_spec k (S i)) as [Hk|Hk].
    + replace (k - S i)%nat with 0%nat by lia. cbn [firstn mobile_shadow_passes].
      run.
    + etransitivity; [apply IH; lia|]. finish.
Qed.

Lemma run_addMobileLightQueues_loop camera k ls : forall i t p pre x,
  (i < k)%nat ->
  addMobileLightQueues_loop (List.length pre) camera k ls i
    (with_passes t p (pre ++ [x]))
  = Some (tt, with_passes t p (pre ++ [mobile_lit camera i (firstn (k - i) ls) x])).
Proof.
  induction ls as [|l ls IH]; intros i t p pre x Hi.
  - cbn. rewrite firstn_nil. reflexivity.
  - cbn [addMobileLightQueues_loop].
    do 3 run1.
    replace (k - i)%nat with (S (k - S i)) by lia. cbn [firstn mobile_lit].
    destruct (Nat.leb_spec k (S i)) as [Hk|Hk].
    + replace (k - S i)%nat with 0%nat by lia. cbn [firstn mobile_lit].
      run.
    + etransitivity; [apply IH; lia|]. finish.
Qed.

Lemma length_mobile_shadow_passes camera size ls : forall i,
  List.length (mobile_shadow_passes camera size i ls) = List.length ls.
Proof. induction ls; intros i; cbn; auto. Qed.

Lemma count_spot_light_passes camera size width height colorName depthStencilName id ls :
  count_spot_shadow_passes
    (spot_light_passes camera size width height colorName depthStencilName id ls)
  = List.length ls.
Proof.
  unfold count_spot_shadow_passes.
  induction ls as [|l ls IH]; cbn; auto.
Qed.

End Mobile.

(* ================================================================== *)
(** ** Classification, distance order and history *)

Section ClassifierClaims.
Context {E : Engine}.

Lemma in_shadow_spots fl scene frustum cameraPos s :
  In s (shadowEnabledSpotLights (cullLights fl scene frustum cameraPos)) ->
  In s (spotLights scene) /\ spot_baked s = false /\ spot_shadowEnabled s = true.
Proof.
  rewrite cullLights_shadow. intros H.
  assert (H' : In s (shadow_spots scene frustum)).
  { destruct cameraPos as [pos|]; auto.
    eapply Permutation_in; [|exact H].
    apply (Array_sort_perm _ (fun l => squaredDistance pos (spot_position l))). }
  unfold shadow_spots in H'. apply filter_In in H' as [H1 H2].
  apply andb_prop in H2 as [H2 H3]. unfold spot_culled_in in H2.
  apply andb_prop in H2 as [H2 _]. apply negb_true_iff in H2. auto.
Qed.

(** No light is in both sequences. *)
Lemma cullLights_disjoint fl scene frustum cameraPos l :
  let fl' := cullLights fl scene frustum cameraPos in
  ~ (In l (lights fl') /\ in_shadow_sequence fl' l).
Proof.
  intros fl' [H1 H2]. destruct l as [s| | |]; cbn in H2; try contradiction.
  apply in_shadow_spots in H2 as (_ & _ & Hs).
  unfold fl' in H1. rewrite cullLights_lights in H1. unfold active_lights in H1.
  rewrite !in_app_iff, !in_map_iff in H1.
  destruct H1 as [(x & [= ->] & H)|[(x & [=] & _)|[(x & [=] & _)|(x & [=] & _)]]].
  apply filter_In in H as [_ H]. apply andb_prop in H as [_ H].
  rewrite Hs in H. discriminate.
Qed.

(** A baked spot, sphere or point light is in neither sequence. *)
Lemma cullLights_baked_punctual fl scene frustum cameraPos l :
  let fl' := cullLights fl scene frustum cameraPos in
  Light_baked l = true -> (forall r, l <> OfRangedDir r) ->
  ~ In l (lights fl') /\ ~ in_shadow_sequence fl' l.
Proof.
  intros fl' Hb Hr. split.
  - unfold fl'. rewrite cullLights_lights. unfold active_lights.
    rewrite !in_app_iff, !in_map_iff.
    intros [(x & <- & H)|[(x & <- & H)|[(x & <- & H)|(x & <- & H)]]];
      cbn in Hb; try (now destruct (Hr x));
      apply filter_In in H as [_ H];
      unfold spot_culled_in, sphere_culled_in, point_culled_in in H;
      rewrite Hb in H; discriminate.
  - destruct l as [s| | |]; cbn; auto.
    intros H. apply in_shadow_spots in H as (_ & H & _). cbn in Hb. congruence.
Qed.

(** C6: with a camera position the shadow-casting spot lights are in
    non-decreasing order of squared distance to it (and are the visible
    shadow-casting spot lights of the scene, each as often as the scene
    lists it); without one they are in scene iteration order. *)
Theorem cullLights_distance_order fl scene frustum :
  (forall cameraPos,
     let sorted := shadowEnabledSpotLights
                     (cullLights fl scene frustum (Some cameraPos)) in
     StronglySorted (nearer cameraPos) sorted
     /\ Permutation sorted (shadow_spots scene frustum))
  /\ shadowEnabledSpotLights (cullLights fl scene frustum None)
     = shadow_spots scene frustum.
Proof.
  split; [intros pos|]; rewrite cullLights_shadow; [split|reflexivity].
  - apply (Array_sort_strongly_sorted _ (fun l => squaredDistance pos (spot_position l))).
  - apply (Array_sort_perm _ (fun l => squaredDistance pos (spot_position l))).
Qed.

Lemma replay_box fl calls :
  _rangedDirLightBoundingBox (replay fl calls) = _rangedDirLightBoundingBox fl.
Proof.
  unfold replay. revert fl.
  induction calls as [|c calls IH]; intros fl; cbn [fold_left]; auto.
  rewrite IH. apply cullLights_box.
Qed.

(** C10: the two sequences after [cullLights] do not depend on the calls
    that the classifier served before, whatever their arguments were; in
    particular a second call with the same arguments leaves the sequences
    as the first call did. *)
Theorem cullLights_history_independent fl calls scene frustum cameraPos :
  let fresh := cullLights fl scene frustum cameraPos in
  let later := cullLights (replay fl calls) scene frustum cameraPos in
  let again := cullLights fresh scene frustum cameraPos in
  (lights later = lights fresh
   /\ shadowEnabledSpotLights later = shadowEnabledSpotLights fresh)
  /\ (lights again = lights fresh
      /\ shadowEnabledSpotLights again = shadowEnabledSpotLights fresh).
Proof.
  cbv zeta.
  rewrite !cullLights_lights, !cullLights_shadow, replay_box, cullLights_box.
  auto.
Qed.
End ClassifierClaims.

(* ================================================================== *)
(** ** The frames of the desktop builder *)

Section ComposeClaims.
Context {E : Engine}.

Lemma half_size_div x : half_size x = Z.max (x / 2) 1.
Proof. unfold half_size. f_equal. symmetry. apply (Zdiv_Qdiv x 2). Qed.

Lemma setupCameraConfigs_shadow host camera pc cc0 cc sc :
  setupCameraConfigs host camera pc cc0 = Some cc -> scene camera = Some sc ->
  enableShadowMap cc =
    match mainLight sc with Some l => dir_shadowEnabled l | None => false end.
Proof.
  unfold setupCameraConfigs. intros H Hs. rewrite Hs in H.
  destruct (isMainGameWindow camera); [|discriminate].
  destruct (isEditorView camera); [destruct (getEditorPipelineSettings host)|];
    injection H as <-; reflexivity.
Qed.

(** C3 (amended): LDR output, no shading scale, main-light shadows off and
    no additive light.  One call composes exactly one render pass: the
    forward pass, at the native size, on the window's colour and
    depth-stencil targets; its queues are the opaque queue, the transparent
    queue and the UI queue.  No shadow pass, no post-process pass, and no
    pass of its own for the UI. *)
Theorem ldr_unscaled_frame host camera sc w t p cc :
  scene camera = Some sc -> window camera = Some w ->
  isMobile (_configs t) = false -> useFloatOutput (_configs t) = false ->
  setupCameraConfigs host camera (_configs t) (_cameraConfigs t) = Some cc ->
  enableShadingScale cc = false -> enableShadowMap cc = false ->
  lights (cullLights (forwardLighting t) sc (frustum camera) None) = [] ->
  shadowEnabledSpotLights (cullLights (forwardLighting t) sc (frustum camera) None)
    = [] ->
  let nativeWidth := native_size (win_width w) in
  let nativeHeight := native_size (win_height w) in
  let forward :=
    forward_pass cc camera nativeWidth nativeHeight (renderWindowId w)
      (colorName w) (depthStencilName w) (mainLight sc) in
  let P :=
    with_ui cc camera
      (add_queues forward [blend_queue camera (main_light_ref (mainLight sc))]) in
  (exists t',
     setup_camera host camera (mkState t p)
     = Some (tt, with_passes t' p (passes p ++ [P])))
  /\ pass_name P = "ForwardPass"
  /\ pass_width P = nativeWidth /\ pass_height P = nativeHeight
  /\ map rt_name (renderTargets P) = [colorName w]
  /\ map ds_name (depthStencils P) = [depthStencilName w]
  /\ queues P = queues forward
                ++ [blend_queue camera (main_light_ref (mainLight sc));
                    ui_queue cc camera].
Proof.
  intros Hsc Hw Hm Hf Hcc Hs Hsh Hl Hsl. cbv zeta. split.
  - set (t1 := set__cameraConfigs t cc).
    destruct (@run_ldr_pipeline _ camera sc t1 p w Hw Hf Hs) as [t' Ht'].
    { unfold t1; cbn. rewrite Hsh. discriminate. }
    exists t'. unfold setup_camera. rewrite Hsc, Hw.
    run1. rewrite Hcc. do 3 run1. cbn [_configs]. rewrite Hm.
    etransitivity; [exact Ht'|]. f_equal. f_equal. f_equal. f_equal.
    unfold csm_passes, radiance_passes, radiance_chain, spot_chain, t1.
    cbn [culled forwardLighting set_forwardLighting set__cameraConfigs
         _cameraConfigs].
    rewrite Hsh, Hl, Hsl. reflexivity.
  - unfold with_ui, add_queues, forward_pass.
    destruct (enableProfiler cc), (forwardNeedClearColor camera),
      (negb (Z.land (clearFlag camera) ClearFlagBit_DEPTH_STENCIL =? 0));
      repeat split; reflexivity.
Qed.

(** C4 (amended): HDR output with post-process, bloom of three iterations,
    no FXAA.  One call composes, in this order: the CSM pass when
    main-light shadows are on, the forward pass and the two passes of every
    shadow-casting spot light, the five depth-of-field passes when depth of
    field runs, eight bloom passes (prefilter, three downsamples, three
    upsamples, combine), and the tonemap pass to the window colour target
    at the native size, to which the UI queue is appended.  Every bloom
    level halves the size of the one before, not below 1, from half the
    working size; the upsamples walk the levels back; the combine pass
    loads the radiance target. *)
Theorem hdr_bloom_frame camera scene t p w s :
  window camera = Some w ->
  useFloatOutput (_configs t) = true ->
  enablePostProcess (_cameraConfigs t) = true ->
  pipelineSettings (_cameraConfigs t) = Some s ->
  bloom_enabled (bloom s) = true ->
  iterations (bloom s) = 3%nat ->
  fxaa_enabled (fxaa s) = false ->
  (enableShadowMap (_cameraConfigs t) = true -> mainLight scene <> None) ->
  let id := renderWindowId w in
  let nativeWidth := native_size (win_width w) in
  let nativeHeight := native_size (win_height w) in
  let width := working_size (_cameraConfigs t) nativeWidth in
  let height := working_size (_cameraConfigs t) nativeHeight in
  let radianceName := "Radiance" +++ str_of_nat id in
  let dofRadianceName := "DofRadiance" +++ str_of_nat id in
  let dofOn := supportDepthSample (_configs t) && dof_enabled (depthOfField s) in
  let blooms := bloom_passes t s id width height radianceName 3 in
  (exists t',
    _buildForwardPipeline camera scene (mkState t p)
    = Some (tt, with_passes t' p
         (passes p
          ++ csm_passes t p id camera (mainLight scene)
          ++ radiance_passes (culled t scene camera None)
               (shadows_size (pipelineSceneData p)) camera width height id
               (if dofOn then dofRadianceName else radianceName)
               (depthStencilName w) (mainLight scene)
          ++ (if dofOn
              then dof_passes t id camera width height dofRadianceName
                     (depthStencilName w) radianceName
              else [])
          ++ blooms
          ++ [with_ui (_cameraConfigs t) camera
                (tonemap_pass t nativeWidth nativeHeight radianceName
                   (colorName w))])))
  /\ map layoutName blooms
     = ["bloom1-prefilter"; "bloom1-downsample"; "bloom1-downsample";
        "bloom1-downsample"; "bloom1-upsample"; "bloom1-upsample";
        "bloom1-upsample"; "bloom1-combine"]
  /\ map (fun b => (pass_width b, pass_height b)) blooms
     = [(bloom_size width 0, bloom_size height 0);
        (bloom_size width 1, bloom_size height 1);
        (bloom_size width 2, bloom_size height 2);
        (bloom_size width 3, bloom_size height 3);
        (bloom_size width 2, bloom_size height 2);
        (bloom_size width 1, bloom_size height 1);
        (bloom_size width 0, bloom_size height 0);
        (width, height)]
  /\ (forall x, bloom_size x 0 = Z.max (x / 2) 1)
  /\ (forall x i, bloom_size x (S i) = Z.max (bloom_size x i / 2) 1)
  /\ renderTargets (bloom_combine_pass t s id width height radianceName)
     = [mkRenderTarget radianceName LoadOp.LOAD (Some StoreOp.STORE) None].
Proof.
  intros Hw Hf Hpp Hs Hb H3 Hx Hm. cbv zeta. split; [|repeat split].
  - apply (@run_hdr_bloom_pipeline _ camera scene t p w s); assumption.
  - intros x. apply half_size_div.
  - intros x i. cbn [bloom_size]. apply half_size_div.
Qed.

End ComposeClaims.

(* ================================================================== *)
(** ** The cap on spot-light shadow maps, and the material gate *)

Ltac known ::=
  lazymatch goal with
  | |- _addLightQueues _ _ _ = _ => eapply run_addLightQueues
  end.

Section CapClaims.
Context {E : Engine}.

(** C2 (amended): with a maximum [k >= 1] and more than [k] shadow-casting
    spot lights, the mobile variants serve the first [k] lights of the
    sequence only: [addMobileShadowPasses] appends exactly [k] shadow-caster
    passes and [addMobileLightQueues] binds and draws exactly those [k]
    lights in the forward pass; nothing is recorded for the others.  The
    desktop variant [addLightPasses] takes no maximum: it appends a
    shadow-caster pass and a lighting pass for every light of the
    sequence. *)
Theorem spot_shadow_cap camera k t p :
  let ls := shadowEnabledSpotLights (forwardLighting t) in
  let size := shadows_size (pipelineSceneData p) in
  (1 <= k)%nat -> (k < List.length ls)%nat ->
  (addMobileShadowPasses camera k (mkState t p)
   = Some (tt, with_passes t p
                 (passes p ++ mobile_shadow_passes camera size 0 (firstn k ls)))
   /\ List.length (mobile_shadow_passes camera size 0 (firstn k ls)) = k)
  /\ (forall pre x,
        addMobileLightQueues (List.length pre) camera k
          (with_passes t p (pre ++ [x]))
        = Some (tt, with_passes t p
             (pre ++ [mobile_lit camera 0 (firstn k ls)
                        (add_queues x
                           (map (light_queue camera) (lights (forwardLighting t))))])))
  /\ (forall colorName depthStencilName id width height pre x,
        let added :=
          spot_light_passes camera size width height colorName depthStencilName
            id ls in
        (exists pass,
           addLightPasses colorName depthStencilName id width height camera
             (List.length pre) (with_passes t p (pre ++ [x]))
           = Some (pass, with_passes t p
                (pre ++ [add_queues x
                           (map (light_queue camera) (lights (forwardLighting t)))]
                 ++ added)))
        /\ count_spot_shadow_passes added = List.length ls).
Proof.
  intros ls size Hk Hm. repeat split.
  - unfold addMobileShadowPasses. run1.
    rewrite run_addMobileShadowPasses_loop by lia.
    now rewrite Nat.sub_0_r.
  - rewrite length_mobile_shadow_passes, length_firstn. lia.
  - intros pre x. unfold addMobileLightQueues. do 2 run1.
    etransitivity; [apply run_addMobileLightQueues_loop; lia|].
    now rewrite Nat.sub_0_r.
  - eexists. rewrite run_addLightPasses. cbv zeta.
    rewrite spot_chain_passes. reflexivity.
  - apply count_spot_light_passes.
Qed.

End CapClaims.

Section GateClaims.
Context {E : Engine}.

Lemma run_initMaterials_ready host t p :
  _initialized t = true ->
  _initMaterials host (mkState t p) = Some (0%nat, mkState t p).
Proof. intros H. unfold _initMaterials. run1. rewrite H. reflexivity. Qed.

Lemma run_initMaterials_attempt host t p :
  _initialized t = false ->
  let t1 := materials_attempt host t p in
  _initMaterials host (mkState t p)
  = Some (if materials_ready t1 then 0%nat else 1%nat,
          mkState (if materials_ready t1 then set__initialized t1 true else t1) p).
Proof.
  intros H t1. unfold _initMaterials. run1. rewrite H. do 7 run1.
  match goal with |- bind (if ?c then _ else _) _ ?st = _ =>
    change c with (materials_ready t1); change st with (mkState t1 p) end.
  assert (I1 : _initialized t1 = false) by exact H.
  clearbody t1. destruct (materials_ready t1).
  - do 2 run1. reflexivity.
  - do 2 run1. cbn [this_]. rewrite I1. reflexivity.
Qed.

Lemma materials_attempt_initialized host t p :
  _initialized (materials_attempt host t p) = _initialized t.
Proof. reflexivity. Qed.


End GateClaims.

(* ================================================================== *)
(** ** The resource planner [windowResize] *)

Section Planner.
Context {E : Engine}.


Lemma declares_ret {A} (a : A) : declares (ret a).
Proof. intros st. exists a, st. repeat split. apply incl_refl. Qed.

Lemma declares_bind {A B} (m : M A) (k : A -> M B) :
  declares m -> (forall a, declares (k a)) -> declares (bind m k).
Proof.
  intros Hm Hk st. destruct (Hm st) as (a & st1 & R1 & T1 & I1).
  destruct (Hk a st1) as (b & st2 & R2 & T2 & I2).
  exists b, st2. unfold bind. rewrite R1. repeat split; auto; try congruence.
  eapply incl_tran; eauto.
Qed.

Lemma declares_declare kind name format w h :
  declares (declare kind name format w h).
Proof.
  intros st. eexists. eexists. split; [reflexivity|]. split; [reflexivity|].
  cbn. apply incl_appl, incl_refl.
Qed.

Lemma declares_if {A} (c : bool) (a b : M A) :
  declares a -> declares b -> declares (if c then a else b).
Proof. now destruct c. Qed.

Lemma declares_for_of {A} (xs : list A) body :
  (forall x, declares (body x)) -> declares (for_of xs body).
Proof.
  intros H. induction xs as [|x xs IH]; cbn [for_of].
  - apply declares_ret.
  - apply declares_bind; auto.
Qed.

Lemma declares_bloom_targets id idx : forall w h,
  declares (declare_bloom_targets id idx w h).
Proof.
  induction idx as [|i idx IH]; intros w h; cbn [declare_bloom_targets].
  - apply declares_ret.
  - apply declares_bind; [apply declares_declare|auto].
Qed.

End Planner.

Ltac declares1 :=
  lazymatch goal with
  | |- declares (bind _ _) => apply declares_bind; [|intros]
  | |- declares (ret _) => apply declares_ret
  | |- declares (declare _ _ _ _ _) => apply declares_declare
  | |- declares (for_of _ _) => apply declares_for_of; intros
  | |- declares (declare_bloom_targets _ _ _ _) => apply declares_bloom_targets
  | |- declares (if _ then _ else _) => apply declares_if
  | |- declares (match ?x with _ => _ end) => destruct x
  | |- declares _ =>
      progress unfold ppl_addRenderWindow, ppl_addRenderTarget,
        ppl_addDepthStencil
  end.

Section Planner2.
Context {E : Engine}.

Lemma bind_step {A B} (m : M A) (k : A -> M B) st a st1 :
  m st = Some (a, st1) -> bind m k st = k a st1.
Proof. intros H. unfold bind. now rewrite H. Qed.

Lemma declare_step kind name format w h st :
  declare kind name format w h st
  = Some (tt, mkState (this_ st)
                (set_resources (ppl_ st)
                   (resources (ppl_ st) ++ [mkResource kind name format w h]))).
Proof. reflexivity. Qed.

(** The resource planner declares the window at the native size and the
    depth-stencil target at the working size. *)
Lemma windowResize_sizes host window camera nativeWidth nativeHeight t p cc :
  setupCameraConfigs host camera (setupPipelineConfigs host p (_configs t))
    (_cameraConfigs t) = Some cc ->
  exists st',
    windowResize host window camera nativeWidth nativeHeight (mkState t p)
      = Some (tt, st')
    /\ In (mkResource Res_RenderWindow (colorName window) Format.BGRA8
             nativeWidth nativeHeight) (resources (ppl_ st'))
    /\ In (mkResource Res_DepthStencil (depthStencilName window)
             Format.DEPTH_STENCIL (working_size cc nativeWidth)
             (working_size cc nativeHeight)) (resources (ppl_ st')).
Proof.
  intros Hcc. unfold windowResize.
  erewrite bind_step by reflexivity.
  erewrite bind_step by reflexivity.
  erewrite bind_step by reflexivity.
  erewrite bind_step
    by (unfold deref; cbn [this_ ppl_ _configs _cameraConfigs set__configs];
        rewrite Hcc; reflexivity).
  erewrite bind_step by reflexivity.
  erewrite bind_step by reflexivity.
  cbv zeta. cbn [this_ ppl_ _cameraConfigs _configs set__cameraConfigs set__configs].
  set (cfg := setupPipelineConfigs host p (_configs t)).
  set (t1 := set__cameraConfigs _ _).
  unfold ppl_addRenderWindow, ppl_addDepthStencil.
  erewrite bind_step by apply declare_step.
  match goal with |- exists st', bind ?m ?k ?st = _ /\ _ =>
    assert (D : declares m) by (repeat declares1);
    destruct (D st) as ([] & st2 & R2 & _ & I2);
    rewrite (@bind_step _ _ m k st _ _ R2)
  end.
  erewrite bind_step by apply declare_step.
  match goal with |- exists st', ?m ?st = _ /\ _ =>
    assert (D' : declares m) by (repeat declares1);
    destruct (D' st) as ([] & st4 & R4 & _ & I4)
  end.
  exists st4. split; [exact R4|].
  cbn [ppl_ resources set_resources] in I2, I4.
  split; apply I4, in_or_app.
  - left. apply I2, in_or_app. right. now left.
  - right. now left.
Qed.
End Planner2.

(* ================================================================== *)
(** ** The builder on the small engine *)

Section Concrete.
#[local] Existing Instance toy.
Import Scenario.

(** C1 (code at the failing input): a scene whose only light is a baked
    ranged directional light inside the frustum.  After [cullLights] the
    baked light is an active light, against the classification
    invariant. *)
Theorem cullLights_keeps_baked_ranged_light :
  let fl := cullLights ForwardLighting_new baked_scene view10 None in
  Light_baked (OfRangedDir baked_ranged) = true
  /\ lights fl = [OfRangedDir baked_ranged]
  /\ ~ classification_invariant baked_scene fl.
Proof.
  cbv zeta. split; [reflexivity|]. split; [vm_compute; reflexivity|].
  intros H. destruct (H (OfRangedDir baked_ranged)) as [_ Hb].
  - cbn. auto.
  - destruct (Hb eq_refl) as [Hn _]. apply Hn. vm_compute. auto.
Qed.

Lemma two_spots_desktop_count :
  option_map (fun r => count_spot_shadow_passes (passes (ppl_ (snd r))))
    (addLightPasses "Color0" "Depth0" 0 8 4 (game_camera None two_spot_scene)
       0%nat with_two_spots)
  = Some 2%nat.
Proof. vm_compute. reflexivity. Qed.

(** C2 (counterexample): the desktop variant on a classifier that holds two
    shadow-casting spot lights, with the maximum of the configuration at
    1: two shadow-caster passes are appended, not one. *)
Lemma desktop_ignores_shadow_cap :
  mobileMaxSpotLightShadowMaps (_configs (this_ with_two_spots)) = 1%nat
  /\ ~ desktop_cap_claim 1 "Color0" "Depth0" 0 8 4
         (game_camera None two_spot_scene) 0%nat with_two_spots.
Proof.
  split; [reflexivity|]. unfold desktop_cap_claim. intros H.
  pose proof two_spots_desktop_count as C.
  destruct (addLightPasses "Color0" "Depth0" 0 8 4
              (game_camera None two_spot_scene) 0%nat with_two_spots)
    as [[h st']|]; [|discriminate].
  specialize (H h st' eq_refl). cbn [option_map snd] in C.
  injection C as C. rewrite C in H. discriminate.
Qed.

Lemma spot_shadow_cap_witness :
  passes_after (addMobileShadowPasses (game_camera None two_spot_scene) 1
                  with_two_spots)
  = passes (ppl_ with_two_spots)
    ++ [mobile_shadow_pass (game_camera None two_spot_scene) (mkVec2 4 4) 0
          far_spot].
Proof.
  destruct (@spot_shadow_cap toy (game_camera None two_spot_scene) 1
              (this_ with_two_spots) (ppl_ with_two_spots)) as [[H _] _].
  - vm_compute. lia.
  - vm_compute. lia.
  - change (mkState (this_ with_two_spots) (ppl_ with_two_spots))
      with with_two_spots in H.
    rewrite H. reflexivity.
Defined.

Lemma ldr_frame_length :
  List.length
    (passes_after
       (setup (host_with all_effects) [game_camera None unshadowed_scene]
          (fresh false)))
  = 1%nat.
Proof. vm_compute. reflexivity. Qed.

(** C3 (counterexample): one frame for a game camera with LDR output, no
    shading scale, a main light without shadows and no other light.  The
    frame has a single pass, not a forward pass and a UI pass. *)
Lemma ldr_frame_has_no_ui_pass :
  let frame :=
    passes_after
      (setup (host_with all_effects) [game_camera None unshadowed_scene]
         (fresh false)) in
  List.length frame = 1%nat /\ ~ forward_then_ui_pass frame.
Proof.
  cbv zeta. split; [exact ldr_frame_length|].
  intros (fwd & ui & H & _). apply (f_equal (@List.length _)) in H.
  rewrite ldr_frame_length in H. discriminate.
Qed.

Lemma ldr_unscaled_frame_witness :
  exists t',
    setup_camera (host_with all_effects) (game_camera None unshadowed_scene)
      (fresh false)
    = Some (tt,
        with_passes t' (graph false)
          [with_ui CameraConfigs_new (game_camera None unshadowed_scene)
             (add_queues
                (forward_pass
                   (mkCameraConfigs false false false false 1 None)
                   (game_camera None unshadowed_scene) 8 4 0 "Color0" "Depth0"
                   (Some (mkDirectionalLight false false LEVEL_1)))
                [blend_queue (game_camera None unshadowed_scene)
                   (Some (TheMainLight (mkDirectionalLight false false LEVEL_1)))])]).
Proof.
  destruct (@ldr_unscaled_frame toy (host_with all_effects)
              (game_camera None unshadowed_scene) unshadowed_scene window0
              BuiltinForwardPipeline_new (graph false)
              (mkCameraConfigs false false false false 1 None))
    as [[t' H] _]; try reflexivity.
  exists t'. exact H.
Defined.

Lemma hdr_frame_layouts :
  map layoutName
    (passes_after
       (setup (host_with all_effects)
          [game_camera (Some bloom3_settings) unshadowed_scene] (fresh true)))
  = ["default"; "bloom1-prefilter"; "bloom1-downsample"; "bloom1-downsample";
     "bloom1-downsample"; "bloom1-upsample"; "bloom1-upsample";
     "bloom1-upsample"; "bloom1-combine"; "post-final-tonemap"].
Proof. vm_compute. reflexivity. Qed.

(** C4 (counterexample): one frame for a game camera with HDR output,
    post-process, bloom of three iterations and no FXAA.  The frame ends
    with the tonemap pass; no UI pass follows it. *)
Lemma hdr_frame_has_no_ui_pass :
  let frame :=
    passes_after
      (setup (host_with all_effects)
         [game_camera (Some bloom3_settings) unshadowed_scene] (fresh true)) in
  List.length frame = 10%nat /\ ~ forward_bloom_tonemap_ui frame.
Proof.
  cbv zeta. split.
  - rewrite <- (length_map layoutName), hdr_frame_layouts. reflexivity.
  - intros (fwd & bl & tm & ui & H & _ & Ht).
    apply (f_equal (fun l => rev (map layoutName l))) in H.
    rewrite hdr_frame_layouts in H.
    rewrite !map_app, !rev_app_distr in H. cbn [rev map app] in H.
    injection H as _ H _. rewrite Ht in H. discriminate.
Qed.

(** C4 (instance): the HDR builder on the example camera. *)
Lemma hdr_bloom_frame_witness :
  exists st',
    _buildForwardPipeline (game_camera (Some bloom3_settings) unshadowed_scene)
      unshadowed_scene (mkState hdr_builder (graph true))
    = Some (tt, st')
    /\ map layoutName (passes (ppl_ st'))
       = ["default"; "bloom1-prefilter"; "bloom1-downsample";
          "bloom1-downsample"; "bloom1-downsample"; "bloom1-upsample";
          "bloom1-upsample"; "bloom1-upsample"; "bloom1-combine";
          "post-final-tonemap"].
Proof.
  destruct (@hdr_bloom_frame toy
              (game_camera (Some bloom3_settings) unshadowed_scene)
              unshadowed_scene hdr_builder (graph true) window0 bloom3_settings)
    as [[t' H] _]; try reflexivity.
  - discriminate.
  - eexists. split; [exact H|].
    unfold with_passes. cbn [ppl_ passes set_passes].
    vm_compute. reflexivity.
Defined.

(** C7 (counterexample): the resource planner at a window of size 0x0.
    Without shading scale the working size is 0, below 1; with a shading
    scale of one half it is 1, above the native size. *)
Lemma windowResize_zero_size :
  declared_size Res_DepthStencil "Depth0"
    (resources_after
       (windowResize (host_with all_effects) window0
          (game_camera None unshadowed_scene) 0 0 (fresh false)))
  = Some (0, 0)
  /\ working_size (mkCameraConfigs false false false false 1 None) 0 = 0
  /\ (shadingScale half_scale <= 1)%Q
  /\ working_size half_scale 0 = 1.
Proof. repeat split; vm_compute; try reflexivity. discriminate. Qed.

(** C8 (counterexample): a main game camera that asks for post-process and
    has no settings object, with float output supported.  No settings
    object resolves, and post-process is enabled. *)
Lemma game_camera_without_settings :
  let camera := game_camera None unshadowed_scene in
  let cc := mkCameraConfigs false true false false 1 None in
  setupCameraConfigs (host_with all_effects) camera hdr_configs
    CameraConfigs_new = Some cc
  /\ pipelineSettings cc = None
  /\ enablePostProcess cc = true
  /\ ~ camera_policy_claim camera hdr_configs cc.
Proof.
  cbv zeta. repeat split.
  intros [_ H]. destruct (H eq_refl) as [H' _]. discriminate.
Qed.

(** C8 (instance): a scene view in the editor, whose pipeline camera asks
    for post-process. *)
Lemma camera_policy_witness :
  exists cc,
    setupCameraConfigs editor_host editor_camera hdr_configs CameraConfigs_new
    = Some cc
    /\ enablePostProcess cc = true
    /\ usePostProcess editor_camera = false
    /\ post_process_requested editor_host editor_camera = true.
Proof.
  eexists. split; [vm_compute; reflexivity|].
  split; [reflexivity|]. split; [reflexivity|].
  destruct (@camera_policy toy editor_host editor_camera hdr_configs
              CameraConfigs_new _ eq_refl) as [P _].
  destruct (P eq_refl) as (_ & R & _). exact R.
Defined.


(** C5 (instance): a shadow map of 4x2 pixels. *)
Lemma csm_quadrants_witness :
  let v level := getCsmMainLightViewport light4 4 2 level (mkViewport 0 0 0 0) 1 in
  csm_covers v 4 2 /\ csm_disjoint v /\ csm_inside v 4 2.
Proof.
  intros v.
  destruct (@csm_quadrants light4 4 2 (mkViewport 0 0 0 0) 1) as (A & B & C & _);
    try reflexivity; try lia.
  auto.
Defined.

(** C5 (counterexample): a shadow map of 3x3 pixels.  The four viewports
    are 1x1 and the pixel (2, 2) is in none of them. *)
Lemma csm_odd_size_not_covered :
  let v level :=
    getCsmMainLightViewport light4 3 3 level (mkViewport 0 0 0 0) 1 in
  map v [0; 1; 2; 3]
  = [mkViewport 0 1 1 1; mkViewport 1 1 1 1; mkViewport 0 0 1 1;
     mkViewport 1 0 1 1]
  /\ ~ csm_covers v 3 3.
Proof.
  cbv zeta. split; [vm_compute; reflexivity|].
  intros H. destruct (H 2 2) as (level & L & I); try lia.
  apply four_levels in L. unfold in_viewport in I.
  destruct L as [->|[->|[->| ->]]]; vm_compute in I; intuition congruence.
Qed.

End Concrete.

(* ================================================================== *)
(** ** More on the classifier, the CSM viewports and the two snapshots *)

Section ClassifierMembership.
Context {E : Engine}.

Lemma in_shadow_spots_iff scene frustum cameraPos s :
  In s (match cameraPos with
        | Some pos => Array_sort (by_distance pos) (shadow_spots scene frustum)
        | None => shadow_spots scene frustum
        end)
  <-> In s (shadow_spots scene frustum).
Proof.
  destruct cameraPos as [pos|]; [|reflexivity].
  pose proof (Array_sort_perm _ (fun l => squaredDistance pos (spot_position l))
                (shadow_spots scene frustum)) as P.
  split; intros H.
  - eapply Permutation_in; [exact P|exact H].
  - eapply Permutation_in; [apply Permutation_sym; exact P|exact H].
Qed.

Ltac in_active :=
  unfold active_lights; rewrite !in_app_iff, !in_map_iff; split;
  [ intros [(x & [= <-] & H)|[(x & [= <-] & H)|[(x & [= <-] & H)|(x & [= <-] & H)]]];
    exact H
  | intros H; eauto 8 ].

Lemma in_active_spot box scene frustum s :
  In (OfSpot s) (active_lights box scene frustum)
  <-> In s (filter (fun l => spot_culled_in frustum l && negb (spot_shadowEnabled l))
              (spotLights scene)).
Proof. in_active. Qed.

Lemma in_active_sphere box scene frustum s :
  In (OfSphere s) (active_lights box scene frustum)
  <-> In s (filter (sphere_culled_in frustum) (sphereLights scene)).
Proof. in_active. Qed.

Lemma in_active_point box scene frustum s :
  In (OfPoint s) (active_lights box scene frustum)
  <-> In s (filter (point_culled_in frustum) (pointLights scene)).
Proof. in_active. Qed.

Lemma in_active_ranged box scene frustum r :
  In (OfRangedDir r) (active_lights box scene frustum)
  <-> In r (filter (ranged_culled_in box frustum) (rangedDirLights scene)).
Proof. in_active. Qed.

(** X1: which lights [cullLights] keeps, and where.  A spot light is an
    active light exactly when the scene lists it, it is not baked, its
    bounding sphere meets the frustum and it casts no shadow; it is a
    shadow-casting spot light under the same conditions when it casts
    shadows.  A sphere or point light is an active light exactly when the
    scene lists it, it is not baked and its sphere meets the frustum.  A
    ranged directional light is an active light exactly when the scene
    lists it and its transformed box meets the frustum, baked or not. *)
Theorem cullLights_membership fl scene frustum cameraPos :
  let fl' := cullLights fl scene frustum cameraPos in
  (forall s, In (OfSpot s) (lights fl')
     <-> In s (spotLights scene) /\ spot_baked s = false
         /\ sphereFrustum (spot_sphere s) frustum = true
         /\ spot_shadowEnabled s = false)
  /\ (forall s, In s (shadowEnabledSpotLights fl')
     <-> In s (spotLights scene) /\ spot_baked s = false
         /\ sphereFrustum (spot_sphere s) frustum = true
         /\ spot_shadowEnabled s = true)
  /\ (forall s, In (OfSphere s) (lights fl')
     <-> In s (sphereLights scene) /\ sphere_culled_in frustum s = true)
  /\ (forall s, In (OfPoint s) (lights fl')
     <-> In s (pointLights scene) /\ point_culled_in frustum s = true)
  /\ (forall r, In (OfRangedDir r) (lights fl')
     <-> In r (rangedDirLights scene)
         /\ aabbFrustum
              (AABB_transform (_rangedDirLightBoundingBox fl)
                 (ranged_worldMatrix r)) frustum = true).
Proof.
  cbv zeta. rewrite cullLights_lights, cullLights_shadow.
  split; [|split; [|split; [|split]]]; intros x.
  - rewrite in_active_spot, filter_In. unfold spot_culled_in.
    rewrite !andb_true_iff, !negb_true_iff. tauto.
  - rewrite in_shadow_spots_iff. unfold shadow_spots, spot_culled_in.
    rewrite filter_In, !andb_true_iff, negb_true_iff. tauto.
  - rewrite in_active_sphere, filter_In. tauto.
  - rewrite in_active_point, filter_In. tauto.
  - rewrite in_active_ranged, filter_In. unfold ranged_culled_in. tauto.
Qed.

End ClassifierMembership.

(* ------------------------------------------------------------------ *)

Lemma csm_grid_viewport light w h level vp0 sign :
  shadowFixedArea light = false -> csmLevel light <> LEVEL_1 ->
  getCsmMainLightViewport light w h level vp0 sign =
  mkViewport (Z.max 0 (Z.quot (Z.rem level 2 * w) 2))
    (Z.max 0 (if 0 <? sign then Z.quot ((1 - floor_half level) * h) 2
              else Z.quot (floor_half level * h) 2))
    (Z.max 1 (Z.quot w 2)) (Z.max 1 (Z.quot h 2)).
Proof.
  intros F L. unfold getCsmMainLightViewport. rewrite F.
  assert (L1 : CSMLevel_eqb (csmLevel light) LEVEL_1 = false)
    by (destruct (csmLevel light); [now destruct L| | |]; reflexivity).
  rewrite L1. cbn [orb].
  cbn [vp_left vp_top vp_width vp_height].
  rewrite Qtrunc_half_mul, !Qtrunc_half.
  destruct (0 <? sign); now rewrite ?Qtrunc_half_mul1, ?Qtrunc_half_mul.
Qed.

Lemma floor_half_levels :
  floor_half 0 = 0 /\ floor_half 1 = 0 /\ floor_half 2 = 1 /\ floor_half 3 = 1.
Proof. repeat split. Qed.

(** The cell of a level in the 2x2 grid, for a map of at least 2x2. *)
Lemma csm_grid_cell light w h vp0 sign level :
  shadowFixedArea light = false -> csmLevel light <> LEVEL_1 ->
  2 <= w -> 2 <= h -> 0 <= level < 4 ->
  getCsmMainLightViewport light w h level vp0 sign =
  mkViewport ((level mod 2) * (w / 2))
    ((if 0 <? sign then 1 - level / 2 else level / 2) * (h / 2))
    (w / 2) (h / 2).
Proof.
  intros F L Hw Hh Hl. rewrite csm_grid_viewport by assumption.
  destruct floor_half_levels as (F0 & F1 & F2 & F3).
  assert (Qw : Z.quot w 2 = w / 2) by (apply Z.quot_div_nonneg; lia).
  assert (Qh : Z.quot h 2 = h / 2) by (apply Z.quot_div_nonneg; lia).
  assert (1 <= w / 2) by (apply Z.div_le_lower_bound; lia).
  assert (1 <= h / 2) by (apply Z.div_le_lower_bound; lia).
  apply four_levels in Hl.
  destruct Hl as [->|[->|[->| ->]]]; rewrite ?F0, ?F1, ?F2, ?F3;
    change (Z.rem 0 2) with 0; change (Z.rem 1 2) with 1;
    change (Z.rem 2 2) with 0; change (Z.rem 3 2) with 1;
    change (0 mod 2) with 0; change (1 mod 2) with 1;
    change (2 mod 2) with 0; change (3 mod 2) with 1;
    change (0 / 2) with 0; change (1 / 2) with 0;
    change (2 / 2) with 1; change (3 / 2) with 1;
    change (1 - 0) with 1; change (1 - 1) with 0;
    rewrite ?Z.mul_0_l, ?Z.mul_1_l, ?Qw, ?Qh;
    change (Z.quot 0 2) with 0;
    destruct (0 <? sign); f_equal; lia.
Qed.

(** X3: the 2x2 grid on a shadow map of any size from 2x2 on, for a light
    with fixed-area shadows off and more than one cascade.  The viewports
    of the levels 0 to 3 are pairwise disjoint and lie inside the map, and
    each is [w / 2] by [h / 2] pixels: with an odd width or height the last
    column or row of the map belongs to no viewport. *)
Theorem csm_grid_any_size light w h vp0 sign :
  shadowFixedArea light = false -> csmLevel light <> LEVEL_1 ->
  2 <= w -> 2 <= h ->
  let v level := getCsmMainLightViewport light w h level vp0 sign in
  csm_disjoint v /\ csm_inside v w h
  /\ (forall level, 0 <= level < 4 ->
        vp_width (v level) = w / 2 /\ vp_height (v level) = h / 2)
  /\ (forall level px py, 0 <= level < 4 -> in_viewport (v level) px py ->
        px < 2 * (w / 2) /\ py < 2 * (h / 2)).
Proof.
  intros F L Hw Hh v.
  assert (V : forall level, 0 <= level < 4 ->
            v level = mkViewport ((level mod 2) * (w / 2))
                        ((if 0 <? sign then 1 - level / 2 else level / 2) * (h / 2))
                        (w / 2) (h / 2))
    by (intros; now apply csm_grid_cell).
  assert (1 <= w / 2) by (apply Z.div_le_lower_bound; lia).
  assert (1 <= h / 2) by (apply Z.div_le_lower_bound; lia).
  assert (2 * (w / 2) <= w) by (apply Z.mul_div_le; lia).
  assert (2 * (h / 2) <= h) by (apply Z.mul_div_le; lia).
  set (a := w / 2) in *. set (b := h / 2) in *. clearbody a b.
  assert (C : forall level, 0 <= level < 4 ->
            (level mod 2 = 0 \/ level mod 2 = 1) /\ (level / 2 = 0 \/ level / 2 = 1)
            /\ level = 2 * (level / 2) + level mod 2).
  { intros level Hl. apply four_levels in Hl.
    destruct Hl as [->|[->|[->| ->]]]; cbn; lia. }
  split; [|split; [|split]].
  - intros l1 l2 px py L1 L2 I1 I2. unfold in_viewport in I1, I2.
    rewrite V in I1, I2 by assumption. cbn [vp_left vp_top vp_width vp_height] in I1, I2.
    destruct (C l1 L1) as (M1 & D1 & E1), (C l2 L2) as (M2 & D2 & E2).
    destruct (0 <? sign); nia.
  - intros level px py Hl I. unfold in_viewport in I.
    rewrite V in I by assumption. cbn [vp_left vp_top vp_width vp_height] in I.
    destruct (C level Hl) as (M1 & D1 & E1).
    destruct (0 <? sign); nia.
  - intros level Hl. rewrite V by assumption. auto.
  - intros level px py Hl I. unfold in_viewport in I.
    rewrite V in I by assumption. cbn [vp_left vp_top vp_width vp_height] in I.
    destruct (C level Hl) as (M1 & D1 & E1).
    destruct (0 <? sign); nia.
Qed.

(** The first branch of [getCsmMainLightViewport]. *)
Lemma csm_whole_map light w h level vp0 sign :
  shadowFixedArea light || CSMLevel_eqb (csmLevel light) LEVEL_1 = true ->
  1 <= w -> 1 <= h ->
  getCsmMainLightViewport light w h level vp0 sign = mkViewport 0 0 w h.
Proof.
  intros B Hw Hh. unfold getCsmMainLightViewport.
  rewrite B. cbn [vp_left vp_top vp_width vp_height].
  assert (T : forall z, Qtrunc (inject_Z z) = z)
    by (intros z; unfold Qtrunc, inject_Z; cbn [Qnum Qden]; apply Z.quot_1_r).
  rewrite !T. f_equal; lia.
Qed.

(** X2: one viewport.  For a light with fixed-area shadows, or with a
    single cascade, on a shadow map of at least 1x1, the viewport of every
    level is the whole map, under either sign convention and whatever the
    viewport object held before. *)
Theorem csm_single_viewport light w h level vp0 sign :
  shadowFixedArea light = true \/ csmLevel light = LEVEL_1 ->
  1 <= w -> 1 <= h ->
  getCsmMainLightViewport light w h level vp0 sign = mkViewport 0 0 w h.
Proof.
  intros HL Hw Hh. apply csm_whole_map; try assumption.
  destruct HL as [-> | ->]; [reflexivity|apply orb_true_r].
Qed.

(* ------------------------------------------------------------------ *)

Section Snapshots.
Context {E : Engine}.

(** X4: [setupCameraConfigs] at its edges.  The call throws exactly for a
    game camera without a window (the only place where the window is
    dereferenced); what it returns never depends on what the
    configuration object held before.  The settings object is the
    editor's for an editor view and the camera's own otherwise, and the
    profiler is enabled only in a [DEBUG] build, for a game camera whose
    window has a swapchain. *)
Theorem setupCameraConfigs_edges host camera pipelineConfigs cc0 :
  (setupCameraConfigs host camera pipelineConfigs cc0 = None
   <-> cameraUsage camera = GAME /\ window camera = None)
  /\ (forall cc1,
        setupCameraConfigs host camera pipelineConfigs cc1
        = setupCameraConfigs host camera pipelineConfigs cc0)
  /\ (forall cc,
        setupCameraConfigs host camera pipelineConfigs cc0 = Some cc ->
        pipelineSettings cc
        = (if isEditorView camera then getEditorPipelineSettings host
           else cam_pipelineSettings camera)
        /\ (enableProfiler cc = true <->
            DEBUG host = true /\ cameraUsage camera = GAME
            /\ exists w, window camera = Some w /\ swapchain w = true)).
Proof.
  unfold setupCameraConfigs, isMainGameWindow, isEditorView.
  split; [|split].
  - destruct (cameraUsage camera), (window camera) as [w|]; cbn;
      try (destruct (getEditorPipelineSettings host));
      split; try discriminate; try tauto; intros [? ?]; discriminate.
  - reflexivity.
  - intros cc H.
    destruct (cameraUsage camera) eqn:U; cbn in H |- *;
      try (destruct (window camera) as [w|] eqn:W; [|discriminate]);
      try (destruct (getEditorPipelineSettings host) eqn:S);
      injection H as <-; cbn; (split; [reflexivity|]);
      rewrite ?andb_false_r; split; try discriminate;
      try (intros (_ & U' & _); discriminate U').
    all: rewrite andb_true_iff.
    all: try (intros [-> Hs]; now eauto).
    all: intros (-> & _ & w' & [= <-] & ->); auto.
Qed.

(** X5: the platform word of [setupPipelineConfigs].  For a device whose
    two sign conventions are 1 or -1, [g_platform.w] is an integer between
    0 and 3 whose bit 1 says that [screenSpaceSignY] is positive and whose
    bit 0 says that [clipSpaceSignY] is positive; [g_platform.x] is 1 on a
    mobile system and 0 otherwise; the fields [y] and [z] and the maximum
    number of mobile spot-light shadow maps are as they were. *)
Theorem setupPipelineConfigs_platform host p configs :
  let ss := dev_screenSpaceSignY (device p) in
  let cs := dev_clipSpaceSignY (device p) in
  let c := setupPipelineConfigs host p configs in
  (ss = 1 \/ ss = -1) -> (cs = 1 \/ cs = -1) ->
  (exists n, v4w (g_platform c) = inject_Z n /\ 0 <= n < 4
             /\ Z.testbit n 1 = (0 <? ss) /\ Z.testbit n 0 = (0 <? cs))
  /\ v4x (g_platform c) = (if sys_isMobile host then 1 else 0)%Q
  /\ v4y (g_platform c) = v4y (g_platform configs)
  /\ v4z (g_platform c) = v4z (g_platform configs)
  /\ mobileMaxSpotLightShadowMaps c = mobileMaxSpotLightShadowMaps configs.
Proof.
  cbv zeta. intros Hs Hc. split; [|repeat split].
  unfold setupPipelineConfigs. cbn [g_platform v4w].
  eexists. split; [reflexivity|].
  destruct Hs as [-> | ->], Hc as [-> | ->]; vm_compute; repeat split; congruence.
Qed.

End Snapshots.

(* ================================================================== *)
(** ** The mobile builder *)

Ltac known ::=
  lazymatch goal with
  | |- _addLightQueues _ _ _ = _ => eapply run_addLightQueues
  | |- _buildForwardMainLightPass _ _ _ _ _ _ _ = _ =>
      eapply run_buildForwardMainLightPass
  | |- addLightPasses _ _ _ _ _ _ _ _ = _ => eapply run_addLightPasses
  | |- _addForwardRadiancePasses _ _ _ _ _ _ _ _ = _ =>
      eapply run_addForwardRadiancePasses
  | |- _addUIQueue _ _ _ = _ => eapply run_addUIQueue
  | |- _addCopyAndTonemapPass _ _ _ _ _ = _ => eapply run_addCopyAndTonemapPass
  | |- prepare_dynamic_states _ _ _ _ = _ => eapply run_prepare_dynamic_states
  | |- _addCascadedShadowMapPass _ _ _ _ = _ => eapply run_addCascadedShadowMapPass
  | |- _addDepthOfFieldPasses _ _ _ _ _ _ _ _ _ = _ =>
      eapply run_addDepthOfFieldPasses
  end.

Section MobileServed.
Context {E : Engine}.

(** A maximum of 0 is a maximum of 1: the test comes after the first
    light. *)
Lemma addMobileShadowPasses_loop_zero camera ls :
  addMobileShadowPasses_loop camera 0 ls 0 = addMobileShadowPasses_loop camera 1 ls 0.
Proof. destruct ls; reflexivity. Qed.

Lemma addMobileLightQueues_loop_zero pass camera ls :
  addMobileLightQueues_loop pass camera 0 ls 0
  = addMobileLightQueues_loop pass camera 1 ls 0.
Proof. destruct ls; reflexivity. Qed.

Lemma run_addMobileShadowPasses camera k t p :
  addMobileShadowPasses camera k (mkState t p)
  = Some (tt, with_passes t p
                (passes p
                 ++ mobile_shadow_passes camera (shadows_size (pipelineSceneData p)) 0
                      (served k (shadowEnabledSpotLights (forwardLighting t))))).
Proof.
  unfold addMobileShadowPasses, served. run1.
  destruct k as [|k].
  - rewrite addMobileShadowPasses_loop_zero.
    rewrite run_addMobileShadowPasses_loop by lia. reflexivity.
  - rewrite run_addMobileShadowPasses_loop by lia.
    rewrite Nat.sub_0_r, Nat.max_l by lia. reflexivity.
Qed.

Lemma run_addMobileLightQueues camera k t p pre x :
  addMobileLightQueues (List.length pre) camera k (with_passes t p (pre ++ [x]))
  = Some (tt, with_passes t p
       (pre ++ [mobile_lit camera 0
                  (served k (shadowEnabledSpotLights (forwardLighting t)))
                  (add_queues x
                     (map (light_queue camera) (lights (forwardLighting t))))])).
Proof.
  unfold addMobileLightQueues, served. do 2 run1.
  destruct k as [|k].
  - rewrite addMobileLightQueues_loop_zero.
    etransitivity; [apply run_addMobileLightQueues_loop; lia|]. reflexivity.
  - etransitivity; [apply run_addMobileLightQueues_loop; lia|].
    rewrite Nat.sub_0_r, Nat.max_l by lia. reflexivity.
Qed.

Lemma length_served k (ls : list SpotLight) :
  List.length (served k ls) = Nat.min (Nat.max k 1) (List.length ls).
Proof. unfold served. apply length_firstn. Qed.

(** X6: the cap of [addMobileShadowPasses], at every maximum.  For a
    maximum [k] and [m] shadow-casting spot lights the call appends one
    shadow pass for each of the first [min (max k 1) m] lights, in order,
    and nothing else: no pass without a light, one pass even for a maximum
    of 0, and every light when there are at most [k]. *)
Theorem addMobileShadowPasses_served camera k t p :
  let ls := shadowEnabledSpotLights (forwardLighting t) in
  let size := shadows_size (pipelineSceneData p) in
  let added := mobile_shadow_passes camera size 0 (served k ls) in
  addMobileShadowPasses camera k (mkState t p)
  = Some (tt, with_passes t p (passes p ++ added))
  /\ List.length added = Nat.min (Nat.max k 1) (List.length ls)
  /\ (ls = [] -> added = [])
  /\ (List.length ls <= k -> served k ls = ls)%nat.
Proof.
  cbv zeta. split; [apply run_addMobileShadowPasses|].
  split; [now rewrite length_mobile_shadow_passes, length_served|].
  split.
  - intros ->. unfold served. now rewrite firstn_nil.
  - intros H. unfold served. apply firstn_all2. lia.
Qed.

Lemma mobile_lit_queues camera ls : forall i x,
  queues (mobile_lit camera i ls x)
  = queues x ++ map (shadowed_spot_queue camera) ls.
Proof.
  induction ls as [|l ls IH]; intros i x; cbn [mobile_lit map].
  - now rewrite app_nil_r.
  - rewrite IH. cbn. now rewrite <- app_assoc.
Qed.

Lemma mobile_lit_textures camera size ls : forall i x,
  read_textures (mobile_lit camera i ls x)
  = read_textures x ++ written_targets (mobile_shadow_passes camera size i ls).
Proof.
  unfold read_textures.
  induction ls as [|l ls IH]; intros i x; cbn [mobile_lit mobile_shadow_passes].
  - cbn. now rewrite app_nil_r.
  - rewrite IH. cbn. rewrite map_app. cbn. now rewrite <- app_assoc.
Qed.

Lemma mobile_lit_rest camera ls : forall i x,
  let x' := mobile_lit camera i ls x in
  renderTargets x' = renderTargets x /\ depthStencils x' = depthStencils x
  /\ pass_width x' = pass_width x /\ pass_height x' = pass_height x
  /\ pass_name x' = pass_name x /\ layoutName x' = layoutName x.
Proof.
  induction ls as [|l ls IH]; intros i x; cbn [mobile_lit]; [now auto|].
  cbv zeta in IH |- *.
  destruct (IH (S i) (add_queues
           (set_textures x
              (textures x ++ [("SpotShadowMap" +++ str_of_nat i, "cc_spotShadowMap")]))
           [mkRenderQueue QueueHint.BLEND (Some "forward-add") "" None
              [SceneItem camera [SceneFlags.BLEND] (Some (ALight (OfSpot l))) None]]))
    as (A & B & C & D & F & G).
  rewrite A, B, C, D, F, G. now destruct x.
Qed.

(** X7: [addMobileLightQueues] draws what [addMobileShadowPasses]
    rendered.  On the pass it is given, the call adds one queue for every
    active light and then one queue for each of the lights that
    [addMobileShadowPasses] serves for the same maximum, in the same
    order; the textures it binds are exactly the shadow maps that those
    shadow passes write, in the same order.  It adds no pass and leaves
    the outputs of the pass as they are. *)
Theorem addMobileLightQueues_reads_served_maps camera k t p pre x :
  let ls := shadowEnabledSpotLights (forwardLighting t) in
  let size := shadows_size (pipelineSceneData p) in
  exists x',
    addMobileLightQueues (List.length pre) camera k (with_passes t p (pre ++ [x]))
    = Some (tt, with_passes t p (pre ++ [x']))
    /\ queues x'
       = queues x ++ map (light_queue camera) (lights (forwardLighting t))
         ++ map (shadowed_spot_queue camera) (served k ls)
    /\ read_textures x'
       = read_textures x
         ++ written_targets (mobile_shadow_passes camera size 0 (served k ls))
    /\ renderTargets x' = renderTargets x
    /\ depthStencils x' = depthStencils x.
Proof.
  cbv zeta. eexists. split; [apply run_addMobileLightQueues|].
  rewrite mobile_lit_queues,
    (mobile_lit_textures camera (shadows_size (pipelineSceneData p))).
  destruct (mobile_lit_rest camera
              (served k (shadowEnabledSpotLights (forwardLighting t))) 0
              (add_queues x (map (light_queue camera) (lights (forwardLighting t)))))
    as (A & B & _).
  rewrite A, B. unfold add_queues. destruct x; cbn.
  rewrite <- app_assoc. auto.
Qed.

End MobileServed.

(* ================================================================== *)
(** ** The frame of the mobile builder *)

Ltac known ::=
  lazymatch goal with
  | |- _addLightQueues _ _ _ = _ => eapply run_addLightQueues
  | |- _buildForwardMainLightPass _ _ _ _ _ _ _ = _ =>
      eapply run_buildForwardMainLightPass
  | |- addLightPasses _ _ _ _ _ _ _ _ = _ => eapply run_addLightPasses
  | |- _addForwardRadiancePasses _ _ _ _ _ _ _ _ = _ =>
      eapply run_addForwardRadiancePasses
  | |- _addUIQueue _ _ _ = _ => eapply run_addUIQueue
  | |- _addCopyAndTonemapPass _ _ _ _ _ = _ => eapply run_addCopyAndTonemapPass
  | |- prepare_dynamic_states _ _ _ _ = _ => eapply run_prepare_dynamic_states
  | |- _addCascadedShadowMapPass _ _ _ _ = _ => eapply run_addCascadedShadowMapPass
  | |- _addDepthOfFieldPasses _ _ _ _ _ _ _ _ _ = _ =>
      eapply run_addDepthOfFieldPasses
  | |- addMobileShadowPasses _ _ _ = _ => eapply run_addMobileShadowPasses
  | |- addMobileLightQueues _ _ _ _ = _ => eapply run_addMobileLightQueues
  end.

(** The head of a [bind] is a read of [this]. *)
Ltac run_this :=
  lazymatch goal with
  | |- bind this ?k ?st = _ =>
      rewrite (@bind_run _ _ _ this k st (this_ st, st) eq_refl);
      cbn [fst snd]; cbv beta
  end.

Section MobileFrame.
Context {E : Engine}.

Lemma run_addMobileForwardRadiancePass id camera width height colorName
    depthStencilName mainLight t p :
  _addMobileForwardRadiancePass id camera width height colorName depthStencilName
    mainLight (mkState t p)
  = Some (List.length (passes p),
          with_passes (prepared t camera width height) p
            (passes p
             ++ [mobile_forward_pass t camera width height id colorName
                   depthStencilName mainLight])).
Proof.
  unfold _addMobileForwardRadiancePass, mobile_forward_pass.
  rewrite (@bind_run _ _ _ _ _ _ _ (run_prepare_dynamic_states camera width height t p)).
  cbn [fst snd].
  do 3 run1. run_this.
  match goal with |- bind ?m ?k ?st = _ =>
    eassert (H : m st = Some _) by (eapply run_addMobileLightQueues);
    rewrite (@bind_run _ _ _ m k st _ H); clear H end.
  cbn [fst snd].
  match goal with |- context [mobile_lit ?a ?b ?c ?d] =>
    set (lit := mobile_lit a b c d) end.
  match goal with |- context [mobile_lit ?a ?b ?c ?d] =>
    replace (mobile_lit a b c d) with lit by reflexivity end.
  clearbody lit. run.
Qed.

End MobileFrame.

Ltac known ::=
  lazymatch goal with
  | |- _addLightQueues _ _ _ = _ => eapply run_addLightQueues
  | |- _buildForwardMainLightPass _ _ _ _ _ _ _ = _ =>
      eapply run_buildForwardMainLightPass
  | |- addLightPasses _ _ _ _ _ _ _ _ = _ => eapply run_addLightPasses
  | |- _addForwardRadiancePasses _ _ _ _ _ _ _ _ = _ =>
      eapply run_addForwardRadiancePasses
  | |- _addUIQueue _ _ _ = _ => eapply run_addUIQueue
  | |- _addCopyAndTonemapPass _ _ _ _ _ = _ => eapply run_addCopyAndTonemapPass
  | |- prepare_dynamic_states _ _ _ _ = _ => eapply run_prepare_dynamic_states
  | |- _addCascadedShadowMapPass _ _ _ _ = _ => eapply run_addCascadedShadowMapPass
  | |- _addDepthOfFieldPasses _ _ _ _ _ _ _ _ _ = _ =>
      eapply run_addDepthOfFieldPasses
  | |- addMobileShadowPasses _ _ _ = _ => eapply run_addMobileShadowPasses
  | |- addMobileLightQueues _ _ _ _ = _ => eapply run_addMobileLightQueues
  | |- _addMobileForwardRadiancePass _ _ _ _ _ _ _ _ = _ =>
      eapply run_addMobileForwardRadiancePass
  end.

Section MobileFrame2.
Context {E : Engine}.

Lemma mobile_forward_pass_ext t1 t2 camera width height id colorName
    depthStencilName mainLight :
  forwardLighting t1 = forwardLighting t2 ->
  _cameraConfigs t1 = _cameraConfigs t2 ->
  _configs t1 = _configs t2 ->
  mobile_forward_pass t1 camera width height id colorName depthStencilName mainLight
  = mobile_forward_pass t2 camera width height id colorName depthStencilName
      mainLight.
Proof. intros H1 H2 H3. unfold mobile_forward_pass. now rewrite H1, H2, H3. Qed.

Lemma run_mobile_pipeline camera scene t p w :
  window camera = Some w ->
  (enableShadowMap (_cameraConfigs t) = true -> mainLight scene <> None) ->
  let id := renderWindowId w in
  let nativeWidth := native_size (win_width w) in
  let nativeHeight := native_size (win_height w) in
  let width := working_size (_cameraConfigs t) nativeWidth in
  let height := working_size (_cameraConfigs t) nativeHeight in
  let radianceName := "Radiance" +++ str_of_nat id in
  let t1 := culled t scene camera (Some (cam_position camera)) in
  let offscreen :=
    useFloatOutput (_configs t) || enableShadingScale (_cameraConfigs t) in
  exists t',
    _buildMobileForwardPipeline camera scene (mkState t p)
    = Some (tt, with_passes t' p
         (passes p
          ++ csm_passes t p id camera (mainLight scene)
          ++ mobile_shadow_passes camera (shadows_size (pipelineSceneData p)) 0
               (served (mobileMaxSpotLightShadowMaps (_configs t))
                  (shadowEnabledSpotLights (forwardLighting t1)))
          ++ (if offscreen
              then [mobile_forward_pass t1 camera width height id radianceName
                      (depthStencilName w) (mainLight scene);
                    with_ui (_cameraConfigs t) camera
                      (tonemap_pass t nativeWidth nativeHeight radianceName
                         (colorName w))]
              else [with_ui (_cameraConfigs t) camera
                      (mobile_forward_pass t1 camera nativeWidth nativeHeight id
                         (colorName w) (depthStencilName w) (mainLight scene))]))).
Proof.
  intros Hw Hm. cbv zeta.
  unfold _buildMobileForwardPipeline, csm_passes.
  destruct (useFloatOutput (_configs t) || enableShadingScale (_cameraConfigs t)) eqn:O;
  (destruct (enableShadowMap (_cameraConfigs t)) eqn:Sh;
    [destruct (mainLight scene) as [light|] eqn:ML; [|now destruct Hm]|]).
  all: eexists; run_this; rewrite Hw; run1; cbv zeta; run1; cbn [this_]; rewrite ?Sh, ?O.
  all: do 2 run1; cbv zeta; cbn [fst snd pipelineSceneData set_passes passes].
  all: assoc; run1; cbn [fst snd pipelineSceneData set_passes passes].
  all: try (run1; cbn [fst snd pipelineSceneData set_passes passes]).
  all: (etransitivity; [eapply run_addUIQueue|]).
  all: unfold with_passes; cbn [passes set_passes ppl_ this_];
    rewrite <- ?app_assoc; cbn [app].
  all: reflexivity.
Qed.


Lemma strongly_sorted_split {A} (R : A -> A -> Prop) (l1 l2 : list A) :
  StronglySorted R (l1 ++ l2) ->
  forall a b, In a l1 -> In b l2 -> R a b.
Proof.
  induction l1 as [|x l1 IH]; intros S a b Ha Hb; [contradiction|].
  cbn in S. inversion S as [|? ? S' F]; subst.
  destruct Ha as [<-|Ha].
  - rewrite Forall_forall in F. apply F. apply in_or_app. now right.
  - now apply IH.
Qed.

(** X8: the frame of the mobile builder.  For a camera with a window (and
    a main light when main-light shadows are on) the call returns and only
    appends passes: the CSM pass when main-light shadows are on, one
    shadow pass for each served shadow-casting spot light, the forward
    pass, and, when the output is float or scaled, the tonemap pass to the
    window; the UI queue is on the last of them.  The lights are culled
    with the camera position, so the shadow-casting spot lights are a
    permutation of the visible ones of the scene and every served light is
    at least as near to the camera as every light that is left out. *)
Theorem mobile_frame camera scene t p w :
  window camera = Some w ->
  (enableShadowMap (_cameraConfigs t) = true -> mainLight scene <> None) ->
  let id := renderWindowId w in
  let nativeWidth := native_size (win_width w) in
  let nativeHeight := native_size (win_height w) in
  let width := working_size (_cameraConfigs t) nativeWidth in
  let height := working_size (_cameraConfigs t) nativeHeight in
  let radianceName := "Radiance" +++ str_of_nat id in
  let t1 := culled t scene camera (Some (cam_position camera)) in
  let spots := shadowEnabledSpotLights (forwardLighting t1) in
  let k := Nat.max (mobileMaxSpotLightShadowMaps (_configs t)) 1 in
  let offscreen :=
    useFloatOutput (_configs t) || enableShadingScale (_cameraConfigs t) in
  (exists t',
    _buildMobileForwardPipeline camera scene (mkState t p)
    = Some (tt, with_passes t' p
         (passes p
          ++ csm_passes t p id camera (mainLight scene)
          ++ mobile_shadow_passes camera (shadows_size (pipelineSceneData p)) 0
               (firstn k spots)
          ++ (if offscreen
              then [mobile_forward_pass t1 camera width height id radianceName
                      (depthStencilName w) (mainLight scene);
                    with_ui (_cameraConfigs t) camera
                      (tonemap_pass t nativeWidth nativeHeight radianceName
                         (colorName w))]
              else [with_ui (_cameraConfigs t) camera
                      (mobile_forward_pass t1 camera nativeWidth nativeHeight id
                         (colorName w) (depthStencilName w) (mainLight scene))]))))
  /\ Permutation spots (shadow_spots scene (frustum camera))
  /\ (forall a b, In a (firstn k spots) -> In b (skipn k spots) ->
        nearer (cam_position camera) a b).
Proof.
  intros Hw Hm. cbv zeta. split; [|split].
  - exact (run_mobile_pipeline camera scene t p w Hw Hm).
  - unfold culled. cbn [forwardLighting set_forwardLighting].
    rewrite cullLights_shadow.
    apply (Array_sort_perm _
             (fun l => squaredDistance (cam_position camera) (spot_position l))).
  - apply strongly_sorted_split. rewrite firstn_skipn.
    unfold culled. cbn [forwardLighting set_forwardLighting].
    rewrite cullLights_shadow.
    apply (Array_sort_strongly_sorted _
             (fun l => squaredDistance (cam_position camera) (spot_position l))).
Qed.

End MobileFrame2.

(* ================================================================== *)
(** ** The bloom builder for any number of iterations *)

Section Arrays.
Context {A : Type} (d : A).

Lemma length_array_set_length n (l : list A) :
  List.length (array_set_length d n l) = n.
Proof.
  unfold array_set_length. rewrite length_app, length_firstn, repeat_length. lia.
Qed.

Lemma array_store_O v x (l : list A) : array_store d 0 v (x :: l) = v :: l.
Proof. reflexivity. Qed.

Lemma array_store_S i v x (l : list A) :
  array_store d (S i) v (x :: l) = x :: array_store d i v l.
Proof. reflexivity. Qed.

Lemma length_array_store i v : forall l : list A,
  (i < List.length l)%nat -> List.length (array_store d i v l) = List.length l.
Proof.
  induction i as [|i IH]; intros [|x l] H; cbn [List.length] in H; try lia.
  - reflexivity.
  - rewrite array_store_S. cbn [List.length]. rewrite IH; lia.
Qed.

Lemma nth_array_store i v : forall (l : list A) k,
  (i < List.length l)%nat ->
  nth k (array_store d i v l) d = if (k =? i)%nat then v else nth k l d.
Proof.
  induction i as [|i IH]; intros [|x l] k H; cbn [List.length] in H; try lia.
  - rewrite array_store_O. destruct k; reflexivity.
  - rewrite array_store_S. destruct k; [reflexivity|].
    cbn [nth Nat.eqb]. apply IH. lia.
Qed.

(** A loop that stores at the indices [a], [a + 1], ... a value computed
    from the cells below: every stored cell holds its value at the end. *)
Lemma fold_array_store (f : nat -> A) (g : nat -> list A -> A) m :
  forall j a (l : list A),
  List.length l = m -> (a + j <= m)%nat ->
  (forall k, (k < a)%nat -> nth k l d = f k) ->
  (forall i l', (a <= i)%nat -> (forall k, (k < i)%nat -> nth k l' d = f k) ->
                g i l' = f i) ->
  let l' := fold_left (fun l i => array_store d i (g i l) l) (seq a j) l in
  List.length l' = m /\ forall k, (k < a + j)%nat -> nth k l' d = f k.
Proof.
  induction j as [|j IH]; intros a l Hl Ha Hlow Hg; cbn [seq fold_left].
  - split; [exact Hl|]. intros k Hk. apply Hlow. lia.
  - destruct (IH (S a) (array_store d a (g a l) l)) as [L N].
    + rewrite length_array_store; lia.
    + lia.
    + intros k Hk. rewrite nth_array_store by lia.
      destruct (Nat.eqb_spec k a) as [->|Hne].
      * apply Hg; auto.
      * apply Hlow. lia.
    + intros i l' Hi Hl'. apply Hg; [lia|exact Hl'].
    + split; [exact L|]. intros k Hk. apply N. lia.
Qed.

Lemma list_is_map (f : nat -> A) (l : list A) m :
  List.length l = m -> (forall k, (k < m)%nat -> nth k l d = f k) ->
  l = map f (seq 0 m).
Proof.
  intros Hl Hn. apply (nth_ext _ _ d (f 0%nat)).
  - now rewrite length_map, length_seq.
  - intros k Hk. rewrite Hl in Hk. rewrite Hn by exact Hk.
    rewrite (map_nth f (seq 0 m) 0%nat k).
    now rewrite seq_nth.
Qed.

End Arrays.

Section BloomLoops.
Context {E : Engine}.

(** A loop whose body only updates [this]. *)
Lemma for_of_this {X} (xs : list X) (body : X -> M unit)
    (F : X -> BuiltinForwardPipeline -> BuiltinForwardPipeline) :
  (forall i st, body i st = Some (tt, mkState (F i (this_ st)) (ppl_ st))) ->
  forall st,
    for_of xs body st
    = Some (tt, mkState (fold_left (fun t i => F i t) xs (this_ st)) (ppl_ st)).
Proof.
  intros Hb. induction xs as [|x xs IH]; intros st; cbn [for_of fold_left].
  - now destruct st.
  - unfold bind. rewrite Hb. rewrite IH. reflexivity.
Qed.

Lemma nth_map_seq {A} (f : nat -> A) (d : A) m i :
  (i < m)%nat -> nth i (map f (seq 0 m)) d = f i.
Proof.
  intros H. rewrite (nth_indep _ d (f 0%nat)) by (now rewrite length_map, length_seq).
  rewrite (map_nth f (seq 0 m) 0%nat i). now rewrite seq_nth.
Qed.

(** The two size arrays after their loop. *)
Lemma bloom_sizes_fold x n (ws : list Z) :
  fold_left
    (fun l i => array_store 0 i (half_size (array_load 0 (i - 1) l)) l)
    (seq 1 n)
    (array_store 0 0 (half_size x) (array_set_length 0 (S n) ws))
  = map (bloom_size x) (seq 0 (S n)).
Proof.
  pose proof (@fold_array_store Z 0 (bloom_size x)
                (fun i l => half_size (array_load 0 (i - 1) l)) (S n) n 1%nat
                (array_store 0 0 (half_size x) (array_set_length 0 (S n) ws)))
    as F.
  cbv zeta in F. destruct F as [L N].
  - rewrite length_array_store; rewrite length_array_set_length; lia.
  - lia.
  - intros k Hk. assert (k = 0%nat) as -> by lia.
    rewrite nth_array_store by (rewrite length_array_set_length; lia).
    reflexivity.
  - intros i l' Hi Hl'. unfold array_load. rewrite Hl' by lia.
    destruct i as [|i]; [lia|]. cbn [bloom_size]. now rewrite Nat.sub_1_r.
  - apply (list_is_map 0); [exact L|]. intros k Hk. apply N. lia.
Qed.

(** The name array after its loop. *)
Lemma bloom_names_fold id n (ns : list string) :
  fold_left (fun l i => array_store "" i (bloomTexName id i) l)
    (seq 0 (S n)) (array_set_length "" (S n) ns)
  = map (bloomTexName id) (seq 0 (S n)).
Proof.
  pose proof (@fold_array_store string "" (bloomTexName id)
                (fun i _ => bloomTexName id i) (S n) (S n) 0%nat
                (array_set_length "" (S n) ns)) as F.
  cbv zeta in F. destruct F as [L N].
  - apply length_array_set_length.
  - lia.
  - intros k Hk. lia.
  - reflexivity.
  - apply (list_is_map ""); [exact L|]. intros k Hk. apply N. lia.
Qed.

Lemma fold_bloom_sizes_this (fw fh : nat -> list Z -> list Z) xs : forall t,
  fold_left
    (fun t i =>
       set__bloomHeights
         (set__bloomWidths t (fw i (_bloomWidths t)))
         (fh i (_bloomHeights t)))
    xs t
  = set__bloomHeights
      (set__bloomWidths t (fold_left (fun l i => fw i l) xs (_bloomWidths t)))
      (fold_left (fun l i => fh i l) xs (_bloomHeights t)).
Proof.
  induction xs as [|x xs IH]; intros t; cbn [fold_left].
  - now destruct t.
  - rewrite IH. now destruct t.
Qed.

Lemma fold_bloom_names_this (fn : nat -> list string -> list string) xs : forall t,
  fold_left (fun t i => set__bloomTexNames t (fn i (_bloomTexNames t))) xs t
  = set__bloomTexNames t (fold_left (fun l i => fn i l) xs (_bloomTexNames t)).
Proof.
  induction xs as [|x xs IH]; intros t; cbn [fold_left].
  - now destruct t.
  - rewrite IH. now destruct t.
Qed.

End BloomLoops.

Section BloomLevels.
Context {E : Engine}.

(** The downsample and the upsample loop: one pass per level, in the order
    of the loop. *)
Lemma run_bloom_levels layout passID (nb : nat -> nat) xs : forall t p,
  for_of xs (fun i =>
    t <- this ;;
    levelPass <-
      addRenderPass (array_load 0 i (_bloomWidths t)) (array_load 0 i (_bloomHeights t))
        layout ;;
    addRenderTarget levelPass (array_load "" i (_bloomTexNames t))
      LoadOp.CLEAR (Some StoreOp.STORE) (Some (_clearColorOpaqueBlack t)) ;;
    addTexture levelPass (array_load "" (nb i) (_bloomTexNames t)) "bloomTexture" ;;
    assign (fun t =>
      set__bloomTexSize t
        (set_v4x (_bloomTexSize t) (inject_Z (array_load 0 (nb i) (_bloomWidths t))))) ;;
    assign (fun t =>
      set__bloomTexSize t
        (set_v4y (_bloomTexSize t) (inject_Z (array_load 0 (nb i) (_bloomHeights t))))) ;;
    t <- this ;;
    setVec4 levelPass "g_platform" (g_platform (_configs t)) ;;
    setVec4 levelPass "bloomTexSize" (_bloomTexSize t) ;;
    queue <- addQueue levelPass QueueHint.OPAQUE None ;;
    addFullscreenQuad queue bloomMaterial passID) (mkState t p)
  = Some (tt,
      with_passes (set__bloomTexSize t (bloom_texSize_after t (map nb xs))) p
        (passes p
         ++ map (fun i => bloom_level_pass t layout passID i (nb i)) xs)).
Proof.
  induction xs as [|i xs IH]; intros t p.
  - cbn. rewrite app_nil_r. unfold ret, with_passes, bloom_texSize_after. cbn.
    now destruct t, p.
  - cbn [for_of map].
    match goal with |- bind ?m ?k ?st = _ =>
      assert (H : m st = Some (tt,
        with_passes
          (set__bloomTexSize t
             (mkVec4 (inject_Z (nth (nb i) (_bloomWidths t) 0))
                (inject_Z (nth (nb i) (_bloomHeights t) 0))
                (v4z (_bloomTexSize t)) (v4w (_bloomTexSize t)))) p
          (passes p ++ [bloom_level_pass t layout passID i (nb i)])));
      [|rewrite (@bind_run _ _ _ m k st _ H); clear H; cbn [fst snd]]
    end.
    { unfold bloom_level_pass, black_target, quad_queue. run. }
    unfold with_passes. rewrite IH.
    unfold with_passes, bloom_texSize_after.
    cbn [passes set_passes fold_left _bloomTexSize set__bloomTexSize
         _bloomWidths _bloomHeights v4z v4w].
    rewrite <- app_assoc. cbn [app]. now destruct t, p.
Qed.

End BloomLevels.

Section BloomRun.
Context {E : Engine}.

Lemma fold_texSize_zw (W H : list Z) js : forall ts,
  let r := fold_left
             (fun ts j => mkVec4 (inject_Z (nth j W 0)) (inject_Z (nth j H 0))
                            (v4z ts) (v4w ts)) js ts in
  v4z r = v4z ts /\ v4w r = v4w ts.
Proof.
  induction js as [|j js IH]; intros ts; cbn [fold_left]; [now auto|].
  cbv zeta in IH |- *. now rewrite (proj1 (IH _)), (proj2 (IH _)).
Qed.

Lemma bloom_texSize_after_zw t js :
  v4z (bloom_texSize_after t js) = v4z (_bloomTexSize t)
  /\ v4w (bloom_texSize_after t js) = v4w (_bloomTexSize t).
Proof. apply fold_texSize_zw. Qed.

Lemma bloom_texSize_after_last t js j :
  bloom_texSize_after t (js ++ [j])
  = mkVec4 (inject_Z (nth j (_bloomWidths t) 0)) (inject_Z (nth j (_bloomHeights t) 0))
      (v4z (_bloomTexSize t)) (v4w (_bloomTexSize t)).
Proof.
  unfold bloom_texSize_after. rewrite fold_left_app. cbn [fold_left].
  destruct (fold_texSize_zw (_bloomWidths t) (_bloomHeights t) js (_bloomTexSize t))
    as [Z W]. cbv zeta in Z, W. now rewrite Z, W.
Qed.

(** [this] when the bloom builder starts to add passes. *)
Lemma bloom_level_down t s id width height X i :
  let n := iterations (bloom s) in
  let tA := set__bloomTexSize (bloom_this t s id width height) X in
  v4z X = v4z (_bloomTexSize t) -> v4w X = v4w (_bloomTexSize t) ->
  (1 <= i <= n)%nat ->
  bloom_level_pass tA "bloom1-downsample" 1 i (i - 1)
  = bloom_downsample_pass t id width height i.
Proof.
  cbv zeta. intros Z W Hi.
  unfold bloom_level_pass, bloom_downsample_pass, bloom_this, bloom_texSize,
    black_target.
  cbn [_bloomWidths _bloomHeights _bloomTexNames _bloomTexSize _configs
       _clearColorOpaqueBlack set__bloomTexSize set__bloomParams
       set__bloomTexNames set__bloomHeights set__bloomWidths].
  rewrite !(nth_map_seq (bloom_size width)), !(nth_map_seq (bloom_size height)),
    !(nth_map_seq (bloomTexName id)) by lia.
  now rewrite Z, W.
Qed.

Lemma bloom_level_up t s id width height X i :
  let n := iterations (bloom s) in
  let tA := set__bloomTexSize (bloom_this t s id width height) X in
  v4z X = v4z (_bloomTexSize t) -> v4w X = v4w (_bloomTexSize t) ->
  (i < n)%nat ->
  bloom_level_pass tA "bloom1-upsample" 2 i (i + 1)
  = bloom_upsample_pass t id width height i.
Proof.
  cbv zeta. intros Z W Hi.
  unfold bloom_level_pass, bloom_upsample_pass, bloom_this, bloom_texSize,
    black_target.
  cbn [_bloomWidths _bloomHeights _bloomTexNames _bloomTexSize _configs
       _clearColorOpaqueBlack set__bloomTexSize set__bloomParams
       set__bloomTexNames set__bloomHeights set__bloomWidths].
  rewrite !(nth_map_seq (bloom_size width)), !(nth_map_seq (bloom_size height)),
    !(nth_map_seq (bloomTexName id)) by lia.
  now rewrite Z, W.
Qed.

Lemma bloom_texSize_final t s id width height :
  let n := iterations (bloom s) in
  let tA := set__bloomTexSize (bloom_this t s id width height) (_bloomTexSize t) in
  let X1 := bloom_texSize_after tA (map (fun i => (i - 1)%nat) (seq 1 n)) in
  bloom_texSize_after (set__bloomTexSize tA X1)
    (map (fun i => (i + 1)%nat) (rev (seq 0 n)))
  = match n with
    | O => _bloomTexSize t
    | S _ => bloom_texSize t width height 1
    end.
Proof.
  cbv zeta. unfold bloom_this.
  destruct (iterations (bloom s)) as [|m]; [reflexivity|].
  cbn [seq rev]. rewrite map_app. cbn [map Nat.add].
  rewrite bloom_texSize_after_last.
  cbn [_bloomWidths _bloomHeights _bloomTexSize set__bloomTexSize
       set__bloomParams set__bloomTexNames set__bloomHeights set__bloomWidths].
  match goal with |- context [bloom_texSize_after ?a ?b] =>
    destruct (bloom_texSize_after_zw a b) as [Z W]; rewrite Z, W end.
  reflexivity.
Qed.

Lemma run_bloom s id width height radianceName t p :
  _addKawaseDualFilterBloomPasses s id width height radianceName (mkState t p)
  = Some (tt, with_passes (bloom_this t s id width height) p
                (passes p
                 ++ bloom_passes t s id width height radianceName
                      (iterations (bloom s)))).
Proof.
  unfold _addKawaseDualFilterBloomPasses. cbv zeta.
  set (n := iterations (bloom s)). rewrite !Nat.add_1_r.
  do 4 run1.
  (* the size arrays *)
  match goal with |- bind (for_of ?xs ?body) ?k ?st = _ =>
    assert (H : for_of xs body st = Some (tt, mkState
      (fold_left
         (fun t i =>
            set__bloomHeights
              (set__bloomWidths t
                 (array_store 0 i (half_size (array_load 0 (i - 1) (_bloomWidths t)))
                    (_bloomWidths t)))
              (array_store 0 i (half_size (array_load 0 (i - 1) (_bloomHeights t)))
                 (_bloomHeights t)))
         xs (this_ st)) (ppl_ st)))
      by (apply for_of_this; intros; reflexivity);
    rewrite (@bind_run _ _ _ (for_of xs body) k st _ H); clear H
  end.
  cbn [fst snd this_ ppl_].
  rewrite (fold_bloom_sizes_this
             (fun i l => array_store 0 i (half_size (array_load 0 (i - 1) l)) l)
             (fun i l => array_store 0 i (half_size (array_load 0 (i - 1) l)) l)).
  cbn [_bloomWidths _bloomHeights]. rewrite !bloom_sizes_fold.
  run1.
  (* the name array *)
  match goal with |- bind (for_of ?xs ?body) ?k ?st = _ =>
    assert (H : for_of xs body st = Some (tt, mkState
      (fold_left
         (fun t i =>
            set__bloomTexNames t
              (array_store "" i (bloomTexName id i) (_bloomTexNames t)))
         xs (this_ st)) (ppl_ st)))
      by (apply for_of_this; intros; reflexivity);
    rewrite (@bind_run _ _ _ (for_of xs body) k st _ H); clear H
  end.
  cbn [fst snd this_ ppl_].
  rewrite (fold_bloom_names_this
             (fun i l => array_store "" i (bloomTexName id i) l)).
  cbn [_bloomTexNames]. rewrite bloom_names_fold.
  do 4 run1.
  (* [this] from here on, up to [_bloomTexSize] *)
  match goal with |- _ {| this_ := ?T; ppl_ := _ |} = _ =>
    change T with (set__bloomTexSize (bloom_this t s id width height)
                     (_bloomTexSize t));
    set (tA := set__bloomTexSize (bloom_this t s id width height)
                 (_bloomTexSize t))
  end.
  assert (EtA : tA = set__bloomTexSize (bloom_this t s id width height)
                        (_bloomTexSize t)) by reflexivity.
  clearbody tA.
  run_this. cbn [this_]. do 7 run1.
  match goal with |- bind ?m ?k {| this_ := ?T; ppl_ := ?P |} = _ =>
    rewrite (@bind_run _ _ _ m k _ _
               (run_bloom_levels "bloom1-downsample" 1 (fun i => (i - 1)%nat)
                  (seq 1 n) T P))
  end.
  cbn [fst snd]. unfold with_passes at 1. cbn [passes set_passes].
  set (X1 := bloom_texSize_after tA _).
  match goal with |- bind ?m ?k {| this_ := ?T; ppl_ := ?P |} = _ =>
    rewrite (@bind_run _ _ _ m k _ _
               (run_bloom_levels "bloom1-upsample" 2 (fun i => (i + 1)%nat)
                  (rev (seq 0 n)) T P))
  end.
  cbn [fst snd]. unfold with_passes at 1. cbn [passes set_passes].
  set (X2 := bloom_texSize_after _ _).
  run_this. cbn [this_ _bloomTexNames _configs _bloomParams set__bloomTexSize].
  do 6 run1. etransitivity; [run|].
  subst tA.
  assert (Z1 : v4z X1 = v4z (_bloomTexSize t) /\ v4w X1 = v4w (_bloomTexSize t))
    by (subst X1; exact (bloom_texSize_after_zw _ _)).
  assert (HX2 : X2 = match n with
                     | O => _bloomTexSize t
                     | S _ => bloom_texSize t width height 1
                     end)
    by (subst X1 X2 n; exact (bloom_texSize_final t s id width height)).
  match goal with |- context [map ?f (seq 1 n)] =>
    assert (D : map f (seq 1 n)
                = map (bloom_downsample_pass t id width height) (seq 1 n))
  end.
  { apply map_ext_in. intros i Hi. apply in_seq in Hi.
    apply (bloom_level_down t s id width height (_bloomTexSize t));
      [reflexivity|reflexivity|subst n; lia]. }
  match goal with |- context [map ?f (rev (seq 0 n))] =>
    assert (U : map f (rev (seq 0 n))
                = map (bloom_upsample_pass t id width height) (rev (seq 0 n)))
  end.
  { apply map_ext_in. intros i Hi. apply in_rev, in_seq in Hi.
    apply (bloom_level_up t s id width height X1);
      [apply Z1|apply Z1|subst n; lia]. }
  rewrite D, U, HX2. clear D U HX2 Z1. clearbody X1 X2.
  unfold with_passes, bloom_passes, set_passes. rewrite <- !app_assoc.
  reflexivity.
Qed.

End BloomRun.

(* ================================================================== *)
(** ** The desktop builder in every configuration *)

Section DesktopRuns.
Context {E : Engine}.

Lemma run_addFxaaPass width height ldrColorName colorName t p :
  _addFxaaPass width height ldrColorName colorName (mkState t p)
  = Some (List.length (passes p),
          with_passes (fxaa_this t width height) p
            (passes p ++ [fxaa_pass t width height ldrColorName colorName])).
Proof. unfold _addFxaaPass. run. Qed.

Lemma run_addCopyPass width height input output t p :
  _addCopyPass width height input output (mkState t p)
  = Some (List.length (passes p),
          with_passes t p (passes p ++ [copy_pass t width height input output])).
Proof. unfold _addCopyPass. run. Qed.

(** [_addForwardRadiancePasses] appends the radiance passes and returns the
    last of them. *)
Lemma run_radiance id camera width height mainLight colorName depthStencilName t p :
  _addForwardRadiancePasses id camera width height mainLight colorName
    depthStencilName (mkState t p)
  = Some (List.length
            (passes p
             ++ fst (radiance_chain t (shadows_size (pipelineSceneData p)) camera
                       width height id colorName depthStencilName mainLight [])),
          with_passes (prepared t camera width height) p
            (passes p
             ++ radiance_passes t (shadows_size (pipelineSceneData p)) camera
                  width height id colorName depthStencilName mainLight)).
Proof.
  rewrite run_addForwardRadiancePasses. cbv zeta.
  pose proof (radiance_chain_app t (shadows_size (pipelineSceneData p)) camera
                width height id colorName depthStencilName mainLight (passes p)) as R.
  cbv zeta in R. rewrite R. cbn [fst snd]. unfold radiance_passes.
  now rewrite app_assoc.
Qed.

Lemma radiance_passes_ext t1 t2 size camera width height id colorName
    depthStencilName mainLight :
  forwardLighting t1 = forwardLighting t2 ->
  _cameraConfigs t1 = _cameraConfigs t2 ->
  radiance_passes t1 size camera width height id colorName depthStencilName
    mainLight
  = radiance_passes t2 size camera width height id colorName depthStencilName
      mainLight.
Proof.
  intros H1 H2. unfold radiance_passes.
  now rewrite (radiance_chain_ext t1 t2 size camera width height id colorName
                 depthStencilName mainLight [] H1 H2).
Qed.

End DesktopRuns.

Ltac known ::=
  lazymatch goal with
  | |- _addLightQueues _ _ _ = _ => eapply run_addLightQueues
  | |- _buildForwardMainLightPass _ _ _ _ _ _ _ = _ =>
      eapply run_buildForwardMainLightPass
  | |- addLightPasses _ _ _ _ _ _ _ _ = _ => eapply run_addLightPasses
  | |- _addForwardRadiancePasses _ _ _ _ _ _ _ _ = _ => eapply run_radiance
  | |- _addUIQueue _ _ _ = _ => eapply run_addUIQueue
  | |- _addCopyAndTonemapPass _ _ _ _ _ = _ => eapply run_addCopyAndTonemapPass
  | |- _addCopyPass _ _ _ _ _ = _ => eapply run_addCopyPass
  | |- _addFxaaPass _ _ _ _ _ = _ => eapply run_addFxaaPass
  | |- prepare_dynamic_states _ _ _ _ = _ => eapply run_prepare_dynamic_states
  | |- _addCascadedShadowMapPass _ _ _ _ = _ => eapply run_addCascadedShadowMapPass
  | |- _addDepthOfFieldPasses _ _ _ _ _ _ _ _ _ = _ =>
      eapply run_addDepthOfFieldPasses
  | |- _addKawaseDualFilterBloomPasses _ _ _ _ _ _ = _ => eapply run_bloom
  | |- addMobileShadowPasses _ _ _ = _ => eapply run_addMobileShadowPasses
  | |- addMobileLightQueues _ _ _ _ = _ => eapply run_addMobileLightQueues
  | |- _addMobileForwardRadiancePass _ _ _ _ _ _ _ _ = _ =>
      eapply run_addMobileForwardRadiancePass
  end.

(** One stage of a builder: the head of the [bind] is a builder that was
    run before; its passes are kept folded. *)
Ltac stage :=
  assoc;
  lazymatch goal with
  | |- bind (ret ?a) ?k ?st = ?r => change (k a st = r); cbv beta
  | |- bind ?m ?k ?st = _ =>
      let H := fresh "H" in
      eassert (H : m st = Some _) by known;
      rewrite (@bind_run _ _ _ m k st _ H); clear H;
      cbn [fst snd]; cbv beta;
      unfold with_passes at 1; cbn [pipelineSceneData set_passes passes]
  end.

(** The last stage: the UI queue on the last pass. *)
Ltac last_stage :=
  etransitivity; [eapply run_addUIQueue|];
  unfold with_passes; cbn [passes set_passes ppl_ this_];
  rewrite <- ?app_assoc; cbn [app]; reflexivity.

Section DesktopFrame.
Context {E : Engine}.

Lemma run_desktop_frame camera scene t p w :
  window camera = Some w ->
  (enableShadowMap (_cameraConfigs t) = true -> mainLight scene <> None) ->
  exists t',
    _buildForwardPipeline camera scene (mkState t p)
    = Some (tt, with_passes t' p
         (passes p
          ++ csm_passes t p (renderWindowId w) camera (mainLight scene)
          ++ desktop_frame t p camera scene w)).
Proof.
  intros Hw Hm.
  destruct (useFloatOutput (_configs t)) eqn:Hf;
    [|destruct (enableShadingScale (_cameraConfigs t)) eqn:Hs].
  3: { destruct (run_ldr_pipeline camera scene t p w Hw Hf Hs Hm) as [t' H].
       exists t'. rewrite H. unfold desktop_frame. rewrite Hf, Hs. reflexivity. }
  all: unfold _buildForwardPipeline, desktop_frame, present_passes, csm_passes;
    cbv zeta; rewrite ?Hf, ?Hs.
  1: destruct (enablePostProcess (_cameraConfigs t)) eqn:Hpp;
       [destruct (pipelineSettings (_cameraConfigs t)) as [s|] eqn:Hset;
        [destruct (supportDepthSample (_configs t) && dof_enabled (depthOfField s))
           eqn:D;
         destruct (bloom_enabled (bloom s)) eqn:Hb;
         (destruct (fxaa_enabled (fxaa s)) eqn:Hx;
          [destruct (enableShadingScale (_cameraConfigs t)) eqn:Hs|])|]|].
  all: (destruct (enableShadowMap (_cameraConfigs t)) eqn:Sh;
         [destruct (mainLight scene) as [light|] eqn:ML; [|now destruct Hm]|]).
  all: eexists; run_this; rewrite Hw; run1; cbv zeta; run1; cbn [this_];
    rewrite ?Hf, ?Hs, ?Sh, ?Hpp, ?Hset, ?D, ?Hb, ?Hx.
  all: run1; cbn [fst snd pipelineSceneData set_passes passes]; cbv iota.
  all: repeat stage.
  all: last_stage.
Qed.


End DesktopFrame.

(* ================================================================== *)
(** ** The bloom chain *)

Section BloomChain.
Context {E : Engine}.

Lemma written_targets_app ps qs :
  written_targets (ps ++ qs) = written_targets ps ++ written_targets qs.
Proof. apply flat_map_app. Qed.

Lemma written_targets_map {A} (f : A -> RenderPass) (g : A -> string) l :
  (forall x, map rt_name (renderTargets (f x)) = [g x]) ->
  written_targets (map f l) = map g l.
Proof.
  intros H. induction l as [|a l IH]; [reflexivity|].
  cbn [map]. change (written_targets (f a :: map f l))
    with (map rt_name (renderTargets (f a)) ++ written_targets (map f l)).
  now rewrite H, IH.
Qed.

Lemma read_textures_map {A} (f : A -> RenderPass) (g : A -> string) l :
  (forall x, read_textures (f x) = [g x]) ->
  flat_map read_textures (map f l) = map g l.
Proof.
  intros H. induction l as [|a l IH]; [reflexivity|].
  cbn [map flat_map]. now rewrite H, IH.
Qed.

Lemma bloom_written t s id width height radianceName n :
  written_targets (bloom_passes t s id width height radianceName n)
  = map (bloomTexName id) (seq 0 (S n) ++ rev (seq 0 n)) ++ [radianceName].
Proof.
  unfold bloom_passes. rewrite !written_targets_app.
  rewrite (written_targets_map _ (bloomTexName id)) by reflexivity.
  rewrite (written_targets_map _ (bloomTexName id)) by reflexivity.
  cbn [seq map app]. rewrite map_app, <- app_assoc. reflexivity.
Qed.

Lemma bloom_read t s id width height radianceName n :
  flat_map read_textures (bloom_passes t s id width height radianceName n)
  = radianceName :: map (bloomTexName id) (seq 0 n ++ rev (seq 0 (S n))).
Proof.
  unfold bloom_passes. rewrite !flat_map_app.
  rewrite (read_textures_map _ (fun i => bloomTexName id (i - 1))) by reflexivity.
  rewrite (read_textures_map _ (fun i => bloomTexName id (i + 1))) by reflexivity.
  cbn [flat_map app].
  change (read_textures
            (bloom_prefilter_pass t s id width height radianceName))
    with [radianceName].
  change (read_textures (bloom_combine_pass t s id width height radianceName))
    with [bloomTexName id 0].
  cbn [app]. f_equal. rewrite map_app.
  assert (P : map (fun i => bloomTexName id (i - 1)) (seq 1 n)
              = map (bloomTexName id) (seq 0 n)).
  { rewrite <- seq_shift, map_map. apply map_ext. intros a. f_equal. lia. }
  assert (S1 : map (fun i => bloomTexName id (i + 1)) (rev (seq 0 n))
               = map (bloomTexName id) (rev (seq 1 n))).
  { rewrite <- seq_shift, <- map_rev, map_map. apply map_ext. intros a.
    f_equal. lia. }
  rewrite P, S1. cbn [seq rev]. rewrite map_app. cbn [map]. reflexivity.
Qed.

(** X9: the bloom chain for any number of iterations.  With [n]
    iterations the builder returns and appends [2 n + 2] passes: the
    prefilter, [n] downsamples, [n] upsamples and the combine pass, alone
    the prefilter and the combine pass when [n] is 0.  The chain is a
    pipeline: the prefilter reads the radiance target, every later pass
    reads exactly the texture that the pass before it wrote, and the
    combine pass writes the radiance target again. *)
Theorem bloom_chain s id width height radianceName t p :
  let n := iterations (bloom s) in
  let added := bloom_passes t s id width height radianceName n in
  _addKawaseDualFilterBloomPasses s id width height radianceName (mkState t p)
  = Some (tt, with_passes (bloom_this t s id width height) p (passes p ++ added))
  /\ List.length added = (2 * n + 2)%nat
  /\ map layoutName added
     = "bloom1-prefilter" :: repeat "bloom1-downsample" n
       ++ repeat "bloom1-upsample" n ++ ["bloom1-combine"]
  /\ flat_map read_textures added
     = radianceName :: removelast (written_targets added)
  /\ last (written_targets added) "" = radianceName.
Proof.
  cbv zeta. split; [apply run_bloom|]. split; [|split; [|split]].
  - unfold bloom_passes. rewrite !length_app, !length_map, length_rev, !length_seq.
    cbn [List.length]. lia.
  - unfold bloom_passes. rewrite !map_app, !map_map.
    cbn [map layoutName bloom_prefilter_pass bloom_downsample_pass
         bloom_upsample_pass bloom_combine_pass app].
    assert (R : forall (c : string) (l : list nat),
              map (fun _ => c) l = repeat c (List.length l))
      by (induction l; cbn; congruence).
    rewrite !R, length_rev, !length_seq. reflexivity.
  - rewrite bloom_read, bloom_written, removelast_last. f_equal. f_equal.
    rewrite !seq_S. cbn [Nat.add]. rewrite rev_app_distr. cbn [rev app].
    now rewrite <- app_assoc.
  - rewrite bloom_written. apply last_last.
Qed.

Lemma bloom_size_half x i : bloom_size (half_size x) i = bloom_size x (S i).
Proof. induction i as [|i IH]; cbn [bloom_size]; [reflexivity|]. now rewrite IH. Qed.

Lemma bloom_size_closed x i :
  bloom_size x i = Z.max (x / 2 ^ (Z.of_nat i + 1)) 1.
Proof.
  induction i as [|i IH]; cbn [bloom_size].
  - apply half_size_div.
  - rewrite half_size_div, IH.
    set (a := x / 2 ^ (Z.of_nat i + 1)).
    assert (R : x / 2 ^ (Z.of_nat (S i) + 1) = a / 2).
    { replace (Z.of_nat (S i) + 1) with ((Z.of_nat i + 1) + 1) by lia.
      rewrite Z.pow_add_r by lia. change (2 ^ 1) with 2.
      unfold a. rewrite Z.div_div; try reflexivity; try lia;
        try (apply Z.pow_pos_nonneg; lia);
        try (apply Z.pow_nonzero; lia). }
    rewrite R.
    destruct (Z.max_spec a 1) as [[H ->]|[H ->]].
    + change (1 / 2) with 0.
      assert (a / 2 <= 0) by (apply Z.div_le_upper_bound; lia). lia.
    + reflexivity.
Qed.

(** The loop of bloom targets in [windowResize]: one render target per
    level, each half the one before. *)
Lemma run_declare_bloom_targets id j : forall a bw bh t p,
  declare_bloom_targets id (seq a j) bw bh (mkState t p)
  = Some (tt, mkState t
       (set_resources p
          (resources p
           ++ map (fun k =>
                     mkResource Res_RenderTarget (bloomTexName id (a + k))
                       Format.RGBA16F (bloom_size bw k) (bloom_size bh k))
                (seq 0 j)))).
Proof.
  induction j as [|j IH]; intros a bw bh t p; cbn [seq declare_bloom_targets map].
  - cbn. rewrite app_nil_r. now destruct p.
  - unfold bind, ppl_addRenderTarget, declare, on_ppl. cbn [this_ ppl_].
    rewrite IH. destruct p. unfold set_resources.
    cbn -[bloom_size half_size bloomTexName app map seq Nat.add].
    rewrite <- app_assoc. cbn [app]. rewrite <- seq_shift, map_map.
    cbn [seq map]. rewrite Nat.add_0_r.
    do 6 f_equal.
    apply map_ext. intros k. now rewrite !bloom_size_half, Nat.add_succ_r.
Qed.

(** X10: the size of a bloom level, in the planner and in the builder.
    Level [i] is [max (floor (size / 2^(i+1))) 1] in each dimension.  The
    loop of [windowResize] declares the levels 0 to [n] with these sizes,
    and every pass of the bloom chain but the combine pass writes one of
    these levels and has the size declared for it. *)
Theorem bloom_level_sizes s id width height radianceName t p :
  let n := iterations (bloom s) in
  let level i :=
    mkResource Res_RenderTarget (bloomTexName id i) Format.RGBA16F
      (Z.max (width / 2 ^ (Z.of_nat i + 1)) 1)
      (Z.max (height / 2 ^ (Z.of_nat i + 1)) 1) in
  declare_bloom_targets id (seq 0 (n + 1)) width height (mkState t p)
  = Some (tt, mkState t
       (set_resources p (resources p ++ map level (seq 0 (n + 1)))))
  /\ exists added,
       _addKawaseDualFilterBloomPasses s id width height radianceName (mkState t p)
       = Some (tt, with_passes (bloom_this t s id width height) p
                     (passes p ++ added))
       /\ forall q, In q (removelast added) ->
            exists i, (i <= n)%nat
              /\ map rt_name (renderTargets q) = [res_name (level i)]
              /\ pass_width q = res_width (level i)
              /\ pass_height q = res_height (level i).
Proof.
  cbv zeta. split.
  - rewrite run_declare_bloom_targets. do 5 f_equal.
    apply map_ext. intros k. now rewrite !bloom_size_closed.
  - eexists. split; [apply run_bloom|].
    unfold bloom_passes. rewrite !app_assoc, removelast_last, <- !app_assoc.
    intros q Hq. cbn [res_name res_width res_height].
    rewrite !in_app_iff, !in_map_iff in Hq.
    destruct Hq as [[<-|[]]|[(i & <- & Hi)|(i & <- & Hi)]].
    + exists 0%nat. rewrite <- !bloom_size_closed. repeat split. lia.
    + apply in_seq in Hi. exists i. rewrite <- !bloom_size_closed.
      repeat split. lia.
    + apply in_rev, in_seq in Hi. exists i. rewrite <- !bloom_size_closed.
      repeat split. lia.
Qed.

End BloomChain.

(* ================================================================== *)
(** ** The desktop frame and the pass it ends on *)

Section DesktopPresent.
Context {E : Engine}.

Lemma spot_chain_all (P : RenderPass -> Prop) camera size width height
    colorName depthStencilName id ls :
  (forall l, P (spot_shadow_pass camera size id l)) ->
  (forall l, P (spot_lit_pass camera width height colorName depthStencilName id l)) ->
  forall start, Forall P (fst start) -> P (snd start) ->
  let c := spot_chain camera size width height colorName depthStencilName id
             ls start in
  Forall P (fst c) /\ P (snd c).
Proof.
  intros Hs Hl. unfold spot_chain.
  induction ls as [|l ls IH]; intros start H1 H2; cbn [fold_left]; [auto|].
  apply IH; cbn [fst snd]; [|apply Hl].
  rewrite !Forall_app. repeat split; auto.
Qed.

Lemma radiance_passes_all (P : RenderPass -> Prop) t size camera width height
    id colorName depthStencilName mainLight :
  P (add_queues
       (forward_pass (_cameraConfigs t) camera width height id colorName
          depthStencilName mainLight)
       (map (light_queue camera) (lights (forwardLighting t)))) ->
  (forall l, P (spot_shadow_pass camera size id l)) ->
  (forall l, P (spot_lit_pass camera width height colorName depthStencilName id l)) ->
  (forall x, P x -> P (add_queues x [blend_queue camera (main_light_ref mainLight)])) ->
  Forall P (radiance_passes t size camera width height id colorName
              depthStencilName mainLight).
Proof.
  intros Hf Hs Hl Hb. unfold radiance_passes, radiance_chain. cbv zeta.
  cbn [fst snd].
  match goal with |- context [spot_chain ?a ?b ?c ?d ?e ?f ?g ?h ?st] =>
    destruct (spot_chain_all P a b c d e f g h Hs Hl st) as [A B];
      [constructor | exact Hf |]
  end.
  apply Forall_app. split; [exact A|]. constructor; [|constructor].
  apply Hb, B.
Qed.

Lemma draws_ui_add_queues x qs :
  draws_ui (add_queues x qs)
  = draws_ui x || existsb (fun rq => existsb is_ui_item (items rq)) qs.
Proof. unfold draws_ui, add_queues. destruct x. cbn. apply existsb_app. Qed.

Lemma light_queues_no_ui camera (ls : list Light) :
  existsb (fun rq => existsb is_ui_item (items rq)) (map (light_queue camera) ls)
  = false.
Proof. induction ls as [|l ls IH]; cbn; auto. Qed.

Lemma radiance_passes_ui_free t size camera width height id colorName
    depthStencilName mainLight :
  Forall ui_free (radiance_passes t size camera width height id colorName
                    depthStencilName mainLight).
Proof.
  apply radiance_passes_all.
  - split; [reflexivity|]. rewrite draws_ui_add_queues, light_queues_no_ui.
    reflexivity.
  - intros l. split; reflexivity.
  - intros l. split; reflexivity.
  - intros x [H1 H2]. split; [destruct x; exact H1|].
    rewrite draws_ui_add_queues, H2. reflexivity.
Qed.

Lemma spot_chain_snd (Q : RenderPass -> Prop) camera size width height
    colorName depthStencilName id ls :
  (forall l, Q (spot_lit_pass camera width height colorName depthStencilName id l)) ->
  forall start, Q (snd start) ->
  Q (snd (spot_chain camera size width height colorName depthStencilName id
            ls start)).
Proof.
  intros Hl. unfold spot_chain.
  induction ls as [|l ls IH]; intros start H; cbn [fold_left]; [auto|].
  apply IH. cbn [snd]. apply Hl.
Qed.

Lemma renders_to_add_queues name w h x qs :
  renders_to name w h x -> renders_to name w h (add_queues x qs).
Proof. destruct x. exact (fun H => H). Qed.

Lemma radiance_passes_last t size camera width height id colorName
    depthStencilName mainLight :
  exists before x,
    radiance_passes t size camera width height id colorName depthStencilName
      mainLight = before ++ [x]
    /\ renders_to colorName width height x.
Proof.
  unfold radiance_passes. cbv zeta. eexists _, _. split; [reflexivity|].
  unfold radiance_chain. cbv zeta. cbn [snd].
  apply renders_to_add_queues, spot_chain_snd.
  - intros l. repeat split.
  - cbn [snd]. apply renders_to_add_queues. unfold forward_pass, renders_to.
    cbn. destruct (forwardNeedClearColor camera); repeat split.
Qed.

Lemma with_ui_final cc camera name w h x :
  renders_to name w h x -> ui_free x ->
  renders_to name w h (with_ui cc camera x)
  /\ queues (with_ui cc camera x) = queues x ++ [ui_queue cc camera]
  /\ showStatistics (with_ui cc camera x) = enableProfiler cc
  /\ draws_ui (with_ui cc camera x) = true.
Proof.
  intros R [S U]. unfold with_ui. repeat split.
  - destruct (enableProfiler cc), x; apply R.
  - destruct (enableProfiler cc), x; apply R.
  - destruct (enableProfiler cc), x; apply R.
  - destruct (enableProfiler cc), x; reflexivity.
  - destruct (enableProfiler cc), x; cbn in *; auto.
  - rewrite draws_ui_add_queues. unfold ui_queue.
    destruct (enableProfiler cc); cbn; apply orb_true_r.
Qed.

Lemma bloom_passes_ui_free t s id width height radianceName n :
  Forall ui_free (bloom_passes t s id width height radianceName n).
Proof.
  unfold bloom_passes. rewrite !Forall_app. repeat split.
  - repeat constructor.
  - apply Forall_forall. intros q Hq. apply in_map_iff in Hq.
    destruct Hq as (i & <- & _). split; reflexivity.
  - apply Forall_forall. intros q Hq. apply in_map_iff in Hq.
    destruct Hq as (i & <- & _). split; reflexivity.
  - repeat constructor.
Qed.

Lemma dof_passes_ui_free t id camera width height a b c :
  Forall ui_free (dof_passes t id camera width height a b c).
Proof. unfold dof_passes. cbv zeta. repeat constructor. Qed.

Lemma csm_passes_ui_free t p id camera mainLight :
  Forall ui_free (csm_passes t p id camera mainLight).
Proof.
  unfold csm_passes. destruct (enableShadowMap _); [|constructor].
  destruct mainLight as [l|]; [|constructor].
  constructor; [|constructor]. split; [reflexivity|].
  unfold draws_ui, csm_pass. cbv zeta. cbn [queues].
  induction (seq 0 (csm_levels p l)) as [|k ks IH]; [reflexivity|].
  cbn [map existsb]. rewrite IH. reflexivity.
Qed.

(** Every desktop frame ends in a pass that renders to the window at the
    native size and carries the UI queue; no pass before it does. *)
Lemma desktop_frame_last t p camera scene w :
  exists before x,
    desktop_frame t p camera scene w
    = before ++ [with_ui (_cameraConfigs t) camera x]
    /\ renders_to (colorName w) (native_size (win_width w))
         (native_size (win_height w)) x
    /\ ui_free x
    /\ Forall ui_free before.
Proof.
  unfold desktop_frame. cbv zeta.
  set (cc := _cameraConfigs t).
  set (nw := native_size (win_width w)). set (nh := native_size (win_height w)).
  assert (T : forall r,
    Forall ui_free r ->
    exists before x,
      r ++ [with_ui cc camera
              (tonemap_pass t nw nh ("Radiance" +++ str_of_nat (renderWindowId w))
                 (colorName w))]
      = before ++ [with_ui cc camera x]
      /\ renders_to (colorName w) nw nh x /\ ui_free x /\ Forall ui_free before).
  { intros r Hr. eexists _, _. split; [reflexivity|].
    repeat split; assumption. }
  destruct (useFloatOutput (_configs t));
    [destruct (enablePostProcess cc);
       [destruct (pipelineSettings cc) as [s|]|]
    |destruct (enableShadingScale cc)].
  - unfold present_passes. cbv zeta. fold cc.
    set (R := radiance_passes _ _ _ _ _ _ _ _ _).
    assert (HR : Forall ui_free R) by apply radiance_passes_ui_free.
    set (D := if _ && _ then dof_passes _ _ _ _ _ _ _ _ else []).
    assert (HD : Forall ui_free D).
    { unfold D. destruct (_ && _); [apply dof_passes_ui_free|constructor]. }
    set (B := if bloom_enabled (bloom s) then _ else []).
    assert (HB : Forall ui_free B).
    { unfold B. destruct (bloom_enabled _);
        [apply bloom_passes_ui_free|constructor]. }
    clearbody R D B.
    destruct (fxaa_enabled (fxaa s)); [destruct (enableShadingScale cc)|].
    + eexists (R ++ D ++ B ++ [_; _]), _. split.
      { rewrite <- !app_assoc. reflexivity. }
      repeat split. rewrite !Forall_app. repeat split; auto.
      repeat constructor.
    + eexists (R ++ D ++ B ++ [_]), _. split.
      { rewrite <- !app_assoc. reflexivity. }
      repeat split. rewrite !Forall_app. repeat split; auto.
      repeat constructor.
    + eexists (R ++ D ++ B), _. split.
      { rewrite <- !app_assoc. reflexivity. }
      repeat split. rewrite !Forall_app. repeat split; auto.
  - apply T, radiance_passes_ui_free.
  - apply T, radiance_passes_ui_free.
  - apply T, radiance_passes_ui_free.
  - destruct (radiance_passes_last (culled t scene camera None)
        (shadows_size (pipelineSceneData p)) camera nw nh (renderWindowId w)
        (colorName w) (depthStencilName w) (mainLight scene))
      as (before & x & Hx & Rx).
    pose proof (radiance_passes_ui_free (culled t scene camera None)
        (shadows_size (pipelineSceneData p)) camera nw nh (renderWindowId w)
        (colorName w) (depthStencilName w) (mainLight scene)) as F'.
    rewrite Hx in *. rewrite on_last_snoc.
    apply Forall_app in F'. destruct F' as [F1 F2].
    inversion F2 as [|? ? [A B] _].
    exists before, x. repeat split; try apply Rx; assumption.
Qed.

(** X11: the desktop frame in every configuration.  For a camera with a
    window (and a main light when main-light shadows are on) the desktop
    builder returns and only appends passes: the CSM pass when main-light
    shadows are on, then the radiance passes; with float output and
    post-process settings the depth-of-field chain (when depth can be
    sampled), the bloom chain and the tonemap, FXAA and copy passes that
    the settings ask for; with float output or shading scale otherwise one
    tonemap pass to the window; and in LDR at the native size nothing
    more, the radiance passes then render to the window themselves. *)
Theorem desktop_frame_every_configuration camera scene t p w :
  window camera = Some w ->
  (enableShadowMap (_cameraConfigs t) = true -> mainLight scene <> None) ->
  exists t',
    _buildForwardPipeline camera scene (mkState t p)
    = Some (tt, with_passes t' p
         (passes p
          ++ csm_passes t p (renderWindowId w) camera (mainLight scene)
          ++ desktop_frame t p camera scene w)).
Proof. exact (run_desktop_frame camera scene t p w). Qed.

(** X12: the desktop frame ends on the window.  In every configuration the
    last pass that the desktop builder appends renders to the window's
    colour target at the native size, whatever the shading scale; the UI
    queue is the last queue of that pass and it shows the statistics
    exactly when the profiler is enabled.  No pass before it draws the UI
    or shows the statistics. *)
Theorem desktop_frame_presents_to_window camera scene t p w :
  window camera = Some w ->
  (enableShadowMap (_cameraConfigs t) = true -> mainLight scene <> None) ->
  exists t' before final qs,
    _buildForwardPipeline camera scene (mkState t p)
    = Some (tt, with_passes t' p (passes p ++ before ++ [final]))
    /\ renders_to (colorName w) (native_size (win_width w))
         (native_size (win_height w)) final
    /\ queues final = qs ++ [ui_queue (_cameraConfigs t) camera]
    /\ existsb (fun rq => existsb is_ui_item (items rq)) qs = false
    /\ showStatistics final = enableProfiler (_cameraConfigs t)
    /\ Forall ui_free before.
Proof.
  intros Hw Hm.
  destruct (run_desktop_frame camera scene t p w Hw Hm) as [t' H].
  destruct (desktop_frame_last t p camera scene w) as (before & x & Hx & R & U & F).
  destruct (with_ui_final (_cameraConfigs t) camera _ _ _ x R U)
    as (R' & Q' & S' & _).
  exists t', (csm_passes t p (renderWindowId w) camera (mainLight scene) ++ before),
    (with_ui (_cameraConfigs t) camera x), (queues x).
  split; [|repeat split].
  - rewrite H, Hx, <- !app_assoc. reflexivity.
  - apply R'.
  - apply R'.
  - apply R'.
  - exact Q'.
  - apply U.
  - exact S'.
  - apply Forall_app. split; [apply csm_passes_ui_free|exact F].
Qed.

End DesktopPresent.

(* ================================================================== *)
(** ** [setup] never throws *)

Section SetupTotal.
Context {E : Engine}.

Lemma setupCameraConfigs_returns host camera pc cc0 w :
  window camera = Some w ->
  exists cc, setupCameraConfigs host camera pc cc0 = Some cc.
Proof.
  intros Hw. unfold setupCameraConfigs, isMainGameWindow. rewrite Hw.
  destruct (CameraUsage_eqb _ _), (isEditorView camera);
    try destruct (getEditorPipelineSettings host); eexists; reflexivity.
Qed.

Lemma setup_camera_step host camera t p sc w cc :
  scene camera = Some sc -> window camera = Some w ->
  setupCameraConfigs host camera (_configs t) (_cameraConfigs t) = Some cc ->
  setup_camera host camera (mkState t p)
  = (if isMobile (_configs t) then _buildMobileForwardPipeline camera sc
     else _buildForwardPipeline camera sc) (mkState (set__cameraConfigs t cc) p).
Proof.
  intros Hs Hw Hcc. unfold setup_camera. rewrite Hs, Hw.
  run_this. cbn [this_]. rewrite Hcc. cbn [deref].
  do 2 run1. run_this. reflexivity.
Qed.

Lemma setup_camera_appends host camera t p :
  exists t' added,
    setup_camera host camera (mkState t p)
    = Some (tt, with_passes t' p (passes p ++ added)).
Proof.
  destruct (scene camera) as [sc|] eqn:Hs;
    [destruct (window camera) as [w|] eqn:Hw|].
  2,3: unfold setup_camera; rewrite Hs, ?Hw; exists t, [];
       rewrite app_nil_r, with_passes_same; reflexivity.
  destruct (setupCameraConfigs_returns host camera (_configs t)
              (_cameraConfigs t) w Hw) as [cc Hcc].
  pose proof (setupCameraConfigs_shadow _ _ _ _ _ _ Hcc Hs) as Hsh.
  rewrite (setup_camera_step host camera t p sc w cc Hs Hw Hcc).
  set (t1 := set__cameraConfigs t cc).
  assert (Hm : enableShadowMap (_cameraConfigs t1) = true -> mainLight sc <> None).
  { cbn [t1 _cameraConfigs set__cameraConfigs]. rewrite Hsh.
    destruct (mainLight sc); [discriminate 2|discriminate 1]. }
  change (_configs t) with (_configs t1).
  destruct (isMobile (_configs t1)).
  - destruct (run_mobile_pipeline camera sc t1 p w Hw Hm) as [t' H].
    eexists t', _. exact H.
  - destruct (run_desktop_frame camera sc t1 p w Hw Hm) as [t' H].
    eexists t', _. exact H.
Qed.

Lemma for_of_setup_camera_appends host cameras : forall t p,
  exists t' added,
    for_of cameras (setup_camera host) (mkState t p)
    = Some (tt, with_passes t' p (passes p ++ added)).
Proof.
  induction cameras as [|c cs IH]; intros t p.
  - exists t, []. rewrite app_nil_r, with_passes_same. reflexivity.
  - cbn [for_of].
    destruct (setup_camera_appends host c t p) as (t1 & a1 & H1).
    destruct (IH t1 (set_passes p (passes p ++ a1))) as (t2 & a2 & H2).
    exists t2, (a1 ++ a2).
    rewrite (@bind_run _ _ _ _ _ _ _ H1). cbn [fst snd].
    unfold with_passes in *. rewrite H2. destruct p; cbn.
    now rewrite app_assoc.
Qed.

(** X13: [setup] returns and only appends passes.  The bloom iteration
    count is a natural number here, as in [Bloom]; a count that is
    fractional, negative or too large for an array length, for which the
    source throws a [RangeError] or runs a loop that never ends, is not an
    input of this theorem.  For every host, every
    list of cameras and every state the call then returns: it reads no
    window, main light or settings object that is missing.  The passes that
    were in the render graph are still its first passes, and the declared
    resources, the device and the scene data are as before.  When an effect
    asset is still missing it appends nothing. *)
Theorem setup_returns_and_appends host cameras st :
  exists st' added,
    setup host cameras st = Some (tt, st')
    /\ ppl_ st' = set_passes (ppl_ st) (passes (ppl_ st) ++ added)
    /\ resources (ppl_ st') = resources (ppl_ st)
    /\ (_initialized (this_ st') = false -> added = []).
Proof.
  destruct st as [t p]. unfold setup. cbn [ppl_ this_].
  assert (K : forall t0,
    _initialized t0 = true ->
    exists st' added,
      for_of cameras (setup_camera host) (mkState t0 p) = Some (tt, st')
      /\ ppl_ st' = set_passes p (passes p ++ added)
      /\ resources (ppl_ st') = resources p
      /\ (_initialized (this_ st') = false -> added = [])).
  { intros t0 I0.
    destruct (for_of_setup_camera_appends host cameras t0 p) as (t' & a & H).
    eexists _, a. split; [exact H|]. split; [reflexivity|].
    split; [reflexivity|].
    pose proof (keeps_for_of cameras (setup_camera host)
                  (keeps_setup_camera host) _ _ _ H) as Ki.
    cbn [this_] in Ki. rewrite I0 in Ki. intros Hf.
    rewrite Hf in Ki. discriminate Ki. }
  destruct (_initialized t) eqn:Hi.
  - rewrite (@bind_run _ _ _ _ _ _ _ (run_initMaterials_ready host t p Hi)).
    cbn [fst snd Nat.eqb negb]. apply K, Hi.
  - rewrite (@bind_run _ _ _ _ _ _ _ (run_initMaterials_attempt host t p Hi)).
    cbn [fst snd].
    destruct (materials_ready (materials_attempt host t p)).
    + cbn [Nat.eqb negb]. apply K. reflexivity.
    + cbn [Nat.eqb negb]. eexists _, []. split; [reflexivity|].
      cbn [ppl_]. rewrite app_nil_r. destruct p. repeat split.
Qed.

End SetupTotal.

(* ================================================================== *)
(** ** The resource planner, and the frame against its plan *)

Section Planner3.
Context {E : Engine}.

Lemma set_resources_twice p a b :
  set_resources (set_resources p a) b = set_resources p b.
Proof. reflexivity. Qed.

Lemma set_resources_same p : set_resources p (resources p) = p.
Proof. destruct p; reflexivity. Qed.

Lemma appends_ret : appends_resources (ret tt) [].
Proof.
  intros t p. cbn. now rewrite app_nil_r, set_resources_same.
Qed.

Lemma appends_declare kind name format w h :
  appends_resources (declare kind name format w h)
    [mkResource kind name format w h].
Proof. intros t p. reflexivity. Qed.

Lemma appends_bind m k r1 r2 :
  appends_resources m r1 -> appends_resources (k tt) r2 ->
  appends_resources (bind m k) (r1 ++ r2).
Proof.
  intros H1 H2 t p. unfold bind. rewrite H1, H2.
  rewrite set_resources_twice. cbn [resources set_resources].
  now rewrite app_assoc.
Qed.

Lemma appends_if (c : bool) a b ra rb :
  appends_resources a ra -> appends_resources b rb ->
  appends_resources (if c then a else b) (if c then ra else rb).
Proof. now destruct c. Qed.

Lemma appends_for_of {X} (xs : list X) body (r : X -> list Resource) :
  (forall x, appends_resources (body x) (r x)) ->
  appends_resources (for_of xs body) (flat_map r xs).
Proof.
  intros H. induction xs as [|x xs IH]; cbn [for_of flat_map].
  - apply appends_ret.
  - apply appends_bind; [apply H|apply IH].
Qed.

Lemma appends_bloom_targets id n w h :
  appends_resources (declare_bloom_targets id (seq 0 n) w h)
    (map (fun i =>
            mkResource Res_RenderTarget (bloomTexName id i) Format.RGBA16F
              (bloom_size w i) (bloom_size h i))
       (seq 0 n)).
Proof. intros t p. apply run_declare_bloom_targets. Qed.

Lemma appends_eq m r r' :
  appends_resources m r -> r = r' -> appends_resources m r'.
Proof. now intros H <-. Qed.

(** [windowResize] after the two snapshots: the plan. *)
Lemma run_windowResize host window camera nativeWidth nativeHeight t p cc :
  setupCameraConfigs host camera (setupPipelineConfigs host p (_configs t))
    (_cameraConfigs t) = Some cc ->
  let t1 :=
    set__cameraConfigs (set__configs t (setupPipelineConfigs host p (_configs t)))
      cc in
  windowResize host window camera nativeWidth nativeHeight (mkState t p)
  = Some (tt, mkState t1
       (set_resources p
          (resources p
           ++ planned_resources t1 window nativeWidth nativeHeight))).
Proof.
  intros Hcc t1. unfold windowResize.
  erewrite bind_step by reflexivity.
  erewrite bind_step by reflexivity.
  erewrite bind_step by reflexivity.
  erewrite bind_step
    by (unfold deref; cbn [this_ ppl_ _configs _cameraConfigs set__configs];
        rewrite Hcc; reflexivity).
  erewrite bind_step by reflexivity.
  erewrite bind_step by reflexivity.
  cbv zeta. cbn [this_ ppl_].
  change (set__cameraConfigs _ cc) with t1.
  match goal with |- ?m _ = _ =>
    enough (A : appends_resources m
                  (planned_resources t1 window nativeWidth nativeHeight))
      by apply A
  end.
  unfold planned_resources. cbv zeta.
  unfold ppl_addRenderWindow, ppl_addRenderTarget, ppl_addDepthStencil.
  apply appends_bind; [apply appends_declare|].
  apply appends_bind.
  { repeat apply appends_if; try apply appends_declare. apply appends_ret. }
  apply appends_bind; [apply appends_declare|].
  apply (appends_bind _ _ [_] (_ :: _)); [apply appends_declare|].
  apply (appends_bind _ _ [_] _); [apply appends_declare|].
  apply appends_bind.
  { apply appends_if; [|apply appends_ret].
    unfold spot_shadow_resources. apply appends_for_of. intros i.
    apply (appends_bind _ _ [_] [_]); apply appends_declare. }
  destruct (enablePostProcess (_cameraConfigs t1));
    [destruct (pipelineSettings (_cameraConfigs t1)) as [s|]|];
    try apply appends_ret.
  apply appends_bind.
  { apply appends_if; [apply appends_declare|apply appends_ret]. }
  apply appends_bind.
  { apply appends_if; [apply appends_declare|apply appends_ret]. }
  apply appends_bind.
  { apply appends_if; [|apply appends_ret].
    apply (appends_bind _ _ [_] [_; _; _]); [apply appends_declare|].
    apply (appends_bind _ _ [_] [_; _]); [apply appends_declare|].
    apply (appends_bind _ _ [_] [_]); apply appends_declare. }
  apply appends_if; [apply appends_bloom_targets|apply appends_ret].
Qed.

End Planner3.

(* ================================================================== *)
(** ** The frame against the plan of [windowResize] *)

Section Fits.
Context {E : Engine}.

Lemma declared_as_in rs r :
  In r rs -> declared_as rs (res_name r) (res_width r) (res_height r) = true.
Proof.
  intros H. unfold declared_as. apply existsb_exists. exists r.
  split; [exact H|]. now rewrite String.eqb_refl, !Z.eqb_refl.
Qed.

Lemma declared_as_declared rs name w h :
  declared_as rs name w h = true -> declared rs name = true.
Proof.
  unfold declared_as, declared. rewrite !existsb_exists.
  intros (r & Hr & H). exists r. split; [exact Hr|].
  now apply andb_true_iff in H as [H%andb_true_iff _].
Qed.

Lemma declared_as_app rs0 rs name w h :
  declared_as rs name w h = true -> declared_as (rs0 ++ rs) name w h = true.
Proof.
  unfold declared_as. rewrite existsb_app. intros ->. apply orb_true_r.
Qed.

Lemma declared_app rs0 rs name :
  declared rs name = true -> declared (rs0 ++ rs) name = true.
Proof.
  unfold declared. rewrite existsb_app. intros ->. apply orb_true_r.
Qed.

Lemma pass_fits_app rs0 rs q :
  pass_fits rs q = true -> pass_fits (rs0 ++ rs) q = true.
Proof.
  unfold pass_fits. rewrite !andb_true_iff, !forallb_forall.
  intros [[H1 H2] H3]. repeat split; intros x Hx.
  - apply declared_as_app, H1, Hx.
  - apply declared_as_app, H2, Hx.
  - apply declared_app, H3, Hx.
Qed.

Lemma pass_fits_add_queues rs x qs :
  pass_fits rs (add_queues x qs) = pass_fits rs x.
Proof. destruct x; reflexivity. Qed.

Lemma pass_fits_with_ui rs cc camera x :
  pass_fits rs (with_ui cc camera x) = pass_fits rs x.
Proof.
  unfold with_ui. rewrite pass_fits_add_queues.
  destruct (enableProfiler cc), x; reflexivity.
Qed.

Lemma forallb_of_map {A B} (g : A -> B) (f : B -> bool) l :
  forallb f (map g l) = forallb (fun x => f (g x)) l.
Proof. induction l as [|a l IH]; cbn; congruence. Qed.

(** A pass with one colour target, at most one depth-stencil target and
    some textures. *)
Lemma pass_fits_intro rs q c ds ts :
  map rt_name (renderTargets q) = [c] ->
  map ds_name (depthStencils q) = ds ->
  read_textures q = ts ->
  declared_as rs c (pass_width q) (pass_height q) = true ->
  forallb (fun d => declared_as rs d (pass_width q) (pass_height q)) ds = true ->
  forallb (declared rs) ts = true ->
  pass_fits rs q = true.
Proof.
  intros Hc Hd Ht Fc Fd Ft. unfold pass_fits.
  rewrite <- (forallb_of_map rt_name
    (fun n => declared_as rs n (pass_width q) (pass_height q))),
    <- (forallb_of_map ds_name
    (fun n => declared_as rs n (pass_width q) (pass_height q))).
  rewrite Hc, Hd, Ht, Fd, Ft. cbn [forallb]. now rewrite Fc.
Qed.

Section Radiance.
Variable rs : list Resource.
Variables (camera : Camera) (t : BuiltinForwardPipeline) (size : Vec2).
Variables (width height : Z) (id : nat) (colorName depthStencilName : string).
Variable mainLight : option DirectionalLight.
Hypothesis Hcolor : declared_as rs colorName width height = true.
Hypothesis Hdepth : declared_as rs depthStencilName width height = true.
Hypothesis Hmap :
  declared_as rs ("ShadowMap" +++ str_of_nat id) (v2x size) (v2y size) = true.
Hypothesis Hmapd :
  declared_as rs ("ShadowDepth" +++ str_of_nat id) (v2x size) (v2y size) = true.

Lemma radiance_passes_fit :
  forallb (pass_fits rs)
    (radiance_passes t size camera width height id colorName depthStencilName
       mainLight) = true.
Proof.
  pose proof (declared_as_declared _ _ _ _ Hmap) as Hm.
  apply forallb_forall, Forall_forall.
  apply (radiance_passes_all (fun q => pass_fits rs q = true)).
  - rewrite pass_fits_add_queues. unfold pass_fits, read_textures, forward_pass.
    destruct (forwardNeedClearColor camera), (negb _), (enableShadowMap _);
      cbn -[String.append]; rewrite ?Hcolor, ?Hdepth, ?Hm; reflexivity.
  - intros l. unfold pass_fits, read_textures. cbn -[String.append].
    now rewrite Hmap, Hmapd.
  - intros l. unfold pass_fits, read_textures. cbn -[String.append].
    now rewrite Hcolor, Hdepth, Hm.
  - intros x Hx. now rewrite pass_fits_add_queues.
Qed.

End Radiance.

Lemma forallb_on_last {A} (f : A -> A) (g : A -> bool) l :
  (forall x, g (f x) = g x) -> forallb g (on_last f l) = forallb g l.
Proof.
  intros H. induction l as [|a l IH]; [reflexivity|].
  destruct l as [|b l]; [cbn; now rewrite H|].
  change (on_last f (a :: b :: l)) with (a :: on_last f (b :: l)).
  cbn [forallb]. now rewrite IH.
Qed.

End Fits.

Ltac find_in :=
  lazymatch goal with
  | |- In _ (_ ++ _) =>
      apply in_or_app; first [left; find_in | right; find_in]
  | |- In _ (_ :: _) => first [left; reflexivity | right; find_in]
  end.

Ltac in_plan R :=
  apply (declared_as_in _ R);
  unfold planned_resources; cbv zeta;
  repeat (match goal with H : _ = _ |- _ => rewrite H end; cbv beta iota);
  find_in.

Section PlanFacts.
Context {E : Engine}.
Variables (t : BuiltinForwardPipeline) (w : RenderWindow) (nW nH : Z).

Lemma plan_window :
  declared_as (planned_resources t w nW nH) (colorName w) nW nH = true.
Proof.
  in_plan (mkResource Res_RenderWindow (colorName w) Format.BGRA8 nW nH).
Qed.

Lemma plan_depth :
  declared_as (planned_resources t w nW nH) (depthStencilName w)
    (working_size (_cameraConfigs t) nW) (working_size (_cameraConfigs t) nH)
  = true.
Proof.
  in_plan (mkResource Res_DepthStencil (depthStencilName w)
             Format.DEPTH_STENCIL (working_size (_cameraConfigs t) nW)
             (working_size (_cameraConfigs t) nH)).
Qed.

Lemma plan_shadow :
  declared_as (planned_resources t w nW nH)
    ("ShadowMap" +++ str_of_nat (renderWindowId w))
    (v2x (shadowMapSize (_configs t))) (v2y (shadowMapSize (_configs t)))
  = true.
Proof.
  in_plan (mkResource Res_RenderTarget
             ("ShadowMap" +++ str_of_nat (renderWindowId w))
             (shadowMapFormat (_configs t))
             (v2x (shadowMapSize (_configs t)))
             (v2y (shadowMapSize (_configs t)))).
Qed.

Lemma plan_shadow_depth :
  declared_as (planned_resources t w nW nH)
    ("ShadowDepth" +++ str_of_nat (renderWindowId w))
    (v2x (shadowMapSize (_configs t))) (v2y (shadowMapSize (_configs t)))
  = true.
Proof.
  in_plan (mkResource Res_DepthStencil
             ("ShadowDepth" +++ str_of_nat (renderWindowId w))
             Format.DEPTH_STENCIL
             (v2x (shadowMapSize (_configs t)))
             (v2y (shadowMapSize (_configs t)))).
Qed.

Lemma plan_radiance :
  useFloatOutput (_configs t) || enableShadingScale (_cameraConfigs t) = true ->
  declared_as (planned_resources t w nW nH)
    ("Radiance" +++ str_of_nat (renderWindowId w))
    (working_size (_cameraConfigs t) nW) (working_size (_cameraConfigs t) nH)
  = true.
Proof.
  intros H. destruct (useFloatOutput (_configs t)) eqn:Hf.
  - in_plan (mkResource Res_RenderTarget
               ("Radiance" +++ str_of_nat (renderWindowId w)) Format.RGBA16F
               (working_size (_cameraConfigs t) nW)
               (working_size (_cameraConfigs t) nH)).
  - cbn in H.
    in_plan (mkResource Res_RenderTarget
               ("Radiance" +++ str_of_nat (renderWindowId w)) Format.RGBA8
               (working_size (_cameraConfigs t) nW)
               (working_size (_cameraConfigs t) nH)).
Qed.

Section Post.
Variable s : PipelineSettings.
Hypothesis Hpp : enablePostProcess (_cameraConfigs t) = true.
Hypothesis Hset : pipelineSettings (_cameraConfigs t) = Some s.

Lemma plan_ldr :
  fxaa_enabled (fxaa s) || dof_enabled (depthOfField s) = true ->
  declared_as (planned_resources t w nW nH)
    ("LdrColor" +++ str_of_nat (renderWindowId w))
    (working_size (_cameraConfigs t) nW) (working_size (_cameraConfigs t) nH)
  = true.
Proof.
  intros H.
  in_plan (mkResource Res_RenderTarget
             ("LdrColor" +++ str_of_nat (renderWindowId w)) Format.RGBA8
             (working_size (_cameraConfigs t) nW)
             (working_size (_cameraConfigs t) nH)).
Qed.

Lemma plan_aa :
  fxaa_enabled (fxaa s) && enableShadingScale (_cameraConfigs t) = true ->
  declared_as (planned_resources t w nW nH)
    ("AaColor" +++ str_of_nat (renderWindowId w))
    (working_size (_cameraConfigs t) nW) (working_size (_cameraConfigs t) nH)
  = true.
Proof.
  intros H.
  in_plan (mkResource Res_RenderTarget
             ("AaColor" +++ str_of_nat (renderWindowId w)) Format.RGBA8
             (working_size (_cameraConfigs t) nW)
             (working_size (_cameraConfigs t) nH)).
Qed.

Lemma plan_dof name (half : bool) :
  dof_enabled (depthOfField s) = true ->
  In (name, half)
    [("DofRadiance", false); ("DofPrefilter", true); ("DofBokeh", true);
     ("DofFilter", true)] ->
  declared_as (planned_resources t w nW nH)
    (name +++ str_of_nat (renderWindowId w))
    (if half then half_size (working_size (_cameraConfigs t) nW)
     else working_size (_cameraConfigs t) nW)
    (if half then half_size (working_size (_cameraConfigs t) nH)
     else working_size (_cameraConfigs t) nH) = true.
Proof.
  intros H [[= <- <-]|[[= <- <-]|[[= <- <-]|[[= <- <-]|[]]]]].
  - in_plan (mkResource Res_RenderTarget
               ("DofRadiance" +++ str_of_nat (renderWindowId w)) Format.RGBA16F
               (working_size (_cameraConfigs t) nW)
               (working_size (_cameraConfigs t) nH)).
  - in_plan (mkResource Res_RenderTarget
               ("DofPrefilter" +++ str_of_nat (renderWindowId w)) Format.RGBA16F
               (half_size (working_size (_cameraConfigs t) nW))
               (half_size (working_size (_cameraConfigs t) nH))).
  - in_plan (mkResource Res_RenderTarget
               ("DofBokeh" +++ str_of_nat (renderWindowId w)) Format.RGBA16F
               (half_size (working_size (_cameraConfigs t) nW))
               (half_size (working_size (_cameraConfigs t) nH))).
  - in_plan (mkResource Res_RenderTarget
               ("DofFilter" +++ str_of_nat (renderWindowId w)) Format.RGBA16F
               (half_size (working_size (_cameraConfigs t) nW))
               (half_size (working_size (_cameraConfigs t) nH))).
Qed.

Lemma plan_bloom i :
  bloom_enabled (bloom s) = true -> (i <= iterations (bloom s))%nat ->
  declared_as (planned_resources t w nW nH) (bloomTexName (renderWindowId w) i)
    (bloom_size (working_size (_cameraConfigs t) nW) i)
    (bloom_size (working_size (_cameraConfigs t) nH) i) = true.
Proof.
  intros H Hi.
  apply (declared_as_in _
    (mkResource Res_RenderTarget (bloomTexName (renderWindowId w) i)
       Format.RGBA16F (bloom_size (working_size (_cameraConfigs t) nW) i)
       (bloom_size (working_size (_cameraConfigs t) nH) i))).
  unfold planned_resources. cbv zeta. rewrite Hpp, Hset, H.
  do 8 (apply in_or_app; right).
  apply in_map_iff. exists i. split; [reflexivity|]. apply in_seq. lia.
Qed.

End Post.

End PlanFacts.

Section DesktopFits.
Context {E : Engine}.
Variables (t : BuiltinForwardPipeline) (p : BasicPipeline).
Variables (camera : Camera) (scene : RenderScene) (w : RenderWindow).
Hypothesis Hsize : shadowMapSize (_configs t) = shadows_size (pipelineSceneData p).

Lemma fits_one rs q qs :
  pass_fits rs q = true -> forallb (pass_fits rs) qs = true ->
  forallb (pass_fits rs) (q :: qs) = true.
Proof. intros H1 H2. cbn [forallb]. now rewrite H1, H2. Qed.

Lemma csm_passes_fit nW nH :
  forallb (pass_fits (planned_resources t w nW nH))
    (csm_passes t p (renderWindowId w) camera (mainLight scene)) = true.
Proof.
  unfold csm_passes. destruct (enableShadowMap _); [|reflexivity].
  destruct (mainLight scene) as [l|]; [|reflexivity].
  apply fits_one; [|reflexivity].
  unfold pass_fits, read_textures, csm_pass. cbv zeta.
  cbn -[String.append planned_resources]. rewrite <- Hsize.
  now rewrite plan_shadow, plan_shadow_depth.
Qed.

Lemma desktop_radiance_fits t' nW nH width height name :
  declared_as (planned_resources t w nW nH) name width height = true ->
  declared_as (planned_resources t w nW nH) (depthStencilName w) width height
  = true ->
  forallb (pass_fits (planned_resources t w nW nH))
    (radiance_passes t' (shadows_size (pipelineSceneData p)) camera width height
       (renderWindowId w) name (depthStencilName w) (mainLight scene)) = true.
Proof.
  intros H1 H2. apply radiance_passes_fit; auto; rewrite <- Hsize.
  - apply plan_shadow.
  - apply plan_shadow_depth.
Qed.

Lemma tonemap_fits nW nH width height radianceName colorName :
  declared (planned_resources t w nW nH) radianceName = true ->
  declared_as (planned_resources t w nW nH) colorName width height = true ->
  pass_fits (planned_resources t w nW nH)
    (tonemap_pass t width height radianceName colorName) = true.
Proof.
  intros H1 H2. unfold pass_fits, read_textures.
  cbn -[String.append planned_resources]. now rewrite H1, H2.
Qed.

Lemma desktop_frame_fits :
  let nW := native_size (win_width w) in
  let nH := native_size (win_height w) in
  forallb (pass_fits (planned_resources t w nW nH))
    (csm_passes t p (renderWindowId w) camera (mainLight scene)
     ++ desktop_frame t p camera scene w) = true.
Proof.
  cbv zeta. rewrite forallb_app, csm_passes_fit. cbn [andb].
  set (nW := native_size (win_width w)). set (nH := native_size (win_height w)).
  pose proof (plan_window t w nW nH) as Fwin.
  pose proof (plan_depth t w nW nH) as Fdepth.
  assert (Ttone : forall r,
    useFloatOutput (_configs t) || enableShadingScale (_cameraConfigs t) = true ->
    forallb (pass_fits (planned_resources t w nW nH)) r = true ->
    forallb (pass_fits (planned_resources t w nW nH))
      (r ++ [with_ui (_cameraConfigs t) camera
               (tonemap_pass t nW nH
                  ("Radiance" +++ str_of_nat (renderWindowId w)) (colorName w))])
    = true).
  { intros r Hr Hfit. rewrite forallb_app, Hfit. cbn [forallb andb].
    rewrite pass_fits_with_ui, tonemap_fits; auto.
    eapply declared_as_declared, plan_radiance, Hr. }
  unfold desktop_frame. cbv zeta. fold nW nH.
  destruct (useFloatOutput (_configs t)) eqn:Hf;
    [destruct (enablePostProcess (_cameraConfigs t)) eqn:Hpp;
       [destruct (pipelineSettings (_cameraConfigs t)) as [s|] eqn:Hset|]
    |destruct (enableShadingScale (_cameraConfigs t)) eqn:Hs].
  - (* float output with post-process settings *)
    assert (Frad : declared_as (planned_resources t w nW nH)
                     ("Radiance" +++ str_of_nat (renderWindowId w))
                     (working_size (_cameraConfigs t) nW)
                     (working_size (_cameraConfigs t) nH) = true)
      by (apply plan_radiance; now rewrite Hf).
    pose proof (declared_as_declared _ _ _ _ Frad) as Frad'.
    rewrite !forallb_app, !andb_true_iff. repeat split.
    + destruct (supportDepthSample (_configs t) && dof_enabled (depthOfField s))
        eqn:Hd.
      * apply andb_true_iff in Hd as [_ Hd].
        apply desktop_radiance_fits; auto.
        apply (plan_dof t w nW nH s Hpp Hset "DofRadiance" false Hd).
        now left.
      * apply desktop_radiance_fits; auto.
    + destruct (supportDepthSample (_configs t) && dof_enabled (depthOfField s))
        eqn:Hd; [|reflexivity].
      apply andb_true_iff in Hd as [_ Hd].
      pose proof (plan_dof t w nW nH s Hpp Hset "DofRadiance" false Hd
                    ltac:(cbn; auto)) as D1.
      pose proof (plan_dof t w nW nH s Hpp Hset "DofPrefilter" true Hd
                    ltac:(cbn; auto)) as D2.
      pose proof (plan_dof t w nW nH s Hpp Hset "DofBokeh" true Hd
                    ltac:(cbn; auto 6)) as D3.
      pose proof (plan_dof t w nW nH s Hpp Hset "DofFilter" true Hd
                    ltac:(cbn; auto 6)) as D4.
      assert (L : declared_as (planned_resources t w nW nH)
                    ("LdrColor" +++ str_of_nat (renderWindowId w))
                    (working_size (_cameraConfigs t) nW)
                    (working_size (_cameraConfigs t) nH) = true)
        by (apply (plan_ldr t w nW nH s Hpp Hset); rewrite Hd; apply orb_true_r).
      cbv beta iota in D1, D2, D3, D4.
      pose proof (declared_as_declared _ _ _ _ D1) as D1'.
      pose proof (declared_as_declared _ _ _ _ D2) as D2'.
      pose proof (declared_as_declared _ _ _ _ D3) as D3'.
      pose proof (declared_as_declared _ _ _ _ D4) as D4'.
      pose proof (declared_as_declared _ _ _ _ L) as L'.
      pose proof (declared_as_declared _ _ _ _ Fdepth) as Fdepth'.
      unfold dof_passes, pass_fits, read_textures. cbv zeta.
      cbn -[String.append planned_resources half_size working_size].
      now rewrite ?D1, ?D2, ?D3, ?D4, ?L, ?D1', ?D2', ?D3', ?D4', ?L', ?Fdepth', ?Frad.
    + destruct (bloom_enabled (bloom s)) eqn:Hb; [|reflexivity].
      assert (B : forall i, (i <= iterations (bloom s))%nat ->
                declared_as (planned_resources t w nW nH)
                  (bloomTexName (renderWindowId w) i)
                  (bloom_size (working_size (_cameraConfigs t) nW) i)
                  (bloom_size (working_size (_cameraConfigs t) nH) i) = true)
        by (intros i Hi; apply (plan_bloom t w nW nH s Hpp Hset i Hb Hi)).
      assert (B' : forall i, (i <= iterations (bloom s))%nat ->
                declared (planned_resources t w nW nH)
                  (bloomTexName (renderWindowId w) i) = true)
        by (intros i Hi; eapply declared_as_declared, B, Hi).
      unfold bloom_passes. rewrite !forallb_app, !andb_true_iff.
      repeat split.
      * apply fits_one; [|reflexivity]. unfold pass_fits, read_textures.
        cbn -[String.append planned_resources bloomTexName bloom_size].
        rewrite (B 0%nat) by lia. now rewrite Frad'.
      * apply forallb_forall. intros q Hq. apply in_map_iff in Hq.
        destruct Hq as (i & <- & Hi). apply in_seq in Hi.
        unfold pass_fits, read_textures.
        cbn -[String.append planned_resources bloomTexName bloom_size].
        rewrite (B i), (B' (i - 1)%nat) by lia. reflexivity.
      * apply forallb_forall. intros q Hq. apply in_map_iff in Hq.
        destruct Hq as (i & <- & Hi). apply in_rev, in_seq in Hi.
        unfold pass_fits, read_textures.
        cbn -[String.append planned_resources bloomTexName bloom_size].
        rewrite (B i), (B' (i + 1)%nat) by lia. reflexivity.
      * apply fits_one; [|reflexivity]. unfold pass_fits, read_textures.
        cbn -[String.append planned_resources bloomTexName bloom_size].
        rewrite (B' 0%nat) by lia. now rewrite Frad.
    + unfold present_passes. cbv zeta.
      destruct (fxaa_enabled (fxaa s)) eqn:Hx;
        [destruct (enableShadingScale (_cameraConfigs t)) eqn:Hs|].
      * assert (L : declared_as (planned_resources t w nW nH)
                      ("LdrColor" +++ str_of_nat (renderWindowId w))
                      (working_size (_cameraConfigs t) nW)
                      (working_size (_cameraConfigs t) nH) = true)
          by (apply (plan_ldr t w nW nH s Hpp Hset); now rewrite Hx).
        assert (A : declared_as (planned_resources t w nW nH)
                      ("AaColor" +++ str_of_nat (renderWindowId w))
                      (working_size (_cameraConfigs t) nW)
                      (working_size (_cameraConfigs t) nH) = true)
          by (apply (plan_aa t w nW nH s Hpp Hset); now rewrite Hx, Hs).
        pose proof (declared_as_declared _ _ _ _ L) as L'.
        pose proof (declared_as_declared _ _ _ _ A) as A'.
        apply fits_one; [now apply tonemap_fits|].
        apply fits_one; [|apply fits_one; [|reflexivity]].
        -- unfold pass_fits, read_textures.
           cbn -[String.append planned_resources]. now rewrite A, L'.
        -- rewrite pass_fits_with_ui. unfold pass_fits, read_textures.
           cbn -[String.append planned_resources]. now rewrite Fwin, A'.
      * assert (L : declared_as (planned_resources t w nW nH)
                      ("LdrColor" +++ str_of_nat (renderWindowId w))
                      (working_size (_cameraConfigs t) nW)
                      (working_size (_cameraConfigs t) nH) = true)
          by (apply (plan_ldr t w nW nH s Hpp Hset); now rewrite Hx).
        pose proof (declared_as_declared _ _ _ _ L) as L'.
        apply fits_one; [now apply tonemap_fits|].
        apply fits_one; [|reflexivity].
        rewrite pass_fits_with_ui. unfold pass_fits, read_textures.
        cbn -[String.append planned_resources]. now rewrite Fwin, L'.
      * apply fits_one; [|reflexivity].
        rewrite pass_fits_with_ui. now apply tonemap_fits.
  - apply Ttone; [reflexivity|]. apply desktop_radiance_fits; auto.
    apply plan_radiance. now rewrite Hf.
  - apply Ttone; [reflexivity|]. apply desktop_radiance_fits; auto.
    apply plan_radiance. now rewrite Hf.
  - apply Ttone; [reflexivity|]. apply desktop_radiance_fits; auto.
    apply plan_radiance. now rewrite Hf, Hs.
  - rewrite forallb_on_last by (intros x; apply pass_fits_with_ui).
    unfold working_size in Fdepth. rewrite Hs in Fdepth.
    apply desktop_radiance_fits; auto.
Qed.

End DesktopFits.

(* ================================================================== *)
(** ** [windowResize], then [setup] *)

Section PlanThenSetup.
Context {E : Engine}.

Lemma setupPipelineConfigs_again host p rs c :
  setupPipelineConfigs host (set_resources p rs) (setupPipelineConfigs host p c)
  = setupPipelineConfigs host p c.
Proof. reflexivity. Qed.

Lemma planned_resources_ext t t' w nW nH :
  _configs t = _configs t' -> _cameraConfigs t = _cameraConfigs t' ->
  planned_resources t w nW nH = planned_resources t' w nW nH.
Proof. intros H1 H2. unfold planned_resources. now rewrite H1, H2. Qed.

Lemma materials_attempt_configs host t p :
  _configs (materials_attempt host t p)
  = setupPipelineConfigs host p (_configs t)
  /\ _cameraConfigs (materials_attempt host t p) = _cameraConfigs t.
Proof. split; reflexivity. Qed.

(** [setup] for one camera that has a scene and a window, on a builder
    whose snapshots are those of the host: either an effect asset is
    missing and nothing happens to the render graph, or the builder of the
    platform runs with the same two snapshots. *)
Lemma setup_one_camera host camera sc w cfg cc t p :
  scene camera = Some sc -> window camera = Some w ->
  _configs t = cfg -> _cameraConfigs t = cc ->
  setupPipelineConfigs host p cfg = cfg ->
  setupCameraConfigs host camera cfg cc = Some cc ->
  (exists t2, setup host [camera] (mkState t p) = Some (tt, mkState t2 p))
  \/ exists t3,
       _configs t3 = cfg /\ _cameraConfigs t3 = cc
       /\ setup host [camera] (mkState t p)
          = bind (if isMobile cfg then _buildMobileForwardPipeline camera sc
                  else _buildForwardPipeline camera sc)
              (fun _ => ret tt) (mkState t3 p).
Proof.
  intros Hs Hw Hcfg Hcc Hidem Hcam. unfold setup.
  assert (K : forall t2, _configs t2 = cfg -> _cameraConfigs t2 = cc ->
    for_of [camera] (setup_camera host) (mkState t2 p)
    = bind (if isMobile cfg then _buildMobileForwardPipeline camera sc
            else _buildForwardPipeline camera sc)
        (fun _ => ret tt) (mkState (set__cameraConfigs t2 cc) p)).
  { intros t2 H1 H2. cbn [for_of]. unfold bind at 1.
    rewrite (setup_camera_step host camera t2 p sc w cc Hs Hw)
      by (now rewrite H1, H2).
    rewrite H1. reflexivity. }
  destruct (_initialized t) eqn:Hi.
  - right. exists (set__cameraConfigs t cc). repeat split; [exact Hcfg|].
    rewrite (@bind_run _ _ _ _ _ _ _ (run_initMaterials_ready host t p Hi)).
    cbn [fst snd Nat.eqb negb]. now apply K.
  - rewrite (@bind_run _ _ _ _ _ _ _ (run_initMaterials_attempt host t p Hi)).
    cbn [fst snd].
    destruct (materials_attempt_configs host t p) as [M1 M2].
    rewrite Hcfg, Hidem in M1. rewrite Hcc in M2.
    destruct (materials_ready (materials_attempt host t p)).
    + right. cbn [Nat.eqb negb].
      exists (set__cameraConfigs
                (set__initialized (materials_attempt host t p) true) cc).
      repeat split; [exact M1|]. apply K; assumption.
    + left. cbn [Nat.eqb negb]. eexists. reflexivity.
Qed.

Lemma setupCameraConfigs_fixed host camera cfg cc0 cc cc1 :
  setupCameraConfigs host camera cfg cc0 = Some cc ->
  setupCameraConfigs host camera cfg cc1 = Some cc.
Proof. exact (fun H => H). Qed.

Lemma frame_fits_app rs0 rs qs :
  forallb (pass_fits rs) qs = true -> forallb (pass_fits (rs0 ++ rs)) qs = true.
Proof.
  rewrite !forallb_forall. intros H q Hq. apply pass_fits_app, H, Hq.
Qed.

(** X14: on the desktop the frame fits the plan.  [windowResize] for a
    window at its native size and then [setup] for a camera on that window
    both return, and every pass that [setup] adds renders only to targets
    that [windowResize] declared with the size of the pass, colour and
    depth-stencil alike, and samples only textures that it declared. *)
Theorem desktop_frame_fits_plan host camera sc w t p :
  scene camera = Some sc -> window camera = Some w ->
  sys_isMobile host = false ->
  exists st1 st2 added,
    windowResize host w camera (native_size (win_width w))
      (native_size (win_height w)) (mkState t p) = Some (tt, st1)
    /\ setup host [camera] st1 = Some (tt, st2)
    /\ passes (ppl_ st2) = passes p ++ added
    /\ resources (ppl_ st2) = resources (ppl_ st1)
    /\ forallb (pass_fits (resources (ppl_ st2))) added = true.
Proof.
  intros Hs Hw Hmob.
  set (nW := native_size (win_width w)). set (nH := native_size (win_height w)).
  set (cfg := setupPipelineConfigs host p (_configs t)).
  destruct (setupCameraConfigs_returns host camera cfg (_cameraConfigs t) w Hw)
    as [cc Hcc].
  pose proof (run_windowResize host w camera nW nH t p cc Hcc) as R.
  cbv zeta in R. fold cfg in R.
  set (t1 := set__cameraConfigs (set__configs t cfg) cc) in *.
  set (p1 := set_resources p (resources p ++ planned_resources t1 w nW nH)) in *.
  destruct (setup_one_camera host camera sc w cfg cc t1 p1 Hs Hw
              eq_refl eq_refl (setupPipelineConfigs_again host p _ (_configs t))
              (setupCameraConfigs_fixed host camera cfg _ cc cc Hcc))
    as [[t2 H]|(t3 & C1 & C2 & H)].
  - exists (mkState t1 p1), (mkState t2 p1), [].
    rewrite app_nil_r. repeat split; assumption.
  - assert (Hd : isMobile cfg = false) by exact Hmob.
    rewrite Hd in H.
    assert (Hm : enableShadowMap (_cameraConfigs t3) = true -> mainLight sc <> None).
    { rewrite C2, (setupCameraConfigs_shadow _ _ _ _ _ _ Hcc Hs).
      destruct (mainLight sc); [discriminate 2|discriminate 1]. }
    destruct (run_desktop_frame camera sc t3 p1 w Hw Hm) as [t' F].
    unfold bind in H. rewrite F in H.
    eexists (mkState t1 p1), _, _. split; [exact R|]. split; [exact H|].
    split; [reflexivity|]. split; [reflexivity|].
    cbn [ppl_ with_passes]. change (resources (set_passes p1 _))
      with (resources p ++ planned_resources t1 w nW nH).
    apply frame_fits_app.
    rewrite (planned_resources_ext t1 t3 w nW nH) by (now rewrite ?C1, ?C2).
    apply desktop_frame_fits. now rewrite C1.
Qed.

End PlanThenSetup.

(* ================================================================== *)
(** ** The mobile frame against the plan *)

Section MobileFits.
Context {E : Engine}.
Variables (t : BuiltinForwardPipeline) (p : BasicPipeline).
Variables (camera : Camera) (scene : RenderScene) (w : RenderWindow).
Variables (nW nH : Z).
Hypothesis Hsize : shadowMapSize (_configs t) = shadows_size (pipelineSceneData p).
Hypothesis Hmobile : isMobile (_configs t) = true.

Lemma plan_spot i :
  (i < mobileMaxSpotLightShadowMaps (_configs t))%nat ->
  declared_as (planned_resources t w nW nH) ("SpotShadowMap" +++ str_of_nat i)
    (v2x (shadowMapSize (_configs t))) (v2y (shadowMapSize (_configs t))) = true
  /\ declared_as (planned_resources t w nW nH)
       ("SpotShadowDepth" +++ str_of_nat i)
       (v2x (shadowMapSize (_configs t))) (v2y (shadowMapSize (_configs t)))
     = true.
Proof.
  intros Hi.
  assert (S : forall r,
    In r [mkResource Res_RenderTarget ("SpotShadowMap" +++ str_of_nat i)
            (shadowMapFormat (_configs t))
            (v2x (shadowMapSize (_configs t))) (v2y (shadowMapSize (_configs t)));
          mkResource Res_DepthStencil ("SpotShadowDepth" +++ str_of_nat i)
            Format.DEPTH_STENCIL
            (v2x (shadowMapSize (_configs t))) (v2y (shadowMapSize (_configs t)))] ->
    In r (planned_resources t w nW nH)).
  { intros r Hr. unfold planned_resources. cbv zeta. rewrite Hmobile.
    do 4 (apply in_or_app; right). apply in_or_app. left.
    unfold spot_shadow_resources. apply in_flat_map. exists i.
    split; [apply in_seq; lia|exact Hr]. }
  split.
  - apply (declared_as_in _
      (mkResource Res_RenderTarget ("SpotShadowMap" +++ str_of_nat i)
         (shadowMapFormat (_configs t))
         (v2x (shadowMapSize (_configs t))) (v2y (shadowMapSize (_configs t))))),
      S. now left.
  - apply (declared_as_in _
      (mkResource Res_DepthStencil ("SpotShadowDepth" +++ str_of_nat i)
         Format.DEPTH_STENCIL
         (v2x (shadowMapSize (_configs t))) (v2y (shadowMapSize (_configs t))))),
      S. right. now left.
Qed.

Lemma mobile_shadow_passes_fit ls : forall i,
  (i + List.length ls <= mobileMaxSpotLightShadowMaps (_configs t))%nat ->
  forallb (pass_fits (planned_resources t w nW nH))
    (mobile_shadow_passes camera (shadows_size (pipelineSceneData p)) i ls)
  = true.
Proof.
  induction ls as [|l ls IH]; intros i Hi; [reflexivity|].
  cbn [mobile_shadow_passes List.length] in *.
  apply fits_one; [|apply IH; lia].
  destruct (plan_spot i) as [A B]; [lia|].
  unfold pass_fits, read_textures.
  cbn -[String.append planned_resources]. rewrite <- Hsize. now rewrite A, B.
Qed.

Lemma mobile_lit_fits ls : forall i x,
  (i + List.length ls <= mobileMaxSpotLightShadowMaps (_configs t))%nat ->
  pass_fits (planned_resources t w nW nH) x = true ->
  pass_fits (planned_resources t w nW nH) (mobile_lit camera i ls x) = true.
Proof.
  induction ls as [|l ls IH]; intros i x Hi Hx; [exact Hx|].
  cbn [mobile_lit List.length] in *. apply IH; [lia|].
  rewrite pass_fits_add_queues.
  destruct (plan_spot i) as [A _]; [lia|].
  apply declared_as_declared in A.
  unfold pass_fits, read_textures in *. destruct x.
  cbn -[String.append planned_resources] in *.
  rewrite map_app, forallb_app. cbn -[String.append planned_resources].
  rewrite A. now rewrite !andb_true_r.
Qed.

Lemma forward_pass_fits cc width height name mainLight :
  declared_as (planned_resources t w nW nH) name width height = true ->
  declared_as (planned_resources t w nW nH) (depthStencilName w) width height
  = true ->
  pass_fits (planned_resources t w nW nH)
    (forward_pass cc camera width height (renderWindowId w) name
       (depthStencilName w) mainLight) = true.
Proof.
  intros H1 H2.
  pose proof (declared_as_declared _ _ _ _ (plan_shadow t w nW nH)) as Hm.
  unfold pass_fits, read_textures, forward_pass.
  destruct (forwardNeedClearColor camera), (negb _), (enableShadowMap _);
    cbn -[String.append planned_resources]; rewrite ?H1, ?H2, ?Hm; reflexivity.
Qed.

Lemma mobile_forward_pass_fits t1 width height name mainLight :
  _configs t1 = _configs t ->
  (1 <= mobileMaxSpotLightShadowMaps (_configs t))%nat ->
  declared_as (planned_resources t w nW nH) name width height = true ->
  declared_as (planned_resources t w nW nH) (depthStencilName w) width height
  = true ->
  pass_fits (planned_resources t w nW nH)
    (mobile_forward_pass t1 camera width height (renderWindowId w) name
       (depthStencilName w) mainLight) = true.
Proof.
  intros Hc Hk H1 H2. unfold mobile_forward_pass.
  rewrite pass_fits_add_queues. apply mobile_lit_fits.
  - rewrite Hc, length_served. cbn [Nat.add]. lia.
  - rewrite pass_fits_add_queues. now apply forward_pass_fits.
Qed.

End MobileFits.

Section MobilePlanThenSetup.
Context {E : Engine}.

(** X15: on a mobile host the frame fits the plan as well, as long as the
    maximum number of spot-light shadow maps is at least one.
    [windowResize] for a window at its native size and then [setup] for a
    camera on that window both return, and every pass that [setup] adds
    renders only to targets that [windowResize] declared with the size of
    the pass and samples only textures that it declared: the shadow map of
    the [i]-th served spot light is one of the declared ones. *)
Theorem mobile_frame_fits_plan host camera sc w t p :
  scene camera = Some sc -> window camera = Some w ->
  sys_isMobile host = true ->
  (1 <= mobileMaxSpotLightShadowMaps (_configs t))%nat ->
  exists st1 st2 added,
    windowResize host w camera (native_size (win_width w))
      (native_size (win_height w)) (mkState t p) = Some (tt, st1)
    /\ setup host [camera] st1 = Some (tt, st2)
    /\ passes (ppl_ st2) = passes p ++ added
    /\ resources (ppl_ st2) = resources (ppl_ st1)
    /\ forallb (pass_fits (resources (ppl_ st2))) added = true.
Proof.
  intros Hs Hw Hmob Hk.
  set (nW := native_size (win_width w)). set (nH := native_size (win_height w)).
  set (cfg := setupPipelineConfigs host p (_configs t)).
  destruct (setupCameraConfigs_returns host camera cfg (_cameraConfigs t) w Hw)
    as [cc Hcc].
  pose proof (run_windowResize host w camera nW nH t p cc Hcc) as R.
  cbv zeta in R. fold cfg in R.
  set (t1 := set__cameraConfigs (set__configs t cfg) cc) in *.
  set (p1 := set_resources p (resources p ++ planned_resources t1 w nW nH)) in *.
  destruct (setup_one_camera host camera sc w cfg cc t1 p1 Hs Hw
              eq_refl eq_refl (setupPipelineConfigs_again host p _ (_configs t))
              (setupCameraConfigs_fixed host camera cfg _ cc cc Hcc))
    as [[t2 H]|(t3 & C1 & C2 & H)].
  - exists (mkState t1 p1), (mkState t2 p1), [].
    rewrite app_nil_r. repeat split; assumption.
  - assert (Hd : isMobile cfg = true) by exact Hmob.
    rewrite Hd in H.
    assert (Hm : enableShadowMap (_cameraConfigs t3) = true -> mainLight sc <> None).
    { rewrite C2, (setupCameraConfigs_shadow _ _ _ _ _ _ Hcc Hs).
      destruct (mainLight sc); [discriminate 2|discriminate 1]. }
    destruct (run_mobile_pipeline camera sc t3 p1 w Hw Hm) as [t' F].
    unfold bind in H. rewrite F in H.
    eexists (mkState t1 p1), _, _. split; [exact R|]. split; [exact H|].
    split; [reflexivity|]. split; [reflexivity|].
    cbn [ppl_ with_passes]. change (resources (set_passes p1 _))
      with (resources p ++ planned_resources t1 w nW nH).
    apply frame_fits_app.
    rewrite (planned_resources_ext t1 t3 w nW nH) by (now rewrite ?C1, ?C2).
    assert (Hsize : shadowMapSize (_configs t3)
                    = shadows_size (pipelineSceneData p1)) by now rewrite C1.
    assert (Hmobile : isMobile (_configs t3) = true) by now rewrite C1.
    assert (Hk3 : (1 <= mobileMaxSpotLightShadowMaps (_configs t3))%nat)
      by now rewrite C1.
    pose proof (plan_window t3 w nW nH) as Fwin.
    pose proof (plan_depth t3 w nW nH) as Fdepth.
    rewrite !forallb_app, !andb_true_iff. repeat split.
    + now apply csm_passes_fit.
    + apply mobile_shadow_passes_fit; auto.
      rewrite length_served. cbn [Nat.add]. lia.
    + fold nW nH.
      destruct (useFloatOutput (_configs t3) || enableShadingScale (_cameraConfigs t3))
        eqn:Ho.
      * pose proof (plan_radiance t3 w nW nH Ho) as Frad.
        apply fits_one; [|apply fits_one; [|reflexivity]].
        -- apply mobile_forward_pass_fits; auto.
        -- rewrite pass_fits_with_ui. apply tonemap_fits; auto.
           eapply declared_as_declared, Frad.
      * apply orb_false_iff in Ho as [_ Ho].
        unfold working_size in Fdepth. rewrite Ho in Fdepth.
        apply fits_one; [|reflexivity]. rewrite pass_fits_with_ui.
        apply mobile_forward_pass_fits; auto.
Qed.

End MobilePlanThenSetup.

(* ================================================================== *)
(** ** The CSM pass and the radiance passes *)

Section CsmPass.
Context {E : Engine}.

Lemma CSMLevel_value_le l : (1 <= CSMLevel_value l <= 4)%nat.
Proof. destruct l; cbn; lia. Qed.

Lemma csm_viewport_inside light w h level vp0 sign :
  2 <= w -> 2 <= h -> 0 <= level < 4 ->
  viewport_inside (getCsmMainLightViewport light w h level vp0 sign) w h.
Proof.
  intros Hw Hh Hl.
  destruct (shadowFixedArea light || CSMLevel_eqb (csmLevel light) LEVEL_1)
    eqn:B.
  - rewrite csm_whole_map by (assumption || lia).
    intros px py [I1 I2]. cbn in I1, I2. lia.
  - apply orb_false_iff in B as [F L].
    assert (L' : csmLevel light <> LEVEL_1)
      by (intros L'; rewrite L' in L; discriminate L).
    rewrite csm_grid_cell by assumption.
    assert (1 <= w / 2) by (apply Z.div_le_lower_bound; lia).
    assert (1 <= h / 2) by (apply Z.div_le_lower_bound; lia).
    assert (2 * (w / 2) <= w) by (apply Z.mul_div_le; lia).
    assert (2 * (h / 2) <= h) by (apply Z.mul_div_le; lia).
    assert (C : (level mod 2 = 0 \/ level mod 2 = 1)
                /\ (level / 2 = 0 \/ level / 2 = 1)).
    { apply four_levels in Hl.
      destruct Hl as [->|[->|[->| ->]]]; cbn; lia. }
    destruct C as [M D].
    intros px py [I1 I2]. cbn [vp_left vp_top vp_width vp_height] in I1, I2.
    set (a := w / 2) in *. set (b := h / 2) in *. clearbody a b.
    destruct (0 <? sign); nia.
Qed.

(** X16: the CSM pass.  On a shadow map of at least 2x2 the call returns
    and appends one pass, of the size of the map, on the shadow map of the
    window; it has one queue for each cascade, the light's number of
    cascades when the pipeline supports CSM and one otherwise, and the
    viewport of every queue lies inside the map.  Without CSM support the
    one queue of a light that asks for several cascades (fixed area off)
    still gets the quarter-map viewport of level 0. *)
Theorem csm_pass_viewports id light camera t p :
  let w := v2x (shadows_size (pipelineSceneData p)) in
  let h := v2y (shadows_size (pipelineSceneData p)) in
  2 <= w -> 2 <= h ->
  exists t' q,
    _addCascadedShadowMapPass id light camera (mkState t p)
    = Some (tt, with_passes t' p (passes p ++ [q]))
    /\ renders_to ("ShadowMap" +++ str_of_nat id) w h q
    /\ List.length (queues q)
       = (if csmSupported (pipelineSceneData p)
          then CSMLevel_value (csmLevel light) else 1%nat)
    /\ (forall rq, In rq (queues q) ->
          exists vp, queue_viewport rq = Some vp /\ viewport_inside vp w h)
    /\ (csmSupported (pipelineSceneData p) = false ->
        shadowFixedArea light = false -> csmLevel light <> LEVEL_1 ->
        exists vp, map queue_viewport (queues q) = [Some vp]
                   /\ vp_left vp = 0 /\ vp_width vp = w / 2
                   /\ vp_height vp = h / 2).
Proof.
  intros w h Hw Hh.
  exists (csm_this t p light), (csm_pass t p id light camera).
  split; [apply run_addCascadedShadowMapPass|].
  split; [repeat split|]. split; [|split].
  - unfold csm_pass. cbv zeta. cbn [queues].
    now rewrite length_map, length_seq.
  - unfold csm_pass. cbv zeta. cbn [queues]. intros rq Hq.
    apply in_map_iff in Hq. destruct Hq as (k & <- & Hk). apply in_seq in Hk.
    eexists. split; [reflexivity|].
    apply csm_viewport_inside; try assumption.
    pose proof (CSMLevel_value_le (csmLevel light)).
    unfold csm_levels in Hk. destruct (csmSupported _); lia.
  - intros Hc F L. unfold csm_pass, csm_levels. cbv zeta. rewrite Hc.
    cbn [queues seq map shadow_caster_queue queue_viewport].
    eexists. split; [reflexivity|].
    change (Z.of_nat 0) with 0.
    rewrite csm_grid_cell by (assumption || lia).
    repeat split.
Qed.

End CsmPass.

Section RadianceLoads.
Context {E : Engine}.

Lemma loads_targets_add_queues x qs :
  loads_targets (add_queues x qs) = loads_targets x.
Proof. destruct x; reflexivity. Qed.

Lemma is_spot_shadow_pass_add_queues x qs :
  is_spot_shadow_pass (add_queues x qs) = is_spot_shadow_pass x.
Proof. destruct x; reflexivity. Qed.

Lemma spot_chain_length camera size width height colorName depthStencilName
    id ls : forall start,
  List.length (fst (spot_chain camera size width height colorName
                      depthStencilName id ls start))
  = (List.length (fst start) + 2 * List.length ls)%nat.
Proof.
  unfold spot_chain. induction ls as [|l ls IH]; intros start;
    cbn [fold_left List.length]; [lia|].
  rewrite IH. cbn [fst]. rewrite !length_app. cbn [List.length]. lia.
Qed.

Lemma spot_chain_head camera size width height colorName depthStencilName
    id ls : forall pre x,
  exists rest,
    let c := spot_chain camera size width height colorName depthStencilName
               id ls (pre, x) in
    (fst c ++ [snd c] = pre ++ x :: rest
     /\ forall qs, exists rest',
          fst c ++ [add_queues (snd c) qs]
          = pre ++ (match ls with [] => add_queues x qs | _ => x end) :: rest'
          /\ List.length rest' = (2 * List.length ls)%nat
          /\ Forall (fun q => is_spot_shadow_pass q = true
                              \/ loads_targets q = true) rest').
Proof.
  unfold spot_chain. induction ls as [|l ls IH]; intros pre x.
  - exists []. cbn. split; [reflexivity|]. intros qs. exists [].
    repeat split. constructor.
  - cbn [fold_left fst snd].
    destruct (IH ((pre ++ [x]) ++ [spot_shadow_pass camera size id l])
                (spot_lit_pass camera width height colorName depthStencilName
                   id l)) as (rest & H1 & H2).
    cbv zeta in H1, H2.
    eexists. split.
    + rewrite H1, <- !app_assoc. cbn [app]. reflexivity.
    + intros qs. destruct (H2 qs) as (rest' & E1 & E2 & E3).
      eexists. split; [|split].
      * rewrite E1, <- !app_assoc. cbn [app]. reflexivity.
      * cbn [List.length]. rewrite E2. lia.
      * constructor; [left; reflexivity|].
        constructor; [|exact E3].
        right. destruct ls; [|reflexivity].
        now rewrite loads_targets_add_queues.
Qed.

(** X17: the radiance passes accumulate.  The call returns and appends the
    forward pass and, for each shadow-casting spot light, two more passes.
    Only the forward pass may clear the colour and the depth-stencil
    target, as the camera's clear flags ask; every later pass is either
    the shadow pass of a spot light or loads its colour and depth-stencil
    targets, so that the lights add up on what the forward pass drew. *)
Theorem radiance_passes_accumulate id camera width height mainLight colorName
    depthStencilName t p :
  exists r t' first rest,
    _addForwardRadiancePasses id camera width height mainLight colorName
      depthStencilName (mkState t p)
    = Some (r, with_passes t' p (passes p ++ first :: rest))
    /\ pass_name first = "ForwardPass"
    /\ map rt_loadOp (renderTargets first)
       = [if forwardNeedClearColor camera then LoadOp.CLEAR else LoadOp.LOAD]
    /\ map ds_loadOp (depthStencils first)
       = [if Z.land (clearFlag camera) ClearFlagBit_DEPTH_STENCIL =? 0
          then LoadOp.LOAD else LoadOp.CLEAR]
    /\ List.length rest
       = (2 * List.length (shadowEnabledSpotLights (forwardLighting t)))%nat
    /\ Forall (fun q => is_spot_shadow_pass q = true \/ loads_targets q = true)
         rest.
Proof.
  pose proof (run_radiance id camera width height mainLight colorName
                depthStencilName t p) as R.
  unfold radiance_passes, radiance_chain in R. cbv zeta in R. cbn [fst snd] in R.
  match type of R with context [spot_chain ?a ?b ?c ?d ?e ?f ?g ?ls (?pre, ?x)] =>
    destruct (spot_chain_head a b c d e f g ls pre x) as (rest0 & _ & H2);
    destruct (H2 [blend_queue camera (main_light_ref mainLight)])
      as (rest & E1 & E2 & E3)
  end.
  cbn [app] in E1. rewrite E1 in R.
  eexists _, _, _, rest. split; [exact R|].
  split; [|split; [|split; [|split]]]; try assumption.
  - destruct (shadowEnabledSpotLights _); reflexivity.
  - destruct (shadowEnabledSpotLights _); unfold forward_pass;
      destruct (forwardNeedClearColor camera); reflexivity.
  - destruct (shadowEnabledSpotLights _); unfold forward_pass;
      destruct (Z.land _ _ =? 0); reflexivity.
Qed.

End RadianceLoads.

Section PlannerRuns.
Context {E : Engine}.

(** X18: what [windowResize] does.  The bloom iteration count is a
    natural number here, as in [Bloom]; a fractional or negative count, for
    which the loop over the bloom targets never ends, is not an input of
    this theorem.  The call refreshes the two snapshots and throws when the
    camera snapshot does (a game camera without a window).  Otherwise it
    returns, adds no pass, keeps every resource that was declared and
    declares after them, in this order: the window at the native size; the
    radiance target at the working size when the output is float (RGBA16F)
    or scaled (RGBA8); the depth-stencil target at the working size; the
    shadow map and its depth; on a mobile host the spot-light shadow maps;
    and with post-process the LDR, AA, depth-of-field and bloom targets
    that the settings ask for.  The working size is the integer part of the
    shading-scale product as a double, at least 1. *)
Theorem windowResize_declares_plan host window camera nativeWidth nativeHeight
    t p :
  let cfg := setupPipelineConfigs host p (_configs t) in
  match setupCameraConfigs host camera cfg (_cameraConfigs t) with
  | Some cc =>
      let t1 := set__cameraConfigs (set__configs t cfg) cc in
      windowResize host window camera nativeWidth nativeHeight (mkState t p)
      = Some (tt, mkState t1
           (set_resources p
              (resources p
               ++ planned_resources t1 window nativeWidth nativeHeight)))
  | None =>
      windowResize host window camera nativeWidth nativeHeight (mkState t p)
      = None
  end.
Proof.
  cbv zeta.
  destruct (setupCameraConfigs host camera _ (_cameraConfigs t)) as [cc|] eqn:H.
  - apply (run_windowResize host window camera nativeWidth nativeHeight t p cc H).
  - unfold windowResize.
    erewrite bind_step by reflexivity.
    erewrite bind_step by reflexivity.
    erewrite bind_step by reflexivity.
    unfold bind at 1. cbn [this_ ppl_ _configs _cameraConfigs set__configs].
    rewrite H. reflexivity.
Qed.

End PlannerRuns.

(* ================================================================== *)
(** ** No pass samples a texture before a pass wrote it *)

Section Flow.
Context {E : Engine}.

Lemma available_iff n avail :
  existsb (String.eqb n) avail = true <-> In n avail.
Proof.
  rewrite existsb_exists. split.
  - intros (x & Hx & H). apply String.eqb_eq in H. now subst.
  - intros H. exists n. split; [exact H|apply String.eqb_refl].
Qed.

Lemma rw_cons avail q ps :
  (forall n, In n (read_textures q) -> In n avail) ->
  reads_written (avail ++ pass_outputs q) ps = true ->
  reads_written avail (q :: ps) = true.
Proof.
  intros H1 H2. cbn [reads_written]. rewrite H2, andb_true_r.
  apply forallb_forall. intros n Hn. apply available_iff, H1, Hn.
Qed.

Lemma rw_incl ps : forall avail avail',
  incl avail avail' ->
  reads_written avail ps = true -> reads_written avail' ps = true.
Proof.
  induction ps as [|q ps IH]; intros avail avail' Hi H; [reflexivity|].
  cbn [reads_written] in *. apply andb_true_iff in H as [H1 H2].
  apply andb_true_iff. split.
  - rewrite forallb_forall in *. intros n Hn.
    apply available_iff, Hi, available_iff, H1, Hn.
  - apply (IH (avail ++ pass_outputs q)); [|exact H2].
    apply incl_app; [apply incl_appl, Hi|apply incl_appr, incl_refl].
Qed.

Lemma rw_app l1 : forall avail l2,
  reads_written avail (l1 ++ l2)
  = reads_written avail l1
    && reads_written (avail ++ flat_map pass_outputs l1) l2.
Proof.
  induction l1 as [|q l1 IH]; intros avail l2.
  - cbn. now rewrite app_nil_r.
  - cbn [app reads_written flat_map]. rewrite IH, andb_assoc.
    now rewrite <- app_assoc.
Qed.

(** Passes that sample only what is available at the start. *)
Lemma rw_all ps : forall avail,
  (forall q n, In q ps -> In n (read_textures q) -> In n avail) ->
  reads_written avail ps = true.
Proof.
  induction ps as [|q ps IH]; intros avail H; [reflexivity|].
  apply rw_cons.
  - intros n Hn. apply (H q n); [now left|exact Hn].
  - apply IH. intros q' n Hq Hn. apply in_or_app. left.
    apply (H q' n); [now right|exact Hn].
Qed.

(** Queues do not matter. *)
Lemma rw_add_queues_last l x qs : forall avail,
  reads_written avail (l ++ [add_queues x qs])
  = reads_written avail (l ++ [x]).
Proof.
  induction l as [|q l IH]; intros avail.
  - destruct x; reflexivity.
  - cbn [app reads_written]. now rewrite IH.
Qed.

Lemma outputs_add_queues_last l x qs :
  flat_map pass_outputs (l ++ [add_queues x qs])
  = flat_map pass_outputs (l ++ [x]).
Proof. rewrite !flat_map_app. destruct x; reflexivity. Qed.

Lemma rw_with_ui_last l cc camera x avail :
  reads_written avail (l ++ [with_ui cc camera x])
  = reads_written avail (l ++ [x]).
Proof.
  unfold with_ui. rewrite rw_add_queues_last.
  destruct (enableProfiler cc); [|reflexivity].
  revert avail. induction l as [|q l IH]; intros avail.
  - destruct x; reflexivity.
  - cbn [app reads_written]. now rewrite IH.
Qed.

Lemma rw_with_ui_one cc camera x avail :
  reads_written avail [with_ui cc camera x] = reads_written avail [x].
Proof. exact (rw_with_ui_last [] cc camera x avail). Qed.

Lemma rw_spot_light_passes camera size width height colorName depthStencilName
    id ls : forall avail,
  reads_written avail
    (spot_light_passes camera size width height colorName depthStencilName id ls)
  = true.
Proof.
  unfold spot_light_passes.
  induction ls as [|l ls IH]; intros avail; [reflexivity|].
  cbn [flat_map app]. apply rw_cons; [intros n []|].
  apply rw_cons; [|apply IH].
  intros n [<-|[]]. apply in_or_app. right. now left.
Qed.

(** The radiance passes: the forward pass samples the main-light shadow
    map, when main-light shadows are on; a lit pass samples what the
    shadow pass before it wrote. *)
Lemma rw_radiance avail t size camera width height id colorName
    depthStencilName mainLight :
  (enableShadowMap (_cameraConfigs t) = true ->
   In ("ShadowMap" +++ str_of_nat id) avail) ->
  let r := radiance_passes t size camera width height id colorName
             depthStencilName mainLight in
  reads_written avail r = true
  /\ In colorName (flat_map pass_outputs r)
  /\ In depthStencilName (flat_map pass_outputs r).
Proof.
  intros Hs r. unfold r, radiance_passes, radiance_chain. cbv zeta.
  cbn [fst snd].
  rewrite rw_add_queues_last, outputs_add_queues_last.
  rewrite spot_chain_passes. cbn [app].
  split; [|split].
  - apply rw_cons; [|apply rw_spot_light_passes].
    unfold read_textures, add_queues, forward_pass. cbn [textures set_queues].
    destruct (enableShadowMap (_cameraConfigs t));
      [intros n [<-|[]]; now apply Hs|intros n []].
  - cbn [flat_map]. apply in_or_app. left. unfold pass_outputs.
    apply in_or_app. left. unfold forward_pass.
    destruct (forwardNeedClearColor camera); now left.
  - cbn [flat_map]. apply in_or_app. left. unfold pass_outputs.
    apply in_or_app. right. unfold forward_pass. cbn.
    destruct (negb _); now left.
Qed.

Lemma rw_bloom_down t id width height m : forall a avail,
  In (bloomTexName id a) avail ->
  reads_written avail
    (map (bloom_downsample_pass t id width height) (seq (S a) m)) = true.
Proof.
  induction m as [|m IH]; intros a avail Ha; [reflexivity|].
  cbn [seq map]. apply rw_cons.
  - intros n [<-|[]]. cbn [Nat.sub]. now rewrite Nat.sub_0_r.
  - apply IH. apply in_or_app. right. now left.
Qed.

Lemma bloom_down_outputs t id width height a m i :
  (a <= i < a + m)%nat ->
  In (bloomTexName id i)
    (flat_map pass_outputs
       (map (bloom_downsample_pass t id width height) (seq a m))).
Proof.
  intros Hi. apply in_flat_map.
  exists (bloom_downsample_pass t id width height i). split.
  - apply in_map, in_seq. lia.
  - now left.
Qed.

Lemma rw_bloom avail t s id width height radianceName n :
  In radianceName avail ->
  let b := bloom_passes t s id width height radianceName n in
  reads_written avail b = true /\ In radianceName (flat_map pass_outputs b).
Proof.
  intros Hr b. unfold b, bloom_passes. split.
  - cbn [app]. apply rw_cons; [intros x [<-|[]]; exact Hr|].
    rewrite rw_app. apply andb_true_iff. split.
    + apply rw_bloom_down. apply in_or_app. right. now left.
    + apply rw_all. intros q x Hq Hx.
      assert (A : forall i, (i <= n)%nat ->
                In (bloomTexName id i)
                  ((avail ++ pass_outputs
                      (bloom_prefilter_pass t s id width height radianceName))
                   ++ flat_map pass_outputs
                        (map (bloom_downsample_pass t id width height)
                           (seq 1 n)))).
      { intros i Hi. destruct i as [|i].
        - apply in_or_app. left. apply in_or_app. right. now left.
        - apply in_or_app. right. apply bloom_down_outputs. lia. }
      apply in_app_iff in Hq as [Hq|[<-|[]]].
      * apply in_map_iff in Hq. destruct Hq as (i & <- & Hi).
        apply in_rev, in_seq in Hi. destruct Hx as [<-|[]]. apply A. lia.
      * destruct Hx as [<-|[]]. apply A. lia.
  - rewrite !flat_map_app. do 3 (apply in_or_app; right). now left.
Qed.

Lemma rw_dof avail t id camera width height dofRadianceName depthStencil
    radianceName :
  In dofRadianceName avail -> In depthStencil avail ->
  let d := dof_passes t id camera width height dofRadianceName depthStencil
             radianceName in
  reads_written avail d = true /\ In radianceName (flat_map pass_outputs d).
Proof.
  intros H1 H2 d. unfold d, dof_passes. cbv zeta. split.
  - repeat (apply rw_cons;
            [intros x Hx; cbn in Hx;
             repeat (destruct Hx as [<-|Hx]; [rewrite ?in_app_iff; cbn; tauto|]);
             destruct Hx|]).
    reflexivity.
  - cbn. tauto.
Qed.

Lemma rw_csm t p id camera mainLight avail :
  reads_written avail (csm_passes t p id camera mainLight) = true.
Proof.
  unfold csm_passes. destruct (enableShadowMap _); [|reflexivity].
  destruct mainLight; reflexivity.
Qed.

Section DesktopFlow.
Variables (t : BuiltinForwardPipeline) (p : BasicPipeline).
Variables (camera : Camera) (scene : RenderScene) (w : RenderWindow).
Hypothesis Hm : enableShadowMap (_cameraConfigs t) = true -> mainLight scene <> None.

Lemma csm_outputs :
  enableShadowMap (_cameraConfigs t) = true ->
  In ("ShadowMap" +++ str_of_nat (renderWindowId w))
    (flat_map pass_outputs
       (csm_passes t p (renderWindowId w) camera (mainLight scene))).
Proof.
  intros H. unfold csm_passes. rewrite H.
  destruct (mainLight scene) as [l|]; [now left|].
  now destruct (Hm H).
Qed.

Lemma desktop_frame_flow :
  reads_written []
    (csm_passes t p (renderWindowId w) camera (mainLight scene)
     ++ desktop_frame t p camera scene w) = true.
Proof.
  rewrite rw_app, rw_csm. cbn [andb app].
  set (avail := flat_map pass_outputs _).
  assert (Hs : enableShadowMap (_cameraConfigs t) = true ->
               In ("ShadowMap" +++ str_of_nat (renderWindowId w)) avail)
    by apply csm_outputs.
  clearbody avail.
  assert (R : forall width height name,
    let r := radiance_passes (culled t scene camera None)
               (shadows_size (pipelineSceneData p)) camera width height
               (renderWindowId w) name (depthStencilName w) (mainLight scene) in
    reads_written avail r = true
    /\ In name (flat_map pass_outputs r)
    /\ In (depthStencilName w) (flat_map pass_outputs r))
    by (intros; apply rw_radiance; exact Hs).
  assert (T : forall nW nH,
    let r := radiance_passes (culled t scene camera None)
               (shadows_size (pipelineSceneData p)) camera
               (working_size (_cameraConfigs t) nW)
               (working_size (_cameraConfigs t) nH)
               (renderWindowId w) ("Radiance" +++ str_of_nat (renderWindowId w))
               (depthStencilName w) (mainLight scene) in
    reads_written avail
      (r ++ [with_ui (_cameraConfigs t) camera
               (tonemap_pass t nW nH
                  ("Radiance" +++ str_of_nat (renderWindowId w)) (colorName w))])
    = true).
  { intros nW nH r. destruct (R (working_size (_cameraConfigs t) nW)
                                (working_size (_cameraConfigs t) nH)
                                ("Radiance" +++ str_of_nat (renderWindowId w)))
      as (A & B & _). fold r in A, B.
    rewrite rw_with_ui_last, rw_app, A. cbn [andb].
    apply rw_cons; [|reflexivity].
    intros n [<-|[]]. apply in_or_app. now right. }
  unfold desktop_frame. cbv zeta.
  destruct (useFloatOutput (_configs t));
    [destruct (enablePostProcess (_cameraConfigs t));
       [destruct (pipelineSettings (_cameraConfigs t)) as [s|]|]
    |destruct (enableShadingScale (_cameraConfigs t))];
    try apply T.
  - (* float output with post-process settings *)
    set (width := working_size _ (native_size (win_width w))).
    set (height := working_size _ (native_size (win_height w))).
    set (rad := "Radiance" +++ str_of_nat (renderWindowId w)).
    set (dofOn := supportDepthSample (_configs t) && dof_enabled (depthOfField s)).
    destruct (R width height
                (if dofOn then "DofRadiance" +++ str_of_nat (renderWindowId w)
                 else rad)) as (A & B & C).
    rewrite rw_app, A. cbn [andb].
    set (r := radiance_passes _ _ _ _ _ _ _ _ _) in *. clearbody r.
    set (a1 := avail ++ flat_map pass_outputs r).
    assert (B1 : In (if dofOn
                     then "DofRadiance" +++ str_of_nat (renderWindowId w)
                     else rad) a1) by (apply in_or_app; now right).
    assert (C1 : In (depthStencilName w) a1) by (apply in_or_app; now right).
    clearbody a1.
    (* depth of field *)
    rewrite rw_app.
    set (d := if dofOn then dof_passes _ _ _ _ _ _ _ _ else []).
    assert (D : reads_written a1 d = true
                /\ In rad (a1 ++ flat_map pass_outputs d)).
    { unfold d. destruct dofOn.
      - destruct (rw_dof a1 t (renderWindowId w) camera width height
                    ("DofRadiance" +++ str_of_nat (renderWindowId w))
                    (depthStencilName w) rad B1 C1) as [D1 D2].
        split; [exact D1|]. apply in_or_app. now right.
      - split; [reflexivity|]. apply in_or_app. now left. }
    destruct D as [D1 D2]. rewrite D1. cbn [andb].
    set (a2 := a1 ++ flat_map pass_outputs d) in *. clearbody a2.
    (* bloom *)
    rewrite rw_app.
    set (b := if bloom_enabled (bloom s) then bloom_passes _ _ _ _ _ _ _ else []).
    assert (Bl : reads_written a2 b = true).
    { unfold b. destruct (bloom_enabled (bloom s)); [|reflexivity].
      now apply rw_bloom. }
    rewrite Bl. cbn [andb].
    assert (D3 : In rad (a2 ++ flat_map pass_outputs b))
      by (apply in_or_app; now left).
    set (a3 := a2 ++ flat_map pass_outputs b) in *. clearbody a3.
    (* presentation *)
    unfold present_passes. cbv zeta. fold rad.
    destruct (fxaa_enabled (fxaa s));
      [destruct (enableShadingScale (_cameraConfigs t))|].
    + apply rw_cons; [intros n [<-|[]]; exact D3|].
      apply rw_cons; [intros n [<-|[]]; apply in_or_app; right; now left|].
      rewrite rw_with_ui_one. apply rw_cons; [|reflexivity].
      intros n [<-|[]]. apply in_or_app. right. now left.
    + apply rw_cons; [intros n [<-|[]]; exact D3|].
      rewrite rw_with_ui_one. apply rw_cons; [|reflexivity].
      intros n [<-|[]]. apply in_or_app. right. now left.
    + rewrite rw_with_ui_one. apply rw_cons; [|reflexivity].
      intros n [<-|[]]. exact D3.
  - (* LDR at the native size *)
    destruct (R (native_size (win_width w)) (native_size (win_height w))
                (colorName w)) as (A & _).
    unfold radiance_passes in *. rewrite on_last_snoc, rw_with_ui_last.
    exact A.
Qed.

End DesktopFlow.

(** X19: on the desktop no pass samples a texture before a pass wrote it.
    In every configuration, for a camera with a window (and a main light
    when main-light shadows are on), every texture that a pass of the frame
    samples is a colour or depth-stencil target of an earlier pass of the
    same frame: the shadow maps, the depth of the forward pass, the
    radiance target and the targets of the depth-of-field, bloom, tonemap
    and FXAA passes. *)
Theorem desktop_frame_reads_written camera scene t p w :
  window camera = Some w ->
  (enableShadowMap (_cameraConfigs t) = true -> mainLight scene <> None) ->
  exists t' added,
    _buildForwardPipeline camera scene (mkState t p)
    = Some (tt, with_passes t' p (passes p ++ added))
    /\ reads_written [] added = true.
Proof.
  intros Hw Hm.
  destruct (run_desktop_frame camera scene t p w Hw Hm) as [t' H].
  eexists t', _. split; [exact H|]. now apply desktop_frame_flow.
Qed.

Lemma written_in_outputs ps n :
  In n (written_targets ps) -> In n (flat_map pass_outputs ps).
Proof.
  unfold written_targets. rewrite !in_flat_map.
  intros (q & Hq & Hn). exists q. split; [exact Hq|].
  apply in_or_app. now left.
Qed.

Lemma mobile_forward_pass_io avail t1 camera size width height id name
    depthStencilName mainLight :
  let x := mobile_forward_pass t1 camera width height id name depthStencilName
             mainLight in
  let shadows :=
    mobile_shadow_passes camera size 0
      (served (mobileMaxSpotLightShadowMaps (_configs t1))
         (shadowEnabledSpotLights (forwardLighting t1))) in
  (enableShadowMap (_cameraConfigs t1) = true ->
   In ("ShadowMap" +++ str_of_nat id) avail) ->
  (forall n, In n (read_textures x) ->
     In n (avail ++ flat_map pass_outputs shadows))
  /\ In name (pass_outputs x).
Proof.
  intros x shadows Hs. unfold x, mobile_forward_pass. split.
  - intros n Hn. unfold read_textures in Hn.
    change (In n (read_textures
                    (mobile_lit camera 0
                       (served (mobileMaxSpotLightShadowMaps (_configs t1))
                          (shadowEnabledSpotLights (forwardLighting t1)))
                       (add_queues
                          (forward_pass (_cameraConfigs t1) camera width height
                             id name depthStencilName mainLight)
                          (map (light_queue camera)
                             (lights (forwardLighting t1))))))) in Hn.
    rewrite (mobile_lit_textures camera size) in Hn.
    apply in_app_iff in Hn as [Hn|Hn].
    + apply in_or_app. left. unfold read_textures, forward_pass in Hn.
      cbn [add_queues set_queues textures] in Hn.
      destruct (enableShadowMap (_cameraConfigs t1));
        [destruct Hn as [<-|[]]; now apply Hs|destruct Hn].
    + apply in_or_app. right. now apply written_in_outputs.
  - unfold pass_outputs. apply in_or_app. left.
    match goal with |- context [mobile_lit ?c ?i ?ls ?y] =>
      destruct (mobile_lit_rest c ls i y) as (A & _)
    end.
    cbn [add_queues set_queues renderTargets]. cbn in A. rewrite A.
    unfold forward_pass. destruct (forwardNeedClearColor camera); now left.
Qed.

Lemma mobile_shadow_passes_read_nothing camera size ls : forall i q,
  In q (mobile_shadow_passes camera size i ls) -> read_textures q = [].
Proof.
  induction ls as [|l ls IH]; intros i q Hq; [destruct Hq|].
  destruct Hq as [<-|Hq]; [reflexivity|exact (IH _ _ Hq)].
Qed.

(** X20: on mobile no pass samples a texture before a pass wrote it, at
    every maximum of spot-light shadow maps.  For a camera with a window
    (and a main light when main-light shadows are on), every texture that
    a pass of the frame samples is a target of an earlier pass of the same
    frame: each spot-light shadow map that the forward pass binds was
    rendered by one of the shadow passes before it. *)
Theorem mobile_frame_reads_written camera scene t p w :
  window camera = Some w ->
  (enableShadowMap (_cameraConfigs t) = true -> mainLight scene <> None) ->
  exists t' added,
    _buildMobileForwardPipeline camera scene (mkState t p)
    = Some (tt, with_passes t' p (passes p ++ added))
    /\ reads_written [] added = true.
Proof.
  intros Hw Hm.
  destruct (run_mobile_pipeline camera scene t p w Hw Hm) as [t' H].
  cbv zeta in H. eexists t', _. split; [exact H|].
  rewrite rw_app, rw_csm. cbn [andb app].
  set (avail := flat_map pass_outputs _).
  assert (Hs : enableShadowMap (_cameraConfigs t) = true ->
               In ("ShadowMap" +++ str_of_nat (renderWindowId w)) avail)
    by (apply csm_outputs; exact Hm).
  clearbody avail.
  rewrite rw_app. apply andb_true_iff. split.
  - apply rw_all. intros q n Hq Hn.
    rewrite (mobile_shadow_passes_read_nothing _ _ _ _ _ Hq) in Hn.
    destruct Hn.
  - set (t1 := culled t scene camera (Some (cam_position camera))).
    destruct (useFloatOutput (_configs t) || enableShadingScale (_cameraConfigs t)).
    + destruct (mobile_forward_pass_io avail t1 camera
                  (shadows_size (pipelineSceneData p))
                  (working_size (_cameraConfigs t) (native_size (win_width w)))
                  (working_size (_cameraConfigs t) (native_size (win_height w)))
                  (renderWindowId w)
                  ("Radiance" +++ str_of_nat (renderWindowId w))
                  (depthStencilName w) (mainLight scene) Hs) as [A B].
      apply rw_cons; [exact A|].
      rewrite rw_with_ui_one. apply rw_cons; [|reflexivity].
      intros n [<-|[]]. apply in_or_app. now right.
    + destruct (mobile_forward_pass_io avail t1 camera
                  (shadows_size (pipelineSceneData p))
                  (native_size (win_width w)) (native_size (win_height w))
                  (renderWindowId w) (colorName w)
                  (depthStencilName w) (mainLight scene) Hs) as [A _].
      rewrite rw_with_ui_one. apply rw_cons; [exact A|reflexivity].
Qed.

End Flow.

(* ================================================================== *)
(** ** The viewport of the forward pass *)

Section CameraViewport.
Context {E : Engine}.




End CameraViewport.

(* ================================================================== *)
(** ** The working resolution in the planner and in the two builders *)

Section WorkingResolution.
Context {E : Engine}.

Lemma working_size_bounds (cc : CameraConfigs) (native : Z) :
  1 <= native <= 2 ^ 53 ->
  1 <= working_size cc native
  /\ (enableShadingScale cc = false -> working_size cc native = native)
  /\ ((shadingScale cc <= 1)%Q -> working_size cc native <= native).
Proof.
  intros Hn. unfold working_size.
  destruct (enableShadingScale cc); repeat split; try lia; try discriminate.
  intros Hs.
  assert (Qfloor (js_mul (inject_Z native) (shadingScale cc)) <= native).
  { unfold js_mul. apply floor_round64_le; [lia|].
    rewrite Qmult_comm. rewrite <- (Qmult_1_l (inject_Z native)) at 2.
    apply Qmult_le_compat_r; [exact Hs|].
    change 0%Q with (inject_Z 0). rewrite <- Zle_Qle. lia. }
  lia.
Qed.

(** The first of the radiance passes is the forward pass, of the size the
    builder was given. *)
Lemma radiance_passes_head t size camera width height id colorName
    depthStencilName mainLight :
  exists forward rest,
    radiance_passes t size camera width height id colorName depthStencilName
      mainLight = forward :: rest
    /\ pass_name forward = "ForwardPass"
    /\ pass_width forward = width /\ pass_height forward = height.
Proof.
  unfold radiance_passes, radiance_chain. cbv zeta. cbn [fst snd].
  match goal with |- context [spot_chain ?a ?b ?c ?d ?e ?f ?g ?ls (?pre, ?x)] =>
    destruct (spot_chain_head a b c d e f g ls pre x) as (rest0 & _ & H2);
    destruct (H2 [blend_queue camera (main_light_ref mainLight)])
      as (rest & E1 & _)
  end.
  cbn [app] in E1. rewrite E1. eexists _, rest. split; [reflexivity|].
  destruct (shadowEnabledSpotLights _); repeat split; reflexivity.
Qed.

Lemma with_ui_size cc camera q :
  pass_name (with_ui cc camera q) = pass_name q
  /\ pass_width (with_ui cc camera q) = pass_width q
  /\ pass_height (with_ui cc camera q) = pass_height q.
Proof.
  unfold with_ui, add_queues. destruct (enableProfiler cc); destruct q; now cbn.
Qed.

Lemma on_last_head {A} (f : A -> A) (P : A -> Prop) x l :
  P x -> P (f x) -> exists y l', on_last f (x :: l) = y :: l' /\ P y.
Proof. intros Hx Hf. destruct l; cbn [on_last]; eauto. Qed.

(** The passes of the desktop frame after the CSM pass start with the
    forward pass, at the working size. *)
Lemma desktop_frame_head t p camera scene w :
  exists forward rest,
    desktop_frame t p camera scene w = forward :: rest
    /\ pass_name forward = "ForwardPass"
    /\ pass_width forward
       = working_size (_cameraConfigs t) (native_size (win_width w))
    /\ pass_height forward
       = working_size (_cameraConfigs t) (native_size (win_height w)).
Proof.
  unfold desktop_frame. cbv zeta.
  destruct (useFloatOutput (_configs t));
    [destruct (enablePostProcess (_cameraConfigs t));
     [destruct (pipelineSettings (_cameraConfigs t))|]
    |destruct (enableShadingScale (_cameraConfigs t)) eqn:Hs].
  all: match goal with
       | |- context [radiance_passes ?a ?b ?c ?d ?e ?f ?g ?h ?i] =>
           destruct (radiance_passes_head a b c d e f g h i)
             as (fw & r & Eq & N & Wd & Ht);
           rewrite Eq
       end.
  1-4: cbn [app]; eexists _, _; split; [reflexivity|]; now repeat split.
  unfold working_size in *. rewrite Hs in *.
  destruct (@on_last_head _ (with_ui (_cameraConfigs t) camera)
              (fun q => pass_name q = "ForwardPass"
                        /\ pass_width q = native_size (win_width w)
                        /\ pass_height q = native_size (win_height w))
              fw r) as (y & l' & Ey & Py).
  - now repeat split.
  - destruct (with_ui_size (_cameraConfigs t) camera fw) as (A & B & C).
    rewrite A, B, C. now repeat split.
  - exists y, l'. split; [exact Ey|exact Py].
Qed.

Lemma mobile_forward_pass_size t camera width height id colorName
    depthStencilName mainLight :
  let q := mobile_forward_pass t camera width height id colorName
             depthStencilName mainLight in
  pass_name q = "ForwardPass" /\ pass_width q = width /\ pass_height q = height.
Proof.
  cbv zeta. unfold mobile_forward_pass.
  match goal with |- context [mobile_lit ?c ?i ?ls ?y] =>
    destruct (mobile_lit_rest c ls i y) as (_ & _ & A & B & C & _)
  end.
  cbv zeta in A, B, C. unfold add_queues at 1 3 5.
  match goal with |- context [mobile_lit ?c ?i ?ls ?y] =>
    destruct (mobile_lit c i ls y) eqn:L
  end.
  cbn in A, B, C |- *. now repeat split.
Qed.

(** C7 (amended): the working resolution.  [scaled cc native] is the
    native size when shading scale is off and
    [max (floor (native * shadingScale)) 1] otherwise, the product being
    the product of doubles.  The resource planner declares the window at
    the native size and the depth-stencil target at the [scaled] width and
    height, for every native size it is given.  Both pipeline builders,
    whose native size is [max (floor (window size)) 1] and so at least 1,
    give the forward pass the [scaled] width and height.  For a native
    size from 1 to 2^53 the [scaled] size is at least 1, is the native
    size when shading scale is off, and is at most the native size when
    [shadingScale <= 1]; each dimension is scaled on its own. *)
Theorem working_resolution host window0 camera scene nativeWidth nativeHeight
    w t p :
  let scaled (cc : CameraConfigs) (native : Z) : Z :=
    if enableShadingScale cc
    then Z.max (Qfloor (js_mul (inject_Z native) (shadingScale cc))) 1
    else native in
  (forall cc,
     setupCameraConfigs host camera (setupPipelineConfigs host p (_configs t))
       (_cameraConfigs t) = Some cc ->
     exists st',
       windowResize host window0 camera nativeWidth nativeHeight (mkState t p)
       = Some (tt, st')
       /\ In (mkResource Res_RenderWindow (colorName window0) Format.BGRA8
                nativeWidth nativeHeight) (resources (ppl_ st'))
       /\ In (mkResource Res_DepthStencil (depthStencilName window0)
                Format.DEPTH_STENCIL (scaled cc nativeWidth)
                (scaled cc nativeHeight)) (resources (ppl_ st')))
  /\ (window camera = Some w ->
      (enableShadowMap (_cameraConfigs t) = true -> mainLight scene <> None) ->
      let cc := _cameraConfigs t in
      let nativeW := native_size (win_width w) in
      let nativeH := native_size (win_height w) in
      1 <= nativeW /\ 1 <= nativeH
      /\ (exists t' forward rest,
            _buildForwardPipeline camera scene (mkState t p)
            = Some (tt, with_passes t' p
                 (passes p
                  ++ csm_passes t p (renderWindowId w) camera (mainLight scene)
                  ++ forward :: rest))
            /\ pass_name forward = "ForwardPass"
            /\ pass_width forward = scaled cc nativeW
            /\ pass_height forward = scaled cc nativeH)
      /\ (exists t' forward rest,
            _buildMobileForwardPipeline camera scene (mkState t p)
            = Some (tt, with_passes t' p
                 (passes p
                  ++ csm_passes t p (renderWindowId w) camera (mainLight scene)
                  ++ mobile_shadow_passes camera
                       (shadows_size (pipelineSceneData p)) 0
                       (served (mobileMaxSpotLightShadowMaps (_configs t))
                          (shadowEnabledSpotLights
                             (forwardLighting
                                (culled t scene camera
                                   (Some (cam_position camera))))))
                  ++ forward :: rest))
            /\ pass_name forward = "ForwardPass"
            /\ pass_width forward = scaled cc nativeW
            /\ pass_height forward = scaled cc nativeH))
  /\ (forall cc native,
        1 <= native <= 2 ^ 53 ->
        1 <= scaled cc native
        /\ (enableShadingScale cc = false -> scaled cc native = native)
        /\ ((shadingScale cc <= 1)%Q -> scaled cc native <= native)).
Proof.
  intros scaled.
  split; [|split].
  - intros cc Hcc.
    destruct (@windowResize_sizes _ host window0 camera nativeWidth nativeHeight
                t p cc Hcc) as (st' & R & A & B).
    exists st'. split; [exact R|]. split; [exact A|exact B].
  - intros Hw Hm cc nativeW nativeH.
    split; [apply native_size_pos|]. split; [apply native_size_pos|].
    split.
    + destruct (run_desktop_frame camera scene t p w Hw Hm) as (t' & R).
      destruct (desktop_frame_head t p camera scene w)
        as (fw & rest & Eq & N & Wd & Ht).
      exists t', fw, rest. rewrite R, Eq.
      split; [reflexivity|]. split; [exact N|]. split; [exact Wd|exact Ht].
    + destruct (run_mobile_pipeline camera scene t p w Hw Hm) as (t' & R).
      cbv zeta in R. rewrite R.
      destruct (useFloatOutput (_configs t)
                || enableShadingScale (_cameraConfigs t)) eqn:O.
      * eexists t', _, _. split; [reflexivity|].
        apply mobile_forward_pass_size.
      * eexists t', _, _. split; [reflexivity|].
        apply orb_false_iff in O. destruct O as (_ & Hs).
        unfold scaled, cc. rewrite Hs.
        match goal with |- context [with_ui ?c ?cam ?q] =>
          destruct (with_ui_size c cam q) as (A & B & C);
          rewrite A, B, C
        end.
        apply mobile_forward_pass_size.
  - intros cc native Hn. exact (@working_size_bounds cc native Hn).
Qed.

End WorkingResolution.

(* ================================================================== *)
(** ** The theorems on concrete inputs *)

Section Concrete2.

#[local] Existing Instance toy.
Import Scenario Scenario2.

(** X2 (instance): a light with fixed-area shadows on a map of 4x2. *)
Lemma csm_single_viewport_witness :
  getCsmMainLightViewport fixed_light 4 2 3 (mkViewport 0 0 0 0) 1
  = mkViewport 0 0 4 2.
Proof.
  apply csm_single_viewport; [left; reflexivity|lia|lia].
Defined.

(** X3 (instance): a shadow map of 3x3 pixels. *)
Lemma csm_grid_any_size_witness :
  let v level :=
    getCsmMainLightViewport light4 3 3 level (mkViewport 0 0 0 0) 1 in
  csm_disjoint v /\ csm_inside v 3 3
  /\ vp_width (v 3) = 1 /\ vp_height (v 3) = 1.
Proof.
  intros v.
  destruct (csm_grid_any_size light4 3 3 (mkViewport 0 0 0 0) 1)
    as (A & B & C & _); [reflexivity|discriminate|lia|lia|].
  split; [exact A|]. split; [exact B|]. apply (C 3). lia.
Defined.

(** X5 (instance): the device of the example graph, both signs 1. *)
Lemma setupPipelineConfigs_platform_witness :
  exists n,
    v4w (g_platform hdr_configs) = inject_Z n /\ 0 <= n < 4
    /\ Z.testbit n 1 = true /\ Z.testbit n 0 = true.
Proof.
  destruct (setupPipelineConfigs_platform (host_with all_effects) (graph true)
              PipelineConfigs_new) as [(n & H) _].
  - left. reflexivity.
  - left. reflexivity.
  - exists n. exact H.
Defined.

(** X8 (instance): two shadow-casting spot lights and a maximum of one
    shadow map. *)
Lemma mobile_frame_witness :
  exists st',
    _buildMobileForwardPipeline (game_camera None two_spot_scene)
      two_spot_scene (fresh false) = Some (tt, st')
    /\ map pass_name (passes (ppl_ st'))
       = ["SpotLightShadowPass0"; "ForwardPass"].
Proof.
  destruct (mobile_frame (game_camera None two_spot_scene) two_spot_scene
              BuiltinForwardPipeline_new (graph false) window0)
    as [[t' H] _]; [reflexivity|discriminate|].
  eexists. split; [exact H|]. vm_compute. reflexivity.
Defined.

(** X11 (instance): every effect on, two shadow-casting spot lights. *)
Lemma desktop_frame_every_configuration_witness :
  exists st',
    _buildForwardPipeline full_camera shadowed_scene
      (mkState full_builder (graph true)) = Some (tt, st')
    /\ map layoutName (passes (ppl_ st'))
       = ["default"; "default"; "default"; "default"; "default"; "default";
          "dof-coc"; "dof-prefilter"; "dof-bokeh"; "dof-filter"; "dof-combine";
          "bloom1-prefilter"; "bloom1-downsample"; "bloom1-upsample";
          "bloom1-combine"; "post-final-tonemap"; "fxaa"; "post-copy"].
Proof.
  destruct (desktop_frame_every_configuration full_camera shadowed_scene
              full_builder (graph true) window0)
    as [t' H]; [reflexivity|discriminate|].
  eexists. split; [exact H|]. vm_compute. reflexivity.
Defined.

(** X12 (instance): the same frame ends with the copy pass to the window,
    at 8x4. *)
Lemma desktop_frame_presents_to_window_witness :
  exists t' before final qs,
    _buildForwardPipeline full_camera shadowed_scene
      (mkState full_builder (graph true))
    = Some (tt, with_passes t' (graph true)
                  (passes (graph true) ++ before ++ [final]))
    /\ renders_to "Color0" 8 4 final
    /\ queues final = qs ++ [ui_queue (_cameraConfigs full_builder) full_camera]
    /\ existsb (fun rq => existsb is_ui_item (items rq)) qs = false
    /\ showStatistics final = false
    /\ Forall ui_free before.
Proof.
  apply (desktop_frame_presents_to_window full_camera shadowed_scene
           full_builder (graph true) window0); [reflexivity|discriminate].
Defined.

(** X14 (instance): the resource planner and then a frame on the desktop. *)
Lemma desktop_frame_fits_plan_witness :
  exists st1 st2 added,
    windowResize (host_with all_effects) window0 full_camera 8 4 (fresh true)
    = Some (tt, st1)
    /\ setup (host_with all_effects) [full_camera] st1 = Some (tt, st2)
    /\ passes (ppl_ st2) = passes (graph true) ++ added
    /\ resources (ppl_ st2) = resources (ppl_ st1)
    /\ forallb (pass_fits (resources (ppl_ st2))) added = true.
Proof.
  apply (desktop_frame_fits_plan (host_with all_effects) full_camera
           shadowed_scene window0 BuiltinForwardPipeline_new (graph true));
    reflexivity.
Defined.

(** X15 (instance): the same on a mobile host, with the default maximum of
    one spot-light shadow map. *)
Lemma mobile_frame_fits_plan_witness :
  exists st1 st2 added,
    windowResize mobile_host window0 (game_camera None two_spot_scene) 8 4
      (fresh false) = Some (tt, st1)
    /\ setup mobile_host [game_camera None two_spot_scene] st1 = Some (tt, st2)
    /\ passes (ppl_ st2) = passes (graph false) ++ added
    /\ resources (ppl_ st2) = resources (ppl_ st1)
    /\ forallb (pass_fits (resources (ppl_ st2))) added = true.
Proof.
  apply (mobile_frame_fits_plan mobile_host (game_camera None two_spot_scene)
           two_spot_scene window0 BuiltinForwardPipeline_new (graph false));
    reflexivity.
Defined.

(** X16 (instance): four cascades on the 4x4 map of the example graph. *)
Lemma csm_pass_viewports_witness :
  exists t' q,
    _addCascadedShadowMapPass 0 light4 full_camera (fresh false)
    = Some (tt, with_passes t' (graph false) (passes (graph false) ++ [q]))
    /\ renders_to "ShadowMap0" 4 4 q
    /\ List.length (queues q) = 4%nat
    /\ (forall rq, In rq (queues q) ->
          exists vp, queue_viewport rq = Some vp /\ viewport_inside vp 4 4).
Proof.
  destruct (csm_pass_viewports 0 light4 full_camera BuiltinForwardPipeline_new
              (graph false)) as (t' & q & H & R & L & V & _).
  - vm_compute. discriminate.
  - vm_compute. discriminate.
  - exists t', q. repeat split; try apply R; assumption.
Defined.

(** X19 (instance): the frame with every effect on. *)
Lemma desktop_frame_reads_written_witness :
  exists t' added,
    _buildForwardPipeline full_camera shadowed_scene
      (mkState full_builder (graph true))
    = Some (tt, with_passes t' (graph true) (passes (graph true) ++ added))
    /\ reads_written [] added = true.
Proof.
  apply (desktop_frame_reads_written full_camera shadowed_scene full_builder
           (graph true) window0); [reflexivity|discriminate].
Defined.

(** X20 (instance): two shadow-casting spot lights on mobile. *)
Lemma mobile_frame_reads_written_witness :
  exists t' added,
    _buildMobileForwardPipeline (game_camera None two_spot_scene)
      two_spot_scene (fresh false)
    = Some (tt, with_passes t' (graph false) (passes (graph false) ++ added))
    /\ reads_written [] added = true.
Proof.
  apply (mobile_frame_reads_written (game_camera None two_spot_scene)
           two_spot_scene BuiltinForwardPipeline_new (graph false) window0);
    [reflexivity|discriminate].
Defined.

(** The shading-scale product is the product of doubles: ten pixels scaled
    by the double 0.3 are three pixels, where the exact product of the two
    numbers is below 3. *)
Lemma working_size_double_product :
  (round64 (3 # 10) == double_0_3)%Q
  /\ working_size scale_0_3 10 = 3
  /\ Qfloor (inject_Z 10 * double_0_3) = 2.
Proof. split; [|split]; vm_compute; reflexivity. Qed.

(** The resource planner at 10x10 for a camera that scales by 0.3: the
    radiance and the depth-stencil target are 3x3. *)
Lemma windowResize_double_product :
  let declared :=
    resources_after
      (windowResize (host_with all_effects) window0 scaled_camera 10 10
         (fresh false)) in
  declared_size Res_RenderTarget "Radiance0" declared = Some (3, 3)
  /\ declared_size Res_DepthStencil "Depth0" declared = Some (3, 3).
Proof. split; vm_compute; reflexivity. Qed.

(** The same for the camera viewport: a third of three pixels is one
    pixel. *)
Lemma viewport_double_product :
  (round64 (1 # 3) == double_third)%Q
  /\ camera_viewport third_camera 3 3 = mkViewport 0 0 1 3
  /\ Qfloor (double_third * inject_Z 3) = 0.
Proof. split; [|split]; vm_compute; reflexivity. Qed.

(** C7 (instance): the camera at half scale on the window of 8x4.  The
    planner, given a native size of 5x5, declares the depth-stencil target
    at 2x2; the desktop builder gives the forward pass 4x2. *)
Lemma working_resolution_witness :
  let cc := _cameraConfigs full_builder in
  (exists st',
     windowResize (host_with all_effects) window0 full_camera 5 5
       (mkState full_builder (graph true)) = Some (tt, st')
     /\ In (mkResource Res_DepthStencil "Depth0" Format.DEPTH_STENCIL
              (working_size cc 5) (working_size cc 5)) (resources (ppl_ st')))
  /\ working_size cc 5 = 2
  /\ (exists t' forward rest,
        _buildForwardPipeline full_camera shadowed_scene
          (mkState full_builder (graph true))
        = Some (tt, with_passes t' (graph true)
             (passes (graph true)
              ++ csm_passes full_builder (graph true) 0 full_camera
                   (mainLight shadowed_scene)
              ++ forward :: rest))
        /\ pass_name forward = "ForwardPass"
        /\ pass_width forward = working_size cc 8
        /\ pass_height forward = working_size cc 4)
  /\ working_size cc 8 = 4 /\ working_size cc 4 = 2
  /\ 1 <= working_size cc 5 <= 5.
Proof.
  intros cc.
  pose proof (working_resolution (host_with all_effects) window0 full_camera
                shadowed_scene 5 5 window0 full_builder (graph true)) as W.
  cbv zeta in W. destruct W as (P & B & Bd).
  destruct (P cc) as (st' & R & _ & D); [vm_compute; reflexivity|].
  destruct B as (_ & _ & (t' & fw & rest & F & N & Wd & Ht) & _);
    [reflexivity|discriminate|].
  assert (H5 : 1 <= 5 <= 2 ^ 53) by lia.
  destruct (Bd cc 5 H5) as (L & _ & U).
  split; [exists st'; split; [exact R|exact D]|].
  split; [vm_compute; reflexivity|].
  split; [exists t', fw, rest; split; [exact F|]; split; [exact N|];
          split; [exact Wd|exact Ht]|].
  split; [vm_compute; reflexivity|]. split; [vm_compute; reflexivity|].
  split; [exact L|]. apply U. vm_compute. discriminate.
Defined.


End Concrete2.
